(* ===== verification/_CoqProject ===== *)
-Q . S2P
Prelude.v
Layout.v
KernelLayout.v
UserLayout.v
Kernel.v
KernelRef.v
BpfState.v
BpfFacts.v
LsmHooks.v
Tracepoints.v
TtyProbes.v
BpfSystem.v
BpfTheorems.v
Independence.v
Lifecycle.v
Records.v
Wire.v
Decode.v
Drift.v
Tty.v
EbpfLoader.v
LoaderFacts.v
LoaderTheorems.v
LoaderResources.v
LoaderLosses.v
LoaderModes.v
MapApi.v
LsmTest.v
MonitorSpec.v
Enforcement.v
Interleaving.v
OverlapPolicy.v
OverlapRecords.v
Exclusion.v
OverlapCounters.v
UserRecords.v
Agent.v
SenderLog.v
LinuxIpc.v
LinuxIpcTheorems.v
LinuxSends.v
Fanotify.v
FanotifyTheorems.v
Ffi.v
EngineFacts.v
EtwConsumer.v
EtwTheorems.v
EtwSession.v
Ipc.v
FfiWindows.v
Runner.v
Helpers.v
WindowsIpc.v
WindowsIpcTheorems.v
WindowsSends.v
Streams.v
Delivery.v
Sensor.v
WindowsDelivery.v
