(* ===== verification/Prelude.v ===== *)
(** * Kinnector Core: a verification library

    Kinnector Core is the sensor of a host agent.  On Linux an eBPF object watches
    (and, when allowed, blocks) what processes do and puts fixed-size records into
    ring buffers; a loader in user space loads the object, polls the buffers and
    configures the object's maps; two senders pass the records to the agent over
    Unix sockets; a fanotify monitor adds file modifications.  On Windows an ETW
    consumer produces the same records.  An engine with a C interface owns all of
    it.  This library translates that code into Rocq definitions, one file per
    part, and proves what the parts do.

    ** The files

    - [Prelude]: machine integers ([wrap], [sint]), little-endian encoding, byte
      ranges of a buffer ([field], [get], [put]), C strings, programs as trees of
      atomic actions ([prog]) with rules for what every action keeps
      ([preserves]), what is returned whatever others do in between ([sure]), how
      long they take ([ends_within]) and for runs alone ([triple]), automation.
    - [Layout]: packed structures as data.  [KernelLayout] and [UserLayout] are the
      two declarations of the wire format, from src/linux/ebpf/kinnector.bpf.c and
      include/kinnector/telemetry.h; where they differ, they differ here.
    - [Kernel]: the interfaces the eBPF programs run against - classes [BpfMaps]
      and [BpfRingbuf] with their laws [BpfMapsLaws] and [BpfRingbufLaws], and the
      record [ctx] of what a program reads from the kernel, with its documented
      behaviour [ctx_ok].  [KernelRef] is an executable kernel with bounded maps
      and ring buffers that discharges the laws; every witness runs on it.
    - [BpfState]: the maps, ring buffers and counters as one state [bst], and the
      helpers of the object.  [LsmHooks], [Tracepoints] and [TtyProbes]: one
      definition per program, of the same name.  [BpfFacts]: their frames.
      [BpfSystem]: the programs as calls ([hook_call], [run_hook]) and runs as
      sequences of calls by any processes on any CPUs ([run_hooks]).
    - [BpfTheorems], [Independence], [Lifecycle]: the access policy; [Records],
      [Wire], [Decode], [Drift], [Tty]: the records and what user space reads.
    - [EbpfLoader]: the loader of src/linux/ebpf_loader.cpp over a libbpf that is a
      parameter ([libbpf]: an answer for each call, given the calls before it);
      the calls made are recorded in order.  [LoaderFacts], [LoaderTheorems],
      [LoaderResources], [LoaderLosses], [LoaderModes]: sessions of it.
    - [MapApi]: the loader's map operations, on the state of [BpfState].
    - [MonitorSpec]: the access control as an abstract reference monitor, without maps
      or hooks, as a step relation with its own theorems; [Enforcement]: the
      programs and the map operations, interleaved, refine it ([monitor_of] is the
      abstraction, [request_of] the calls as requests).
    - [Interleaving]: the programs again, any number of them under way at once, each
      interrupted between any two of its helper calls by the others and by the map
      calls of the agent (a machine of threads, [step] and [run]).  [OverlapPolicy]:
      verdicts and confinement in these runs; [OverlapRecords]: their records, in both
      ring buffers;
      [Exclusion]: programs that share something but never overlap each other, as a
      protocol on a view of the state, with its instances in [OverlapCounters].
    - [LsmTest]: src/linux/test_lsm.cpp, a client of loader and map operations.
    - [LinuxIpc]: the senders of src/linux/linux_ipc.cpp and src/ffi.cpp as a step
      relation given by the function [step]: connection thread, sending threads
      and Stop, one step per access to an atomic or system call.
      [LinuxIpcTheorems]: its interleavings.  [WindowsIpc] and [WindowsIpcTheorems]:
      the same for src/windows/windows_ipc.cpp.
    - [SenderLog]: the contract of a sender, as a class with laws ([SenderMachine],
      [SenderMachineLaws]), and the log of every run that follows from it;
      [LinuxSends] and [WindowsSends]: both senders meet it.
    - [UserRecords]: records built in user space; [Fanotify], [FanotifyTheorems]:
      src/linux/fanotify.cpp; [EtwConsumer], [EtwTheorems]: the records of
      src/windows/etw_consumer.cpp; [EtwSession]: the tracing session of that file
      and its thread, over a Win32 that is a parameter.
    - [Ipc]: configuration and choice of the sender (ipc.h, ipc.cpp).  [Ffi] and
      [EngineFacts]: the engine of src/ffi.cpp on Linux, which owns a loader, a
      monitor and the senders; [FfiWindows]: the same functions on Windows, over
      [EtwSession].  [Runner]: src/windows/runner.cpp, a client of the engine.
      [Helpers]: the clipboard and warden helpers.
    - [Agent]: the other end of a connection, from the mock agent of
      src/linux/test_ipc.cpp; [Streams]: what it reads off the bytes of a
      connection.  [Delivery]: the order both senders keep, and what the agent reads
      of a run of the Linux senders.  [Sensor] (overlapping programs, map calls, polling
      thread, engine and both senders in one state) and [WindowsDelivery] (events, consumer,
      engine and sender) compose the parts.

    State corresponds to the code by name: the maps of the object are the fields
    [st_<map>] of [bst], the members of the loader, the senders and the monitor
    the fields of [loader], [ipc] and [monitor], and the globals of ffi.cpp the
    fields of [engine].

    ** What is shown

    - Policy: the verdict of every program is one formula, [policy]
      ([verdict_policy]); programs and agent together are the reference monitor
      ([enforcement_refines]), so a process that starts an unlisted program under blocking,
      is not a trusted root and is labelled in the threshold map is contained until it
      executes again, exits or the agent releases it ([confined_until_released]); monitor mode blocks nothing; telemetry never
      influences enforcement.  The gaps of the policy are theorems too: a full
      threshold map, and tasks with another start time.
    - Overlap: every program returns within eleven helper calls
      ([programs_terminate]); its verdict is the policy's where the policy does not
      change while it runs ([overlapped_verdict]; [mixed_verdict] shows why not
      otherwise), confinement holds throughout ([confined_under_overlap]), every place
      reserved in a ring buffer has one program run as its owner, which commits it
      ([overlapped_records]), and the updates made
      without a lock are safe for what is per CPU or per task
      ([overlapped_sequence_numbers], [overlapped_category_flags];
      [preempted_number_repeated] is what preemption on one CPU does).
    - Telemetry: each program commits at most one record, of the right size, with
      a correct header; for connections, execs and opens, what user space reads is what
      happened, and so it is for the reads and writes of the files taken for a PTY, which
      the probes tell by the minor number alone ([takes_for_pty]: ordinary PTY slaves are
      not captured); where the declarations drifted apart, what is lost.
    - Loader: the polling thread is safe in every session, fallback sessions leak
      nothing, the polling loop ends when it should; what LSM mode and mock mode do not clean up.
    - Delivery: map operations do what they report; in every interleaving without
      Stop a connection carries whole records after its greeting, and the agent
      reads, in order, records of programs that ran or of the events made
      ([telemetry_delivered], for telemetry and terminal data, and
      [windows_telemetry_delivered]), and all of them as long as the connection holds
      ([backlog_delivered]); with Stop, no event is
      invented, repeated or reordered ([senders_keep_order]).  The interleavings
      that lose the Linux connection, and that the Windows sender, which publishes
      its handle under the mutex, has none of these without Stop; what Stop leaves
      behind on both.  The monitor and the consumer report each event once.
    - Engine: on both platforms sender, source and engine run together; on Linux
      they leave no thread or ring buffer behind ([linux_engine_consistent]), on Windows
      every session and thread handle not held any more has been asked to end by its own
      handle, and has ended if Win32 did as asked ([windows_engine_consistent]); after a stop, the Linux engine refuses to
      start, and the Windows engine starts without a trace session.

    ** Conventions and bounds

    A w-bit integer is a [Z], narrowed with [wrap w] where C narrows it.  A pointer
    is a [Z], [NULL] is 0.  A byte buffer is a [list Z].  Loops over a fixed count
    are unrolled or recursive on lists.  Fuel occurs once, in
    [RingBufferPollLoop], and [poll_loop_ends] shows that [S n] units are enough
    when [running_] reads false at the n-th test.  Theorems about runs hold for
    every finite sequence of calls or steps.

    ** What is not modelled

    The kernel, libbpf, sockets, fanotify and Win32 are parameters: the repository
    holds none of them.  The agent is another program; what it reads is stated for
    the protocol its mock follows.  In [Interleaving] a helper call is one step, with
    the read through the pointer that a lookup returns; a map call of the agent is one
    step too, and an element deleted while another program holds a pointer to it is
    not reused.  The ring buffers are consumed one callback at a time; [Sensor] leaves
    open which of the two the polling thread looks at next, and does not interleave
    calls of the engine's lifecycle with its steps.  The four bytes of padding in
    [process_key], which the programs clear and the loader leaves unspecified, are taken
    as equal on both sides.  A read of the agent returns all that has arrived, up to the
    size it asks for.  Log output,
    sleeps, signals (a write to a connection the agent has closed raises SIGPIPE)
    and the contents of socket addresses have no counterpart; ETW trace threads make
    their calls between calls of the engine.

    src/telemetry.cpp is empty.  Of test_ipc.cpp the mock agent, the record and the
    control flow of main are modelled ([ipc_test_sound]: its verdict is sound); the
    sender it drives is [LinuxIpc]. *)

From Stdlib Require Export ZArith Lia.
From stdpp Require Export base list numbers option strings decidable relations.


(** * Machine integers

    A [w]-bit unsigned integer is a [Z] in [0, 2^w); [wrap w] is the conversion
    that C performs when a wider value is stored into it, [sint w] reads the
    same bits as a two's-complement signed integer. *)

Definition wrap (w v : Z) : Z := (v `mod` 2 ^ w)%Z.

Definition sint (w v : Z) : Z :=
  (let u := wrap w v in if 2 ^ (w - 1) <=? u then u - 2 ^ w else u)%Z.

Definition in_range (w v : Z) : Prop := (0 <= v < 2 ^ w)%Z.

Lemma wrap_range (w v : Z) : (0 <= w)%Z -> in_range w (wrap w v).
Proof. intros. apply Z.mod_pos_bound. lia. Qed.

Lemma wrap_small (w v : Z) : in_range w v -> wrap w v = v.
Proof. apply Z.mod_small. Qed.

Lemma wrap_wrap (w v : Z) : wrap w (wrap w v) = wrap w v.
Proof. apply Z.mod_mod_divide, Z.divide_refl. Qed.

Lemma sint_small (w v : Z) : (0 < w)%Z -> (0 <= v < 2 ^ (w - 1))%Z -> sint w v = v.
Proof.
  intros Hw [Hlo Hhi]. unfold sint.
  assert (2 ^ w = 2 * 2 ^ (w - 1))%Z as Hpow.
  { rewrite <- (Z.pow_succ_r 2 (w - 1)) by lia. f_equal; lia. }
  rewrite wrap_small by (unfold in_range; lia).
  destruct (Z.leb_spec (2 ^ (w - 1)) v); lia.
Qed.

(** * Little-endian byte strings *)

Definition is_byte (b : Z) : Prop := (0 <= b < 256)%Z.

Fixpoint le_enc (n : nat) (v : Z) : list Z :=
  match n with
  | O => []
  | S m => (v `mod` 256)%Z :: le_enc m (v `div` 256)%Z
  end.

Fixpoint le_dec (bs : list Z) : Z :=
  match bs with
  | [] => 0%Z
  | b :: rest => (b + 256 * le_dec rest)%Z
  end.

Lemma length_le_enc (n : nat) (v : Z) : length (le_enc n v) = n.
Proof. revert v; induction n as [|n IH]; intros v; simpl; [done | by rewrite IH]. Qed.

Lemma le_enc_bytes (n : nat) (v : Z) : Forall is_byte (le_enc n v).
Proof.
  revert v; induction n as [|n IH]; intros v; simpl; constructor; [|apply IH].
  apply Z.mod_pos_bound; lia.
Qed.

Lemma le_dec_enc (n : nat) (v : Z) : le_dec (le_enc n v) = wrap (8 * Z.of_nat n) v.
Proof.
  unfold wrap. revert v; induction n as [|n IH]; intros v; simpl le_enc; simpl le_dec.
  { simpl. by rewrite Z.mod_1_r. }
  rewrite IH. replace (8 * Z.of_nat (S n))%Z with (8 + 8 * Z.of_nat n)%Z by lia.
  rewrite Z.pow_add_r by lia. change (2 ^ 8)%Z with 256%Z.
  rewrite Z.rem_mul_r by lia. lia.
Qed.

Lemma le_enc_dec (bs : list Z) : Forall is_byte bs -> le_enc (length bs) (le_dec bs) = bs.
Proof.
  induction 1 as [|b bs Hb Hbs IH]; simpl; [done|]. unfold is_byte in Hb.
  rewrite (Z.mul_comm 256), Z.mod_add, Z.div_add by lia.
  rewrite Z.mod_small, Z.div_small by lia. by rewrite Z.add_0_l, IH.
Qed.

Lemma le_dec_range (bs : list Z) :
  Forall is_byte bs -> in_range (8 * Z.of_nat (length bs)) (le_dec bs).
Proof.
  intros Hb. rewrite <- (le_enc_dec bs Hb), le_dec_enc, length_le_enc.
  apply wrap_range; lia.
Qed.

(** * Buffers and fields

    A C object is the list of its bytes.  A [field] is a byte range of it;
    [get] reads the range and [put] overwrites the bytes at its start with [v]. *)

Record field : Type := Field { f_off : nat; f_len : nat }.

#[export] Instance field_eq_dec : EqDecision field.
Proof. solve_decision. Defined.

Definition f_end (f : field) : nat := (f_off f + f_len f)%nat.

Definition get (f : field) (buf : list Z) : list Z := take (f_len f) (drop (f_off f) buf).

Definition put (f : field) (v buf : list Z) : list Z :=
  take (f_off f) buf ++ v ++ drop (f_off f + length v) buf.

(** The value of an integer field, and the store of one. *)
Definition get_uint (f : field) (buf : list Z) : Z := le_dec (get f buf).
Definition put_uint (f : field) (v : Z) (buf : list Z) : list Z := put f (le_enc (f_len f) v) buf.

(** The sub-field of [n] bytes at index [i] of an array field: [arr + i]. *)
Definition sub (f : field) (i n : nat) : field := Field (f_off f + i) n.

Definition within (f : field) (n : nat) : bool := (f_end f <=? n)%nat.
Definition disjoint_fields (f g : field) : bool :=
  ((f_end f <=? f_off g) || (f_end g <=? f_off f))%nat.
Lemma length_put (f : field) (v buf : list Z) :
  within f (length buf) = true -> (length v <= f_len f)%nat -> length (put f v buf) = length buf.
Proof.
  unfold within, f_end, put. intros ?%Nat.leb_le ?.
  rewrite !length_app, length_take, length_drop. lia.
Qed.

Lemma length_put_uint (f : field) (v : Z) (buf : list Z) :
  within f (length buf) = true -> length (put_uint f v buf) = length buf.
Proof. intros. apply length_put; [done | by rewrite length_le_enc]. Qed.

Lemma length_get (f : field) (buf : list Z) :
  within f (length buf) = true -> length (get f buf) = f_len f.
Proof.
  unfold within, f_end, get. intros ?%Nat.leb_le. rewrite length_take, length_drop. lia.
Qed.

Lemma get_put_prefix (f : field) (v buf : list Z) :
  within f (length buf) = true -> (length v <= f_len f)%nat ->
  get f (put f v buf) = v ++ drop (length v) (get f buf).
Proof.
  unfold within, f_end, get, put. intros ?%Nat.leb_le ?.
  rewrite drop_app_ge by (rewrite length_take; lia).
  rewrite length_take, Nat.min_l, Nat.sub_diag, drop_0 by lia.
  rewrite take_app_ge by lia. f_equal.
  by rewrite skipn_firstn_comm, drop_drop.
Qed.

Lemma get_put_eq (f : field) (v buf : list Z) :
  within f (length buf) = true -> length v = f_len f -> get f (put f v buf) = v.
Proof.
  intros Hw Hv. rewrite get_put_prefix by (done || lia).
  rewrite drop_ge by (rewrite length_get by done; lia). apply app_nil_r.
Qed.

Lemma get_put_disjoint (f g : field) (v buf : list Z) :
  disjoint_fields f g = true -> within g (length buf) = true -> (length v <= f_len g)%nat ->
  get f (put g v buf) = get f buf.
Proof.
  unfold disjoint_fields, within, f_end, get, put.
  intros Hd Hw%Nat.leb_le Hv. apply orb_true_iff in Hd as [Hd|Hd]; apply Nat.leb_le in Hd.
  - rewrite drop_app_le by (rewrite length_take; lia).
    rewrite take_app_le by (rewrite length_drop, length_take; lia).
    rewrite skipn_firstn_comm, take_take. f_equal. lia.
  - rewrite drop_app_ge by (rewrite length_take; lia).
    rewrite length_take, Nat.min_l by lia.
    rewrite drop_app_ge by lia. rewrite drop_drop. do 2 f_equal. lia.
Qed.

Lemma get_sub (f : field) (i n : nat) (buf : list Z) :
  (i + n <= f_len f)%nat -> get (sub f i n) buf = take n (drop i (get f buf)).
Proof.
  intros Hin. unfold get, sub; simpl.
  rewrite (skipn_firstn_comm i), take_take, drop_drop. f_equal. lia.
Qed.

(** Reading a field of the part of the buffer a larger field covers. *)
Lemma get_get (f g : field) (buf : list Z) :
  (f_end f <= f_len g)%nat -> get f (get g buf) = get (Field (f_off g + f_off f) (f_len f)) buf.
Proof.
  unfold f_end. intros Hin. unfold get; simpl.
  rewrite skipn_firstn_comm, take_take, drop_drop. f_equal. lia.
Qed.

Lemma get_uint_put (f : field) (v : Z) (buf : list Z) :
  within f (length buf) = true -> get_uint f (put_uint f v buf) = wrap (8 * Z.of_nat (f_len f)) v.
Proof.
  intros. unfold get_uint, put_uint.
  rewrite get_put_eq by (done || apply length_le_enc). apply le_dec_enc.
Qed.

Lemma get_put_uint_disjoint (f g : field) (v : Z) (buf : list Z) :
  disjoint_fields f g = true -> within g (length buf) = true ->
  get f (put_uint g v buf) = get f buf.
Proof. intros. apply get_put_disjoint; [done..|]. by rewrite length_le_enc. Qed.

(** * C strings *)

(** [cstr buf] is the string a reader of the NUL-terminated array [buf] sees. *)
Fixpoint cstr (buf : list Z) : list Z :=
  match buf with
  | [] => []
  | b :: rest => if (b =? 0)%Z then [] else b :: cstr rest
  end.

Definition nonzero (b : Z) : Prop := b <> 0%Z.

Lemma cstr_terminated (t rest : list Z) : Forall nonzero t -> cstr (t ++ 0%Z :: rest) = t.
Proof.
  induction 1 as [|b t Hb Ht IH]; simpl; [done|]. unfold nonzero in Hb.
  destruct (Z.eqb_spec b 0); [done | by rewrite IH].
Qed.

Lemma cstr_nonzero (buf : list Z) : Forall nonzero (cstr buf).
Proof.
  induction buf as [|b buf IH]; simpl; [constructor|].
  destruct (Z.eqb_spec b 0); [constructor | by constructor].
Qed.

Lemma length_cstr (buf : list Z) : (length (cstr buf) <= length buf)%nat.
Proof. induction buf as [|b buf IH]; simpl; [done|]. destruct (b =? 0)%Z; simpl; lia. Qed.

(** The bytes of a source-level string literal. *)
Definition str (s : string) : list Z :=
  map (fun a => Z.of_N (Ascii.N_of_ascii a)) (String.list_ascii_of_string s).

(** [std::string] search: [s.find(pat) == 0] and [s.find(pat) != npos]. *)
Fixpoint is_prefix (pat l : list Z) : bool :=
  match pat, l with
  | [], _ => true
  | p :: pat, x :: l => (p =? x)%Z && is_prefix pat l
  | _ :: _, [] => false
  end.

Fixpoint contains (pat l : list Z) : bool :=
  is_prefix pat l || match l with [] => false | _ :: l => contains pat l end.

(** [arr[i]] of an array whose index is in range. *)
Definition byte_at (buf : list Z) (i : nat) : Z := nth i buf 0%Z.

(** * Programs

    Stateful code is a tree of atomic actions on the state, written with stdpp's
    monad notations [x ← m; k] and [m;; k].  An action reads and changes the state in
    one go; between two of them the state may be changed by somebody else.  A
    program run alone is the function [exec], and applying a program to a state is
    running it alone. *)

Inductive prog (S A : Type) : Type :=
| Ret (x : A)
| Act {B : Type} (f : S -> B * S) (k : B -> prog S A).
Arguments Ret {S A} x.
Arguments Act {S A B} f k.

Fixpoint exec {S A : Type} (m : prog S A) (s : S) : A * S :=
  match m with
  | Ret x => (x, s)
  | Act f k => let '(x, s') := f s in exec (k x) s'
  end.

Coercion exec : prog >-> Funclass.
Arguments exec : simpl never.

(** The first action of a program, if it has not returned. *)
Definition advance {S A : Type} (m : prog S A) (s : S) : option (prog S A * S) :=
  match m with
  | Ret _ => None
  | Act f k => let '(x, s') := f s in Some (k x, s')
  end.

#[export] Instance prog_ret {S : Type} : MRet (prog S) := fun A x => Ret x.
#[export] Instance prog_bind {S : Type} : MBind (prog S) :=
  fun A B k => fix bind m :=
    match m with
    | Ret x => k x
    | Act f k' => Act f (fun x => bind (k' x))
    end.

(** One atomic action. *)
Definition act {S A : Type} (f : S -> A * S) : prog S A := Act f Ret.
Arguments act : simpl never.
#[global] Arguments mbind : simpl never.
Definition gets {S A : Type} (f : S -> A) : prog S A := act (fun s => (f s, s)).
Definition modify {S : Type} (f : S -> S) : prog S unit := act (fun s => (tt, f s)).

Lemma run_step {S A B : Type} (f : S -> B * S) (k : B -> prog S A) (s : S) :
  Act f k s = k (fst (f s)) (snd (f s)).
Proof. unfold exec; fold (@exec S A). by destruct (f s). Qed.

Lemma run_act {S A : Type} (f : S -> A * S) (s : S) : act f s = f s.
Proof. unfold act. rewrite run_step. by destruct (f s). Qed.

Lemma run_bind {S A B : Type} (m : prog S A) (k : A -> prog S B) (s : S) :
  (m ≫= k) s = k (fst (m s)) (snd (m s)).
Proof.
  revert s. induction m as [x|C f k' IH]; intros s; [done|].
  rewrite run_step, <- IH. exact (run_step f (fun x => k' x ≫= k) s).
Qed.

Lemma run_gets {S A : Type} (f : S -> A) (s : S) : gets f s = (f s, s).
Proof. done. Qed.

Lemma run_modify {S : Type} (f : S -> S) (s : S) : modify f s = (tt, f s).
Proof. done. Qed.

Lemma run_ret {S A : Type} (x : A) (s : S) : (mret x : prog S A) s = (x, s).
Proof. done. Qed.

Lemma run_bind_assoc {S A B C : Type} (m : prog S A) (f : A -> prog S B) (g : B -> prog S C)
    (s : S) : ((m ≫= f) ≫= g) s = (m ≫= fun x => f x ≫= g) s.
Proof. by rewrite !run_bind. Qed.

(** A program of a part of the state, as a program of the whole. *)
Fixpoint zoom {S T A : Type} (part : S -> T) (replace : T -> S -> S) (m : prog T A) : prog S A :=
  match m with
  | Ret x => Ret x
  | Act f k =>
      Act (fun s => let '(x, t) := f (part s) in (x, replace t s)) (fun x => zoom part replace (k x))
  end.

Lemma run_zoom {S T A : Type} (part : S -> T) (replace : T -> S -> S) (m : prog T A) (s : S) :
  (forall t s, part (replace t s) = t) -> (forall t t' s, replace t (replace t' s) = replace t s) ->
  (forall s, replace (part s) s = s) ->
  zoom part replace m s = (fst (m (part s)), replace (snd (m (part s))) s).
Proof.
  intros Hpr Hrr Hrp. revert s. induction m as [x|B f k IH]; intros s.
  - by rewrite (Hrp s : replace (snd ((Ret x : prog T A) (part s))) s = s).
  - cbn [zoom]. rewrite !run_step, IH. destruct (f (part s)) as [x t]. cbn [fst snd].
    by rewrite Hpr, Hrr.
Qed.

(** [preserves R m]: every action of [m], whatever the state it finds, relates that
    state and the one it leaves by [R]. *)
Inductive preserves {S A : Type} (R : relation S) : prog S A -> Prop :=
| PreservesRet (x : A) : preserves R (Ret x)
| PreservesAct {B : Type} (f : S -> B * S) (k : B -> prog S A) :
    (forall s, R s (snd (f s))) -> (forall s, preserves R (k (fst (f s)))) ->
    preserves R (Act f k).

Lemma preserves_inv {S A B : Type} (R : relation S) (f : S -> B * S) (k : B -> prog S A) (s : S) :
  preserves R (Act f k) -> R s (snd (f s)) /\ preserves R (k (fst (f s))).
Proof.
  intros H. exact (match H in preserves _ m return
    match m with Ret _ => True
    | Act f k => forall s, R s (snd (f s)) /\ preserves R (k (fst (f s))) end with
    | PreservesRet _ _ => I | PreservesAct _ _ _ Hf Hk => fun s => conj (Hf s) (Hk s) end s).
Qed.

Lemma preserves_act {S A : Type} (R : relation S) (f : S -> A * S) :
  (forall s, R s (snd (f s))) -> preserves R (act f).
Proof. intros Hf. constructor; [exact Hf | constructor]. Qed.

Section preserves.
Context {S : Type} (R : relation S).

(** So does every run, if [R] is a preorder. *)
Lemma preserves_run {A : Type} `{!PreOrder R} (m : prog S A) :
  preserves R m -> forall s, R s (snd (m s)).
Proof.
  induction 1 as [x|B f k Hf Hk IH]; intros s; [change (R s s); reflexivity|].
  rewrite run_step. etrans; [apply Hf | apply (IH s)].
Qed.

Lemma preserves_ret {A : Type} (x : A) : preserves R (mret x : prog S A).
Proof. constructor. Qed.

Lemma preserves_gets {A : Type} (f : S -> A) `{!PreOrder R} : preserves R (gets f).
Proof. apply preserves_act. intros s. simpl. reflexivity. Qed.

Lemma preserves_bind {A B : Type} (m : prog S A) (k : A -> prog S B) :
  preserves R m -> (forall x, preserves R (k x)) -> preserves R (m ≫= k).
Proof.
  intros Hm Hk. induction Hm as [x|C f k' Hf Hm IH]; [apply Hk|].
  by apply (PreservesAct R f).
Qed.

Lemma preserves_if {A : Type} (b : bool) (m1 m2 : prog S A) :
  preserves R m1 -> preserves R m2 -> preserves R (if b then m1 else m2).
Proof. by destruct b. Qed.

Lemma preserves_option {A B : Type} (o : option B) (k : B -> prog S A) (m : prog S A) :
  (forall x, preserves R (k x)) -> preserves R m ->
  preserves R (match o with Some x => k x | None => m end).
Proof. by destruct o. Qed.

End preserves.

Arguments preserves_run {S R A _ m} _ s.

Lemma preserves_mono {S A : Type} (R R' : relation S) (m : prog S A) :
  (forall s s', R s s' -> R' s s') -> preserves R m -> preserves R' m.
Proof. intros HR. induction 1; constructor; auto. Qed.

Lemma preserves_and {S A : Type} (R R' : relation S) (m : prog S A) :
  preserves R m -> preserves R' m -> preserves (fun s s' => R s s' /\ R' s s') m.
Proof.
  intros Hm. induction Hm as [x|B f k Hf Hk IH]; intros Hm'; [constructor|].
  constructor; intros s; destruct (preserves_inv R' f k s Hm') as [Hf' Hk']; auto.
Qed.

(** [sure P Q m]: whatever others do to the state between its actions, as long as
    [P] holds whenever [m] acts, [m] returns a result that satisfies [Q]. *)
Inductive sure {S A : Type} (P : S -> Prop) (Q : A -> Prop) : prog S A -> Prop :=
| SureRet (x : A) : Q x -> sure P Q (Ret x)
| SureAct {B : Type} (f : S -> B * S) (k : B -> prog S A) :
    (forall s, P s -> sure P Q (k (fst (f s)))) -> sure P Q (Act f k).

Section sure.
Context {S : Type} (P : S -> Prop).

Lemma sure_inv {A : Type} (Q : A -> Prop) (m : prog S A) :
  sure P Q m ->
  match m with
  | Ret x => Q x
  | Act f k => forall s, P s -> sure P Q (k (fst (f s)))
  end.
Proof. by intros []. Qed.

Lemma sure_ret {A : Type} (Q : A -> Prop) (x : A) : Q x -> sure P Q (mret x : prog S A).
Proof. by constructor. Qed.

Lemma sure_act {A : Type} (Q : A -> Prop) (f : S -> A * S) :
  (forall s, P s -> Q (fst (f s))) -> sure P Q (act f).
Proof. intros Hf. constructor. intros s Hs. constructor. by apply Hf. Qed.

Lemma sure_bind {A B : Type} (Q : A -> Prop) (Q' : B -> Prop) (m : prog S A) (k : A -> prog S B) :
  sure P Q m -> (forall x, Q x -> sure P Q' (k x)) -> sure P Q' (m ≫= k).
Proof.
  intros Hm Hk. induction Hm as [x Hx|C f k' Hf IH]; [by apply Hk|]. by apply (SureAct P Q' f).
Qed.

Lemma sure_mono {A : Type} (Q Q' : A -> Prop) (m : prog S A) :
  (forall x, Q x -> Q' x) -> sure P Q m -> sure P Q' m.
Proof. intros HQ. induction 1; constructor; auto. Qed.

Lemma sure_weaken {A : Type} (P' : S -> Prop) (Q : A -> Prop) (m : prog S A) :
  (forall s, P' s -> P s) -> sure P Q m -> sure P' Q m.
Proof. intros HP. induction 1; constructor; auto. Qed.

Lemma sure_any {A : Type} (m : prog S A) : sure P (fun _ => True) m.
Proof. induction m; by constructor. Qed.

End sure.

(** Binds whose first part is sure to return a [T]. *)
Lemma preserves_bind_sure {S A B : Type} (R : relation S) (T : A -> Prop) (m : prog S A)
    (k : A -> prog S B) :
  preserves R m -> sure (fun _ => True) T m -> (forall x, T x -> preserves R (k x)) ->
  preserves R (m ≫= k).
Proof.
  intros Hm Ht Hk. induction Hm as [x|C f k' Hf Hm IH]; [apply Hk; exact (sure_inv _ _ _ Ht)|].
  apply (PreservesAct R f); [done|]. intros s. apply IH. exact (sure_inv _ _ _ Ht s I).
Qed.

(** [ends_within n m]: [m] returns after at most [n] actions, whatever they find. *)
Inductive ends_within {S A : Type} : nat -> prog S A -> Prop :=
| EndsRet n (x : A) : ends_within n (Ret x)
| EndsAct {B : Type} n (f : S -> B * S) (k : B -> prog S A) :
    (forall s, ends_within n (k (fst (f s)))) -> ends_within (Datatypes.S n) (Act f k).

Section ends.
Context {S : Type}.

Lemma ends_within_inv {A : Type} (n : nat) (m : prog S A) :
  ends_within n m ->
  match m with
  | Ret _ => True
  | Act f k => exists n', n = Datatypes.S n' /\ forall s, ends_within n' (k (fst (f s)))
  end.
Proof. intros []; [done|]. by eexists. Qed.

Lemma ends_mono {A : Type} (n n' : nat) (m : prog S A) :
  (n <= n')%nat -> ends_within n m -> ends_within n' m.
Proof.
  intros Hle Hm. revert n' Hle. induction Hm as [n x|B n f k Hk IH]; intros n' Hle; [constructor|].
  destruct n' as [|n']; [lia|]. constructor. intros s. apply IH. lia.
Qed.

Lemma ends_ret {A : Type} (n : nat) (x : A) : ends_within n (mret x : prog S A).
Proof. constructor. Qed.

Lemma ends_act {A : Type} (n : nat) (f : S -> A * S) : ends_within (Datatypes.S n) (act f).
Proof. constructor. intros s. constructor. Qed.

Lemma ends_bind {A B : Type} (n n' : nat) (m : prog S A) (k : A -> prog S B) :
  ends_within n m -> (forall x, ends_within n' (k x)) -> ends_within (n + n') (m ≫= k).
Proof.
  intros Hm Hk. induction Hm as [n x|C n f k' Hf IH].
  - apply (ends_mono n'); [lia | apply Hk].
  - by apply (EndsAct (n + n') f).
Qed.

End ends.

(** [triple P m Q]: from a state that satisfies [P], [m] ends in a result and a
    state that satisfy [Q]. *)
Definition triple {S A : Type} (P : S -> Prop) (m : prog S A) (Q : A -> S -> Prop) : Prop :=
  forall s, P s -> Q (fst (m s)) (snd (m s)).

(** [keeps P m]: [m] preserves the invariant [P]. *)
Definition keeps {S A : Type} (P : S -> Prop) (m : prog S A) : Prop := triple P m (fun _ => P).

Section triples.
Context {S : Type}.

Lemma triple_bind {A B : Type} (P : S -> Prop) (Q : A -> S -> Prop) (R : B -> S -> Prop)
    (m : prog S A) (k : A -> prog S B) :
  triple P m Q -> (forall x, triple (Q x) (k x) R) -> triple P (m ≫= k) R.
Proof. intros Hm Hk s Hs. rewrite run_bind. by apply Hk, Hm. Qed.

Lemma triple_conseq {A : Type} (P P' : S -> Prop) (Q Q' : A -> S -> Prop) (m : prog S A) :
  triple P m Q -> (forall s, P' s -> P s) -> (forall x s, Q x s -> Q' x s) -> triple P' m Q'.
Proof. intros Hm HP HQ s Hs. by apply HQ, Hm, HP. Qed.

Lemma keeps_bind {A B : Type} (P : S -> Prop) (m : prog S A) (k : A -> prog S B) :
  keeps P m -> (forall x, keeps P (k x)) -> keeps P (m ≫= k).
Proof. apply triple_bind. Qed.

Lemma keeps_ret {A : Type} (P : S -> Prop) (x : A) : keeps P (mret x : prog S A).
Proof. by intros s. Qed.

Lemma keeps_gets {A : Type} (P : S -> Prop) (f : S -> A) : keeps P (gets f).
Proof. by intros s. Qed.

Lemma keeps_modify (P : S -> Prop) (f : S -> S) :
  (forall s, P s -> P (f s)) -> keeps P (modify f).
Proof. intros Hf s. apply Hf. Qed.

Lemma keeps_if {A : Type} (P : S -> Prop) (b : bool) (m1 m2 : prog S A) :
  keeps P m1 -> keeps P m2 -> keeps P (if b then m1 else m2).
Proof. by destruct b. Qed.

End triples.

(** * Automation *)

Create HintDb preserves discriminated.
#[export] Hint Constants Opaque : preserves.
#[export] Hint Extern 0 (PreOrder _) => typeclasses eauto : preserves.
#[export] Hint Resolve preserves_ret preserves_gets preserves_if preserves_option : preserves.

(** [solve_preserves] walks a program; the leaves come from the database
    [preserves], which each component extends with its own operations. *)
Ltac solve_preserves :=
  repeat first
    [ progress intros
    | solve [auto 3 with preserves nocore]
    | apply preserves_bind
    | apply preserves_if
    | apply preserves_option
    | case_match ].

(** Boolean side conditions: rewrite with the tests already decided. *)
Create Rewrite HintDb bools.
#[export] Hint Rewrite andb_false_r andb_false_l andb_true_r andb_true_l
  orb_true_r orb_true_l orb_false_r orb_false_l : bools.

Ltac known_bools :=
  repeat (match goal with
    | H : ?b = true |- context [?b] => rewrite H
    | H : ?b = false |- context [?b] => rewrite H
    | H : ?o = Some _ |- context [?o] => rewrite H
    | H : ?o = None |- context [?o] => rewrite H
    end; cbn [negb orb andb]); autorewrite with bools.

(** The same for conjunctions and disjunctions among the hypotheses. *)
Ltac split_bools :=
  repeat match goal with
    | H : (_ && _) = true |- _ => apply andb_true_iff in H as [? ?]
    | H : (_ || _) = false |- _ => apply orb_false_iff in H as [? ?]
    | H : negb _ = true |- _ => apply negb_true_iff in H
    | H : negb _ = false |- _ => apply negb_false_iff in H
    | H : (_ && _) = false |- _ => apply andb_false_iff in H as [?|?]
    | H : (_ || _) = true |- _ => apply orb_true_iff in H as [?|?]
    end.
