(* ===== verification/Layout.v ===== *)
(** Packed C structures as data: a structure is its list of members, sizes and
    offsets are computed from it, and a member is read and written through the
    byte range ([field]) it occupies.  The kernel side and the user side of the
    wire format each give their own structures ([KernelLayout], [UserLayout]). *)

From S2P Require Export Prelude.

(** The member types of the telemetry structures. *)
Inductive ctype : Type :=
| U8 | U16 | U32 | I32 | U64
| Chars (n : nat).

#[export] Instance ctype_eq_dec : EqDecision ctype.
Proof. solve_decision. Defined.

Definition sizeof_type (t : ctype) : nat :=
  match t with
  | U8 => 1 | U16 => 2 | U32 => 4 | I32 => 4 | U64 => 8
  | Chars n => n
  end.

(** The members in declaration order; the structures are packed, so a member
    starts where the one before it ends. *)
Definition struct : Type := list (string * ctype).

Definition sizeof (s : struct) : nat := foldr (fun m n => sizeof_type (snd m) + n)%nat 0%nat s.

Fixpoint offset_from (off : nat) (name : string) (s : struct) : option field :=
  match s with
  | [] => None
  | (m, t) :: rest =>
      if String.eqb m name then Some (Field off (sizeof_type t))
      else offset_from (off + sizeof_type t) name rest
  end.

Definition member (s : struct) (name : string) : option field := offset_from 0 name s.

(** [s.name], for a member the structure declares. *)
Definition mem (s : struct) (name : string) : field := default (Field 0 0) (member s name).

(** A member of a union that follows [base] bytes of header. *)
Definition shift (base : nat) (f : field) : field := Field (base + f_off f) (f_len f).

(** The size of a union is that of its largest member. *)
Definition sizeof_union (ss : list struct) : nat :=
  foldr (fun s n => Nat.max (sizeof s) n) 0%nat ss.

Lemma offset_from_within (s : struct) (off : nat) (name : string) (f : field) :
  offset_from off name s = Some f -> (off <= f_off f /\ f_end f <= off + sizeof s)%nat.
Proof.
  revert off; induction s as [|[m t] s IH]; intros off; simpl; [done|].
  destruct (String.eqb m name).
  - intros [= <-]. unfold f_end; simpl. lia.
  - intros H. apply IH in H. lia.
Qed.

(** Every member lies inside its structure. *)
Lemma member_within (s : struct) (name : string) (f : field) :
  member s name = Some f -> within f (sizeof s) = true.
Proof.
  intros H. apply offset_from_within in H. apply Nat.leb_le. lia.
Qed.

(** Two different members of one structure do not overlap. *)
Lemma offset_from_disjoint (s : struct) (off : nat) (n1 n2 : string) (f1 f2 : field) :
  n1 <> n2 -> offset_from off n1 s = Some f1 -> offset_from off n2 s = Some f2 ->
  disjoint_fields f1 f2 = true.
Proof.
  intros Hne. revert off; induction s as [|[m t] s IH]; intros off; simpl; [done|].
  unfold disjoint_fields.
  destruct (String.eqb_spec m n1), (String.eqb_spec m n2); subst; try done.
  - intros [= <-] H. apply offset_from_within in H. unfold f_end at 1; simpl.
    apply orb_true_iff. left. apply Nat.leb_le. lia.
  - intros H [= <-]. apply offset_from_within in H. unfold f_end at 2; simpl.
    apply orb_true_iff. right. apply Nat.leb_le. lia.
  - apply IH.
Qed.

Lemma member_disjoint (s : struct) (n1 n2 : string) (f1 f2 : field) :
  n1 <> n2 -> member s n1 = Some f1 -> member s n2 = Some f2 -> disjoint_fields f1 f2 = true.
Proof. apply offset_from_disjoint. Qed.

Lemma sizeof_union_ge (ss : list struct) (s : struct) : s ∈ ss -> (sizeof s <= sizeof_union ss)%nat.
Proof.
  intros Hin. apply list_elem_of_In in Hin.
  induction ss as [|s' ss IH]; simpl in *; [done|].
  destruct Hin as [->|Hin]; [lia | specialize (IH Hin); lia].
Qed.
