(* ===== verification/KernelLayout.v ===== *)
(** The wire structures as the eBPF program declares them
    (src/linux/ebpf/kinnector.bpf.c, lines 17-131 and 216-228): the layout in
    which every hook fills the records of the ring buffers. *)

From S2P Require Export Layout.

Local Open Scope string_scope.

(** The key of the per-process maps. *)
Record process_key : Type := ProcessKey { pid : Z; start_time : Z }.

#[export] Instance process_key_eq_dec : EqDecision process_key.
Proof. solve_decision. Defined.

Definition TelemetryHeader : struct :=
  [("sequence_number", U64); ("timestamp_ns", U64); ("pid", U32);
   ("event_type", U8); ("source", U8)].

Definition ProcessCreateDetails : struct :=
  [("child_pid", U32); ("real_parent_pid", U32);
   ("child_image_path", Chars 512); ("child_command_line", Chars 1024)].

Definition FileReadDetails : struct :=
  [("bytes_requested", U32); ("zone_id", I32); ("file_path", Chars 512)].

Definition FileWriteDetails : struct :=
  [("bytes_written", U32); ("zone_id", I32); ("file_path", Chars 512)].

Definition NetworkConnectDetails : struct :=
  [("destination_ip", Chars 46); ("destination_port", U16); ("protocol", Chars 8)].

Definition MemoryMapDetails : struct :=
  [("addr", U64); ("length", U64); ("prot", U32); ("flags", U32); ("fd", I32);
   ("file_inode", U64)].

Definition Dup2Details : struct := [("oldfd", U32); ("newfd", U32)].

Definition PtraceAttachDetails : struct := [("tracee_pid", U32); ("mode", U32)].

Definition ImageLoadDetails : struct := [("file_inode", U64); ("module_path", Chars 256)].

Definition ProcessStopDetails : struct := [("exit_code", U32); ("_pad", U32)].

(** The union of the details, in declaration order. *)
Definition details : list struct :=
  [ProcessCreateDetails; FileReadDetails; FileWriteDetails; NetworkConnectDetails;
   MemoryMapDetails; Dup2Details; ProcessStopDetails; PtraceAttachDetails;
   ImageLoadDetails; [("details_buffer", Chars 1544)]].

Definition sizeof_TelemetryEvent : nat :=
  Eval vm_compute in (sizeof TelemetryHeader + sizeof_union details)%nat.

Definition tty_event : struct :=
  [("timestamp_ns", U64); ("pid", U32); ("len", U32); ("is_write", U8);
   ("comm", Chars 16); ("data", Chars 1024)].

Definition sizeof_tty_event : nat := Eval vm_compute in sizeof tty_event.

Definition EVT_PROCESS_CREATE : Z := 1.
Definition EVT_PROCESS_STOP : Z := 2.
Definition EVT_FILE_READ : Z := 3.
Definition EVT_FILE_WRITE : Z := 4.
Definition EVT_MEMORY_MAP : Z := 5.
Definition EVT_NETWORK_CONNECT : Z := 7.
Definition EVT_PTRACE_ATTACH : Z := 13.
Definition EVT_IMAGE_LOAD : Z := 8.
Definition EVT_MEMORY_PROTECT : Z := 12.
Definition EVT_DUP2 : Z := 18.
Definition EVT_LISTEN : Z := 19.

Definition SRC_BPF_LSM : Z := 6.
Definition SRC_BPF_TRACEPOINT : Z := 7.

Definition EACCES : Z := 13.

(** [event->header.m] and [event->details.u.m] as byte ranges of the record. *)
Definition hdr (name : string) : field := mem TelemetryHeader name.
Definition det (s : struct) (name : string) : field :=
  shift (sizeof TelemetryHeader) (mem s name).

Definition h_sequence_number : field := Eval vm_compute in hdr "sequence_number".
Definition h_timestamp_ns : field := Eval vm_compute in hdr "timestamp_ns".
Definition h_pid : field := Eval vm_compute in hdr "pid".
Definition h_event_type : field := Eval vm_compute in hdr "event_type".
Definition h_source : field := Eval vm_compute in hdr "source".

Definition process_create_child_pid : field :=
  Eval vm_compute in det ProcessCreateDetails "child_pid".
Definition process_create_real_parent_pid : field :=
  Eval vm_compute in det ProcessCreateDetails "real_parent_pid".
Definition process_create_child_image_path : field :=
  Eval vm_compute in det ProcessCreateDetails "child_image_path".
Definition process_create_child_command_line : field :=
  Eval vm_compute in det ProcessCreateDetails "child_command_line".

Definition file_read_bytes_requested : field :=
  Eval vm_compute in det FileReadDetails "bytes_requested".
Definition file_read_zone_id : field := Eval vm_compute in det FileReadDetails "zone_id".
Definition file_read_file_path : field := Eval vm_compute in det FileReadDetails "file_path".

Definition file_write_bytes_written : field :=
  Eval vm_compute in det FileWriteDetails "bytes_written".
Definition file_write_zone_id : field := Eval vm_compute in det FileWriteDetails "zone_id".
Definition file_write_file_path : field := Eval vm_compute in det FileWriteDetails "file_path".

Definition network_connect_destination_ip : field :=
  Eval vm_compute in det NetworkConnectDetails "destination_ip".
Definition network_connect_destination_port : field :=
  Eval vm_compute in det NetworkConnectDetails "destination_port".
Definition network_connect_protocol : field :=
  Eval vm_compute in det NetworkConnectDetails "protocol".

Definition memory_map_addr : field := Eval vm_compute in det MemoryMapDetails "addr".
Definition memory_map_length : field := Eval vm_compute in det MemoryMapDetails "length".
Definition memory_map_prot : field := Eval vm_compute in det MemoryMapDetails "prot".
Definition memory_map_flags : field := Eval vm_compute in det MemoryMapDetails "flags".
Definition memory_map_fd : field := Eval vm_compute in det MemoryMapDetails "fd".
Definition memory_map_file_inode : field :=
  Eval vm_compute in det MemoryMapDetails "file_inode".

Definition dup2_oldfd : field := Eval vm_compute in det Dup2Details "oldfd".
Definition dup2_newfd : field := Eval vm_compute in det Dup2Details "newfd".

Definition ptrace_attach_tracee_pid : field :=
  Eval vm_compute in det PtraceAttachDetails "tracee_pid".
Definition ptrace_attach_mode : field := Eval vm_compute in det PtraceAttachDetails "mode".

Definition image_load_file_inode : field :=
  Eval vm_compute in det ImageLoadDetails "file_inode".
Definition image_load_module_path : field :=
  Eval vm_compute in det ImageLoadDetails "module_path".

Definition process_stop_exit_code : field :=
  Eval vm_compute in det ProcessStopDetails "exit_code".
Definition process_stop_pad : field := Eval vm_compute in det ProcessStopDetails "_pad".

Definition tty_timestamp_ns : field := Eval vm_compute in mem tty_event "timestamp_ns".
Definition tty_pid : field := Eval vm_compute in mem tty_event "pid".
Definition tty_len : field := Eval vm_compute in mem tty_event "len".
Definition tty_is_write : field := Eval vm_compute in mem tty_event "is_write".
Definition tty_comm : field := Eval vm_compute in mem tty_event "comm".
Definition tty_data : field := Eval vm_compute in mem tty_event "data".
