(* ===== verification/UserLayout.v ===== *)
(** The wire structures as user space declares them
    (include/kinnector/telemetry.h and the [TtyEvent] of
    src/linux/ebpf_loader.h), with the two enumerations, and the decoding of a
    record that reaches a callback. *)

From S2P Require Export Layout.

Local Open Scope string_scope.

Inductive EventType : Type :=
| ProcessCreate | ProcessStop | FileRead | FileCreate | FileWrite | FileRename
| NetworkConnect | ImageLoad | RegistryWrite | ClipboardWrite | CallStackFrame
| MemoryProtect | PtraceAttach | SSHAuth | TerminalCommand.

#[export] Instance event_type_eq_dec : EqDecision EventType.
Proof. solve_decision. Defined.

Definition event_type_code (t : EventType) : Z :=
  match t with
  | ProcessCreate => 1 | ProcessStop => 2 | FileRead => 3 | FileCreate => 4
  | FileWrite => 5 | FileRename => 6 | NetworkConnect => 7 | ImageLoad => 8
  | RegistryWrite => 9 | ClipboardWrite => 10 | CallStackFrame => 11
  | MemoryProtect => 12 | PtraceAttach => 13 | SSHAuth => 14 | TerminalCommand => 15
  end.

Definition all_event_types : list EventType :=
  [ProcessCreate; ProcessStop; FileRead; FileCreate; FileWrite; FileRename;
   NetworkConnect; ImageLoad; RegistryWrite; ClipboardWrite; CallStackFrame;
   MemoryProtect; PtraceAttach; SSHAuth; TerminalCommand].

(** The enumerator a stored byte denotes, when there is one. *)
Definition event_type_of_code (c : Z) : option EventType :=
  find (fun t => event_type_code t =? c)%Z all_event_types.

Inductive TelemetrySource : Type :=
| ETW | ESF | OpenBSM | eBPF | fanotify | BPF_LSM | Log_FIM | Clipboard | CallStack.

#[export] Instance telemetry_source_eq_dec : EqDecision TelemetrySource.
Proof. solve_decision. Defined.

Definition source_code (s : TelemetrySource) : Z :=
  match s with
  | ETW => 1 | ESF => 2 | OpenBSM => 3 | eBPF => 4 | fanotify => 5 | BPF_LSM => 6
  | Log_FIM => 7 | Clipboard => 8 | CallStack => 9
  end.

Definition all_sources : list TelemetrySource :=
  [ETW; ESF; OpenBSM; eBPF; fanotify; BPF_LSM; Log_FIM; Clipboard; CallStack].

Definition source_of_code (c : Z) : option TelemetrySource :=
  find (fun s => source_code s =? c)%Z all_sources.

Definition TelemetryHeader : struct :=
  [("sequence_number", U64); ("timestamp_ns", U64); ("pid", U32);
   ("event_type", U8); ("source", U8)].

Definition ProcessCreateDetails : struct :=
  [("child_pid", U32); ("real_parent_pid", U32);
   ("child_image_path", Chars 512); ("child_command_line", Chars 1024)].

Definition ProcessStopDetails : struct := [("exit_code", I32)].

Definition FileReadDetails : struct :=
  [("bytes_requested", U32); ("zone_id", I32); ("file_path", Chars 512)].

Definition FileCreateDetails : struct := [("zone_id", I32); ("file_path", Chars 512)].

Definition FileWriteDetails : struct := [("bytes_written", U32); ("file_path", Chars 512)].

Definition FileRenameDetails : struct :=
  [("source_path", Chars 512); ("destination_path", Chars 512)].

Definition NetworkConnectDetails : struct :=
  [("destination_ip", Chars 46); ("destination_port", U16); ("protocol", Chars 8)].

Definition ImageLoadDetails : struct :=
  [("is_signed", U8); ("module_path", Chars 512); ("signer_subject", Chars 256)].

Definition RegistryWriteDetails : struct :=
  [("key_path", Chars 512); ("value_name", Chars 256); ("value_data", Chars 512)].

Definition ClipboardWriteDetails : struct :=
  [("owner_pid", U32); ("owner_is_foreground", U8); ("previous_content", Chars 512);
   ("new_content", Chars 512); ("content_type", Chars 32); ("attribution", Chars 16)].

Definition CallStackFrameDetails : struct :=
  [("frame_index", U32); ("return_address", U64); ("is_file_backed", U8);
   ("module_path", Chars 512); ("notes", Chars 128)].

Definition MemoryProtectDetails : struct :=
  [("target_pid", U32); ("address", U64); ("length", U64); ("prot_flags", Chars 64);
   ("old_prot_flags", Chars 64)].

Definition PtraceAttachDetails : struct := [("target_pid", U32); ("mode", Chars 32)].

Definition SSHAuthDetails : struct :=
  [("username", Chars 64); ("source_ip", Chars 46); ("port", U16);
   ("auth_method", Chars 32); ("status", Chars 16)].

Definition TerminalCommandDetails : struct :=
  [("tty_device", Chars 32); ("command", Chars 512)].

Definition details : list struct :=
  [ProcessCreateDetails; ProcessStopDetails; FileReadDetails; FileCreateDetails;
   FileWriteDetails; FileRenameDetails; NetworkConnectDetails; ImageLoadDetails;
   RegistryWriteDetails; ClipboardWriteDetails; CallStackFrameDetails;
   MemoryProtectDetails; PtraceAttachDetails; SSHAuthDetails; TerminalCommandDetails].

Definition sizeof_TelemetryEvent : nat :=
  Eval vm_compute in (sizeof TelemetryHeader + sizeof_union details)%nat.

Definition TtyEvent : struct :=
  [("timestamp_ns", U64); ("pid", U32); ("len", U32); ("is_write", U8);
   ("comm", Chars 16); ("data", Chars 1024)].

Definition sizeof_TtyEvent : nat := Eval vm_compute in sizeof TtyEvent.

(** [event.header.m] and [event.details.u.m] as byte ranges of the record. *)
Definition hdr (name : string) : field := mem TelemetryHeader name.
Definition det (s : struct) (name : string) : field :=
  shift (sizeof TelemetryHeader) (mem s name).

(** The header a callback reads from the record it is given. *)
Record header_view : Type := HeaderView {
  hv_sequence_number : Z;
  hv_timestamp_ns : Z;
  hv_pid : Z;
  hv_event_type : Z;
  hv_source : Z;
}.

Definition read_header (ev : list Z) : header_view :=
  HeaderView (get_uint (hdr "sequence_number") ev) (get_uint (hdr "timestamp_ns") ev)
    (get_uint (hdr "pid") ev) (get_uint (hdr "event_type") ev) (get_uint (hdr "source") ev).
