(* ===== verification/Kernel.v ===== *)
(** The interfaces the eBPF programs are written against: BPF maps, ring
    buffers and the kernel memory a program probes.  None of this code is in the
    repository, so each is a class (or record) of operations with the behaviour
    the BPF documentation gives as a class of laws; the programs are defined
    over the operations and their theorems use the laws only.  [KernelRef]
    gives an executable implementation and discharges the laws. *)

From S2P Require Export Prelude.

Local Open Scope Z_scope.

(** ** Maps: [bpf_map_lookup_elem] and friends

    [hash K V] is the content of a map; [map_update] is called with [BPF_ANY]
    and returns the helper's return code; [map_store] is a write through the
    pointer a lookup returned. *)
Class BpfMaps : Type := {
  hash : Type -> Type -> Type;
  map_lookup : forall {K V : Type} `{EqDecision K}, hash K V -> K -> option V;
  map_update : forall {K V : Type} `{EqDecision K}, hash K V -> K -> V -> Z * hash K V;
  map_delete : forall {K V : Type} `{EqDecision K}, hash K V -> K -> Z * hash K V;
  map_store : forall {K V : Type} `{EqDecision K}, hash K V -> K -> V -> hash K V;
}.

Class BpfMapsLaws {BM : BpfMaps} : Prop := {
  (** an update that reports success stores the value *)
  map_update_lookup : forall {K V : Type} `{EqDecision K} (m : hash K V) k v,
    fst (map_update m k v) = 0 -> map_lookup (snd (map_update m k v)) k = Some v;
  (** an update that fails (a full map) leaves the entry as it was *)
  map_update_fail : forall {K V : Type} `{EqDecision K} (m : hash K V) k v,
    fst (map_update m k v) <> 0 -> map_lookup (snd (map_update m k v)) k = map_lookup m k;
  (** an update touches no other key *)
  map_update_ne : forall {K V : Type} `{EqDecision K} (m : hash K V) k k' v,
    k <> k' -> map_lookup (snd (map_update m k v)) k' = map_lookup m k';
  (** a deleted key is absent, the other keys stay *)
  map_delete_lookup : forall {K V : Type} `{EqDecision K} (m : hash K V) k,
    map_lookup (snd (map_delete m k)) k = None;
  map_delete_ne : forall {K V : Type} `{EqDecision K} (m : hash K V) k k',
    k <> k' -> map_lookup (snd (map_delete m k)) k' = map_lookup m k';
  (** a store through the pointer of a present key changes that value only *)
  map_store_lookup : forall {K V : Type} `{EqDecision K} (m : hash K V) k v,
    is_Some (map_lookup m k) -> map_lookup (map_store m k v) k = Some v;
  map_store_ne : forall {K V : Type} `{EqDecision K} (m : hash K V) k k' v,
    k <> k' -> map_lookup (map_store m k v) k' = map_lookup m k';
}.

(** ** Ring buffers

    A reservation gives a place in the buffer and a record whose bytes are whatever
    the memory held before; a submission commits the record of a place; the consumer
    gives the space of a record back.  Two histories describe a buffer.
    [rb_places] has an entry for every reservation that succeeded, in their order,
    which is the order in which the consumer meets them: the record, or [None] while
    the place is busy.  [rb_records] has the records in the order of their
    submission. *)
Class BpfRingbuf : Type := {
  ringbuf : Type;
  rb_reserve : ringbuf -> nat -> option (nat * list Z) * ringbuf;
  rb_submit : ringbuf -> nat -> list Z -> ringbuf;
  rb_consume : ringbuf -> nat -> ringbuf;
  rb_places : ringbuf -> list (option (list Z));
  rb_records : ringbuf -> list (list Z);
}.

(** The bytes of a reservation. *)
Definition rb_reserved {RB : BpfRingbuf} (r : ringbuf) (n : nat) : option (list Z) :=
  snd <$> fst (rb_reserve r n).

Class BpfRingbufLaws {RB : BpfRingbuf} : Prop := {
  (** a reservation is as long as asked, and gets the next place *)
  rb_reserve_length : forall (r : ringbuf) n ev, rb_reserved r n = Some ev -> length ev = n;
  rb_reserve_place : forall (r : ringbuf) n h ev,
    fst (rb_reserve r n) = Some (h, ev) -> h = length (rb_places r);
  rb_reserve_places : forall (r : ringbuf) n,
    rb_places (snd (rb_reserve r n)) =
      rb_places r ++ match rb_reserved r n with Some _ => [None] | None => [] end;
  rb_reserve_records : forall (r : ringbuf) n, rb_records (snd (rb_reserve r n)) = rb_records r;
  (** a submission ends a reservation *)
  rb_submit_places : forall (r : ringbuf) h ev,
    rb_places r !! h = Some None -> rb_places (rb_submit r h ev) = <[h := Some ev]> (rb_places r);
  rb_submit_records : forall (r : ringbuf) h ev,
    rb_records (rb_submit r h ev) = rb_records r ++ [ev];
  (** the consumer changes the free space only *)
  rb_consume_places : forall (r : ringbuf) h, rb_places (rb_consume r h) = rb_places r;
  rb_consume_records : forall (r : ringbuf) h, rb_records (rb_consume r h) = rb_records r;
}.

(** The two outcomes of a reservation. *)
Inductive reserve_spec {RB : BpfRingbuf} (r : ringbuf) (n : nat)
  : option (list Z) -> option (nat * list Z) * ringbuf -> Prop :=
| Reserved (ev : list Z) (r' : ringbuf) :
    length ev = n -> rb_places r' = rb_places r ++ [None] -> rb_records r' = rb_records r ->
    reserve_spec r n (Some ev) (Some (length (rb_places r), ev), r')
| NotReserved (r' : ringbuf) :
    rb_places r' = rb_places r -> rb_records r' = rb_records r ->
    reserve_spec r n None (None, r').

Lemma rb_reserveP {RB : BpfRingbuf} `{!BpfRingbufLaws} (r : ringbuf) (n : nat) :
  reserve_spec r n (rb_reserved r n) (rb_reserve r n).
Proof.
  pose proof (rb_reserve_length r n) as Hl. pose proof (rb_reserve_place r n) as Hh.
  pose proof (rb_reserve_places r n) as Hp. pose proof (rb_reserve_records r n) as Hr.
  unfold rb_reserved in *. destruct (rb_reserve r n) as [[[h ev]|] r']; simpl in *.
  - rewrite (Hh h ev eq_refl). by constructor; [apply Hl| |].
  - rewrite app_nil_r in Hp. by constructor.
Qed.

(** ** Kernel and user memory

    What the probes of one program run see.  The accessors named after a
    structure member are the CO-RE reads of that member (the offsets come from
    the kernel's BTF and are not in the repository); the four [probe_read]
    functions return the bytes the helper leaves at its destination.
    [read_kernel_local bs] and [read_user_local bs] are the bytes
    [bpf_probe_read_kernel] and [bpf_probe_read_user] leave when their source is
    a variable on the program's own stack that holds [bs]. *)
Record kernel_mem : Type := KernelMem {
  task_start_time : Z -> Z;
  task_real_parent : Z -> Z;
  task_tgid : Z -> Z;
  file_f_inode : Z -> Z;
  file_f_path_dentry : Z -> Z;
  inode_i_ino : Z -> Z;
  inode_i_rdev : Z -> Z;
  dentry_d_name_name : Z -> Z;
  dentry_d_parent : Z -> Z;
  sockaddr_sa_family : Z -> Z;
  user_sockaddr_sa_family : Z -> Z;
  bprm_file : Z -> Z;
  bprm_filename : Z -> Z;
  vma_vm_file : Z -> Z;
  socket_sk : Z -> Z;
  sock_skc_num : Z -> Z;
  probe_read_kernel : Z -> nat -> list Z;
  probe_read_kernel_str : Z -> nat -> list Z;
  probe_read_user : Z -> nat -> list Z;
  probe_read_user_str : Z -> nat -> list Z;
  read_kernel_local : list Z -> list Z;
  read_user_local : list Z -> list Z;
}.

(** A fixed-size probe fills its destination (with zeros on a fault); a string
    probe writes a NUL-terminated string of at most [n] bytes.  The BPF stack is
    kernel memory: the kernel probe copies it, the user probe faults on it and
    clears its destination. *)
Definition fills (read : Z -> nat -> list Z) : Prop :=
  forall a n, length (read a n) = n /\ Forall is_byte (read a n).

Definition terminates (read : Z -> nat -> list Z) : Prop :=
  forall a n, (0 < n)%nat ->
    (length (read a n) <= n)%nat /\
    exists t rest, read a n = t ++ 0 :: rest /\ Forall nonzero t.

Record kernel_mem_ok (km : kernel_mem) : Prop := {
  kernel_fills : fills (probe_read_kernel km);
  user_fills : fills (probe_read_user km);
  kernel_terminates : terminates (probe_read_kernel_str km);
  user_terminates : terminates (probe_read_user_str km);
  kernel_local : forall bs, read_kernel_local km bs = bs;
  user_local : forall bs, read_user_local km bs = repeat 0 (length bs);
}.

(** The context of one program run: the CPU it runs on, what the
    [bpf_get_current_*] and [bpf_ktime_get_ns] helpers return, and the memory. *)
Record ctx : Type := Ctx {
  cpu : Z;
  current_pid_tgid : Z;
  current_task : Z;
  current_comm : list Z;
  ktime : Z;
  km :> kernel_mem;
}.

Definition NULL : Z := 0.

Record ctx_ok (c : ctx) : Prop := {
  ctx_mem : kernel_mem_ok c;
  ctx_comm : length (current_comm c) = 16%nat;
}.

Section string_probe.
Context (read : Z -> nat -> list Z) (Hread : terminates read).

Lemma terminates_length (a : Z) (n : nat) : (0 < n)%nat -> (length (read a n) <= n)%nat.
Proof using Hread. intros Hn. by destruct (Hread a n Hn). Qed.

(** Whatever the array held before, a reader of it sees the probed string. *)
Lemma terminates_cstr (a : Z) (n : nat) (rest : list Z) :
  (0 < n)%nat -> cstr (read a n ++ rest) = cstr (read a n).
Proof using Hread.
  intros Hn. destruct (Hread a n Hn) as (_ & t & r & -> & Ht).
  rewrite <- app_assoc. simpl. by rewrite !cstr_terminated.
Qed.

End string_probe.
