(* ===== verification/KernelRef.v ===== *)
(** An executable kernel: BPF hash maps as bounded association lists, ring
    buffers with a bounded number of free bytes and stale memory, and a memory
    read from finite tables.  It discharges the laws of [Kernel] and is what the
    witnesses evaluate the programs on. *)

From S2P Require Export Kernel.

Local Open Scope Z_scope.

(** ** Maps *)

Definition E2BIG : Z := 7.
Definition ENOENT : Z := 2.

Record bounded (K V : Type) : Type := Bounded {
  max_entries : Z;
  entries : list (K * V);
}.
Arguments Bounded {_ _} _ _.
Arguments max_entries {_ _} _.
Arguments entries {_ _} _.

Section bounded_map.
Context {K V : Type} `{EqDecision K}.

Fixpoint assoc (l : list (K * V)) (k : K) : option V :=
  match l with
  | [] => None
  | (k', v) :: rest => if decide (k = k') then Some v else assoc rest k
  end.

Fixpoint assoc_set (l : list (K * V)) (k : K) (v : V) : list (K * V) :=
  match l with
  | [] => []
  | (k', v') :: rest => if decide (k = k') then (k', v) :: rest else (k', v') :: assoc_set rest k v
  end.

Definition assoc_del (l : list (K * V)) (k : K) : list (K * V) :=
  filter (fun kv => k <> fst kv) l.

Definition bounded_lookup (m : bounded K V) (k : K) : option V := assoc (entries m) k.

Definition bounded_update (m : bounded K V) (k : K) (v : V) : Z * bounded K V :=
  match assoc (entries m) k with
  | Some _ => (0, Bounded (max_entries m) (assoc_set (entries m) k v))
  | None =>
      if Z.of_nat (length (entries m)) <? max_entries m
      then (0, Bounded (max_entries m) ((k, v) :: entries m))
      else (- E2BIG, m)
  end.

Definition bounded_delete (m : bounded K V) (k : K) : Z * bounded K V :=
  match assoc (entries m) k with
  | Some _ => (0, Bounded (max_entries m) (assoc_del (entries m) k))
  | None => (- ENOENT, m)
  end.

Definition bounded_store (m : bounded K V) (k : K) (v : V) : bounded K V :=
  Bounded (max_entries m) (assoc_set (entries m) k v).

Lemma assoc_set_eq (l : list (K * V)) (k : K) (v : V) :
  is_Some (assoc l k) -> assoc (assoc_set l k v) k = Some v.
Proof.
  induction l as [|[k' v'] l IH]; simpl; [by intros [? ?]|].
  destruct (decide (k = k')); simpl; by case_decide; auto.
Qed.

Lemma assoc_set_ne (l : list (K * V)) (k k2 : K) (v : V) :
  k <> k2 -> assoc (assoc_set l k v) k2 = assoc l k2.
Proof.
  intros Hne. induction l as [|[k' v'] l IH]; simpl; [done|].
  destruct (decide (k = k')); simpl; case_decide; subst; done.
Qed.

Lemma assoc_del_eq (l : list (K * V)) (k : K) : assoc (assoc_del l k) k = None.
Proof.
  unfold assoc_del. induction l as [|[k' v'] l IH]; simpl; [done|].
  rewrite filter_cons; simpl. case_decide; [|done].
  simpl. by rewrite decide_False.
Qed.

Lemma assoc_del_ne (l : list (K * V)) (k k2 : K) :
  k <> k2 -> assoc (assoc_del l k) k2 = assoc l k2.
Proof.
  intros Hne. unfold assoc_del. induction l as [|[k' v'] l IH]; simpl; [done|].
  rewrite filter_cons; simpl. case_decide; simpl; case_decide; subst; auto.
  naive_solver.
Qed.

End bounded_map.

#[export] Instance ref_maps : BpfMaps := {|
  hash := bounded;
  map_lookup := fun K V _ => bounded_lookup;
  map_update := fun K V _ => bounded_update;
  map_delete := fun K V _ => bounded_delete;
  map_store := fun K V _ => bounded_store;
|}.

#[export] Instance ref_maps_laws : BpfMapsLaws.
Proof.
  split; intros K V ? m; simpl; unfold bounded_lookup.
  - intros k v. unfold bounded_update. destruct (assoc (entries m) k) eqn:E; simpl.
    + intros _. by apply assoc_set_eq.
    + destruct (_ <? _); simpl; [|done]. by rewrite decide_True.
  - intros k v. unfold bounded_update. destruct (assoc (entries m) k) eqn:E; simpl; [done|].
    destruct (_ <? _); simpl; done.
  - intros k k' v Hne. unfold bounded_update. destruct (assoc (entries m) k) eqn:E; simpl.
    + by apply assoc_set_ne.
    + destruct (_ <? _); simpl; [|done]. by rewrite decide_False.
  - intros k. unfold bounded_delete. destruct (assoc (entries m) k) eqn:E; simpl; [|done].
    apply assoc_del_eq.
  - intros k k' Hne. unfold bounded_delete. destruct (assoc (entries m) k) eqn:E; simpl; [|done].
    by apply assoc_del_ne.
  - intros k v Hs. by apply assoc_set_eq.
  - intros k k' v Hne. by apply assoc_set_ne.
Qed.

Definition empty_map {K V : Type} (n : Z) : bounded K V := Bounded n [].

(** ** Ring buffers *)

(** [rr_free] bytes are left; a reserved record starts out with the byte
    [rr_stale] everywhere, the remains of an earlier record. *)
Record ref_ringbuf : Type := RefRingbuf {
  rr_free : Z;
  rr_stale : Z;
  rr_places : list (option (list Z));
  rr_records : list (list Z);
}.

#[export] Instance ref_rb : BpfRingbuf := {|
  ringbuf := ref_ringbuf;
  rb_reserve r n :=
    if Z.of_nat n <=? rr_free r
    then (Some (length (rr_places r), repeat (rr_stale r) n),
          RefRingbuf (rr_free r - Z.of_nat n) (rr_stale r) (rr_places r ++ [None]) (rr_records r))
    else (None, r);
  rb_submit r h ev :=
    RefRingbuf (rr_free r) (rr_stale r) (<[h := Some ev]> (rr_places r)) (rr_records r ++ [ev]);
  rb_consume r h :=
    match rr_places r !! h with
    | Some (Some ev) =>
        RefRingbuf (rr_free r + Z.of_nat (length ev)) (rr_stale r) (rr_places r) (rr_records r)
    | _ => r
    end;
  rb_places := rr_places;
  rb_records := rr_records;
|}.

#[export] Instance ref_rb_laws : BpfRingbufLaws.
Proof.
  split; unfold rb_reserved; simpl.
  - intros r n ev. destruct (Z.of_nat n <=? rr_free r); simpl; [|done].
    intros [= <-]. apply repeat_length.
  - intros r n h ev. destruct (Z.of_nat n <=? rr_free r); simpl; [|done]. by intros [= <- _].
  - intros r n. destruct (Z.of_nat n <=? rr_free r); simpl; [done|]. by rewrite app_nil_r.
  - intros r n. by destruct (Z.of_nat n <=? rr_free r).
  - done.
  - done.
  - intros r h. by destruct (rr_places r !! h) as [[ev|]|].
  - intros r h. by destruct (rr_places r !! h) as [[ev|]|].
Qed.

(** ** Memory *)

(** A table from addresses to values, 0 elsewhere. *)
Definition table (l : list (Z * Z)) (a : Z) : Z := default 0 (assoc l a).

Definition blob (l : list (Z * list Z)) (a : Z) : list Z := default [] (assoc l a).

(** The first [n] bytes stored at [a], padded with zeros. *)
Definition blob_read (l : list (Z * list Z)) (a : Z) (n : nat) : list Z :=
  let bs := take n (map (fun b => b `mod` 256) (blob l a)) in
  bs ++ repeat 0 (n - length bs).

Definition blob_read_str (l : list (Z * list Z)) (a : Z) (n : nat) : list Z :=
  take (n - 1) (cstr (blob l a)) ++ [0].

Lemma blob_read_fills (l : list (Z * list Z)) : fills (blob_read l).
Proof.
  intros a n. unfold blob_read. split.
  - rewrite length_app, repeat_length, length_take. lia.
  - apply Forall_app. split.
    + apply Forall_take, Forall_map, Forall_true. intros x. apply Z.mod_pos_bound. lia.
    + apply Forall_forall. intros x Hx%list_elem_of_In%repeat_spec. subst. unfold is_byte. lia.
Qed.

Lemma blob_read_str_terminates (l : list (Z * list Z)) : terminates (blob_read_str l).
Proof.
  intros a n Hn. unfold blob_read_str. split.
  - rewrite length_app, length_take. simpl. lia.
  - exists (take (n - 1) (cstr (blob l a))), []. split; [done|].
    apply Forall_take, cstr_nonzero.
Qed.
