(* ===== verification/BpfState.v ===== *)
(** The state the eBPF programs share (the map and ring buffer declarations of
    src/linux/ebpf/kinnector.bpf.c, lines 137-240), the helper calls on it, and
    the helpers common to all hooks (lines 247-278). *)

From S2P Require Export KernelLayout Kernel.

Local Open Scope Z_scope.

(** The arguments a pending tty read is remembered by. *)
Record tty_read_req : Type := TtyReadReq { req_file : Z; req_buf : Z }.

Section bpf_state.
Context {BM : BpfMaps} {RB : BpfRingbuf}.

(** ** State *)

(** One field per map and ring buffer.  The key of the per-CPU array
    [seq_counter] is the CPU with the index, so that each CPU has its own cell. *)
Record bst : Type := Bst {
  st_category_flags_map : hash process_key Z;
  st_pending_network_connect : hash process_key Z;
  st_trusted_ancestor_roots : hash process_key Z;
  st_sensitive_inodes_map : hash Z Z;
  st_trusted_exec_inodes : hash Z Z;
  st_process_threshold_map : hash process_key Z;
  st_config_map : hash Z Z;
  st_tainted_process_map : hash process_key Z;
  st_seq_counter : hash (Z * Z) Z;
  st_pending_tty_reads : hash Z tty_read_req;
  st_telemetry_ringbuf : ringbuf;
  st_tty_ringbuf : ringbuf;
}.

(** [&map]: where a map lives in the state. *)
Record slot (T : Type) : Type := Slot {
  slot_get : bst -> T;
  slot_set : T -> bst -> bst;
}.
#[global] Arguments Slot {T} _ _.
#[global] Arguments slot_get {T} _ _.
#[global] Arguments slot_set {T} _ _ _.

Definition category_flags_map : slot (hash process_key Z) :=
  Slot st_category_flags_map (fun v s =>
    Bst v (st_pending_network_connect s) (st_trusted_ancestor_roots s)
      (st_sensitive_inodes_map s) (st_trusted_exec_inodes s)
      (st_process_threshold_map s) (st_config_map s) (st_tainted_process_map s)
      (st_seq_counter s) (st_pending_tty_reads s) (st_telemetry_ringbuf s)
      (st_tty_ringbuf s)).

Definition pending_network_connect : slot (hash process_key Z) :=
  Slot st_pending_network_connect (fun v s =>
    Bst (st_category_flags_map s) v (st_trusted_ancestor_roots s)
      (st_sensitive_inodes_map s) (st_trusted_exec_inodes s)
      (st_process_threshold_map s) (st_config_map s) (st_tainted_process_map s)
      (st_seq_counter s) (st_pending_tty_reads s) (st_telemetry_ringbuf s)
      (st_tty_ringbuf s)).

Definition trusted_ancestor_roots : slot (hash process_key Z) :=
  Slot st_trusted_ancestor_roots (fun v s =>
    Bst (st_category_flags_map s) (st_pending_network_connect s) v
      (st_sensitive_inodes_map s) (st_trusted_exec_inodes s)
      (st_process_threshold_map s) (st_config_map s) (st_tainted_process_map s)
      (st_seq_counter s) (st_pending_tty_reads s) (st_telemetry_ringbuf s)
      (st_tty_ringbuf s)).

Definition sensitive_inodes_map : slot (hash Z Z) :=
  Slot st_sensitive_inodes_map (fun v s =>
    Bst (st_category_flags_map s) (st_pending_network_connect s)
      (st_trusted_ancestor_roots s) v (st_trusted_exec_inodes s)
      (st_process_threshold_map s) (st_config_map s) (st_tainted_process_map s)
      (st_seq_counter s) (st_pending_tty_reads s) (st_telemetry_ringbuf s)
      (st_tty_ringbuf s)).

Definition trusted_exec_inodes : slot (hash Z Z) :=
  Slot st_trusted_exec_inodes (fun v s =>
    Bst (st_category_flags_map s) (st_pending_network_connect s)
      (st_trusted_ancestor_roots s) (st_sensitive_inodes_map s) v
      (st_process_threshold_map s) (st_config_map s) (st_tainted_process_map s)
      (st_seq_counter s) (st_pending_tty_reads s) (st_telemetry_ringbuf s)
      (st_tty_ringbuf s)).

Definition process_threshold_map : slot (hash process_key Z) :=
  Slot st_process_threshold_map (fun v s =>
    Bst (st_category_flags_map s) (st_pending_network_connect s)
      (st_trusted_ancestor_roots s) (st_sensitive_inodes_map s)
      (st_trusted_exec_inodes s) v (st_config_map s) (st_tainted_process_map s)
      (st_seq_counter s) (st_pending_tty_reads s) (st_telemetry_ringbuf s)
      (st_tty_ringbuf s)).

Definition config_map : slot (hash Z Z) :=
  Slot st_config_map (fun v s =>
    Bst (st_category_flags_map s) (st_pending_network_connect s)
      (st_trusted_ancestor_roots s) (st_sensitive_inodes_map s)
      (st_trusted_exec_inodes s) (st_process_threshold_map s) v
      (st_tainted_process_map s) (st_seq_counter s) (st_pending_tty_reads s)
      (st_telemetry_ringbuf s) (st_tty_ringbuf s)).

Definition tainted_process_map : slot (hash process_key Z) :=
  Slot st_tainted_process_map (fun v s =>
    Bst (st_category_flags_map s) (st_pending_network_connect s)
      (st_trusted_ancestor_roots s) (st_sensitive_inodes_map s)
      (st_trusted_exec_inodes s) (st_process_threshold_map s) (st_config_map s) v
      (st_seq_counter s) (st_pending_tty_reads s) (st_telemetry_ringbuf s)
      (st_tty_ringbuf s)).

Definition seq_counter : slot (hash (Z * Z) Z) :=
  Slot st_seq_counter (fun v s =>
    Bst (st_category_flags_map s) (st_pending_network_connect s)
      (st_trusted_ancestor_roots s) (st_sensitive_inodes_map s)
      (st_trusted_exec_inodes s) (st_process_threshold_map s) (st_config_map s)
      (st_tainted_process_map s) v (st_pending_tty_reads s) (st_telemetry_ringbuf s)
      (st_tty_ringbuf s)).

Definition pending_tty_reads : slot (hash Z tty_read_req) :=
  Slot st_pending_tty_reads (fun v s =>
    Bst (st_category_flags_map s) (st_pending_network_connect s)
      (st_trusted_ancestor_roots s) (st_sensitive_inodes_map s)
      (st_trusted_exec_inodes s) (st_process_threshold_map s) (st_config_map s)
      (st_tainted_process_map s) (st_seq_counter s) v (st_telemetry_ringbuf s)
      (st_tty_ringbuf s)).

Definition telemetry_ringbuf : slot (ringbuf) :=
  Slot st_telemetry_ringbuf (fun v s =>
    Bst (st_category_flags_map s) (st_pending_network_connect s)
      (st_trusted_ancestor_roots s) (st_sensitive_inodes_map s)
      (st_trusted_exec_inodes s) (st_process_threshold_map s) (st_config_map s)
      (st_tainted_process_map s) (st_seq_counter s) (st_pending_tty_reads s) v
      (st_tty_ringbuf s)).

Definition tty_ringbuf : slot (ringbuf) :=
  Slot st_tty_ringbuf (fun v s =>
    Bst (st_category_flags_map s) (st_pending_network_connect s)
      (st_trusted_ancestor_roots s) (st_sensitive_inodes_map s)
      (st_trusted_exec_inodes s) (st_process_threshold_map s) (st_config_map s)
      (st_tainted_process_map s) (st_seq_counter s) (st_pending_tty_reads s)
      (st_telemetry_ringbuf s) v).

(** The field behind each slot. *)
Lemma get_category_flags_map (s : bst) : slot_get category_flags_map s = st_category_flags_map s.
Proof. done. Qed.
Lemma get_pending_network_connect (s : bst) : slot_get pending_network_connect s = st_pending_network_connect s.
Proof. done. Qed.
Lemma get_trusted_ancestor_roots (s : bst) : slot_get trusted_ancestor_roots s = st_trusted_ancestor_roots s.
Proof. done. Qed.
Lemma get_sensitive_inodes_map (s : bst) : slot_get sensitive_inodes_map s = st_sensitive_inodes_map s.
Proof. done. Qed.
Lemma get_trusted_exec_inodes (s : bst) : slot_get trusted_exec_inodes s = st_trusted_exec_inodes s.
Proof. done. Qed.
Lemma get_process_threshold_map (s : bst) : slot_get process_threshold_map s = st_process_threshold_map s.
Proof. done. Qed.
Lemma get_config_map (s : bst) : slot_get config_map s = st_config_map s.
Proof. done. Qed.
Lemma get_tainted_process_map (s : bst) : slot_get tainted_process_map s = st_tainted_process_map s.
Proof. done. Qed.
Lemma get_seq_counter (s : bst) : slot_get seq_counter s = st_seq_counter s.
Proof. done. Qed.
Lemma get_pending_tty_reads (s : bst) : slot_get pending_tty_reads s = st_pending_tty_reads s.
Proof. done. Qed.
Lemma get_telemetry_ringbuf (s : bst) : slot_get telemetry_ringbuf s = st_telemetry_ringbuf s.
Proof. done. Qed.
Lemma get_tty_ringbuf (s : bst) : slot_get tty_ringbuf s = st_tty_ringbuf s.
Proof. done. Qed.

(** ** Helper calls *)

Definition bpf_map_lookup_elem {K V : Type} `{EqDecision K} (m : slot (hash K V)) (k : K)
  : prog bst (option V) := gets (fun s => map_lookup (slot_get m s) k).

Definition bpf_map_update_elem {K V : Type} `{EqDecision K} (m : slot (hash K V)) (k : K) (v : V)
  : prog bst Z :=
  act (fun s => let '(rc, m') := map_update (slot_get m s) k v in (rc, slot_set m m' s)).

Definition bpf_map_delete_elem {K V : Type} `{EqDecision K} (m : slot (hash K V)) (k : K)
  : prog bst Z :=
  act (fun s => let '(rc, m') := map_delete (slot_get m s) k in (rc, slot_set m m' s)).

(** [*p = v], for the pointer [p] a lookup of [k] returned. *)
Definition write_elem {K V : Type} `{EqDecision K} (m : slot (hash K V)) (k : K) (v : V)
  : prog bst unit := modify (fun s => slot_set m (map_store (slot_get m s) k v) s).

Definition bpf_ringbuf_reserve (r : slot ringbuf) (n : nat) : prog bst (option (nat * list Z)) :=
  act (fun s => let '(ev, r') := rb_reserve (slot_get r s) n in (ev, slot_set r r' s)).

Definition bpf_ringbuf_submit (r : slot ringbuf) (h : nat) (ev : list Z) : prog bst unit :=
  modify (fun s => slot_set r (rb_submit (slot_get r s) h ev) s).

(** [p && *p == v] *)
Definition deref_is (p : option Z) (v : Z) : bool :=
  match p with Some x => x =? v | None => false end.

(** [event = bpf_ringbuf_reserve(..); if (event) { body; bpf_ringbuf_submit(event, 0); }] *)
Definition with_record (r : slot ringbuf) (n : nat) (body : list Z -> prog bst (list Z))
  : prog bst unit :=
  event ← bpf_ringbuf_reserve r n;
  match event with
  | Some (h, ev) => ev ← body ev; bpf_ringbuf_submit r h ev
  | None => mret tt
  end.

Definition with_event (body : list Z -> prog bst (list Z)) : prog bst unit :=
  with_record telemetry_ringbuf sizeof_TelemetryEvent body.

(** ** Helpers of the program *)

Definition get_current_process_key (c : ctx) : process_key :=
  let pid_tgid := current_pid_tgid c in
  let task := current_task c in
  ProcessKey (wrap 32 (Z.shiftr pid_tgid 32))
    (if task =? NULL then 0 else task_start_time c task).

Definition next_seq (c : ctx) : prog bst Z :=
  let idx := 0 in
  cnt ← bpf_map_lookup_elem seq_counter (cpu c, idx);
  match cnt with
  | Some v =>
      write_elem seq_counter (cpu c, idx) (wrap 64 (v + 1));;
      mret (wrap 64 (v + 1))
  | None => mret 0
  end.

Definition fill_header (c : ctx) (ev : list Z) (event_type source pid : Z) : prog bst (list Z) :=
  seq ← next_seq c;
  let ev := put_uint h_sequence_number seq ev in
  let ev := put_uint h_timestamp_ns (ktime c) ev in
  let ev := put_uint h_pid pid ev in
  let ev := put_uint h_event_type event_type ev in
  let ev := put_uint h_source source ev in
  mret ev.

(** The parent that the exec hook and its tracepoint report. *)
Definition real_parent_tgid (c : ctx) : Z :=
  let task := current_task c in
  if task =? NULL then 0 else
  let real_parent := task_real_parent c task in
  if real_parent =? NULL then 0 else wrap 32 (task_tgid c real_parent).

End bpf_state.

#[global] Arguments bst {BM RB}.

Create Rewrite HintDb slots.
#[export] Hint Rewrite @get_category_flags_map @get_pending_network_connect
  @get_trusted_ancestor_roots @get_sensitive_inodes_map @get_trusted_exec_inodes
  @get_process_threshold_map @get_config_map @get_tainted_process_map @get_seq_counter
  @get_pending_tty_reads @get_telemetry_ringbuf @get_tty_ringbuf : slots.

(** Reads a field of an updated state, in the goal and in the hypotheses. *)
Ltac is_state_field p :=
  lazymatch p with
  | @st_category_flags_map _ _ => idtac
  | @st_pending_network_connect _ _ => idtac
  | @st_trusted_ancestor_roots _ _ => idtac
  | @st_sensitive_inodes_map _ _ => idtac
  | @st_trusted_exec_inodes _ _ => idtac
  | @st_process_threshold_map _ _ => idtac
  | @st_config_map _ _ => idtac
  | @st_tainted_process_map _ _ => idtac
  | @st_seq_counter _ _ => idtac
  | @st_pending_tty_reads _ _ => idtac
  | @st_telemetry_ringbuf _ _ => idtac
  | @st_tty_ringbuf _ _ => idtac
  end.

Ltac reduce_field t :=
  eval cbn [slot_set category_flags_map pending_network_connect trusted_ancestor_roots
      sensitive_inodes_map trusted_exec_inodes process_threshold_map config_map
      tainted_process_map seq_counter pending_tty_reads telemetry_ringbuf tty_ringbuf
      st_category_flags_map st_pending_network_connect st_trusted_ancestor_roots
      st_sensitive_inodes_map st_trusted_exec_inodes st_process_threshold_map
      st_config_map st_tainted_process_map st_seq_counter st_pending_tty_reads
      st_telemetry_ringbuf st_tty_ringbuf] in t.

Ltac read_slots :=
  repeat match goal with
    | |- context [?p (slot_set ?m ?v ?s)] =>
        is_state_field p; let t := constr:(p (slot_set m v s)) in
        let t' := reduce_field t in change t with t'
    | H : context [?p (slot_set ?m ?v ?s)] |- _ =>
        is_state_field p; let t := constr:(p (slot_set m v s)) in
        let t' := reduce_field t in change t with t' in H
    end.

(** A string probed into a character array of the record. *)
Definition put_str (read : Z -> nat -> list Z) (f : field) (addr : Z) (ev : list Z) : list Z :=
  put f (read addr (f_len f)) ev.

(** A local [char arr[n] = {0}] after a string probe into it. *)
Definition local_str (read : Z -> nat -> list Z) (n : nat) (addr : Z) : list Z :=
  put (Field 0 n) (read addr n) (repeat 0 n).

(** [arr[i] == pat[0] && arr[i+1] == pat[1] && ...] *)
Fixpoint bytes_at (arr : list Z) (i : nat) (pat : list Z) : bool :=
  match pat with
  | [] => true
  | b :: rest => (byte_at arr i =? b) && bytes_at arr (S i) rest
  end.

(** [((x & 0xFF) << 8) | ((x >> 8) & 0xFF)] *)
Definition swap16 (x : Z) : Z :=
  Z.lor (Z.shiftl (Z.land x 255) 8) (Z.land (Z.shiftr x 8) 255).
