(* ===== verification/BpfFacts.v ===== *)
(** Shared facts about the eBPF programs: which parts of the state a program
    leaves alone (frames), what committing one record does, and the header every
    record carries.  The hint databases [preserves] and [event_body] are filled
    here. *)

From S2P Require Export BpfState.
From S2P Require UserLayout.

Local Open Scope Z_scope.

(** ** Records *)

(** The header occupies the first 22 bytes; the details follow. *)
Definition header_region : field := Field 0 22.

(** [tail_update ev ev']: [ev'] differs from [ev] in the details only. *)
Definition tail_update (ev ev' : list Z) : Prop :=
  length ev' = length ev /\ get header_region ev' = get header_region ev.

#[export] Instance tail_update_preorder : PreOrder tail_update.
Proof. split; [done | intros ev1 ev2 ev3 [??] [??]; split; congruence]. Qed.

Definition in_tail (f : field) : bool :=
  ((22 <=? f_off f) && (f_end f <=? sizeof_TelemetryEvent))%nat.

(** Integer stores into a record of the right size. *)
Lemma length_put_event (f : field) (v : Z) (ev : list Z) :
  (f_end f <=? sizeof_TelemetryEvent)%nat = true -> length ev = sizeof_TelemetryEvent ->
  length (put_uint f v ev) = sizeof_TelemetryEvent.
Proof. intros Hf Hl. rewrite length_put_uint; [done|]. unfold within. by rewrite Hl. Qed.

Lemma get_put_event (f : field) (v : Z) (ev : list Z) :
  (f_end f <=? sizeof_TelemetryEvent)%nat = true -> length ev = sizeof_TelemetryEvent ->
  get f (put_uint f v ev) = le_enc (f_len f) v.
Proof.
  intros Hf Hl. apply get_put_eq; [by unfold within; rewrite Hl | apply length_le_enc].
Qed.

Lemma get_put_event_ne (f g : field) (v : Z) (ev : list Z) :
  length ev = sizeof_TelemetryEvent ->
  disjoint_fields f g = true -> (f_end g <=? sizeof_TelemetryEvent)%nat = true ->
  get f (put_uint g v ev) = get f ev.
Proof.
  intros Hl Hd Hf. apply get_put_uint_disjoint; [done|]. by unfold within; rewrite Hl.
Qed.

Section tail.
Context (ev0 : list Z) (Hlen : length ev0 = sizeof_TelemetryEvent).

Lemma tail_put (f : field) (v ev : list Z) :
  in_tail f = true -> (length v <= f_len f)%nat ->
  tail_update ev0 ev -> tail_update ev0 (put f v ev).
Proof using Hlen.
  intros [H1%Nat.leb_le H2]%andb_true_iff Hv [Hl Hh].
  assert (within f (length ev) = true) as Hw by (unfold within; by rewrite Hl, Hlen).
  split.
  - by rewrite length_put.
  - rewrite get_put_disjoint; [done| |done|done].
    unfold disjoint_fields, header_region, f_end at 1; simpl f_off; simpl f_len.
    apply orb_true_iff. left. by apply Nat.leb_le.
Qed.

Lemma tail_put_uint (f : field) (v : Z) (ev : list Z) :
  in_tail f = true -> tail_update ev0 ev -> tail_update ev0 (put_uint f v ev).
Proof using Hlen. intros. apply tail_put; [done | by rewrite length_le_enc | done]. Qed.

Lemma tail_put_str (read : Z -> nat -> list Z) (f : field) (a : Z) (ev : list Z) :
  terminates read -> in_tail f = true -> (0 <? f_len f)%nat = true ->
  tail_update ev0 ev -> tail_update ev0 (put_str read f a ev).
Proof using Hlen.
  intros Hr Hf Hn%Nat.ltb_lt Ht. apply tail_put; [done | by apply terminates_length | done].
Qed.

End tail.

(** The header as a callback in user space reads it. *)
Lemma read_header_region (ev ev' : list Z) :
  get header_region ev = get header_region ev' ->
  UserLayout.read_header ev = UserLayout.read_header ev'.
Proof.
  intros Heq.
  assert (forall f, (f_end f <= 22)%nat -> get_uint f ev = get_uint f ev') as Hf.
  { intros f Hf. unfold get_uint. f_equal.
    pose proof (get_get f header_region ev Hf) as H1.
    pose proof (get_get f header_region ev' Hf) as H2.
    destruct f. simpl in H1, H2. by rewrite <- H1, <- H2, Heq. }
  unfold UserLayout.read_header. f_equal; apply Hf, Nat.leb_le; reflexivity.
Qed.

Section facts.
Context {BM : BpfMaps} {RB : BpfRingbuf}.

(** ** Frames *)

(** The maps the hooks decide on and user space configures. *)
Record same_maps (s s' : bst) : Prop := SameMaps {
  same_category_flags : st_category_flags_map s' = st_category_flags_map s;
  same_pending_network : st_pending_network_connect s' = st_pending_network_connect s;
  same_trusted_roots : st_trusted_ancestor_roots s' = st_trusted_ancestor_roots s;
  same_sensitive_inodes : st_sensitive_inodes_map s' = st_sensitive_inodes_map s;
  same_trusted_exec : st_trusted_exec_inodes s' = st_trusted_exec_inodes s;
  same_threshold : st_process_threshold_map s' = st_process_threshold_map s;
  same_config : st_config_map s' = st_config_map s;
  same_tainted : st_tainted_process_map s' = st_tainted_process_map s;
  same_tty_reads : st_pending_tty_reads s' = st_pending_tty_reads s;
}.

#[export] Instance same_maps_preorder : PreOrder same_maps.
Proof.
  split; [by intros s; split|].
  intros s1 s2 s3 [] []; split; congruence.
Qed.

(** What a program does not say about itself: committed records and counters. *)
Definition records (s : bst) : list (list Z) := rb_records (st_telemetry_ringbuf s).
Definition tty_records (s : bst) : list (list Z) := rb_records (st_tty_ringbuf s).

Record quiet (s s' : bst) : Prop := Quiet {
  quiet_records : records s' = records s;
  quiet_seq : st_seq_counter s' = st_seq_counter s;
}.

#[export] Instance quiet_preorder : PreOrder quiet.
Proof.
  split; [by intros s; split|].
  intros s1 s2 s3 [] []; split; congruence.
Qed.

(** The maps only user space writes. *)
Record same_config_maps (s s' : bst) : Prop := SameConfigMaps {
  scm_sensitive_inodes : st_sensitive_inodes_map s' = st_sensitive_inodes_map s;
  scm_trusted_exec : st_trusted_exec_inodes s' = st_trusted_exec_inodes s;
  scm_config : st_config_map s' = st_config_map s;
}.

#[export] Instance same_config_maps_preorder : PreOrder same_config_maps.
Proof.
  split; [by intros s; split|].
  intros s1 s2 s3 [] []; split; congruence.
Qed.

(** A part of the state a program leaves alone. *)
Definition fixes {T : Type} (f : bst -> T) : relation bst := fun s s' => f s' = f s.

#[export] Instance fixes_preorder {T : Type} (f : bst -> T) : PreOrder (fixes f).
Proof. split; unfold fixes; [by intros s | intros s1 s2 s3 ??; congruence]. Qed.

(** A lookup changes nothing. *)
Lemma preserves_lookup {K V : Type} `{EqDecision K} (R : relation bst) `{!PreOrder R}
    (m : slot (hash K V)) (k : K) : preserves R (bpf_map_lookup_elem m k).
Proof. by apply preserves_gets. Qed.

(** [frame_slot R m]: replacing the content of [m] is within [R]. *)
Definition frame_slot {T : Type} (R : relation bst) (m : slot T) : Prop :=
  forall v s, R s (slot_set m v s).

Lemma preserves_update {K V : Type} `{EqDecision K} (R : relation bst)
    (m : slot (hash K V)) (k : K) (v : V) :
  frame_slot R m -> preserves R (bpf_map_update_elem m k v).
Proof.
  intros HR. apply preserves_act. intros s. destruct (map_update _ k v). apply HR.
Qed.

Lemma preserves_delete {K V : Type} `{EqDecision K} (R : relation bst)
    (m : slot (hash K V)) (k : K) :
  frame_slot R m -> preserves R (bpf_map_delete_elem m k).
Proof.
  intros HR. apply preserves_act. intros s. destruct (map_delete _ k). apply HR.
Qed.

(** The same, when only this update is known to be within [R]. *)
Lemma preserves_update_at {K V : Type} `{EqDecision K} (R : relation bst)
    (m : slot (hash K V)) (k : K) (v : V) :
  (forall s, R s (slot_set m (snd (map_update (slot_get m s) k v)) s)) ->
  preserves R (bpf_map_update_elem m k v).
Proof.
  intros HR. apply preserves_act. intros s. specialize (HR s). by destruct (map_update _ k v).
Qed.

Lemma preserves_delete_at {K V : Type} `{EqDecision K} (R : relation bst)
    (m : slot (hash K V)) (k : K) :
  (forall s, R s (slot_set m (snd (map_delete (slot_get m s) k)) s)) ->
  preserves R (bpf_map_delete_elem m k).
Proof.
  intros HR. apply preserves_act. intros s. specialize (HR s). by destruct (map_delete _ k).
Qed.

Lemma preserves_write {K V : Type} `{EqDecision K} (R : relation bst)
    (m : slot (hash K V)) (k : K) (v : V) :
  frame_slot R m -> preserves R (write_elem m k v).
Proof. intros HR. apply preserves_act. intros s. apply HR. Qed.

Lemma preserves_with_record (R : relation bst) `{!PreOrder R} (r : slot ringbuf) (n : nat)
    (body : list Z -> prog bst (list Z)) :
  frame_slot R r -> (forall ev, preserves R (body ev)) -> preserves R (with_record r n body).
Proof.
  intros HR Hb. apply preserves_bind.
  - apply preserves_act. intros s. destruct (rb_reserve _ n). apply HR.
  - intros [[h ev]|]; [|apply preserves_ret]. apply preserves_bind; [apply Hb|].
    intros ev'. apply preserves_act. intros s. apply HR.
Qed.

Lemma preserves_next_seq (R : relation bst) `{!PreOrder R} (c : ctx) :
  frame_slot R seq_counter -> preserves R (next_seq c).
Proof.
  intros HR. apply preserves_bind; [by apply preserves_lookup|].
  intros [v|]; [|apply preserves_ret].
  apply preserves_bind; [by apply preserves_write | intros; apply preserves_ret].
Qed.

Lemma preserves_fill_header (R : relation bst) `{!PreOrder R} (c : ctx) (ev : list Z)
    (t src p : Z) :
  frame_slot R seq_counter -> preserves R (fill_header c ev t src p).
Proof. intros HR. apply preserves_bind; [by apply preserves_next_seq | intros; apply preserves_ret]. Qed.

(** ** Committing a record *)

Context `{!BpfRingbufLaws}.

(** What a record says in its header, as user space decodes it. *)
Definition header_is (c : ctx) (seq t src p : Z) (ev : list Z) : Prop :=
  UserLayout.read_header ev =
    UserLayout.HeaderView (wrap 64 seq) (wrap 64 (ktime c)) (wrap 32 p) (wrap 8 t) (wrap 8 src).

(** A body stores the header, and touches only the details of the record before and
    after it: its only effect is to draw one sequence number. *)
Definition event_body (c : ctx) (t src p : Z) (body : list Z -> prog bst (list Z)) : Prop :=
  forall ev, length ev = sizeof_TelemetryEvent ->
    exists ev0 fill, body ev = (ev1 ← fill_header c ev0 t src p; mret (fill ev1)) /\
      length ev0 = sizeof_TelemetryEvent /\
      forall ev1, length ev1 = sizeof_TelemetryEvent -> tail_update ev1 (fill ev1).

(** The stores of the header, for any sequence number. *)
Lemma header_stored (c : ctx) (ev : list Z) (seq t src p : Z) :
  length ev = sizeof_TelemetryEvent ->
  let ev1 := put_uint h_source src (put_uint h_event_type t (put_uint h_pid p
    (put_uint h_timestamp_ns (ktime c) (put_uint h_sequence_number seq ev)))) in
  length ev1 = sizeof_TelemetryEvent /\ header_is c seq t src p ev1.
Proof using.
  intros Hl ev1. split; [by repeat apply length_put_event|].
  unfold header_is, UserLayout.read_header, get_uint, ev1.
  change (UserLayout.hdr "sequence_number") with h_sequence_number.
  change (UserLayout.hdr "timestamp_ns") with h_timestamp_ns.
  change (UserLayout.hdr "pid") with h_pid.
  change (UserLayout.hdr "event_type") with h_event_type.
  change (UserLayout.hdr "source") with h_source.
  f_equal; repeat rewrite get_put_event_ne by (repeat apply length_put_event; done);
    rewrite get_put_event by (repeat apply length_put_event; done); apply le_dec_enc.
Qed.

Lemma fill_header_run (c : ctx) (ev : list Z) (t src p : Z) (s : bst) :
  length ev = sizeof_TelemetryEvent ->
  exists ev1, fill_header c ev t src p s = (ev1, snd (next_seq c s)) /\
    length ev1 = sizeof_TelemetryEvent /\ header_is c (fst (next_seq c s)) t src p ev1.
Proof using.
  intros Hl. unfold fill_header. rewrite run_bind, run_ret.
  eexists; split; [done | by apply header_stored].
Qed.

(** What comes after the header keeps it. *)
Lemma header_kept (c : ctx) (ev1 ev2 : list Z) (seq t src p : Z) :
  length ev1 = sizeof_TelemetryEvent /\ header_is c seq t src p ev1 -> tail_update ev1 ev2 ->
  length ev2 = sizeof_TelemetryEvent /\ header_is c seq t src p ev2.
Proof using.
  intros [Hl Hh] [Hl2 Hr]. split; [by rewrite Hl2|]. unfold header_is.
  by rewrite (read_header_region _ _ Hr).
Qed.

(** A body run alone. *)
Lemma event_body_run (c : ctx) (t src p : Z) (body : list Z -> prog bst (list Z)) (ev : list Z)
    (s : bst) :
  event_body c t src p body -> length ev = sizeof_TelemetryEvent ->
  length (fst (body ev s)) = sizeof_TelemetryEvent /\
  snd (body ev s) = snd (next_seq c s) /\
  header_is c (fst (next_seq c s)) t src p (fst (body ev s)).
Proof using.
  intros Hb Hl. destruct (Hb ev Hl) as (ev0 & fill & -> & Hl0 & Hfill).
  rewrite run_bind. destruct (fill_header_run c ev0 t src p s Hl0) as (ev1 & -> & H1).
  cbn [fst snd]. rewrite run_ret.
  destruct (header_kept c _ _ _ _ _ _ H1 (Hfill _ (proj1 H1))) as [H2 H3]. done.
Qed.

(** [emits c t src p s s']: exactly one record was committed, with that header,
    and the CPU's sequence counter advanced to the number it carries. *)
Record emits (c : ctx) (t src p : Z) (s s' : bst) (ev : list Z) : Prop := Emits {
  emits_records : records s' = records s ++ [ev];
  emits_length : length ev = sizeof_TelemetryEvent;
  emits_seq : st_seq_counter s' = st_seq_counter (snd (next_seq c s));
  emits_header : header_is c (fst (next_seq c s)) t src p ev;
}.

Lemma next_seq_only_seq (c : ctx) (s : bst) :
  exists m, snd (next_seq c s) = slot_set seq_counter m s.
Proof.
  unfold next_seq. rewrite run_bind. simpl.
  destruct (map_lookup (st_seq_counter s) (cpu c, 0)); simpl;
    [by eexists|].
  exists (st_seq_counter s). by destruct s.
Qed.

Lemma next_seq_cong (c : ctx) (s s' : bst) :
  st_seq_counter s' = st_seq_counter s ->
  fst (next_seq c s') = fst (next_seq c s) /\
  st_seq_counter (snd (next_seq c s')) = st_seq_counter (snd (next_seq c s)).
Proof.
  intros Heq. unfold next_seq. rewrite !run_bind. simpl. rewrite Heq.
  destruct (map_lookup (st_seq_counter s) (cpu c, 0)); simpl; by rewrite Heq.
Qed.

(** [with_event] with a reservation: one record, the body run on the reserved
    bytes. *)
Lemma with_event_reserved (c : ctx) (t src p : Z) body (s : bst) (ev0 : list Z) :
  event_body c t src p body ->
  rb_reserved (st_telemetry_ringbuf s) sizeof_TelemetryEvent = Some ev0 ->
  length ev0 = sizeof_TelemetryEvent /\
  exists s1, emits c t src p s (snd (with_event body s)) (fst (body ev0 s1)).
Proof.
  intros Hb Hres. unfold with_event, with_record, bpf_ringbuf_reserve. rewrite run_bind, run_act.
  cbn [slot_get telemetry_ringbuf].
  destruct (rb_reserveP (st_telemetry_ringbuf s) sizeof_TelemetryEvent) as [ev r Hlen _ Hrec|]; [|done].
  injection Hres as ->. split; [done|]. cbn [fst snd]. rewrite run_bind.
  set (s1 := slot_set telemetry_ringbuf r s). exists s1.
  destruct (event_body_run c t src p body ev0 s1 Hb Hlen) as (Hl & Hs & Hh).
  destruct (next_seq_cong c s s1) as [Hf Hq]; [done|].
  destruct (next_seq_only_seq c s1) as [m Hm]. unfold bpf_ringbuf_submit, modify. rewrite run_act.
  split; cbn [snd].
  - unfold records. rewrite Hs, Hm. cbn. by rewrite rb_submit_records, Hrec.
  - done.
  - by rewrite Hs.
  - by rewrite <- Hf.
Qed.

(** Without one, nothing is committed and no number is drawn. *)
Lemma with_event_dropped (body : list Z -> prog bst (list Z)) (s : bst) :
  rb_reserved (st_telemetry_ringbuf s) sizeof_TelemetryEvent = None ->
  quiet s (snd (with_event body s)).
Proof.
  intros Hres. unfold with_event, with_record, bpf_ringbuf_reserve. rewrite run_bind, run_act.
  cbn [slot_get telemetry_ringbuf].
  by destruct (rb_reserveP (st_telemetry_ringbuf s) sizeof_TelemetryEvent).
Qed.

End facts.

#[export] Hint Resolve preserves_lookup preserves_update preserves_delete preserves_write
  preserves_next_seq preserves_fill_header : preserves.
#[export] Hint Extern 1 (frame_slot _ _) => 
  (intros ? ?; first [split; reflexivity | unfold fixes; reflexivity]) : preserves.
