(* ===== verification/LsmHooks.v ===== *)
(** The BPF LSM hooks of src/linux/ebpf/kinnector.bpf.c (lines 284-791): each is
    a program over the shared state that returns 0 or [-EACCES].  The second part
    proves that every record body is well formed. *)

From S2P Require Export BpfFacts.

Local Open Scope Z_scope.

Section lsm_hooks.
Context {BM : BpfMaps} {RB : BpfRingbuf}.

(** ** lsm/file_open *)

(** The name test of the procfs, input device and uinput veto. *)
Definition is_blocked_dev (c : ctx) (file mask : Z) : bool :=
  let dentry := file_f_path_dentry c file in
  if dentry =? NULL then false else
  let filename := local_str (probe_read_kernel_str c) 32 (dentry_d_name_name c dentry) in
  let parent := dentry_d_parent c dentry in
  let parent_name :=
    if parent =? NULL then repeat 0 32
    else local_str (probe_read_kernel_str c) 32 (dentry_d_name_name c parent) in
  if bytes_at parent_name 0 (str "input" ++ [0]) then bytes_at filename 0 (str "event")
  else if bytes_at filename 0 (str "uinput" ++ [0]) then true
  else if bytes_at filename 0 (str "mem" ++ [0]) then
    (48 <=? byte_at parent_name 0) && (byte_at parent_name 0 <=? 57)
      && negb (Z.land mask 2 =? 0)
  else false.

Definition file_read_event (c : ctx) (key : process_key) (file : Z) (ev : list Z)
  : prog bst (list Z) :=
  ev ← fill_header c ev EVT_FILE_READ SRC_BPF_LSM (pid key);
  let ev := put_uint file_read_bytes_requested 0 ev in
  let ev := put_uint file_read_zone_id 0 ev in
  let d_name := dentry_d_name_name c (file_f_path_dentry c file) in
  mret (put_str (probe_read_kernel_str c) file_read_file_path d_name ev).

Definition file_open (c : ctx) (file mask : Z) : prog bst Z :=
  if file =? NULL then mret 0 else
  let key := get_current_process_key c in
  trusted ← bpf_map_lookup_elem trusted_ancestor_roots key;
  if deref_is trusted 1 then mret 0 else
  mode ← bpf_map_lookup_elem config_map 0;
  let blocking_enabled := deref_is mode 1 in
  let inode := file_f_inode c file in
  if inode =? NULL then mret 0 else
  let ino := inode_i_ino c inode in
  (* 1. Procfs, input device and uinput protection *)
  vetoed ← (if blocking_enabled && is_blocked_dev c file mask then
              threshold ← bpf_map_lookup_elem process_threshold_map key;
              mret (deref_is threshold 1)
            else mret false);
  if (vetoed : bool) then mret (- EACCES) else
  (* 2. Sensitive files protection *)
  category ← bpf_map_lookup_elem sensitive_inodes_map ino;
  match category with
  | None => mret 0
  | Some category =>
      denied ← (if blocking_enabled then
                  threshold ← bpf_map_lookup_elem process_threshold_map key;
                  mret (deref_is threshold 1)
                else mret false);
      if (denied : bool) then
        with_event (file_read_event c key file);;
        mret (- EACCES)
      else
        flags ← bpf_map_lookup_elem category_flags_map key;
        let new_flags :=
          match flags with Some f => Z.lor f category | None => category end in
        bpf_map_update_elem category_flags_map key new_flags;;
        with_event (file_read_event c key file);;
        mret 0
  end.

(** ** lsm/file_permission *)

Definition MAY_WRITE : Z := 2.

Definition file_write_event (c : ctx) (key : process_key) (file : Z) (ev : list Z)
  : prog bst (list Z) :=
  ev ← fill_header c ev EVT_FILE_WRITE SRC_BPF_LSM (pid key);
  let ev := put_uint file_write_bytes_written 0 ev in
  let ev := put_uint file_write_zone_id 0 ev in
  let d_name := dentry_d_name_name c (file_f_path_dentry c file) in
  mret (put_str (probe_read_kernel_str c) file_write_file_path d_name ev).

Definition file_permission (c : ctx) (file mask : Z) : prog bst Z :=
  if Z.land mask MAY_WRITE =? 0 then mret 0 else
  if file =? NULL then mret 0 else
  let key := get_current_process_key c in
  trusted ← bpf_map_lookup_elem trusted_ancestor_roots key;
  if deref_is trusted 1 then mret 0 else
  with_event (file_write_event c key file);;
  mret 0.

(** ** lsm/socket_connect *)

Definition AF_UNIX : Z := 1.
Definition AF_INET : Z := 2.
Definition AF_INET6 : Z := 10.

(** The PipeWire loop: [for (i = 0; i < 90; i++)] over the remaining [fuel] indices. *)
Fixpoint find_pipewire (path : list Z) (i fuel : nat) : bool :=
  match fuel with
  | O => false
  | S fuel =>
      if bytes_at path i (str "pipewire") then true else find_pipewire path (S i) fuel
  end.

Definition is_gui_socket (path : list Z) : bool :=
  if bytes_at path 0 (str "/tmp/.X11") then true else find_pipewire path 0 90.

(** The record of a connection denied synchronously. *)
Definition network_blocked_event (c : ctx) (key : process_key) (ev : list Z)
  : prog bst (list Z) :=
  ev ← fill_header c ev EVT_NETWORK_CONNECT SRC_BPF_LSM (pid key);
  let ev := put_uint network_connect_destination_port 0 ev in
  let ev := put (sub network_connect_destination_ip 0 1) [0] ev in
  mret (put (sub network_connect_protocol 0 1) [0] ev).

(** [protocol] is set to ["TCP"] whatever the socket is. *)
Definition put_protocol (ev : list Z) : list Z :=
  put (sub network_connect_protocol 0 4) (str "TCP" ++ [0]) ev.

Definition network_connect_event (c : ctx) (key : process_key) (family address : Z)
  (ev : list Z) : prog bst (list Z) :=
  ev ← fill_header c ev EVT_NETWORK_CONNECT SRC_BPF_LSM (pid key);
  let ev :=
    if family =? AF_INET then
      let port_be := le_dec (probe_read_kernel c (address + 2) 2) in
      let addr_be := probe_read_kernel c (address + 4) 4 in
      let ev := put_uint network_connect_destination_port (swap16 port_be) ev in
      let ip_buf := read_kernel_local c addr_be in
      let ev := put (sub network_connect_destination_ip 0 1) [4] ev in
      let ev := put (sub network_connect_destination_ip 1 4) ip_buf ev in
      put (sub network_connect_destination_ip 5 1) [0] ev
    else if family =? AF_INET6 then
      let port_be := le_dec (probe_read_kernel c (address + 2) 2) in
      let ev := put_uint network_connect_destination_port (swap16 port_be) ev in
      let ev := put (sub network_connect_destination_ip 0 1) [6] ev in
      let ev := put (sub network_connect_destination_ip 1 16)
                  (probe_read_kernel c (address + 8) 16) ev in
      put (sub network_connect_destination_ip 17 1) [0] ev
    else
      let ev := put_uint network_connect_destination_port 0 ev in
      let ev := put (sub network_connect_destination_ip 0 1) [1] ev in
      put_str (probe_read_kernel_str c) (sub network_connect_destination_ip 1 45)
        (address + 2) ev in
  mret (put_protocol ev).

Definition socket_connect (c : ctx) (address : Z) : prog bst Z :=
  let family := if address =? NULL then 0 else wrap 16 (sockaddr_sa_family c address) in
  if negb (family =? AF_UNIX) && negb (family =? AF_INET) && negb (family =? AF_INET6)
  then mret 0 else
  let key := get_current_process_key c in
  trusted ← bpf_map_lookup_elem trusted_ancestor_roots key;
  if deref_is trusted 1 then mret 0 else
  mode ← bpf_map_lookup_elem config_map 0;
  let blocking_enabled := deref_is mode 1 in
  (* 1. GUI display and PipeWire sockets *)
  gui_denied ← (if (family =? AF_UNIX) && blocking_enabled
                   && is_gui_socket (local_str (probe_read_kernel_str c) 108 (address + 2))
                then
                  threshold ← bpf_map_lookup_elem process_threshold_map key;
                  mret (deref_is threshold 1)
                else mret false);
  if (gui_denied : bool) then mret (- EACCES) else
  let inet := (family =? AF_INET) || (family =? AF_INET6) in
  (if inet then bpf_map_update_elem pending_network_connect key 1 else mret 0);;
  (* 2. Synchronous network blocking for untrusted processes *)
  net_denied ← (if inet && blocking_enabled then
                  threshold ← bpf_map_lookup_elem process_threshold_map key;
                  mret (deref_is threshold 1)
                else mret false);
  if (net_denied : bool) then
    with_event (network_blocked_event c key);;
    mret (- EACCES)
  else
    with_event (network_connect_event c key family address);;
    mret 0.

(** ** lsm/bprm_creds_for_exec *)

Definition process_create_event (c : ctx) (key : process_key) (bprm : Z) (ev : list Z)
  : prog bst (list Z) :=
  let ev := put_uint process_create_child_pid (pid key) ev in
  let ppid := real_parent_tgid c in
  ev ← fill_header c ev EVT_PROCESS_CREATE SRC_BPF_LSM ppid;
  let ev := put_uint process_create_real_parent_pid ppid ev in
  let filename := bprm_filename c bprm in
  if filename =? NULL then
    let ev := put (sub process_create_child_image_path 0 1) [0] ev in
    mret (put (sub process_create_child_command_line 0 1) [0] ev)
  else
    let ev := put_str (probe_read_kernel_str c) process_create_child_image_path filename ev in
    mret (put_str (probe_read_kernel_str c) process_create_child_command_line filename ev).

Definition bprm_creds_for_exec (c : ctx) (bprm : Z) : prog bst Z :=
  if bprm =? NULL then mret 0 else
  let key := get_current_process_key c in
  mode ← bpf_map_lookup_elem config_map 0;
  let blocking_enabled := deref_is mode 1 in
  let file := bprm_file c bprm in
  let inode := if file =? NULL then NULL else file_f_inode c file in
  refused ← (if (file =? NULL) || (inode =? NULL) then mret false else
             trust_val ← bpf_map_lookup_elem trusted_exec_inodes (inode_i_ino c inode);
             match trust_val with
             | Some threshold =>
                 if threshold =? 0 then mret true
                 else bpf_map_update_elem process_threshold_map key threshold;; mret false
             | None =>
                 if blocking_enabled
                 then bpf_map_update_elem process_threshold_map key 1;; mret false
                 else mret false
             end);
  if (refused : bool) then mret (- EACCES) else
  with_event (process_create_event c key bprm);;
  mret 0.

(** ** lsm/ptrace_access_check *)

Definition ptrace_event (c : ctx) (key : process_key) (tracee_pid mode : Z) (ev : list Z)
  : prog bst (list Z) :=
  ev ← fill_header c ev EVT_PTRACE_ATTACH SRC_BPF_LSM (pid key);
  let ev := put_uint ptrace_attach_tracee_pid tracee_pid ev in
  mret (put_uint ptrace_attach_mode mode ev).

Definition ptrace_access_check (c : ctx) (child mode : Z) : prog bst Z :=
  if child =? NULL then mret 0 else
  let key := get_current_process_key c in
  let tracee_pid := wrap 32 (task_tgid c child) in
  with_event (ptrace_event c key tracee_pid mode);;
  trusted ← bpf_map_lookup_elem trusted_ancestor_roots key;
  if deref_is trusted 1 then mret 0 else
  mode_val ← bpf_map_lookup_elem config_map 0;
  if deref_is mode_val 1 then
    threshold ← bpf_map_lookup_elem process_threshold_map key;
    if deref_is threshold 1 then mret (- EACCES) else mret 0
  else mret 0.

(** ** lsm/file_mprotect *)

Definition PROT_EXEC : Z := 4.

Definition mprotect_event (c : ctx) (key : process_key) (vm_file start end_ newprot : Z)
  (ev : list Z) : prog bst (list Z) :=
  let evt_type := if vm_file =? NULL then EVT_MEMORY_MAP else EVT_MEMORY_PROTECT in
  ev ← fill_header c ev evt_type SRC_BPF_LSM (pid key);
  let ev := put_uint memory_map_addr start ev in
  let ev := put_uint memory_map_length (wrap 64 (end_ - start)) ev in
  let ev := put_uint memory_map_prot (wrap 32 newprot) ev in
  let ev := put_uint memory_map_flags 0 ev in
  let ev := put_uint memory_map_fd (-1) ev in
  let file_inode :=
    if vm_file =? NULL then 0 else
    let inode := file_f_inode c vm_file in
    if inode =? NULL then 0 else inode_i_ino c inode in
  mret (put_uint memory_map_file_inode file_inode ev).

Definition file_mprotect (c : ctx) (vma start end_ newprot : Z) : prog bst Z :=
  if Z.land newprot PROT_EXEC =? 0 then mret 0 else
  let key := get_current_process_key c in
  trusted ← bpf_map_lookup_elem trusted_ancestor_roots key;
  if deref_is trusted 1 then mret 0 else
  mode_val ← bpf_map_lookup_elem config_map 0;
  let vm_file := vma_vm_file c vma in
  denied ← (if deref_is mode_val 1 then
              threshold ← bpf_map_lookup_elem process_threshold_map key;
              mret (deref_is threshold 1 && (vm_file =? NULL))
            else mret false);
  if (denied : bool) then mret (- EACCES) else
  with_event (mprotect_event c key vm_file start end_ newprot);;
  mret 0.

(** ** lsm/mmap_file *)

Definition image_load_event (c : ctx) (key : process_key) (file : Z) (ev : list Z)
  : prog bst (list Z) :=
  ev ← fill_header c ev EVT_IMAGE_LOAD SRC_BPF_LSM (pid key);
  let inode := file_f_inode c file in
  let ev := put_uint image_load_file_inode
              (if inode =? NULL then 0 else inode_i_ino c inode) ev in
  let dentry := file_f_path_dentry c file in
  mret (if dentry =? NULL then ev
        else put_str (probe_read_kernel_str c) image_load_module_path
               (dentry_d_name_name c dentry) ev).

Definition mmap_file (c : ctx) (file prot : Z) : prog bst Z :=
  if file =? NULL then mret 0 else
  if Z.land prot PROT_EXEC =? 0 then mret 0 else
  let key := get_current_process_key c in
  trusted ← bpf_map_lookup_elem trusted_ancestor_roots key;
  if deref_is trusted 1 then mret 0 else
  with_event (image_load_event c key file);;
  mret 0.

(** ** lsm/socket_listen *)

Definition is_remote_desktop_port (port : Z) : bool :=
  (5900 <=? port) && (port <=? 5910) || (port =? 3389).

Definition socket_listen (c : ctx) (sock : Z) : prog bst Z :=
  if sock =? NULL then mret 0 else
  let sk := socket_sk c sock in
  if sk =? NULL then mret 0 else
  let port := wrap 16 (sock_skc_num c sk) in
  if is_remote_desktop_port port then
    let key := get_current_process_key c in
    trusted ← bpf_map_lookup_elem trusted_ancestor_roots key;
    if deref_is trusted 1 then mret 0 else
    mode_val ← bpf_map_lookup_elem config_map 0;
    if deref_is mode_val 1 then
      threshold ← bpf_map_lookup_elem process_threshold_map key;
      if deref_is threshold 1 then mret (- EACCES) else mret 0
    else mret 0
  else mret 0.

End lsm_hooks.

(** ** Record bodies *)

(** One record body: split the conditionals, run the header, and check that the
    remaining stores stay inside the details. *)
Ltac tail_len Hc :=
  simpl; first
    [ apply Nat.leb_le; reflexivity
    | rewrite ?(kernel_local _ (ctx_mem _ Hc)), ?(user_local _ (ctx_mem _ Hc)), ?repeat_length,
        ?(proj1 (kernel_fills _ (ctx_mem _ Hc) _ _)), ?(proj1 (user_fills _ (ctx_mem _ Hc) _ _));
      apply Nat.leb_le; reflexivity ].

Ltac tail_step Hc Hl :=
  first
    [ reflexivity
    | match goal with |- tail_update _ (if ?b then _ else _) => destruct b end
    | apply tail_put_uint; [exact Hl | reflexivity |]
    | apply tail_put_str; [exact Hl | first [ apply (kernel_terminates _ (ctx_mem _ Hc))
                                            | apply (user_terminates _ (ctx_mem _ Hc)) ]
                          | reflexivity | reflexivity |]
    | apply tail_put; [exact Hl | reflexivity | tail_len Hc |] ].

Ltac solve_event_body Hc :=
  let ev := fresh "ev" in let Hl := fresh "Hl" in let Hl1 := fresh "Hl1" in
  intros ev Hl; cbv zeta;
  repeat match goal with |- context [if ?b then mret _ else mret _] => destruct b end;
  (eexists _, _; split; [reflexivity | split];
   [ repeat (apply length_put_event; [reflexivity|]); exact Hl
   | intros ? Hl1; cbv beta; unfold put_protocol; repeat tail_step Hc Hl1 ]).

Section lsm_records.
Context {BM : BpfMaps} {RB : BpfRingbuf} `{!BpfRingbufLaws}.
Context (c : ctx) (Hc : ctx_ok c).

Lemma file_read_event_body (key : process_key) (file : Z) :
  event_body c EVT_FILE_READ SRC_BPF_LSM (pid key) (file_read_event c key file).
Proof using Hc. unfold file_read_event. solve_event_body Hc. Qed.

Lemma file_write_event_body (key : process_key) (file : Z) :
  event_body c EVT_FILE_WRITE SRC_BPF_LSM (pid key) (file_write_event c key file).
Proof using Hc. unfold file_write_event. solve_event_body Hc. Qed.

Lemma network_blocked_event_body (key : process_key) :
  event_body c EVT_NETWORK_CONNECT SRC_BPF_LSM (pid key) (network_blocked_event c key).
Proof using Hc. unfold network_blocked_event. solve_event_body Hc. Qed.

Lemma network_connect_event_body (key : process_key) (family address : Z) :
  event_body c EVT_NETWORK_CONNECT SRC_BPF_LSM (pid key)
    (network_connect_event c key family address).
Proof using Hc. unfold network_connect_event. solve_event_body Hc. Qed.

Lemma process_create_event_body (key : process_key) (bprm : Z) :
  event_body c EVT_PROCESS_CREATE SRC_BPF_LSM (real_parent_tgid c)
    (process_create_event c key bprm).
Proof using Hc. unfold process_create_event. solve_event_body Hc. Qed.

Lemma ptrace_event_body (key : process_key) (tracee_pid mode : Z) :
  event_body c EVT_PTRACE_ATTACH SRC_BPF_LSM (pid key) (ptrace_event c key tracee_pid mode).
Proof using Hc. unfold ptrace_event. solve_event_body Hc. Qed.

Lemma mprotect_event_body (key : process_key) (vm_file start end_ newprot : Z) :
  event_body c (if vm_file =? NULL then EVT_MEMORY_MAP else EVT_MEMORY_PROTECT) SRC_BPF_LSM
    (pid key) (mprotect_event c key vm_file start end_ newprot).
Proof using Hc. unfold mprotect_event. solve_event_body Hc. Qed.

Lemma image_load_event_body (key : process_key) (file : Z) :
  event_body c EVT_IMAGE_LOAD SRC_BPF_LSM (pid key) (image_load_event c key file).
Proof using Hc. unfold image_load_event. solve_event_body Hc. Qed.

End lsm_records.
