(* ===== verification/Tracepoints.v ===== *)
(** The tracepoint programs of the fallback mode
    (src/linux/ebpf/kinnector.bpf.c, lines 798-1088).  A tracepoint has no
    verdict: every program returns 0. *)

From S2P Require Export LsmHooks.

Local Open Scope Z_scope.

Section tracepoints.
Context {BM : BpfMaps} {RB : BpfRingbuf}.

(** ** sys_enter_execve *)

Record sys_enter_execve_args : Type := SysEnterExecveArgs { execve_filename : Z }.

#[export] Instance sys_enter_execve_args_eq_dec : EqDecision sys_enter_execve_args.
Proof. solve_decision. Defined.

Definition execve_event (c : ctx) (key : process_key) (ppid filename : Z) (ev : list Z)
  : prog bst (list Z) :=
  ev ← fill_header c ev EVT_PROCESS_CREATE SRC_BPF_TRACEPOINT ppid;
  let ev := put_uint process_create_child_pid (pid key) ev in
  let ev := put_uint process_create_real_parent_pid ppid ev in
  if filename =? NULL then
    let ev := put (sub process_create_child_image_path 0 1) [0] ev in
    mret (put (sub process_create_child_command_line 0 1) [0] ev)
  else
    let ev := put_str (probe_read_user_str c) process_create_child_image_path filename ev in
    mret (put_str (probe_read_user_str c) process_create_child_command_line filename ev).

Definition tracepoint_sys_enter_execve (c : ctx) (args : sys_enter_execve_args) : prog bst Z :=
  let key := get_current_process_key c in
  let ppid := real_parent_tgid c in
  with_event (execve_event c key ppid (execve_filename args));;
  mret 0.

(** ** sched_process_exit *)

Definition process_stop_event (c : ctx) (key : process_key) (ev : list Z)
  : prog bst (list Z) :=
  ev ← fill_header c ev EVT_PROCESS_STOP SRC_BPF_TRACEPOINT (pid key);
  let ev := put_uint process_stop_exit_code 0 ev in
  mret (put_uint process_stop_pad 0 ev).

Definition tracepoint_sched_process_exit (c : ctx) : prog bst Z :=
  let key := get_current_process_key c in
  bpf_map_delete_elem category_flags_map key;;
  bpf_map_delete_elem pending_network_connect key;;
  bpf_map_delete_elem trusted_ancestor_roots key;;
  bpf_map_delete_elem process_threshold_map key;;
  bpf_map_delete_elem tainted_process_map key;;
  with_event (process_stop_event c key);;
  mret 0.

(** ** sys_enter_connect *)

Record sys_enter_connect_args : Type := SysEnterConnectArgs { connect_uservaddr : Z }.

#[export] Instance sys_enter_connect_args_eq_dec : EqDecision sys_enter_connect_args.
Proof. solve_decision. Defined.

Definition connect_event (c : ctx) (key : process_key) (family uservaddr : Z) (ev : list Z)
  : prog bst (list Z) :=
  ev ← fill_header c ev EVT_NETWORK_CONNECT SRC_BPF_TRACEPOINT (pid key);
  let port_be := le_dec (probe_read_user c (uservaddr + 2) 2) in
  let ev :=
    if family =? AF_INET then
      let addr_be := probe_read_user c (uservaddr + 4) 4 in
      let ev := put_uint network_connect_destination_port (swap16 port_be) ev in
      let ip_buf := read_user_local c addr_be in
      let ev := put (sub network_connect_destination_ip 0 1) [4] ev in
      let ev := put (sub network_connect_destination_ip 1 4) ip_buf ev in
      put (sub network_connect_destination_ip 5 1) [0] ev
    else
      let ev := put_uint network_connect_destination_port (swap16 port_be) ev in
      let ev := put (sub network_connect_destination_ip 0 1) [6] ev in
      let ev := put (sub network_connect_destination_ip 1 16)
                  (probe_read_user c (uservaddr + 8) 16) ev in
      put (sub network_connect_destination_ip 17 1) [0] ev in
  mret (put_protocol ev).

Definition tracepoint_sys_enter_connect (c : ctx) (args : sys_enter_connect_args)
  : prog bst Z :=
  let uservaddr := connect_uservaddr args in
  if uservaddr =? NULL then mret 0 else
  let family := wrap 16 (user_sockaddr_sa_family c uservaddr) in
  if negb (family =? AF_INET) && negb (family =? AF_INET6) then mret 0 else
  let key := get_current_process_key c in
  bpf_map_update_elem pending_network_connect key 1;;
  with_event (connect_event c key family uservaddr);;
  mret 0.

(** ** sys_enter_openat *)

Record sys_enter_openat_args : Type := SysEnterOpenatArgs { openat_filename : Z }.

#[export] Instance sys_enter_openat_args_eq_dec : EqDecision sys_enter_openat_args.
Proof. solve_decision. Defined.

Definition openat_event (c : ctx) (key : process_key) (filename : Z) (ev : list Z)
  : prog bst (list Z) :=
  ev ← fill_header c ev EVT_FILE_READ SRC_BPF_TRACEPOINT (pid key);
  let ev := put_uint file_read_bytes_requested 0 ev in
  let ev := put_uint file_read_zone_id 0 ev in
  mret (if filename =? NULL then put (sub file_read_file_path 0 1) [0] ev
        else put_str (probe_read_user_str c) file_read_file_path filename ev).

Definition tracepoint_sys_enter_openat (c : ctx) (args : sys_enter_openat_args) : prog bst Z :=
  let key := get_current_process_key c in
  with_event (openat_event c key (openat_filename args));;
  mret 0.

(** ** sys_enter_mmap and sys_enter_mprotect *)

Record sys_enter_mmap_args : Type := SysEnterMmapArgs {
  mmap_addr : Z; mmap_len : Z; mmap_prot : Z; mmap_flags : Z; mmap_fd : Z;
}.

#[export] Instance sys_enter_mmap_args_eq_dec : EqDecision sys_enter_mmap_args.
Proof. solve_decision. Defined.

Definition MAP_ANONYMOUS : Z := 32.

(** [file_inode] is not written: the record keeps the bytes it was reserved with. *)
Definition mmap_event (c : ctx) (key : process_key) (args : sys_enter_mmap_args)
  (ev : list Z) : prog bst (list Z) :=
  ev ← fill_header c ev EVT_MEMORY_MAP SRC_BPF_TRACEPOINT (pid key);
  let ev := put_uint memory_map_addr (mmap_addr args) ev in
  let ev := put_uint memory_map_length (mmap_len args) ev in
  let ev := put_uint memory_map_prot (wrap 32 (mmap_prot args)) ev in
  let ev := put_uint memory_map_flags (wrap 32 (mmap_flags args)) ev in
  mret (put_uint memory_map_fd (sint 32 (mmap_fd args)) ev).

Definition tracepoint_sys_enter_mmap (c : ctx) (args : sys_enter_mmap_args) : prog bst Z :=
  if Z.land (mmap_prot args) PROT_EXEC =? 0 then mret 0 else
  if Z.land (mmap_flags args) MAP_ANONYMOUS =? 0 then mret 0 else
  let key := get_current_process_key c in
  with_event (mmap_event c key args);;
  mret 0.

Record sys_enter_mprotect_args : Type := SysEnterMprotectArgs {
  mprotect_start : Z; mprotect_len : Z; mprotect_prot : Z;
}.

#[export] Instance sys_enter_mprotect_args_eq_dec : EqDecision sys_enter_mprotect_args.
Proof. solve_decision. Defined.

Definition tp_mprotect_event (c : ctx) (key : process_key) (args : sys_enter_mprotect_args)
  (ev : list Z) : prog bst (list Z) :=
  ev ← fill_header c ev EVT_MEMORY_MAP SRC_BPF_TRACEPOINT (pid key);
  let ev := put_uint memory_map_addr (mprotect_start args) ev in
  let ev := put_uint memory_map_length (mprotect_len args) ev in
  let ev := put_uint memory_map_prot (wrap 32 (mprotect_prot args)) ev in
  let ev := put_uint memory_map_flags 0 ev in
  mret (put_uint memory_map_fd (-1) ev).

Definition tracepoint_sys_enter_mprotect (c : ctx) (args : sys_enter_mprotect_args)
  : prog bst Z :=
  if Z.land (mprotect_prot args) PROT_EXEC =? 0 then mret 0 else
  let key := get_current_process_key c in
  with_event (tp_mprotect_event c key args);;
  mret 0.

(** ** sys_enter_dup2, sys_enter_dup3 and sys_enter_listen *)

Record sys_enter_dup2_args : Type := SysEnterDup2Args { dup2_arg_oldfd : Z; dup2_arg_newfd : Z }.

#[export] Instance sys_enter_dup2_args_eq_dec : EqDecision sys_enter_dup2_args.
Proof. solve_decision. Defined.

Record sys_enter_dup3_args : Type := SysEnterDup3Args {
  dup3_arg_oldfd : Z; dup3_arg_newfd : Z; dup3_arg_flags : Z;
}.

#[export] Instance sys_enter_dup3_args_eq_dec : EqDecision sys_enter_dup3_args.
Proof. solve_decision. Defined.

Definition dup_event (c : ctx) (key : process_key) (oldfd newfd : Z) (ev : list Z)
  : prog bst (list Z) :=
  ev ← fill_header c ev EVT_DUP2 SRC_BPF_TRACEPOINT (pid key);
  let ev := put_uint dup2_oldfd oldfd ev in
  mret (put_uint dup2_newfd newfd ev).

Definition tracepoint_sys_enter_dup2 (c : ctx) (args : sys_enter_dup2_args) : prog bst Z :=
  let key := get_current_process_key c in
  with_event (dup_event c key (dup2_arg_oldfd args) (dup2_arg_newfd args));;
  mret 0.

Definition tracepoint_sys_enter_dup3 (c : ctx) (args : sys_enter_dup3_args) : prog bst Z :=
  let key := get_current_process_key c in
  with_event (dup_event c key (dup3_arg_oldfd args) (dup3_arg_newfd args));;
  mret 0.

(** The listen record uses the process-create details, all cleared. *)
Definition listen_event (c : ctx) (key : process_key) (ev : list Z) : prog bst (list Z) :=
  ev ← fill_header c ev EVT_LISTEN SRC_BPF_TRACEPOINT (pid key);
  let ev := put_uint process_create_child_pid 0 ev in
  let ev := put_uint process_create_real_parent_pid 0 ev in
  let ev := put (sub process_create_child_image_path 0 1) [0] ev in
  mret (put (sub process_create_child_command_line 0 1) [0] ev).

Definition tracepoint_sys_enter_listen (c : ctx) : prog bst Z :=
  let key := get_current_process_key c in
  with_event (listen_event c key);;
  mret 0.

End tracepoints.

(** ** Record bodies *)

Section tracepoint_records.
Context {BM : BpfMaps} {RB : BpfRingbuf} `{!BpfRingbufLaws}.
Context (c : ctx) (Hc : ctx_ok c).

Lemma execve_event_body (key : process_key) (ppid filename : Z) :
  event_body c EVT_PROCESS_CREATE SRC_BPF_TRACEPOINT ppid (execve_event c key ppid filename).
Proof using Hc. unfold execve_event. solve_event_body Hc. Qed.

Lemma process_stop_event_body (key : process_key) :
  event_body c EVT_PROCESS_STOP SRC_BPF_TRACEPOINT (pid key) (process_stop_event c key).
Proof using Hc. unfold process_stop_event. solve_event_body Hc. Qed.

Lemma connect_event_body (key : process_key) (family uservaddr : Z) :
  event_body c EVT_NETWORK_CONNECT SRC_BPF_TRACEPOINT (pid key)
    (connect_event c key family uservaddr).
Proof using Hc. unfold connect_event. solve_event_body Hc. Qed.

Lemma openat_event_body (key : process_key) (filename : Z) :
  event_body c EVT_FILE_READ SRC_BPF_TRACEPOINT (pid key) (openat_event c key filename).
Proof using Hc. unfold openat_event. solve_event_body Hc. Qed.

Lemma mmap_event_body (key : process_key) (args : sys_enter_mmap_args) :
  event_body c EVT_MEMORY_MAP SRC_BPF_TRACEPOINT (pid key) (mmap_event c key args).
Proof using Hc. unfold mmap_event. solve_event_body Hc. Qed.

Lemma tp_mprotect_event_body (key : process_key) (args : sys_enter_mprotect_args) :
  event_body c EVT_MEMORY_MAP SRC_BPF_TRACEPOINT (pid key) (tp_mprotect_event c key args).
Proof using Hc. unfold tp_mprotect_event. solve_event_body Hc. Qed.

Lemma dup_event_body (key : process_key) (oldfd newfd : Z) :
  event_body c EVT_DUP2 SRC_BPF_TRACEPOINT (pid key) (dup_event c key oldfd newfd).
Proof using Hc. unfold dup_event. solve_event_body Hc. Qed.

Lemma listen_event_body (key : process_key) :
  event_body c EVT_LISTEN SRC_BPF_TRACEPOINT (pid key) (listen_event c key).
Proof using Hc. unfold listen_event. solve_event_body Hc. Qed.

End tracepoint_records.
