(* ===== verification/TtyProbes.v ===== *)
(** The PTY capture of src/linux/ebpf/kinnector.bpf.c (lines 1090-1168): the
    write probe, and the read probe with its return probe, which hands the
    buffer address over through [pending_tty_reads]. *)

From S2P Require Export BpfFacts.

Local Open Scope Z_scope.

Section tty.
Context {BM : BpfMaps} {RB : BpfRingbuf}.

Definition UNIX98_PTY_SLAVE_MAJOR : Z := 136.

Definition is_pty_file (c : ctx) (file : Z) : bool :=
  if file =? NULL then false else
  let inode := file_f_inode c file in
  if inode =? NULL then false else
  let rdev := wrap 32 (inode_i_rdev c inode) in
  let major := Z.land (Z.shiftr rdev 8) 4095 in
  major =? UNIX98_PTY_SLAVE_MAJOR.

(** The record both probes fill: [to_copy] bytes of the user buffer. *)
Definition fill_tty_event (c : ctx) (is_write to_copy buf : Z) (ev : list Z)
  : prog bst (list Z) :=
  let ev := put_uint tty_timestamp_ns (ktime c) ev in
  let ev := put_uint tty_pid (wrap 32 (Z.shiftr (current_pid_tgid c) 32)) ev in
  let ev := put_uint tty_is_write is_write ev in
  let ev := put tty_comm (current_comm c) ev in
  let ev := put_uint tty_len to_copy ev in
  mret (put tty_data (probe_read_user c buf (Z.to_nat to_copy)) ev).

Definition with_tty_event (body : list Z -> prog bst (list Z)) : prog bst unit :=
  with_record tty_ringbuf sizeof_tty_event body.

(** [count] is a [size_t]. *)
Definition kprobe_tty_write (c : ctx) (file buf count : Z) : prog bst Z :=
  if negb (is_pty_file c file) then mret 0 else
  let to_copy := wrap 32 (if 1023 <? count then 1023 else count) in
  with_tty_event (fill_tty_event c 1 to_copy buf);;
  mret 0.

(** The thread id: the low half of [bpf_get_current_pid_tgid()]. *)
Definition current_tid (c : ctx) : Z := wrap 32 (current_pid_tgid c).

Definition kprobe_tty_read (c : ctx) (file buf : Z) : prog bst Z :=
  if negb (is_pty_file c file) then mret 0 else
  bpf_map_update_elem pending_tty_reads (current_tid c) (TtyReadReq file buf);;
  mret 0.

(** [ret] is the [int] the kernel function returned. *)
Definition kretprobe_tty_read (c : ctx) (ret : Z) : prog bst Z :=
  req ← bpf_map_lookup_elem pending_tty_reads (current_tid c);
  match req with
  | None => mret 0
  | Some req =>
      bpf_map_delete_elem pending_tty_reads (current_tid c);;
      if ret <=? 0 then mret 0 else
      let to_copy := wrap 32 (if 1023 <? ret then 1023 else ret) in
      with_tty_event (fill_tty_event c 0 to_copy (req_buf req));;
      mret 0
  end.

End tty.
