(* ===== verification/BpfSystem.v ===== *)
(** The eBPF object as one system: the programs as calls on the shared state,
    their runs as sequences of calls, and the lemmas the system's theorems
    ([BpfTheorems]) are assembled from: verdicts, frames and committed records. *)

From S2P Require Export LsmHooks Tracepoints TtyProbes.

Local Open Scope Z_scope.

(** One constructor per program of the object, with the arguments it reads. *)
Inductive hook_call : Type :=
| FileOpen (file mask : Z)
| FilePermission (file mask : Z)
| SocketConnect (address : Z)
| BprmCredsForExec (bprm : Z)
| PtraceAccessCheck (child mode : Z)
| FileMprotect (vma start end_ newprot : Z)
| MmapFile (file prot : Z)
| SocketListen (sock : Z)
| SysEnterExecve (args : sys_enter_execve_args)
| SchedProcessExit
| SysEnterConnect (args : sys_enter_connect_args)
| SysEnterOpenat (args : sys_enter_openat_args)
| SysEnterMmap (args : sys_enter_mmap_args)
| SysEnterMprotect (args : sys_enter_mprotect_args)
| SysEnterDup2 (args : sys_enter_dup2_args)
| SysEnterDup3 (args : sys_enter_dup3_args)
| SysEnterListen
| TtyWrite (file buf count : Z)
| TtyRead (file buf : Z)
| TtyReadReturn (ret : Z).

#[export] Instance hook_call_eq_dec : EqDecision hook_call.
Proof. solve_decision. Defined.

Section system.
Context {BM : BpfMaps} {RB : BpfRingbuf}.

Definition run_hook (c : ctx) (h : hook_call) : prog bst Z :=
  match h with
  | FileOpen file mask => file_open c file mask
  | FilePermission file mask => file_permission c file mask
  | SocketConnect address => socket_connect c address
  | BprmCredsForExec bprm => bprm_creds_for_exec c bprm
  | PtraceAccessCheck child mode => ptrace_access_check c child mode
  | FileMprotect vma start end_ newprot => file_mprotect c vma start end_ newprot
  | MmapFile file prot => mmap_file c file prot
  | SocketListen sock => socket_listen c sock
  | SysEnterExecve args => tracepoint_sys_enter_execve c args
  | SchedProcessExit => tracepoint_sched_process_exit c
  | SysEnterConnect args => tracepoint_sys_enter_connect c args
  | SysEnterOpenat args => tracepoint_sys_enter_openat c args
  | SysEnterMmap args => tracepoint_sys_enter_mmap c args
  | SysEnterMprotect args => tracepoint_sys_enter_mprotect c args
  | SysEnterDup2 args => tracepoint_sys_enter_dup2 c args
  | SysEnterDup3 args => tracepoint_sys_enter_dup3 c args
  | SysEnterListen => tracepoint_sys_enter_listen c
  | TtyWrite file buf count => kprobe_tty_write c file buf count
  | TtyRead file buf => kprobe_tty_read c file buf
  | TtyReadReturn ret => kretprobe_tty_read c ret
  end.

(** A run: the programs the kernel starts, one after the other. *)
Fixpoint run_hooks (l : list (ctx * hook_call)) (s : bst) : bst :=
  match l with
  | [] => s
  | (c, h) :: rest => run_hooks rest (snd (run_hook c h s))
  end.

(** ** Decisions

    What the hooks look up, and the access policy as one formula: the
    specification the verdicts are proved against. *)
Definition blocking (s : bst) : bool := deref_is (map_lookup (st_config_map s) 0) 1.
Definition is_trusted (s : bst) (key : process_key) : bool :=
  deref_is (map_lookup (st_trusted_ancestor_roots s) key) 1.
Definition is_untrusted (s : bst) (key : process_key) : bool :=
  deref_is (map_lookup (st_process_threshold_map s) key) 1.
Definition is_sensitive (s : bst) (ino : Z) : bool :=
  match map_lookup (st_sensitive_inodes_map s) ino with Some _ => true | None => false end.

(** Blocking applies to a process that is marked untrusted and is not trusted. *)
Definition enforced (s : bst) (key : process_key) : bool :=
  negb (is_trusted s key) && blocking s && is_untrusted s key.

Definition exec_trust (c : ctx) (bprm : Z) (s : bst) : option Z :=
  let file := bprm_file c bprm in
  if file =? NULL then None else
  let inode := file_f_inode c file in
  if inode =? NULL then None else
  map_lookup (st_trusted_exec_inodes s) (inode_i_ino c inode).

Definition socket_family (c : ctx) (address : Z) : Z :=
  if address =? NULL then 0 else wrap 16 (sockaddr_sa_family c address).

Definition inet_family (family : Z) : bool := (family =? AF_INET) || (family =? AF_INET6).

Definition unix_path (c : ctx) (address : Z) : list Z :=
  local_str (probe_read_kernel_str c) 108 (address + 2).

Definition policy (c : ctx) (h : hook_call) (s : bst) : bool :=
  let key := get_current_process_key c in
  match h with
  | FileOpen file mask =>
      enforced s key && negb (file =? NULL) && negb (file_f_inode c file =? NULL) &&
      (is_blocked_dev c file mask || is_sensitive s (inode_i_ino c (file_f_inode c file)))
  | SocketConnect address =>
      let family := socket_family c address in
      enforced s key &&
      (inet_family family || (family =? AF_UNIX) && is_gui_socket (unix_path c address))
  | BprmCredsForExec bprm => negb (bprm =? NULL) && deref_is (exec_trust c bprm s) 0
  | PtraceAccessCheck child mode => negb (child =? NULL) && enforced s key
  | FileMprotect vma start end_ newprot =>
      negb (Z.land newprot PROT_EXEC =? 0) && enforced s key && (vma_vm_file c vma =? NULL)
  | SocketListen sock =>
      negb (sock =? NULL) && negb (socket_sk c sock =? NULL) &&
      is_remote_desktop_port (wrap 16 (sock_skc_num c (socket_sk c sock))) && enforced s key
  | _ => false
  end.

(** ** Symbolic execution *)

Lemma run_lookup {K V A : Type} `{EqDecision K} (m : slot (hash K V)) (k : K)
    (f : option V -> prog bst A) (s : bst) :
  (bpf_map_lookup_elem m k ≫= f) s = f (map_lookup (slot_get m s) k) s.
Proof. done. Qed.

Lemma run_update {K V A : Type} `{EqDecision K} (m : slot (hash K V)) (k : K) (v : V)
    (f : Z -> prog bst A) (s : bst) :
  (bpf_map_update_elem m k v ≫= f) s =
    f (fst (map_update (slot_get m s) k v))
      (slot_set m (snd (map_update (slot_get m s) k v)) s).
Proof. rewrite run_bind. unfold bpf_map_update_elem. rewrite run_act. by destruct (map_update _ k v). Qed.

Lemma run_delete {K V A : Type} `{EqDecision K} (m : slot (hash K V)) (k : K)
    (f : Z -> prog bst A) (s : bst) :
  (bpf_map_delete_elem m k ≫= f) s =
    f (fst (map_delete (slot_get m s) k))
      (slot_set m (snd (map_delete (slot_get m s) k)) s).
Proof. rewrite run_bind. unfold bpf_map_delete_elem. rewrite run_act. by destruct (map_delete _ k). Qed.

Lemma run_bind_ret {A B : Type} (x : A) (f : A -> prog bst B) (s : bst) :
  ((mret x : prog bst A) ≫= f) s = f x s.
Proof. done. Qed.

Lemma run_event_ret {A : Type} (body : list Z -> prog bst (list Z)) (x : A) (s : bst) :
  (with_event body ≫= fun _ => mret x) s = (x, snd (with_event body s)).
Proof. by rewrite run_bind. Qed.

End system.

Create Rewrite HintDb run.
#[export] Hint Rewrite @run_bind_assoc @run_lookup @run_update @run_delete @run_bind_ret
  @run_event_ret @run_ret : run.

(** Runs the deterministic prefix of a program. *)
Ltac run := cbv zeta; autorewrite with run slots; read_slots; cbn [fst snd].

(** Splits the conditional or option a program is about to branch on. *)
Ltac branch :=
  match goal with
  | |- context [exec (if ?b then _ else _) _] => destruct b eqn:?
  | |- context [exec ((if ?b then _ else _) ≫= _) _] => destruct b eqn:?
  | |- context [exec (match ?o with Some _ => _ | None => _ end) _] => destruct o eqn:?
  | |- context [exec (match ?o with Some _ => _ | None => _ end ≫= _) _] => destruct o eqn:?
  end.

Ltac branches := repeat (run; branch); run.

Section frames.
Context {BM : BpfMaps} {RB : BpfRingbuf}.

(** Every record body reads and writes the counter only, so it stays within any
    relation that allows this. *)
Section bodies.
Context (R : relation bst) `{!PreOrder R} (HR : frame_slot R seq_counter) (c : ctx).

Ltac body f := unfold f; solve_preserves.

Lemma preserves_file_read_event key file ev : preserves R (file_read_event c key file ev).
Proof using All. body @file_read_event. Qed.
Lemma preserves_file_write_event key file ev : preserves R (file_write_event c key file ev).
Proof using All. body @file_write_event. Qed.
Lemma preserves_network_blocked_event key ev : preserves R (network_blocked_event c key ev).
Proof using All. body @network_blocked_event. Qed.
Lemma preserves_network_connect_event key family address ev :
  preserves R (network_connect_event c key family address ev).
Proof using All. body @network_connect_event. Qed.
Lemma preserves_process_create_event key bprm ev :
  preserves R (process_create_event c key bprm ev).
Proof using All. body @process_create_event. Qed.
Lemma preserves_ptrace_event key p m ev : preserves R (ptrace_event c key p m ev).
Proof using All. body @ptrace_event. Qed.
Lemma preserves_mprotect_event key f a b p ev : preserves R (mprotect_event c key f a b p ev).
Proof using All. body @mprotect_event. Qed.
Lemma preserves_image_load_event key file ev : preserves R (image_load_event c key file ev).
Proof using All. body @image_load_event. Qed.
Lemma preserves_execve_event key ppid f ev : preserves R (execve_event c key ppid f ev).
Proof using All. body @execve_event. Qed.
Lemma preserves_process_stop_event key ev : preserves R (process_stop_event c key ev).
Proof using All. body @process_stop_event. Qed.
Lemma preserves_connect_event key f a ev : preserves R (connect_event c key f a ev).
Proof using All. body @connect_event. Qed.
Lemma preserves_openat_event key f ev : preserves R (openat_event c key f ev).
Proof using All. body @openat_event. Qed.
Lemma preserves_mmap_event key args ev : preserves R (mmap_event c key args ev).
Proof using All. body @mmap_event. Qed.
Lemma preserves_tp_mprotect_event key args ev : preserves R (tp_mprotect_event c key args ev).
Proof using All. body @tp_mprotect_event. Qed.
Lemma preserves_dup_event key a b ev : preserves R (dup_event c key a b ev).
Proof using All. body @dup_event. Qed.
Lemma preserves_listen_event key ev : preserves R (listen_event c key ev).
Proof using All. body @listen_event. Qed.

End bodies.

(** Committing an event stays within a relation that allows the telemetry ring
    buffer and the counter to change. *)
Lemma preserves_with_event (R : relation bst) `{!PreOrder R} body :
  frame_slot R telemetry_ringbuf -> (forall ev, preserves R (body ev)) ->
  preserves R (with_event body).
Proof. intros. by apply preserves_with_record. Qed.

Lemma preserves_with_tty_event (R : relation bst) `{!PreOrder R} body :
  frame_slot R tty_ringbuf -> (forall ev, preserves R (body ev)) ->
  preserves R (with_tty_event body).
Proof. intros. by apply preserves_with_record. Qed.

Lemma preserves_fill_tty_event (R : relation bst) `{!PreOrder R} c w n buf ev :
  preserves R (fill_tty_event c w n buf ev).
Proof. unfold fill_tty_event. solve_preserves. Qed.

End frames.

#[export] Hint Resolve preserves_file_read_event preserves_file_write_event
  preserves_network_blocked_event preserves_network_connect_event
  preserves_process_create_event preserves_ptrace_event preserves_mprotect_event
  preserves_image_load_event preserves_execve_event preserves_process_stop_event
  preserves_connect_event preserves_openat_event preserves_mmap_event
  preserves_tp_mprotect_event preserves_dup_event preserves_listen_event
  preserves_with_event preserves_with_tty_event preserves_fill_tty_event : preserves.

(** Unfolds the program a call runs. *)
Ltac unfold_hook :=
  unfold run_hook, file_open, file_permission, socket_connect, bprm_creds_for_exec,
    ptrace_access_check, file_mprotect, mmap_file, socket_listen,
    tracepoint_sys_enter_execve, tracepoint_sched_process_exit, tracepoint_sys_enter_connect,
    tracepoint_sys_enter_openat, tracepoint_sys_enter_mmap, tracepoint_sys_enter_mprotect,
    tracepoint_sys_enter_dup2, tracepoint_sys_enter_dup3, tracepoint_sys_enter_listen,
    kprobe_tty_write, kprobe_tty_read, kretprobe_tty_read;
  cbv zeta.

Section system_lemmas.
Context {BM : BpfMaps} {RB : BpfRingbuf}.

(** No program writes the maps of the agent's configuration. *)
Lemma run_hook_config (c : ctx) (h : hook_call) : preserves same_config_maps (run_hook c h).
Proof. destruct h; unfold_hook; solve_preserves. Qed.

Lemma run_hooks_config (l : list (ctx * hook_call)) (s : bst) :
  same_config_maps s (run_hooks l s).
Proof.
  revert s; induction l as [|[c h] l IH]; intros s; simpl; [reflexivity|].
  etrans; [apply (preserves_run (run_hook_config c h)) | apply IH].
Qed.

(** An event leaves the decision maps alone. *)
Lemma with_event_same_maps (body : list Z -> prog bst (list Z)) (s : bst) :
  (forall ev, preserves same_maps (body ev)) -> same_maps s (snd (with_event body s)).
Proof. intros Hb. refine (preserves_run (preserves_with_event same_maps body _ Hb) s). by split. Qed.

(** ** Verdicts, hook by hook *)

Ltac unfold_policy :=
  unfold policy, enforced, is_trusted, blocking, is_untrusted, is_sensitive, inet_family,
    exec_trust; cbv zeta.

Ltac verdict := branches; split_bools; known_bools; done.

Lemma file_open_verdict (c : ctx) (file mask : Z) (s : bst) :
  fst (file_open c file mask s) = if policy c (FileOpen file mask) s then - EACCES else 0.
Proof. unfold file_open. unfold_policy. verdict. Qed.

Lemma file_permission_verdict (c : ctx) (file mask : Z) (s : bst) :
  fst (file_permission c file mask s) = 0.
Proof. unfold file_permission. verdict. Qed.

Lemma socket_connect_verdict (c : ctx) (address : Z) (s : bst) :
  fst (socket_connect c address s) = if policy c (SocketConnect address) s then - EACCES else 0.
Proof.
  unfold socket_connect. unfold_policy. fold (socket_family c address) (unix_path c address).
  generalize (socket_family c address) as f; intros f. unfold AF_UNIX, AF_INET, AF_INET6.
  destruct (Z.eqb_spec f 1), (Z.eqb_spec f 2), (Z.eqb_spec f 10); try lia;
    cbn [negb andb orb]; verdict.
Qed.

Lemma bprm_creds_for_exec_verdict (c : ctx) (bprm : Z) (s : bst) :
  fst (bprm_creds_for_exec c bprm s) =
    if policy c (BprmCredsForExec bprm) s then - EACCES else 0.
Proof.
  unfold bprm_creds_for_exec. unfold_policy.
  destruct (bprm =? NULL); [done|]. run.
  destruct (bprm_file c bprm =? NULL); cbn [orb negb andb]; [by run|].
  destruct (file_f_inode c (bprm_file c bprm) =? NULL); [by run|]. run.
  destruct (map_lookup (st_trusted_exec_inodes s) _) as [t|]; simpl deref_is; verdict.
Qed.

Lemma ptrace_access_check_verdict (c : ctx) (child mode : Z) (s : bst) :
  fst (ptrace_access_check c child mode s) =
    if policy c (PtraceAccessCheck child mode) s then - EACCES else 0.
Proof.
  unfold ptrace_access_check. unfold_policy. destruct (child =? NULL); [done|].
  rewrite run_bind. run.
  pose proof (with_event_same_maps (ptrace_event c (get_current_process_key c)
    (wrap 32 (task_tgid c child)) mode) s ltac:(solve_preserves)) as Hs.
  rewrite <- (same_trusted_roots _ _ Hs), <- (same_config _ _ Hs), <- (same_threshold _ _ Hs).
  generalize (snd (with_event (ptrace_event c (get_current_process_key c)
    (wrap 32 (task_tgid c child)) mode) s)). clear. intros s'. verdict.
Qed.

Lemma file_mprotect_verdict (c : ctx) (vma start end_ newprot : Z) (s : bst) :
  fst (file_mprotect c vma start end_ newprot s) =
    if policy c (FileMprotect vma start end_ newprot) s then - EACCES else 0.
Proof. unfold file_mprotect. unfold_policy. verdict. Qed.

Lemma mmap_file_verdict (c : ctx) (file prot : Z) (s : bst) : fst (mmap_file c file prot s) = 0.
Proof. unfold mmap_file. verdict. Qed.

Lemma socket_listen_verdict (c : ctx) (sock : Z) (s : bst) :
  fst (socket_listen c sock s) = if policy c (SocketListen sock) s then - EACCES else 0.
Proof. unfold socket_listen. unfold_policy. verdict. Qed.

Lemma tracing_verdict (c : ctx) (h : hook_call) (s : bst) :
  match h with
  | FileOpen _ _ | FilePermission _ _ | SocketConnect _ | BprmCredsForExec _
  | PtraceAccessCheck _ _ | FileMprotect _ _ _ _ | MmapFile _ _ | SocketListen _ => True
  | _ => fst (run_hook c h s) = 0
  end.
Proof. destruct h; try done; unfold_hook; branches; rewrite ?run_bind; done. Qed.

Lemma run_hook_verdict (c : ctx) (h : hook_call) (s : bst) :
  fst (run_hook c h s) = if policy c h s then - EACCES else 0.
Proof.
  destruct h; first
    [ apply file_open_verdict | apply file_permission_verdict | apply socket_connect_verdict
    | apply bprm_creds_for_exec_verdict | apply ptrace_access_check_verdict
    | apply file_mprotect_verdict | apply mmap_file_verdict | apply socket_listen_verdict
    | lazymatch goal with |- fst (exec (run_hook _ ?h) _) = _ => exact (tracing_verdict c h s) end ].
Qed.

(** ** The life of a process's entries *)

Context `{!BpfMapsLaws}.

(** [with_event] touches a counter and the ring buffer only. *)
Lemma with_event_fixes {T : Type} (f : bst -> T) (body : list Z -> prog bst (list Z)) (s : bst) :
  frame_slot (fixes f) telemetry_ringbuf -> (forall ev, preserves (fixes f) (body ev)) ->
  f (snd (with_event body s)) = f s.
Proof. intros Hf Hb. exact (preserves_run (preserves_with_event (fixes f) body Hf Hb) s). Qed.

(** The calls that may change the threshold of the process [key]. *)
Definition relabels (key : process_key) (ch : ctx * hook_call) : bool :=
  match snd ch with
  | BprmCredsForExec _ | SchedProcessExit =>
      bool_decide (get_current_process_key (fst ch) = key)
  | _ => false
  end.

Lemma preserves_threshold (c : ctx) (h : hook_call) (key : process_key) :
  relabels key (c, h) = false ->
  preserves (fixes (fun s => map_lookup (st_process_threshold_map s) key)) (run_hook c h).
Proof.
  unfold relabels. intros Hr.
  destruct h; simpl in Hr; try (unfold_hook; solve_preserves; fail); apply bool_decide_eq_false in Hr;
    unfold_hook; solve_preserves; first [apply preserves_update_at | apply preserves_delete_at];
    intros s; unfold fixes; read_slots; autorewrite with slots;
    first [by apply map_update_ne | by apply map_delete_ne].
Qed.

Lemma threshold_kept (c : ctx) (h : hook_call) (key : process_key) (s : bst) :
  relabels key (c, h) = false ->
  map_lookup (st_process_threshold_map (snd (run_hook c h s))) key =
    map_lookup (st_process_threshold_map s) key.
Proof. intros Hr. exact (preserves_run (preserves_threshold c h key Hr) s). Qed.

(** Only the exit of a process touches the trusted roots, and only its own entry. *)
Lemma trusted_map_kept (c : ctx) (h : hook_call) :
  h <> SchedProcessExit -> preserves (fixes st_trusted_ancestor_roots) (run_hook c h).
Proof. intros Hh. destruct h; try (by destruct Hh); unfold_hook; solve_preserves. Qed.

Lemma trusted_kept (c : ctx) (h : hook_call) (key : process_key) (s : bst) :
  is_trusted s key = false -> is_trusted (snd (run_hook c h s)) key = false.
Proof.
  intros Ht. unfold is_trusted. destruct (decide (h = SchedProcessExit)) as [->|Hh].
  - simpl. unfold tracepoint_sched_process_exit. run.
    rewrite (with_event_fixes st_trusted_ancestor_roots) by (intros; solve_preserves).
    read_slots. destruct (decide (get_current_process_key c = key)) as [->|Hk].
    + by rewrite map_delete_lookup.
    + by rewrite map_delete_ne.
  - by rewrite (preserves_run (trusted_map_kept c h Hh) s).
Qed.

End system_lemmas.
