(* ===== verification/BpfTheorems.v ===== *)
(** Theorems about the eBPF programs taken together: the access policy they
    implement, containment of untrusted processes, monitor mode, independence of
    enforcement from telemetry, and the life of the per-process entries.  Every
    theorem is proved over the interfaces of [Kernel]; the witnesses run the
    programs on the executable kernel of [KernelRef]. *)

From S2P Require Export BpfSystem KernelRef.

Local Open Scope Z_scope.

(** ** A concrete kernel for the witnesses *)

Definition demo_inode : Z := 500.
Definition demo_file : Z := 100.
Definition demo_slave : Z := 101.
Definition demo_bprm : Z := 300.
Definition demo_sockaddr : Z := 700.

(** One task (address 1) of process 42; the file at [demo_file] has an inode
    and the name "shadow", the binary at [demo_bprm] is that file, [demo_slave] is
    the first PTY slave, /dev/pts/0 (major 136, minor 0), and [demo_sockaddr] is
    10.0.0.7:443. *)
Definition demo_mem : kernel_mem := {|
  task_start_time := table [(1, 1000); (2, 2000)];
  task_real_parent := table [(1, 2); (2, 2)];
  task_tgid := table [(1, 42); (2, 7)];
  file_f_inode := table [(demo_file, 10); (demo_slave, 11)];
  file_f_path_dentry := table [(demo_file, 20)];
  inode_i_ino := table [(10, demo_inode)];
  inode_i_rdev := table [(10, 34816); (11, 136 * 2 ^ 20)];
  dentry_d_name_name := table [(20, 900)];
  dentry_d_parent := table [];
  sockaddr_sa_family := table [(demo_sockaddr, 2)];
  user_sockaddr_sa_family := table [(demo_sockaddr, 2)];
  bprm_file := table [(demo_bprm, demo_file)];
  bprm_filename := table [(demo_bprm, 900)];
  vma_vm_file := table [];
  socket_sk := table [(400, 401)];
  sock_skc_num := table [(401, 5901)];
  probe_read_kernel := blob_read [(demo_sockaddr + 2, [1; 187]); (demo_sockaddr + 4, [10; 0; 0; 7])];
  probe_read_kernel_str := blob_read_str [(900, str "shadow")];
  probe_read_user := blob_read [(demo_sockaddr + 2, [1; 187]); (demo_sockaddr + 4, [10; 0; 0; 7]);
                                (5000, str "whoami")];
  probe_read_user_str := blob_read_str [(900, str "shadow")];
  read_kernel_local := fun bs => bs;
  read_user_local := fun bs => repeat 0 (length bs);
|}.

(** A run on [cpu] of the task at address [task] of process [tgid]. *)
Definition demo_ctx (cpu tgid task : Z) : ctx :=
  Ctx cpu (Z.shiftl tgid 32 + tgid) task (str "bash" ++ repeat 0 12) 77 demo_mem.

Lemma demo_ctx_ok (cpu tgid task : Z) : ctx_ok (demo_ctx cpu tgid task).
Proof.
  split; [|done].
  split; simpl; [apply blob_read_fills | apply blob_read_fills |
    apply blob_read_str_terminates | apply blob_read_str_terminates | done | done].
Qed.

(** An object just loaded: the maps with their declared capacities, every cell
    of the two arrays zero, ring buffers full of stale 0xAA bytes. *)
Definition loaded : bst := {|
  st_category_flags_map := empty_map 10240;
  st_pending_network_connect := empty_map 10240;
  st_trusted_ancestor_roots := empty_map 2048;
  st_sensitive_inodes_map := empty_map 10240;
  st_trusted_exec_inodes := empty_map 10240;
  st_process_threshold_map := empty_map 10240;
  st_config_map := Bounded 1 [(0, 0)];
  st_tainted_process_map := empty_map 10240;
  st_seq_counter := Bounded 2 [((0, 0), 0); ((1, 0), 0)];
  st_pending_tty_reads := empty_map 1024;
  st_telemetry_ringbuf := RefRingbuf 16000 170 [] [];
  st_tty_ringbuf := RefRingbuf 4000 170 [] [];
|}.

(** The agent's configuration: blocking on, [demo_inode] sensitive. *)
Definition configured : bst :=
  slot_set sensitive_inodes_map (Bounded 10240 [(demo_inode, 16)])
    (slot_set config_map (Bounded 1 [(0, 1)]) loaded).

Definition demo_key : process_key := ProcessKey 42 1000.

(** ** Policy *)

Section policy.
Context {BM : BpfMaps} {RB : BpfRingbuf}.

(** C1: the verdict of every program of the object is the access policy: a call
    is refused with [-EACCES] exactly when the policy formula denies it, and
    returns 0 otherwise; the tracepoints and probes never refuse. *)
Theorem verdict_policy (c : ctx) (h : hook_call) (s : bst) :
  fst (run_hook c h s) = if policy c h s then - EACCES else 0.
Proof. apply run_hook_verdict. Qed.

(** [enforced] is a precondition of every denial but that of an exec. *)
Lemma policy_enforced (c : ctx) (h : hook_call) (s : bst) :
  policy c h s = true ->
  enforced s (get_current_process_key c) = true \/
  exists bprm, h = BprmCredsForExec bprm /\ exec_trust c bprm s = Some 0.
Proof.
  destruct h; simpl; try done; intros H; split_bools; auto.
  right. exists bprm. split; [done|].
  unfold deref_is in *. destruct (exec_trust c bprm s); [|done]. f_equal. lia.
Qed.

Lemma blocking_kept (l : list (ctx * hook_call)) (s : bst) :
  blocking (run_hooks l s) = blocking s.
Proof. unfold blocking. by rewrite (scm_config _ _ (run_hooks_config l s)). Qed.

(** The exec of a file listed with trust level 0: refused whatever the mode. *)
Definition forbidden_exec (c : ctx) (h : hook_call) (s : bst) : bool :=
  match h with BprmCredsForExec bprm => deref_is (exec_trust c bprm s) 0 | _ => false end.

(** With blocking off, whatever the programs have run before, no call is
    refused, except the exec of a file the agent lists with trust level 0. *)
Theorem monitor_mode_never_blocks (l : list (ctx * hook_call)) (c : ctx) (h : hook_call)
    (s : bst) :
  blocking s = false ->
  forbidden_exec c h s = false ->
  fst (run_hook c h (run_hooks l s)) = 0.
Proof.
  intros Hb Hexec. rewrite run_hook_verdict.
  destruct (policy c h (run_hooks l s)) eqn:Hp; [|done]. exfalso.
  apply policy_enforced in Hp as [He|(bprm & -> & Ht)].
  - unfold enforced in He. rewrite blocking_kept, Hb in He. by rewrite !andb_false_r in He.
  - unfold forbidden_exec, exec_trust in *.
    rewrite (scm_trusted_exec _ _ (run_hooks_config l s)) in Ht. by rewrite Ht in Hexec.
Qed.

Lemma unmarked_verdict (c : ctx) (h : hook_call) (s : bst) :
  map_lookup (st_process_threshold_map s) (get_current_process_key c) = None ->
  forbidden_exec c h s = false -> fst (run_hook c h s) = 0.
Proof.
  intros Hn Hexec. rewrite run_hook_verdict.
  destruct (policy c h s) eqn:Hp; [|done]. exfalso.
  apply policy_enforced in Hp as [He|(bprm & -> & Ht)].
  - unfold enforced, is_untrusted in He. rewrite Hn in He. by rewrite andb_false_r in He.
  - simpl in Hexec. by rewrite Ht in Hexec.
Qed.

(** ** Containment *)

Section containment.
Context `{!BpfMapsLaws}.

Lemma threshold_kept_run (l : list (ctx * hook_call)) (key : process_key) (s : bst) :
  Forall (fun ch => relabels key ch = false) l ->
  map_lookup (st_process_threshold_map (run_hooks l s)) key =
    map_lookup (st_process_threshold_map s) key.
Proof.
  intros Hl. revert s; induction Hl as [|[c h] l Hh Hl IH]; intros s; simpl; [done|].
  by rewrite IH, threshold_kept.
Qed.

Lemma trusted_kept_run (l : list (ctx * hook_call)) (key : process_key) (s : bst) :
  is_trusted s key = false -> is_trusted (run_hooks l s) key = false.
Proof.
  revert s; induction l as [|[c h] l IH]; intros s Ht; simpl; [done|].
  by apply IH, trusted_kept.
Qed.

(** What an exec does to the threshold of the process: the level of the listed
    file, 1 for an unlisted file under blocking, nothing otherwise. *)
Definition exec_label (c : ctx) (bprm : Z) (s : bst) : option Z :=
  if bprm =? NULL then None else
  if bprm_file c bprm =? NULL then None else
  if file_f_inode c (bprm_file c bprm) =? NULL then None else
  match exec_trust c bprm s with
  | Some t => if t =? 0 then None else Some t
  | None => if blocking s then Some 1 else None
  end.

Lemma exec_labels (c : ctx) (bprm : Z) (s : bst) :
  st_process_threshold_map (snd (bprm_creds_for_exec c bprm s)) =
    match exec_label c bprm s with
    | Some t => snd (map_update (st_process_threshold_map s) (get_current_process_key c) t)
    | None => st_process_threshold_map s
    end.
Proof.
  unfold bprm_creds_for_exec, exec_label, exec_trust, blocking. cbv zeta.
  destruct (bprm =? NULL); [done|].
  destruct (bprm_file c bprm =? NULL); cbn [orb].
  { run. rewrite (with_event_fixes st_process_threshold_map); [done|auto with preserves|].
    intros; solve_preserves. }
  destruct (file_f_inode c (bprm_file c bprm) =? NULL).
  { run. rewrite (with_event_fixes st_process_threshold_map); [done|auto with preserves|].
    intros; solve_preserves. }
  branches; known_bools; try done;
    (rewrite (with_event_fixes st_process_threshold_map);
      [by read_slots | auto with preserves | intros; solve_preserves]).
Qed.

(** Containment.  When blocking is on and an untrusted-by-default process
    executes a file the agent does not list, then (provided the threshold map
    took the entry) through any run of the object in which the process neither
    executes another file nor exits, every access of that process to a sensitive
    file, every IPv4/IPv6 connection, every ptrace attachment and every listen
    on a remote-desktop port is refused. *)
Theorem untrusted_exec_contained (c : ctx) (bprm : Z) (s : bst) (l : list (ctx * hook_call))
    (c' : ctx) :
  let key := get_current_process_key c in
  let s' := run_hooks l (snd (run_hook c (BprmCredsForExec bprm) s)) in
  blocking s = true -> exec_label c bprm s = Some 1 -> is_trusted s key = false ->
  fst (map_update (st_process_threshold_map s) key 1) = 0 ->
  Forall (fun ch => relabels key ch = false) l ->
  get_current_process_key c' = key ->
  (forall file mask, file <> NULL -> file_f_inode c' file <> NULL ->
     is_sensitive s (inode_i_ino c' (file_f_inode c' file)) = true ->
     fst (run_hook c' (FileOpen file mask) s') = - EACCES) /\
  (forall address, inet_family (socket_family c' address) = true ->
     fst (run_hook c' (SocketConnect address) s') = - EACCES) /\
  (forall child mode, child <> NULL ->
     fst (run_hook c' (PtraceAccessCheck child mode) s') = - EACCES) /\
  (forall sock, sock <> NULL -> socket_sk c' sock <> NULL ->
     is_remote_desktop_port (wrap 16 (sock_skc_num c' (socket_sk c' sock))) = true ->
     fst (run_hook c' (SocketListen sock) s') = - EACCES).
Proof.
  intros key s' Hb Hlabel Ht Hup Hl Hk.
  set (s1 := snd (run_hook c (BprmCredsForExec bprm) s)) in *.
  assert (enforced s' key = true) as He.
  { unfold enforced, s'. rewrite trusted_kept_run by (by apply trusted_kept).
    rewrite blocking_kept. unfold blocking, is_untrusted, s1.
    rewrite (scm_config _ _ (preserves_run (run_hook_config c _) s)), threshold_kept_run by done.
    simpl run_hook. rewrite exec_labels, Hlabel, map_update_lookup by done.
    unfold blocking in Hb. by rewrite Hb. }
  assert (st_sensitive_inodes_map s' = st_sensitive_inodes_map s) as Hsens.
  { unfold s'. rewrite (scm_sensitive_inodes _ _ (run_hooks_config l s1)).
    apply (preserves_run (run_hook_config c (BprmCredsForExec bprm)) s). }
  repeat split; intros; rewrite run_hook_verdict; unfold policy, is_sensitive in *;
    rewrite Hk, He, ?Hsens;
    repeat match goal with H : _ <> NULL |- _ => apply Z.eqb_neq in H; rewrite H; clear H end;
    known_bools; done.
Qed.

End containment.

End policy.

Lemma monitor_mode_never_blocks_witness :
  fst (run_hook (demo_ctx 0 42 1) (FileOpen demo_file 0)
    (run_hooks [(demo_ctx 0 42 1, BprmCredsForExec demo_bprm)] loaded)) = 0.
Proof. apply (monitor_mode_never_blocks _ _ _ loaded); [reflexivity | reflexivity]. Defined.

(** The unlisted binary of process 42 is executed, another process runs, and
    process 42 then opens the sensitive file. *)
Lemma untrusted_exec_contained_witness :
  let l := [(demo_ctx 1 7 2, BprmCredsForExec demo_bprm); (demo_ctx 0 42 1, SysEnterListen)] in
  fst (run_hook (demo_ctx 0 42 1) (FileOpen demo_file 0)
    (run_hooks l (snd (run_hook (demo_ctx 0 42 1) (BprmCredsForExec demo_bprm) configured))))
    = - EACCES.
Proof.
  intros l.
  apply (untrusted_exec_contained (demo_ctx 0 42 1) demo_bprm configured l (demo_ctx 0 42 1));
    try reflexivity; try discriminate.
  repeat constructor.
Defined.
