(* ===== verification/Independence.v ===== *)
(** Enforcement does not depend on telemetry: the ring buffers and the sequence
    counters never influence a verdict or a map.  Two states with the same maps
    are equivalent, every program is a morphism for that equivalence, and so is
    every run. *)

From S2P Require Export BpfTheorems.

Local Open Scope Z_scope.

Section independence.
Context {BM : BpfMaps} {RB : BpfRingbuf}.

#[export] Instance same_maps_equivalence : Equivalence same_maps.
Proof.
  split; [by intros s | | typeclasses eauto].
  intros s1 s2 []; by split.
Qed.

(** A program whose result and maps depend on the maps only. *)
Definition morphism {A : Type} (m : prog bst A) : Prop :=
  Proper (same_maps ==> prod_relation eq same_maps) (exec m).

Lemma morphism_ret {A : Type} (x : A) : morphism (mret x : prog bst A).
Proof. intros s1 s2 Hs. by split. Qed.

Lemma morphism_bind {A B : Type} (m : prog bst A) (k : A -> prog bst B) :
  morphism m -> (forall x, morphism (k x)) -> morphism (m ≫= k).
Proof.
  intros Hm Hk s1 s2 Hs. rewrite !run_bind. destruct (Hm s1 s2 Hs) as [Hx Hs'].
  rewrite Hx. by apply Hk.
Qed.

Lemma morphism_if {A : Type} (b : bool) (m1 m2 : prog bst A) :
  morphism m1 -> morphism m2 -> morphism (if b then m1 else m2).
Proof. by destruct b. Qed.

Lemma morphism_option {A B : Type} (o : option B) (k : B -> prog bst A) (m : prog bst A) :
  (forall x, morphism (k x)) -> morphism m ->
  morphism (match o with Some x => k x | None => m end).
Proof. by destruct o. Qed.

(** The slots of the maps. *)
Definition map_slot {T : Type} (m : slot T) : Prop :=
  Proper (same_maps ==> eq) (slot_get m) /\
  forall v, Proper (same_maps ==> same_maps) (slot_set m v).

Lemma morphism_lookup {K V : Type} `{EqDecision K} (m : slot (hash K V)) (k : K) :
  map_slot m -> morphism (bpf_map_lookup_elem m k).
Proof.
  intros [Hg _] s1 s2 Hs. unfold bpf_map_lookup_elem. rewrite !run_gets, (Hg s1 s2 Hs). by split.
Qed.

Lemma morphism_update {K V : Type} `{EqDecision K} (m : slot (hash K V)) (k : K) (v : V) :
  map_slot m -> morphism (bpf_map_update_elem m k v).
Proof.
  intros [Hg Hs'] s1 s2 Hs. unfold bpf_map_update_elem. rewrite !run_act, (Hg s1 s2 Hs).
  destruct (map_update _ k v). split; simpl; [done | by apply Hs'].
Qed.

Lemma morphism_delete {K V : Type} `{EqDecision K} (m : slot (hash K V)) (k : K) :
  map_slot m -> morphism (bpf_map_delete_elem m k).
Proof.
  intros [Hg Hs'] s1 s2 Hs. unfold bpf_map_delete_elem. rewrite !run_act, (Hg s1 s2 Hs).
  destruct (map_delete _ k). split; simpl; [done | by apply Hs'].
Qed.

(** Committing a record, or failing to, is invisible in the maps. *)
Lemma morphism_silent (m : prog bst unit) : preserves same_maps m -> morphism m.
Proof.
  intros Hm s1 s2 Hs. split; [by destruct (fst (m s1)), (fst (m s2))|].
  transitivity s1; [symmetry; apply (preserves_run Hm)|].
  transitivity s2; [done | apply (preserves_run Hm)].
Qed.

End independence.

#[export] Hint Extern 1 (map_slot _) =>
  (split; [intros ? ? []; symmetry; assumption
          | intros ? ? ? []; split; simpl; congruence]) : preserves.

Ltac solve_morphism :=
  repeat first
    [ progress intros
    | apply morphism_ret
    | apply morphism_if
    | apply morphism_option
    | apply morphism_lookup; solve [auto with preserves nocore]
    | apply morphism_update; solve [auto with preserves nocore]
    | apply morphism_delete; solve [auto with preserves nocore]
    | apply morphism_silent; solve [solve_preserves]
    | apply morphism_bind ].

Section runs.
Context {BM : BpfMaps} {RB : BpfRingbuf}.

#[export] Instance run_hook_morphism (c : ctx) (h : hook_call) :
  Proper (same_maps ==> prod_relation eq same_maps) (exec (run_hook c h)).
Proof. change (morphism (run_hook c h)). destruct h; unfold_hook; solve_morphism. Qed.

(** The verdicts of a run, in order. *)
Fixpoint verdicts (l : list (ctx * hook_call)) (s : bst) : list Z :=
  match l with
  | [] => []
  | (c, h) :: rest => fst (run_hook c h s) :: verdicts rest (snd (run_hook c h s))
  end.

(** C16: enforcement is independent of telemetry.  Two states that differ only in
    the ring buffers (full, empty, any records) and in the sequence counters
    give the same verdicts on every run of the object, and end with the same
    maps: a flooded or unread ring buffer neither blocks nor admits anything. *)
Theorem enforcement_independent_of_telemetry (l : list (ctx * hook_call)) (s1 s2 : bst) :
  same_maps s1 s2 ->
  verdicts l s1 = verdicts l s2 /\ same_maps (run_hooks l s1) (run_hooks l s2).
Proof.
  revert s1 s2; induction l as [|[c h] l IH]; intros s1 s2 Hs; simpl; [done|].
  destruct (run_hook_morphism c h s1 s2 Hs) as [Hv Hs'].
  destruct (IH _ _ Hs') as [Hvs Hfin]. split; [by f_equal | done].
Qed.

End runs.

(** With a full ring buffer the untrusted process is refused all the same. *)
Lemma enforcement_independent_of_telemetry_witness :
  let l := [(demo_ctx 0 42 1, BprmCredsForExec demo_bprm);
            (demo_ctx 0 42 1, FileOpen demo_file 0)] in
  let full := slot_set telemetry_ringbuf (RefRingbuf 0 170 [] []) configured in
  verdicts l full = [0; - EACCES].
Proof.
  intros l full.
  transitivity (verdicts l configured); [|reflexivity].
  apply (enforcement_independent_of_telemetry l full configured). by split.
Defined.
