(* ===== verification/Lifecycle.v ===== *)
(** The life of a process's map entries: what an exec records, what accumulates,
    what an exit forgets, and the two ways in which an untrusted process is left
    without an entry and so without enforcement. *)

From S2P Require Export BpfTheorems.

Local Open Scope Z_scope.

Section lifecycle.
Context {BM : BpfMaps} {RB : BpfRingbuf} `{!BpfMapsLaws}.

(** Everything the object remembers about a process. *)
Record process_entries : Type := ProcessEntries {
  pe_category_flags : option Z;
  pe_pending_network : option Z;
  pe_trusted : option Z;
  pe_threshold : option Z;
  pe_tainted : option Z;
}.

Definition entries_of (s : bst) (key : process_key) : process_entries := {|
  pe_category_flags := map_lookup (st_category_flags_map s) key;
  pe_pending_network := map_lookup (st_pending_network_connect s) key;
  pe_trusted := map_lookup (st_trusted_ancestor_roots s) key;
  pe_threshold := map_lookup (st_process_threshold_map s) key;
  pe_tainted := map_lookup (st_tainted_process_map s) key;
|}.

Definition no_entries : process_entries := ProcessEntries None None None None None.

Lemma exit_maps (c : ctx) (s : bst) :
  let key := get_current_process_key c in
  let s' := snd (run_hook c SchedProcessExit s) in
  st_category_flags_map s' = snd (map_delete (st_category_flags_map s) key) /\
  st_pending_network_connect s' = snd (map_delete (st_pending_network_connect s) key) /\
  st_trusted_ancestor_roots s' = snd (map_delete (st_trusted_ancestor_roots s) key) /\
  st_process_threshold_map s' = snd (map_delete (st_process_threshold_map s) key) /\
  st_tainted_process_map s' = snd (map_delete (st_tainted_process_map s) key) /\
  st_pending_tty_reads s' = st_pending_tty_reads s.
Proof.
  intros key s'. unfold s'. simpl run_hook. unfold tracepoint_sched_process_exit. run.
  match goal with |- context [exec (with_event ?b) ?s0] =>
    pose proof (with_event_same_maps b s0 ltac:(intros; solve_preserves)) as [] end.
  read_slots. autorewrite with slots in *. done.
Qed.

(** C19: the exit of a process forgets it completely: afterwards none of the five
    per-process maps holds an entry for it, and every other process keeps
    exactly the entries it had. *)
Theorem exit_forgets_process (c : ctx) (s : bst) :
  let s' := snd (run_hook c SchedProcessExit s) in
  entries_of s' (get_current_process_key c) = no_entries /\
  forall key', get_current_process_key c <> key' -> entries_of s' key' = entries_of s key'.
Proof.
  intros s'. destruct (exit_maps c s) as (H1 & H2 & H3 & H4 & H5 & _).
  unfold entries_of, s'. rewrite H1, H2, H3, H4, H5. split.
  - by rewrite !map_delete_lookup.
  - intros key' Hne. by rewrite !map_delete_ne.
Qed.

(** ** Category flags *)

(** Removes the flags of [key]: its exit. *)
Definition forgets (key : process_key) (ch : ctx * hook_call) : bool :=
  match snd ch with
  | SchedProcessExit => bool_decide (get_current_process_key (fst ch) = key)
  | _ => false
  end.

(** [f] only ever gains bits: the relation of one step. *)
Definition flags_grow (key : process_key) : relation bst := fun s s' =>
  forall f, map_lookup (st_category_flags_map s) key = Some f ->
  exists f', map_lookup (st_category_flags_map s') key = Some f' /\ Z.land f f' = f.

#[export] Instance flags_grow_preorder (key : process_key) : PreOrder (flags_grow key).
Proof.
  split.
  - intros s f Hf. exists f. split; [done | apply Z.land_diag].
  - intros s1 s2 s3 H12 H23 f Hf. destruct (H12 f Hf) as (f2 & Hf2 & Hl2).
    destruct (H23 f2 Hf2) as (f3 & Hf3 & Hl3). exists f3. split; [done|].
    by rewrite <- Hl2, <- Z.land_assoc, Hl3.
Qed.

Lemma land_lor_absorb (f c : Z) : Z.land f (Z.lor f c) = f.
Proof.
  apply Z.bits_inj'. intros n Hn. rewrite Z.land_spec, Z.lor_spec.
  by destruct (Z.testbit f n).
Qed.

Lemma fixes_flags_grow (key : process_key) (s s' : bst) :
  fixes st_category_flags_map s s' -> flags_grow key s s'.
Proof. intros Hf f. unfold fixes in Hf. rewrite Hf. exists f. by rewrite Z.land_diag. Qed.

(** The update of an entry with more bits, whether or not the map accepts it. *)
Lemma flags_update_grows (key key' : process_key) (s : bst) (v : Z) :
  (forall f, map_lookup (st_category_flags_map s) key' = Some f -> Z.land f v = f) ->
  flags_grow key s
    (slot_set category_flags_map (snd (map_update (st_category_flags_map s) key' v)) s).
Proof.
  intros Hv f Hf. read_slots. destruct (decide (key' = key)) as [->|Hne].
  - destruct (decide (fst (map_update (st_category_flags_map s) key v) = 0)).
    + rewrite map_update_lookup by done. exists v. auto.
    + rewrite map_update_fail by done. exists f. by rewrite Z.land_diag.
  - rewrite map_update_ne by done. exists f. by rewrite Z.land_diag.
Qed.

Lemma with_event_flags_grow (key : process_key) (body : list Z -> prog bst (list Z)) (s : bst) :
  (forall ev, preserves (fixes st_category_flags_map) (body ev)) ->
  flags_grow key s (snd (with_event body s)).
Proof.
  intros Hb. apply fixes_flags_grow. apply (with_event_fixes st_category_flags_map);
    [auto with preserves | done].
Qed.

(** Only two programs touch the flags. *)
Lemma category_flags_kept (c : ctx) (h : hook_call) :
  match h with FileOpen _ _ | SchedProcessExit => False | _ => True end ->
  preserves (fixes st_category_flags_map) (run_hook c h).
Proof. intros Hh. destruct h; try done; unfold_hook; solve_preserves. Qed.

(** What an admitted open of a sensitive file records. *)
Lemma file_open_flags (c : ctx) (file mask : Z) (s : bst) :
  let key := get_current_process_key c in
  st_category_flags_map (snd (file_open c file mask s)) = st_category_flags_map s \/
  exists category, map_lookup (st_sensitive_inodes_map s)
      (inode_i_ino c (file_f_inode c file)) = Some category /\
    st_category_flags_map (snd (file_open c file mask s)) =
      snd (map_update (st_category_flags_map s) key
        match map_lookup (st_category_flags_map s) key with
        | Some f => Z.lor f category | None => category end).
Proof.
  intros key. unfold key, file_open. branches; try (left; reflexivity).
  all: rewrite (with_event_fixes st_category_flags_map) by (intros; solve_preserves).
  all: first [left; reflexivity | right; eexists; split; [reflexivity | by read_slots]].
Qed.

Lemma run_hook_flags_grow (c : ctx) (h : hook_call) (key : process_key) (s : bst) :
  forgets key (c, h) = false -> flags_grow key s (snd (run_hook c h s)).
Proof.
  intros Hf.
  destruct h as [file mode| | | | | | | | | | | | | | | | | | |];
    try (apply fixes_flags_grow; refine (preserves_run (category_flags_kept c _ _) s); exact I).
  - simpl run_hook. destruct (file_open_flags c file mode s) as [Heq|(cat & _ & Heq)].
    + by apply fixes_flags_grow.
    + intros f Hkf. rewrite Heq.
      apply (flags_update_grows key (get_current_process_key c) s); [|done].
      intros f' ->. apply land_lor_absorb.
  - unfold forgets in Hf. simpl in Hf. apply bool_decide_eq_false in Hf.
    intros f Hkf. destruct (exit_maps c s) as (-> & _).
    rewrite map_delete_ne by done. exists f. by rewrite Z.land_diag.
Qed.

(** The category flags of a process are a monotone record of what it opened:
    through any run in which the process does not exit, no flag it carries is
    ever lost, whatever the other programs do and even when updates fail. *)
Theorem category_flags_monotone (l : list (ctx * hook_call)) (key : process_key) (s : bst)
    (flags : Z) :
  map_lookup (st_category_flags_map s) key = Some flags ->
  Forall (fun ch => forgets key ch = false) l ->
  exists flags', map_lookup (st_category_flags_map (run_hooks l s)) key = Some flags' /\
    Z.land flags flags' = flags.
Proof.
  intros Hf Hl. enough (flags_grow key s (run_hooks l s)) as Hg by by apply Hg.
  clear Hf. revert s; induction Hl as [|[c h] l Hh Hl IH]; intros s; simpl; [reflexivity|].
  etrans; [by apply run_hook_flags_grow | apply IH].
Qed.

(** ** Enforcement needs an entry *)

(** C32: the threshold map fails open.  When it cannot take the entry of a
    process that executes an unlisted file under blocking, the process runs
    unmarked: through any run of programs in which it neither executes again nor
    exits, the next thing it does is admitted, whatever the target, unless it is the
    execution of a file listed at level 0 ([forbidden_exec]).  (The agent's map
    calls are not part of the run: it can label the process at any time.) *)
Theorem full_threshold_map_fails_open (c : ctx) (bprm : Z) (s : bst)
    (l : list (ctx * hook_call)) (c' : ctx) (h : hook_call) :
  let key := get_current_process_key c in
  let s' := run_hooks l (snd (run_hook c (BprmCredsForExec bprm) s)) in
  blocking s = true -> exec_label c bprm s = Some 1 ->
  map_lookup (st_process_threshold_map s) key = None ->
  fst (map_update (st_process_threshold_map s) key 1) <> 0 ->
  Forall (fun ch => relabels key ch = false) l ->
  get_current_process_key c' = key -> forbidden_exec c' h s' = false ->
  fst (run_hook c' h s') = 0.
Proof.
  intros key s' Hb Hlabel Hnone Hup Hl Hk Hx. apply unmarked_verdict; [|done].
  rewrite Hk. unfold s'. rewrite threshold_kept_run by done.
  simpl run_hook. rewrite exec_labels, Hlabel. by rewrite map_update_fail.
Qed.

(** Marking is per task, not per process.  A task of the same process id
    whose kernel start time differs (another thread, or a child that has not
    executed anything) is not covered by the mark its process got at exec: as
    long as it has no entry of its own, none of its calls is refused. *)
Theorem sibling_task_not_covered (c : ctx) (bprm : Z) (s : bst) (l : list (ctx * hook_call))
    (c' : ctx) (h : hook_call) :
  let key := get_current_process_key c in
  let key' := get_current_process_key c' in
  let s' := run_hooks l (snd (run_hook c (BprmCredsForExec bprm) s)) in
  start_time key' <> start_time key ->
  map_lookup (st_process_threshold_map s) key' = None ->
  Forall (fun ch => relabels key' ch = false) l ->
  forbidden_exec c' h s' = false ->
  fst (run_hook c' h s') = 0.
Proof.
  intros key key' s' Hst Hnone Hl Hx. apply unmarked_verdict; [|done].
  unfold s'. fold key'. rewrite threshold_kept_run by exact Hl.
  rewrite (threshold_kept c (BprmCredsForExec bprm) key' s); [exact Hnone|].
  unfold relabels. cbn [fst snd]. apply bool_decide_eq_false. intros Heq.
  exact (Hst (f_equal start_time (eq_sym Heq))).
Qed.

(** ** Trusted processes *)

(** A trusted root is invisible to the access hooks: opening, writing,
    connecting, changing protections, mapping and listening by such a process
    return 0 and leave the whole state, records and counters included, as it
    was. *)
Theorem trusted_process_untouched (c : ctx) (h : hook_call) (s : bst) :
  is_trusted s (get_current_process_key c) = true ->
  match h with
  | FileOpen _ _ | FilePermission _ _ | SocketConnect _ | FileMprotect _ _ _ _
  | MmapFile _ _ | SocketListen _ => True
  | _ => False
  end ->
  run_hook c h s = (0, s).
Proof.
  unfold is_trusted. intros Ht Hh.
  destruct h; try done; unfold_hook; repeat (run; rewrite ?Ht; try done; branch); done.
Qed.

End lifecycle.

(** ** Witnesses *)

(** Process 42 has flags and a threshold, process 7 a threshold; 42 exits. *)
Lemma exit_forgets_process_witness :
  let s := slot_set category_flags_map (Bounded 10240 [(demo_key, 16)])
    (slot_set process_threshold_map
      (Bounded 10240 [(demo_key, 1); (ProcessKey 7 2000, 2)]) configured) in
  entries_of (snd (run_hook (demo_ctx 0 42 1) SchedProcessExit s)) demo_key = no_entries.
Proof. intros s. apply (exit_forgets_process (demo_ctx 0 42 1) s). Defined.

Lemma category_flags_monotone_witness :
  let s := slot_set category_flags_map (Bounded 10240 [(demo_key, 3)]) configured in
  let l := [(demo_ctx 0 42 1, FileOpen demo_file 0); (demo_ctx 1 7 2, SchedProcessExit)] in
  map_lookup (st_category_flags_map s) demo_key = Some 3 /\
  exists flags', map_lookup (st_category_flags_map (run_hooks l s)) demo_key = Some flags' /\
    Z.land 3 flags' = 3.
Proof.
  intros s l. split; [reflexivity|].
  apply (category_flags_monotone l demo_key s 3); [reflexivity|]. repeat constructor.
Defined.

(** The threshold map holds its one entry already. *)
Lemma full_threshold_map_fails_open_witness :
  let s := slot_set process_threshold_map (Bounded 1 [(ProcessKey 7 2000, 1)]) configured in
  fst (run_hook (demo_ctx 0 42 1) (FileOpen demo_file 0)
    (run_hooks [] (snd (run_hook (demo_ctx 0 42 1) (BprmCredsForExec demo_bprm) s)))) = 0.
Proof.
  intros s.
  apply (full_threshold_map_fails_open (demo_ctx 0 42 1) demo_bprm s [] (demo_ctx 0 42 1));
    try reflexivity; try discriminate. constructor.
Defined.

(** A second task of process 42, at address 2, opens the sensitive file. *)
Lemma sibling_task_not_covered_witness :
  fst (run_hook (demo_ctx 0 42 2) (FileOpen demo_file 0)
    (run_hooks [] (snd (run_hook (demo_ctx 0 42 1) (BprmCredsForExec demo_bprm) configured)))) = 0.
Proof.
  apply (sibling_task_not_covered (demo_ctx 0 42 1) demo_bprm configured [] (demo_ctx 0 42 2));
    [discriminate | reflexivity | constructor | reflexivity].
Defined.

Lemma trusted_process_untouched_witness :
  let s := slot_set trusted_ancestor_roots (Bounded 2048 [(demo_key, 1)]) configured in
  run_hook (demo_ctx 0 42 1) (FileOpen demo_file 0) s = (0, s).
Proof. intros s. apply trusted_process_untouched; [reflexivity | exact I]. Defined.
