(* ===== verification/Records.v ===== *)
(** The telemetry stream of the eBPF object: every program commits at most one
    record, of the size user space expects, whose header says who did what; and
    the records a CPU commits carry consecutive sequence numbers. *)

From S2P Require Export BpfTheorems.

Local Open Scope Z_scope.

(** The header a call's record carries: event type, source and the process it is
    attributed to (the parent, for process creation). *)
Definition hook_event (c : ctx) (h : hook_call) : Z * Z * Z :=
  let key := get_current_process_key c in
  match h with
  | FileOpen _ _ => (EVT_FILE_READ, SRC_BPF_LSM, pid key)
  | FilePermission _ _ => (EVT_FILE_WRITE, SRC_BPF_LSM, pid key)
  | SocketConnect _ => (EVT_NETWORK_CONNECT, SRC_BPF_LSM, pid key)
  | BprmCredsForExec _ => (EVT_PROCESS_CREATE, SRC_BPF_LSM, real_parent_tgid c)
  | PtraceAccessCheck _ _ => (EVT_PTRACE_ATTACH, SRC_BPF_LSM, pid key)
  | FileMprotect vma _ _ _ =>
      (if vma_vm_file c vma =? NULL then EVT_MEMORY_MAP else EVT_MEMORY_PROTECT,
       SRC_BPF_LSM, pid key)
  | MmapFile _ _ => (EVT_IMAGE_LOAD, SRC_BPF_LSM, pid key)
  | SysEnterExecve _ => (EVT_PROCESS_CREATE, SRC_BPF_TRACEPOINT, real_parent_tgid c)
  | SchedProcessExit => (EVT_PROCESS_STOP, SRC_BPF_TRACEPOINT, pid key)
  | SysEnterConnect _ => (EVT_NETWORK_CONNECT, SRC_BPF_TRACEPOINT, pid key)
  | SysEnterOpenat _ => (EVT_FILE_READ, SRC_BPF_TRACEPOINT, pid key)
  | SysEnterMmap _ | SysEnterMprotect _ => (EVT_MEMORY_MAP, SRC_BPF_TRACEPOINT, pid key)
  | SysEnterDup2 _ | SysEnterDup3 _ => (EVT_DUP2, SRC_BPF_TRACEPOINT, pid key)
  | SysEnterListen => (EVT_LISTEN, SRC_BPF_TRACEPOINT, pid key)
  | SocketListen _ | TtyWrite _ _ _ | TtyRead _ _ | TtyReadReturn _ => (0, 0, 0)
  end.

(** A record that reports the program [h] run in [c]. *)
Definition reports (ev : list Z) (c : ctx) (h : hook_call) : Prop :=
  let '(evt, src, p) := hook_event c h in
  exists seq, UserLayout.read_header ev =
    UserLayout.HeaderView (wrap 64 seq) (wrap 64 (ktime c)) (wrap 32 p) (wrap 8 evt) (wrap 8 src).

Section records.
Context {BM : BpfMaps} {RB : BpfRingbuf} `{!BpfRingbufLaws}.

(** Nothing committed, or one record with the header [e]. *)
Definition at_most_one (c : ctx) (e : Z * Z * Z) (s s' : bst) : Prop :=
  quiet s s' \/ exists ev, emits c (fst (fst e)) (snd (fst e)) (snd e) s s' ev.

Definition one_event {A : Type} (c : ctx) (e : Z * Z * Z) (m : prog bst A) : Prop :=
  forall s, at_most_one c e s (snd (m s)).

Lemma quiet_emits (c : ctx) (t src p : Z) (s s1 s2 : bst) (ev : list Z) :
  quiet s s1 -> emits c t src p s1 s2 ev -> emits c t src p s s2 ev.
Proof.
  intros [Hr Hs] []. destruct (next_seq_cong c s s1 Hs) as [Hf Hq].
  split; [congruence | done | congruence | by rewrite <- Hf].
Qed.

Lemma emits_quiet (c : ctx) (t src p : Z) (s s1 s2 : bst) (ev : list Z) :
  emits c t src p s s1 ev -> quiet s1 s2 -> emits c t src p s s2 ev.
Proof. intros [] [Hr Hs]. split; [congruence | done | congruence | done]. Qed.

Lemma one_event_quiet {A : Type} (c : ctx) (e : Z * Z * Z) (m : prog bst A) :
  preserves quiet m -> one_event c e m.
Proof. intros Hm s. left. exact (preserves_run Hm s). Qed.

Lemma one_event_after {A B : Type} (c : ctx) (e : Z * Z * Z) (m : prog bst A)
    (k : A -> prog bst B) :
  preserves quiet m -> (forall x, one_event c e (k x)) -> one_event c e (m ≫= k).
Proof.
  intros Hm Hk s. rewrite run_bind.
  destruct (Hk (fst (m s)) (snd (m s))) as [Hq|[ev He]].
  - left. transitivity (snd (m s)); [exact (preserves_run Hm s) | exact Hq].
  - right. exists ev. eapply quiet_emits; [exact (preserves_run Hm s) | exact He].
Qed.

Lemma one_event_before {A B : Type} (c : ctx) (e : Z * Z * Z) (m : prog bst A)
    (k : A -> prog bst B) :
  one_event c e m -> (forall x, preserves quiet (k x)) -> one_event c e (m ≫= k).
Proof.
  intros Hm Hk s. rewrite run_bind. destruct (Hm s) as [Hq|[ev He]].
  - left. transitivity (snd (m s)); [exact Hq | apply (preserves_run (Hk _))].
  - right. exists ev. eapply emits_quiet; [exact He | apply (preserves_run (Hk _))].
Qed.

Lemma one_event_if {A : Type} (c : ctx) (e : Z * Z * Z) (b : bool) (m1 m2 : prog bst A) :
  one_event c e m1 -> one_event c e m2 -> one_event c e (if b then m1 else m2).
Proof. by destruct b. Qed.

Lemma one_event_option {A B : Type} (c : ctx) (e : Z * Z * Z) (o : option B)
    (k : B -> prog bst A) (m : prog bst A) :
  (forall x, one_event c e (k x)) -> one_event c e m ->
  one_event c e (match o with Some x => k x | None => m end).
Proof. by destruct o. Qed.

Lemma one_event_with_event (c : ctx) (t src p : Z) (body : list Z -> prog bst (list Z)) :
  event_body c t src p body -> one_event c (t, src, p) (with_event body).
Proof.
  intros Hb s.
  destruct (rb_reserved (st_telemetry_ringbuf s) sizeof_TelemetryEvent) as [ev0|] eqn:E.
  - right. destruct (with_event_reserved c t src p body s ev0 Hb E) as (_ & s1 & He).
    by exists (fst (body ev0 s1)).
  - left. by apply with_event_dropped.
Qed.

End records.

#[export] Hint Resolve file_read_event_body file_write_event_body network_blocked_event_body
  network_connect_event_body process_create_event_body ptrace_event_body mprotect_event_body
  image_load_event_body execve_event_body process_stop_event_body connect_event_body
  openat_event_body mmap_event_body tp_mprotect_event_body dup_event_body listen_event_body
  : preserves.

Ltac solve_one_event :=
  repeat first
    [ progress intros
    | apply one_event_quiet; solve [solve_preserves]
    | apply one_event_with_event; solve [auto with preserves nocore]
    | apply one_event_if
    | apply one_event_option
    | apply one_event_after; [solve [solve_preserves] |]
    | apply one_event_before; [| solve [intros; solve_preserves]] ].

Section stream.
Context {BM : BpfMaps} {RB : BpfRingbuf} `{!BpfMapsLaws, !BpfRingbufLaws}.

Lemma run_hook_one_event (c : ctx) (h : hook_call) :
  ctx_ok c -> one_event c (hook_event c h) (run_hook c h).
Proof. intros Hc. destruct h; unfold hook_event; unfold_hook; solve_one_event. Qed.

(** Every program commits at most one record to the telemetry ring buffer.
    If it commits one, the record has exactly the size user space requires, and
    user space reads in its header the run's timestamp and the event type,
    source and process of the table [hook_event]. *)
Theorem committed_record_wellformed (c : ctx) (h : hook_call) (s : bst) :
  ctx_ok c ->
  let s' := snd (run_hook c h s) in
  let '(evt, src, p) := hook_event c h in
  records s' = records s \/
  exists ev seq, records s' = records s ++ [ev] /\
    length ev = UserLayout.sizeof_TelemetryEvent /\
    UserLayout.read_header ev =
      UserLayout.HeaderView (wrap 64 seq) (wrap 64 (ktime c)) (wrap 32 p) (wrap 8 evt)
        (wrap 8 src).
Proof.
  intros Hc s'. pose proof (run_hook_one_event c h Hc s) as Hone.
  destruct (hook_event c h) as [[evt src] p]. destruct Hone as [[Hr _]|(ev & [])].
  - by left.
  - right. by exists ev, (fst (next_seq c s)).
Qed.

(** ** Sequence numbers *)

(** The counter cell of a CPU. *)
Definition cell (s : bst) (k : Z) : option Z := map_lookup (st_seq_counter s) (k, 0).

Lemma next_seq_cell (c : ctx) (s : bst) (v : Z) :
  cell s (cpu c) = Some v ->
  fst (next_seq c s) = wrap 64 (v + 1) /\
  cell (snd (next_seq c s)) (cpu c) = Some (wrap 64 (v + 1)).
Proof.
  unfold cell, next_seq. intros Hv. rewrite run_bind. simpl. rewrite Hv. simpl.
  split; [done|]. apply map_store_lookup. by rewrite Hv.
Qed.

Lemma next_seq_other (c : ctx) (s : bst) (k : Z) :
  k <> cpu c -> cell (snd (next_seq c s)) k = cell s k.
Proof.
  unfold cell, next_seq. intros Hk. rewrite run_bind. simpl.
  destruct (map_lookup (st_seq_counter s) (cpu c, 0)); simpl; [|done].
  apply map_store_ne. congruence.
Qed.

Lemma cell_seq_counter (s s' : bst) (k : Z) :
  st_seq_counter s' = st_seq_counter s -> cell s' k = cell s k.
Proof. unfold cell. by intros ->. Qed.

(** The records one step adds, and a run's records tagged with the CPU. *)
Definition committed (s s' : bst) : list (list Z) := drop (length (records s)) (records s').

Fixpoint trace (l : list (ctx * hook_call)) (s : bst) : list (Z * list Z) :=
  match l with
  | [] => []
  | (c, h) :: rest =>
      let s' := snd (run_hook c h s) in
      map (pair (cpu c)) (committed s s') ++ trace rest s'
  end.

Definition on_cpu (k : Z) (tr : list (Z * list Z)) : list (list Z) :=
  map snd (filter (fun e => fst e = k) tr).

Definition event_seq (ev : list Z) : Z :=
  UserLayout.hv_sequence_number (UserLayout.read_header ev).

Lemma on_cpu_app (k : Z) (t1 t2 : list (Z * list Z)) :
  on_cpu k (t1 ++ t2) = on_cpu k t1 ++ on_cpu k t2.
Proof. unfold on_cpu. by rewrite filter_app, map_app. Qed.

Lemma step_stream (c : ctx) (h : hook_call) (s : bst) (k v : Z) :
  ctx_ok c -> cell s k = Some v ->
  let s' := snd (run_hook c h s) in
  let new := on_cpu k (map (pair (cpu c)) (committed s s')) in
  new = [] /\ cell s' k = Some v \/
  exists ev, new = [ev] /\ event_seq ev = wrap 64 (v + 1) /\ cell s' k = Some (wrap 64 (v + 1)).
Proof.
  intros Hc Hv s' new. unfold new, committed, s'.
  destruct (run_hook_one_event c h Hc s) as [[Hr Hs]|(ev & [Hr _ Hs Hh])]; rewrite Hr.
  - left. rewrite drop_all. split; [done|]. by rewrite (cell_seq_counter _ _ _ Hs).
  - rewrite drop_app_length. unfold on_cpu. rewrite (cell_seq_counter _ _ _ Hs). simpl.
    rewrite filter_cons, filter_nil; simpl. destruct (decide (cpu c = k)) as [<-|Hk].
    + right. exists ev. destruct (next_seq_cell c s v Hv) as [Hn Hcell].
      split; [done|]. split; [|done]. unfold event_seq.
      rewrite Hh, Hn. simpl. apply wrap_wrap.
    + left. split; [done|]. by rewrite next_seq_other.
Qed.

Lemma wrap_add_l (w a b : Z) : wrap w (wrap w a + b) = wrap w (a + b).
Proof. unfold wrap. apply Zplus_mod_idemp_l. Qed.

(** The sequence numbers of a CPU are consecutive.  In any run, whatever the
    interleaving of processes and CPUs and however many reservations fail, the
    i-th record committed on a CPU carries the CPU's initial counter plus i + 1,
    modulo 2^64: no number is skipped or repeated. *)
Theorem sequence_numbers_consecutive (l : list (ctx * hook_call)) (s : bst) (k v : Z)
    (i : nat) (ev : list Z) :
  Forall (fun ch => ctx_ok (fst ch)) l -> cell s k = Some v ->
  on_cpu k (trace l s) !! i = Some ev ->
  event_seq ev = wrap 64 (v + 1 + Z.of_nat i).
Proof.
  intros Hl. revert s v i. induction Hl as [|[c h] l Hc Hl IH]; intros s v i Hv; simpl trace.
  { done. }
  rewrite on_cpu_app.
  destruct (step_stream c h s k v Hc Hv) as [[-> Hv']|(ev1 & -> & He & Hv')]; simpl app.
  { by apply IH. }
  destruct i as [|i]; simpl.
  - intros [= <-]. by rewrite He, Z.add_0_r.
  - intros Hi. rewrite (IH _ _ _ Hv' Hi), <- Z.add_assoc, wrap_add_l. f_equal. lia.
Qed.

End stream.

Lemma committed_record_wellformed_witness :
  let c := demo_ctx 0 42 1 in
  let s' := snd (run_hook c (FileOpen demo_file 0) configured) in
  records s' = records configured \/
  exists ev seq, records s' = records configured ++ [ev] /\
    length ev = UserLayout.sizeof_TelemetryEvent /\
    UserLayout.read_header ev =
      UserLayout.HeaderView (wrap 64 seq) (wrap 64 (ktime c)) (wrap 32 42)
        (wrap 8 EVT_FILE_READ) (wrap 8 SRC_BPF_LSM).
Proof.
  intros c s'.
  exact (committed_record_wellformed c (FileOpen demo_file 0) configured (demo_ctx_ok 0 42 1)).
Defined.

(** Two CPUs interleave; the second record of CPU 0 carries the number 2. *)
Lemma sequence_numbers_consecutive_witness :
  let l := [(demo_ctx 0 42 1, SysEnterListen); (demo_ctx 1 7 2, SysEnterListen);
            (demo_ctx 0 7 2, SysEnterListen)] in
  match on_cpu 0 (trace l loaded) !! 1%nat with
  | Some ev => event_seq ev = 2
  | None => False
  end.
Proof.
  intros l. destruct (on_cpu 0 (trace l loaded) !! 1%nat) as [ev|] eqn:E.
  - rewrite (sequence_numbers_consecutive l loaded 0 0 1 ev); [reflexivity| |reflexivity|exact E].
    unfold l. repeat (constructor; [apply demo_ctx_ok|]). constructor.
  - vm_compute in E. discriminate E.
Defined.
