(* ===== verification/Wire.v ===== *)
(** The wire format end to end: what user space reads, through its own structure
    declarations, from the records the eBPF programs fill through theirs. *)

From S2P Require Export Records.

Local Open Scope Z_scope.

(** The structures user space overlays on the record. *)
Definition user_field (s : struct) (name : string) : field := UserLayout.det s name.

(** ** Reading back a record *)

Section read_back.

Lemma length_put_record (f : field) (v ev : list Z) :
  (f_end f <=? sizeof_TelemetryEvent)%nat = true -> (length v <= f_len f)%nat ->
  length ev = sizeof_TelemetryEvent -> length (put f v ev) = sizeof_TelemetryEvent.
Proof. intros Hf Hv Hl. rewrite length_put; [done| |done]. unfold within. by rewrite Hl. Qed.

Lemma get_put_record (f : field) (v ev : list Z) :
  (f_end f <=? sizeof_TelemetryEvent)%nat = true -> length v = f_len f ->
  length ev = sizeof_TelemetryEvent -> get f (put f v ev) = v.
Proof. intros Hf Hv Hl. apply get_put_eq; [|done]. unfold within. by rewrite Hl. Qed.

Lemma get_put_record_ne (f g : field) (v ev : list Z) :
  disjoint_fields f g = true -> (f_end g <=? sizeof_TelemetryEvent)%nat = true ->
  (length v <= f_len g)%nat -> length ev = sizeof_TelemetryEvent ->
  get f (put g v ev) = get f ev.
Proof. intros Hd Hf Hv Hl. apply get_put_disjoint; [done| |done]. unfold within. by rewrite Hl. Qed.

(** A field read in two parts. *)
Lemma get_app (f g h : field) (ev : list Z) :
  f_off g = f_off f -> f_off h = f_end g -> f_len f = (f_len g + f_len h)%nat ->
  get f ev = get g ev ++ get h ev.
Proof.
  unfold get, f_end. intros -> -> ->. by rewrite <- take_take_drop, drop_drop.
Qed.

End read_back.

(** [solve_record Hc]: the length side conditions of reads and writes. *)
Ltac solve_record Hc :=
  repeat first
    [ assumption
    | reflexivity
    | progress unfold put_uint, put_str
    | apply length_put_record
    | apply Nat.leb_le; reflexivity
    | rewrite length_le_enc; simpl; lia
    | rewrite ?(kernel_local _ (ctx_mem _ Hc)), ?(user_local _ (ctx_mem _ Hc)), ?repeat_length,
        ?(proj1 (kernel_fills _ (ctx_mem _ Hc) _ _)), ?(proj1 (user_fills _ (ctx_mem _ Hc) _ _));
      first [reflexivity | apply Nat.leb_le; reflexivity]
    | apply terminates_length; [|simpl; lia];
      first [ exact (kernel_terminates _ (ctx_mem _ Hc)) | exact (user_terminates _ (ctx_mem _ Hc)) ] ].

(** [read_field Hc]: the field of the goal in the record it was last stored in. *)
Ltac read_field Hc :=
  unfold put_uint, put_str;
  repeat (rewrite get_put_record_ne by (solve_record Hc));
  rewrite ?get_put_record by (solve_record Hc).

(** ** Network records *)

(** A 16-bit value in network byte order. *)
Definition be_dec (bs : list Z) : Z := fold_left (fun v b => 256 * v + b) bs 0.

Lemma swap16_be (bs : list Z) :
  length bs = 2%nat -> Forall is_byte bs -> swap16 (le_dec bs) = be_dec bs.
Proof.
  destruct bs as [|p1 [|p2 [|]]]; try done. intros _ Hb.
  apply Forall_cons in Hb as [H1 Hb]. apply Forall_cons in Hb as [H2 _].
  unfold is_byte in *. unfold swap16, be_dec. cbn [le_dec fold_left].
  replace (p1 + 256 * (p2 + 256 * 0)) with (p1 + p2 * 256) by lia.
  change 255 with (Z.ones 8). rewrite !Z.land_ones, Z.shiftr_div_pow2, Z.shiftl_mul_pow2 by lia.
  change (2 ^ 8) with 256. rewrite Z.mod_add, Z.div_add, (Z.div_small p1) by lia.
  rewrite !Z.mod_small by lia. rewrite <- Z.add_nocarry_lor; [lia|].
  apply Z.bits_inj'. intros n Hn. rewrite Z.land_spec, Z.bits_0.
  destruct (Z.lt_ge_cases n 8).
  - change 256 with (2 ^ 8). by rewrite Z.mul_pow2_bits_low.
  - replace (Z.testbit (0 + p2) n) with false; [by rewrite andb_false_r|].
    symmetry. destruct (Z.eq_dec p2 0) as [->|]; [apply Z.bits_0|].
    apply Z.bits_above_log2; [lia|]. apply Z.log2_lt_pow2; [lia|].
    apply Z.lt_le_trans with (2 ^ 8); [lia|]. apply Z.pow_le_mono_r; lia.
Qed.

Lemma be_dec_range (bs : list Z) :
  length bs = 2%nat -> Forall is_byte bs -> in_range 16 (be_dec bs).
Proof.
  destruct bs as [|p1 [|p2 [|]]]; try done. intros _ Hb.
  apply Forall_cons in Hb as [H1 Hb]. apply Forall_cons in Hb as [H2 _].
  unfold is_byte, in_range, be_dec in *. cbn [fold_left]. change (2 ^ 16) with 65536. lia.
Qed.

Section wire.
Context {BM : BpfMaps} {RB : BpfRingbuf} `{!BpfRingbufLaws}.

(** The endpoint fields as user space reads them. *)
Definition user_ip (ev : list Z) : list Z :=
  get (user_field UserLayout.NetworkConnectDetails "destination_ip") ev.
Definition user_port (ev : list Z) : Z :=
  get_uint (user_field UserLayout.NetworkConnectDetails "destination_port") ev.
Definition user_protocol (ev : list Z) : list Z :=
  cstr (get (user_field UserLayout.NetworkConnectDetails "protocol") ev).

(** The record of an IPv4 endpoint: the marker 4, the address in network order
    and a 0, then the port and "TCP". *)
Record ipv4_record (addr : list Z) (port : Z) (ev : list Z) : Prop := Ipv4Record {
  ir_ip : take 6 (user_ip ev) = [4] ++ addr ++ [0];
  ir_port : user_port ev = port;
  ir_protocol : user_protocol ev = str "TCP";
}.

(** The stores of the IPv4 branch, shared by the hook and the tracepoint. *)
Definition store_ipv4 (addr : list Z) (port : Z) (ev : list Z) : list Z :=
  put_protocol
    (put (sub network_connect_destination_ip 5 1) [0]
      (put (sub network_connect_destination_ip 1 4) addr
        (put (sub network_connect_destination_ip 0 1) [4]
          (put_uint network_connect_destination_port port ev)))).

Lemma store_ipv4_record (c : ctx) (addr : list Z) (port : Z) (ev : list Z) :
  ctx_ok c -> length addr = 4%nat -> in_range 16 port -> length ev = sizeof_TelemetryEvent ->
  ipv4_record addr port (store_ipv4 addr port ev).
Proof.
  intros Hc Ha Hp Hl. unfold store_ipv4, put_protocol.
  assert (length addr <= f_len (sub network_connect_destination_ip 1 4))%nat as Ha'
    by (rewrite Ha; apply Nat.leb_le; reflexivity).
  split.
  - unfold user_ip. change (user_field UserLayout.NetworkConnectDetails "destination_ip")
      with network_connect_destination_ip.
    rewrite <- (drop_0 (get network_connect_destination_ip _)), <- get_sub by (simpl; lia).
    rewrite (get_app _ (sub network_connect_destination_ip 0 5)
      (sub network_connect_destination_ip 5 1)) by reflexivity.
    rewrite (get_app (sub network_connect_destination_ip 0 5)
      (sub network_connect_destination_ip 0 1)
      (sub network_connect_destination_ip 1 4)) by reflexivity.
    rewrite <- app_assoc. repeat f_equal; read_field Hc; done.
  - unfold user_port, get_uint. change (user_field UserLayout.NetworkConnectDetails
      "destination_port") with network_connect_destination_port.
    read_field Hc. rewrite le_dec_enc. by apply wrap_small.
  - unfold user_protocol. change (user_field UserLayout.NetworkConnectDetails "protocol")
      with network_connect_protocol.
    rewrite (get_app _ (sub network_connect_protocol 0 4) (sub network_connect_protocol 4 4))
      by reflexivity.
    rewrite get_put_record by (solve_record Hc). done.
Qed.

(** An admitted inet connection marks the process and commits one record. *)
Lemma socket_connect_admitted (c : ctx) (address : Z) (s : bst) :
  let key := get_current_process_key c in
  inet_family (socket_family c address) = true -> is_trusted s key = false ->
  policy c (SocketConnect address) s = false ->
  snd (run_hook c (SocketConnect address) s) =
    snd (with_event (network_connect_event c key (socket_family c address) address)
      (slot_set pending_network_connect
        (snd (map_update (st_pending_network_connect s) key 1)) s)).
Proof.
  unfold policy, enforced, is_trusted, is_untrusted, blocking. simpl run_hook.
  unfold socket_connect. fold (socket_family c address).
  generalize (socket_family c address) as f; intros f. cbv zeta.
  intros Hf Ht Hp. rewrite Hf, Ht in Hp. rewrite !orb_true_l, andb_true_r in Hp.
  unfold inet_family, AF_UNIX, AF_INET, AF_INET6 in *.
  destruct (Z.eqb_spec f 1), (Z.eqb_spec f 2), (Z.eqb_spec f 10); try lia; try done;
    cbn [negb andb orb] in *; run; rewrite Ht; run; branches; split_bools; try done.
Qed.

(** The record a reservation commits, for a body whose stores are known. *)
Lemma with_event_commits (c : ctx) (t src p : Z) body (s0 s : bst) (ev0 : list Z)
    (Q : list Z -> Prop) :
  event_body c t src p body -> st_telemetry_ringbuf s = st_telemetry_ringbuf s0 ->
  rb_reserved (st_telemetry_ringbuf s0) sizeof_TelemetryEvent = Some ev0 ->
  (forall s1, length ev0 = sizeof_TelemetryEvent -> Q (fst (body ev0 s1))) ->
  exists ev, records (snd (with_event body s)) = records s0 ++ [ev] /\ Q ev.
Proof.
  unfold records at 2. intros Hb <- Hres HQ.
  destruct (with_event_reserved c t src p body s ev0 Hb Hres) as (Hl & s1 & []).
  eexists; split; [done | by apply HQ].
Qed.

(** C23: an IPv4 connection that the LSM hook sees is reported faithfully.  If the
    process is not a trusted root (their connections are admitted and not reported),
    the policy admits the connection and the ring buffer has room for a record, exactly
    one record is committed, in which user space reads the address
    bytes and the port (decoded from network order) of the socket address the
    process passed, and the protocol "TCP". *)
Theorem ipv4_connect_reported (c : ctx) (address : Z) (s : bst) (ev0 : list Z) :
  ctx_ok c -> socket_family c address = AF_INET ->
  is_trusted s (get_current_process_key c) = false ->
  policy c (SocketConnect address) s = false ->
  rb_reserved (st_telemetry_ringbuf s) sizeof_TelemetryEvent = Some ev0 ->
  exists ev, records (snd (run_hook c (SocketConnect address) s)) = records s ++ [ev] /\
    ipv4_record (probe_read_kernel c (address + 4) 4%nat)
      (be_dec (probe_read_kernel c (address + 2) 2%nat)) ev.
Proof.
  intros Hc Hf Ht Hp Hres.
  destruct (kernel_fills _ (ctx_mem _ Hc) (address + 2) 2%nat) as [Hl2 Hb2].
  destruct (kernel_fills _ (ctx_mem _ Hc) (address + 4) 4%nat) as [Hl4 _].
  rewrite socket_connect_admitted by (done || by rewrite Hf). rewrite Hf.
  eapply with_event_commits; [by apply network_connect_event_body | done | exact Hres |].
  intros s1 Hl. unfold network_connect_event. rewrite run_bind.
  destruct (fill_header_run c ev0 EVT_NETWORK_CONNECT SRC_BPF_LSM
    (pid (get_current_process_key c)) s1 Hl) as (ev1 & -> & Hl1 & _).
  cbv zeta. rewrite run_ret. cbn [fst snd]. change (AF_INET =? AF_INET) with true. cbv iota.
  rewrite (kernel_local _ (ctx_mem _ Hc)), (swap16_be _ Hl2 Hb2).
  apply (store_ipv4_record c); [done | done | by apply be_dec_range | done].
Qed.

(** C40: the fallback tracepoint loses every IPv4 address: the record of an IPv4
    connection has the right port but always the address 0.0.0.0, because the
    program copies its own local with the user-memory probe. *)
Theorem fallback_ipv4_address_lost (c : ctx) (args : sys_enter_connect_args) (s : bst)
    (ev0 : list Z) :
  let uservaddr := connect_uservaddr args in
  ctx_ok c -> uservaddr <> NULL -> wrap 16 (user_sockaddr_sa_family c uservaddr) = AF_INET ->
  rb_reserved (st_telemetry_ringbuf s) sizeof_TelemetryEvent = Some ev0 ->
  exists ev, records (snd (run_hook c (SysEnterConnect args) s)) = records s ++ [ev] /\
    ipv4_record [0; 0; 0; 0] (be_dec (probe_read_user c (uservaddr + 2) 2%nat)) ev.
Proof.
  intros a Hc Hn%Z.eqb_neq Hf Hres.
  destruct (user_fills _ (ctx_mem _ Hc) (a + 2) 2%nat) as [Hl2 Hb2].
  destruct (user_fills _ (ctx_mem _ Hc) (a + 4) 4%nat) as [Hl4 _].
  simpl run_hook. unfold tracepoint_sys_enter_connect. cbv zeta. fold a. rewrite Hn, Hf.
  change (negb (AF_INET =? AF_INET)) with false. cbn [andb]. run.
  eapply with_event_commits; [by apply connect_event_body | done | exact Hres |].
  intros s1 Hl. unfold connect_event. rewrite run_bind.
  destruct (fill_header_run c ev0 EVT_NETWORK_CONNECT SRC_BPF_TRACEPOINT
    (pid (get_current_process_key c)) s1 Hl) as (ev1 & -> & Hl1 & _).
  cbv zeta. rewrite run_ret. cbn [fst snd]. change (AF_INET =? AF_INET) with true. cbv iota.
  rewrite (user_local _ (ctx_mem _ Hc)), (swap16_be _ Hl2 Hb2), Hl4.
  apply (store_ipv4_record c); [done | done | by apply be_dec_range | done].
Qed.

End wire.

(** The demo socket address is 10.0.0.7:443. *)
Lemma ipv4_connect_reported_witness :
  let s' := snd (run_hook (demo_ctx 0 42 1) (SocketConnect demo_sockaddr) loaded) in
  exists ev, records s' = records loaded ++ [ev] /\ ipv4_record [10; 0; 0; 7] 443 ev.
Proof.
  exact (ipv4_connect_reported (demo_ctx 0 42 1) demo_sockaddr loaded
    (repeat 170 sizeof_TelemetryEvent) (demo_ctx_ok 0 42 1) eq_refl eq_refl eq_refl eq_refl).
Defined.

Lemma fallback_ipv4_address_lost_witness :
  let s' := snd (run_hook (demo_ctx 0 42 1)
                  (SysEnterConnect (SysEnterConnectArgs demo_sockaddr)) loaded) in
  exists ev, records s' = records loaded ++ [ev] /\ ipv4_record [0; 0; 0; 0] 443 ev.
Proof.
  exact (fallback_ipv4_address_lost (demo_ctx 0 42 1) (SysEnterConnectArgs demo_sockaddr) loaded
    (repeat 170 sizeof_TelemetryEvent) (demo_ctx_ok 0 42 1) ltac:(discriminate)
    eq_refl eq_refl).
Defined.
