(* ===== verification/Decode.v ===== *)
(** What user space makes of each kind of record: the paths, process ids and flags
    it reads through its own structures, where the two sides agree and where
    their declarations have drifted apart. *)

From S2P Require Export Wire.

Local Open Scope Z_scope.

(** The event type user space's enumeration gives each program's record. *)
Definition user_event_type (c : ctx) (h : hook_call) : option UserLayout.EventType :=
  match h with
  | FileOpen _ _ | SysEnterOpenat _ => Some UserLayout.FileRead
  | FilePermission _ _ => Some UserLayout.FileCreate
  | SocketConnect _ | SysEnterConnect _ => Some UserLayout.NetworkConnect
  | BprmCredsForExec _ | SysEnterExecve _ => Some UserLayout.ProcessCreate
  | PtraceAccessCheck _ _ => Some UserLayout.PtraceAttach
  | FileMprotect vma _ _ _ =>
      Some (if vma_vm_file c vma =? NULL then UserLayout.FileWrite else UserLayout.MemoryProtect)
  | MmapFile _ _ => Some UserLayout.ImageLoad
  | SchedProcessExit => Some UserLayout.ProcessStop
  | SysEnterMmap _ | SysEnterMprotect _ => Some UserLayout.FileWrite
  | _ => None
  end.

Definition user_source (h : hook_call) : UserLayout.TelemetrySource :=
  match h with
  | FileOpen _ _ | FilePermission _ _ | SocketConnect _ | BprmCredsForExec _
  | PtraceAccessCheck _ _ | FileMprotect _ _ _ _ | MmapFile _ _ => UserLayout.BPF_LSM
  | _ => UserLayout.Log_FIM
  end.

(** The path user space reads from a record, through the details [s]. *)
Definition user_path (s : struct) (name : string) (ev : list Z) : list Z :=
  cstr (get (user_field s name) ev).

(** [record_size Hc]: the record has kept its size. *)
Ltac record_size Hc :=
  match goal with
  | |- (_ <= length ?ev)%nat =>
      replace (length ev) with sizeof_TelemetryEvent by (symmetry; solve_record Hc);
      apply Nat.leb_le; reflexivity
  end.

Section decode.
Context {BM : BpfMaps} {RB : BpfRingbuf} `{!BpfMapsLaws, !BpfRingbufLaws}.

(** The programs without a telemetry record. *)
Definition silent (h : hook_call) : bool :=
  match h with
  | SocketListen _ | TtyWrite _ _ _ | TtyRead _ _ | TtyReadReturn _ => true
  | _ => false
  end.

Lemma silent_quiet (c : ctx) (h : hook_call) :
  silent h = true -> preserves quiet (run_hook c h).
Proof. destruct h; try done; intros _; unfold_hook; solve_preserves. Qed.

(** C17: how user space labels the records.  The type and source of every record
    a program commits decode, through the enumerations of the public header, to
    the table [user_event_type] and [user_source]: file, network, process,
    ptrace and image records keep their meaning, but writes arrive as FileCreate,
    executable mappings as FileWrite, dup2 and listen as no known type, and every
    tracepoint record as Log_FIM. *)
Theorem committed_record_decodes (c : ctx) (h : hook_call) (s : bst) (ev : list Z) :
  ctx_ok c -> records (snd (run_hook c h s)) = records s ++ [ev] ->
  let hv := UserLayout.read_header ev in
  UserLayout.event_type_of_code (UserLayout.hv_event_type hv) = user_event_type c h /\
  UserLayout.source_of_code (UserLayout.hv_source hv) = Some (user_source h).
Proof.
  intros Hc Hev hv.
  assert (records s <> records s ++ [ev]) as Hne.
  { intros Heq. apply (f_equal length) in Heq. rewrite length_app in Heq. simpl in Heq. lia. }
  destruct (silent h) eqn:Hsil.
  { destruct (preserves_run (silent_quiet c h Hsil) s) as [Hr _]. congruence. }
  destruct (run_hook_one_event c h Hc s) as [[Hr _]|(ev' & [Hr _ _ Hh])]; [congruence|].
  rewrite Hr in Hev. apply app_inv_head in Hev as [= ->]. unfold hv. rewrite Hh.
  clear - Hsil. destruct h; try done. split; [|done]. simpl. by destruct (_ =? NULL).
Qed.

(** ** Paths *)

(** A name probed into a path is the string a reader of the path sees. *)
Lemma path_read_back (read : Z -> nat -> list Z) (f : field) (a : Z) (ev : list Z) :
  terminates read -> (0 < f_len f)%nat -> (f_end f <= length ev)%nat ->
  cstr (get f (put_str read f a ev)) = cstr (read a (f_len f)).
Proof.
  intros Hr Hn Hw. unfold put_str.
  rewrite get_put_prefix by first [by apply Nat.leb_le | by apply terminates_length].
  by apply terminates_cstr.
Qed.

Definition file_name (c : ctx) (file : Z) : list Z :=
  cstr (probe_read_kernel_str c (dentry_d_name_name c (file_f_path_dentry c file)) 512).

(** The details of a file-open record. *)
Lemma file_read_details (c : ctx) (key : process_key) (file : Z) (ev0 : list Z) (s : bst) :
  ctx_ok c -> length ev0 = sizeof_TelemetryEvent ->
  let ev := fst (file_read_event c key file ev0 s) in
  user_path UserLayout.FileReadDetails "file_path" ev = file_name c file /\
  get_uint (user_field UserLayout.FileReadDetails "bytes_requested") ev = 0 /\
  get_uint (user_field UserLayout.FileReadDetails "zone_id") ev = 0.
Proof.
  intros Hc Hl ev. unfold ev, file_read_event. rewrite run_bind.
  destruct (fill_header_run c ev0 EVT_FILE_READ SRC_BPF_LSM (pid key) s Hl)
    as (ev1 & -> & Hl1 & _). cbv zeta. rewrite run_ret. cbn [fst snd].
  unfold user_path, get_uint.
  change (user_field UserLayout.FileReadDetails "file_path") with file_read_file_path.
  change (user_field UserLayout.FileReadDetails "bytes_requested") with file_read_bytes_requested.
  change (user_field UserLayout.FileReadDetails "zone_id") with file_read_zone_id.
  split; [|split].
  - apply path_read_back; [exact (kernel_terminates _ (ctx_mem _ Hc)) | simpl; lia | record_size Hc].
  - read_field Hc. reflexivity.
  - read_field Hc. reflexivity.
Qed.

(** The calls of file_open that report: not trusted, a sensitive file, not vetoed
    by name. *)
Lemma file_open_reports (c : ctx) (file mask : Z) (s : bst) :
  let key := get_current_process_key c in
  file <> NULL -> file_f_inode c file <> NULL -> is_trusted s key = false ->
  is_sensitive s (inode_i_ino c (file_f_inode c file)) = true ->
  blocking s && is_blocked_dev c file mask = false ->
  exists s1, st_telemetry_ringbuf s1 = st_telemetry_ringbuf s /\
    snd (run_hook c (FileOpen file mask) s) = snd (with_event (file_read_event c key file) s1).
Proof.
  intros key Hf%Z.eqb_neq Hi%Z.eqb_neq Ht Hs Hb. simpl run_hook. unfold file_open. fold key.
  unfold is_trusted, is_sensitive, blocking in *. rewrite Hf. run. rewrite Ht. run.
  rewrite Hi. run. rewrite Hb. run.
  destruct (map_lookup (st_sensitive_inodes_map s) _) as [cat|]; [|done].
  branches; first [by exists s | eexists; split; [|reflexivity]; by read_slots].
Qed.

(** Opening a sensitive file is reported whether or not it is denied: with
    a reservation one record is committed, in which user space reads the file's
    name as file_path and 0 as bytes_requested and zone_id. *)
Theorem sensitive_open_reported (c : ctx) (file mask : Z) (s : bst) (ev0 : list Z) :
  ctx_ok c -> file <> NULL -> file_f_inode c file <> NULL ->
  is_trusted s (get_current_process_key c) = false ->
  is_sensitive s (inode_i_ino c (file_f_inode c file)) = true ->
  blocking s && is_blocked_dev c file mask = false ->
  rb_reserved (st_telemetry_ringbuf s) sizeof_TelemetryEvent = Some ev0 ->
  exists ev, records (snd (run_hook c (FileOpen file mask) s)) = records s ++ [ev] /\
    user_path UserLayout.FileReadDetails "file_path" ev = file_name c file /\
    get_uint (user_field UserLayout.FileReadDetails "bytes_requested") ev = 0 /\
    get_uint (user_field UserLayout.FileReadDetails "zone_id") ev = 0.
Proof.
  intros Hc Hf Hi Ht Hs Hb Hres.
  destruct (file_open_reports c file mask s Hf Hi Ht Hs Hb) as (s1 & Hrb & ->).
  eapply with_event_commits; [by apply file_read_event_body | done | exact Hres |].
  intros s2 Hl. by apply file_read_details.
Qed.

End decode.

(** The first committed record of a list, when there is one. *)
Lemma committed_record_decodes_witness :
  let c := demo_ctx 0 42 1 in
  let h := SysEnterListen in
  let s' := snd (run_hook c h loaded) in
  exists ev, records s' = records loaded ++ [ev] /\
    UserLayout.event_type_of_code (UserLayout.hv_event_type (UserLayout.read_header ev)) = None /\
    UserLayout.source_of_code (UserLayout.hv_source (UserLayout.read_header ev)) =
      Some UserLayout.Log_FIM.
Proof.
  intros c h s'. eexists (nth 0 (records s') []). split; [reflexivity|].
  apply (committed_record_decodes c h loaded _ (demo_ctx_ok 0 42 1)). reflexivity.
Defined.

Lemma sensitive_open_reported_witness :
  let c := demo_ctx 0 42 1 in
  exists ev, records (snd (run_hook c (FileOpen demo_file 0) configured)) =
      records configured ++ [ev] /\
    user_path UserLayout.FileReadDetails "file_path" ev = str "shadow" /\
    get_uint (user_field UserLayout.FileReadDetails "bytes_requested") ev = 0 /\
    get_uint (user_field UserLayout.FileReadDetails "zone_id") ev = 0.
Proof.
  exact (sensitive_open_reported (demo_ctx 0 42 1) demo_file 0 configured
    (repeat 170 sizeof_TelemetryEvent) (demo_ctx_ok 0 42 1) ltac:(discriminate)
    ltac:(discriminate) eq_refl eq_refl eq_refl eq_refl).
Defined.
