(* ===== verification/Drift.v ===== *)
(** Where the two declarations of a record disagree: the byte ranges the eBPF
    programs store and user space reads for writes, image loads and anonymous
    mappings, and what is lost; and the process-creation record, which agrees. *)

From S2P Require Export Decode.

Local Open Scope Z_scope.

Section drift.
Context {BM : BpfMaps} {RB : BpfRingbuf} `{!BpfRingbufLaws}.

(** ** Process creation *)

Definition exec_path (c : ctx) (bprm : Z) (n : nat) : list Z :=
  cstr (probe_read_kernel_str c (bprm_filename c bprm) n).

Lemma process_create_details (c : ctx) (key : process_key) (bprm : Z) (ev0 : list Z) (s : bst) :
  ctx_ok c -> length ev0 = sizeof_TelemetryEvent -> bprm_filename c bprm <> NULL ->
  let ev := fst (process_create_event c key bprm ev0 s) in
  get_uint (user_field UserLayout.ProcessCreateDetails "child_pid") ev = wrap 32 (pid key) /\
  get_uint (user_field UserLayout.ProcessCreateDetails "real_parent_pid") ev =
    wrap 32 (real_parent_tgid c) /\
  user_path UserLayout.ProcessCreateDetails "child_image_path" ev = exec_path c bprm 512 /\
  user_path UserLayout.ProcessCreateDetails "child_command_line" ev = exec_path c bprm 1024.
Proof.
  intros Hc Hl Hf%Z.eqb_neq ev. unfold ev, process_create_event, fill_header.
  rewrite !run_bind, Hf, !run_ret. cbn [fst snd]. unfold user_path, get_uint.
  change (user_field UserLayout.ProcessCreateDetails "child_pid") with process_create_child_pid.
  change (user_field UserLayout.ProcessCreateDetails "real_parent_pid")
    with process_create_real_parent_pid.
  change (user_field UserLayout.ProcessCreateDetails "child_image_path")
    with process_create_child_image_path.
  change (user_field UserLayout.ProcessCreateDetails "child_command_line")
    with process_create_child_command_line.
  pose proof (kernel_terminates _ (ctx_mem _ Hc)) as Ht.
  split; [|split; [|split]].
  - read_field Hc. apply le_dec_enc.
  - read_field Hc. apply le_dec_enc.
  - unfold put_str at 1. rewrite get_put_record_ne by (solve_record Hc).
    apply path_read_back; [exact Ht | simpl; lia | record_size Hc].
  - apply path_read_back; [exact Ht | simpl; lia | record_size Hc].
Qed.

Lemma exec_reports (c : ctx) (bprm : Z) (s : bst) :
  let key := get_current_process_key c in
  bprm <> NULL -> policy c (BprmCredsForExec bprm) s = false ->
  exists s1, st_telemetry_ringbuf s1 = st_telemetry_ringbuf s /\
    snd (run_hook c (BprmCredsForExec bprm) s) =
      snd (with_event (process_create_event c key bprm) s1).
Proof.
  intros key Hb%Z.eqb_neq. unfold policy, exec_trust. cbv zeta. rewrite Hb. cbn [negb andb].
  simpl run_hook. unfold bprm_creds_for_exec. fold key. rewrite Hb.
  destruct (bprm_file c bprm =? NULL); cbn [orb].
  { intros _. exists s. by run. }
  destruct (file_f_inode c (bprm_file c bprm) =? NULL); cbn [orb].
  { intros _. exists s. by run. }
  run. destruct (map_lookup (st_trusted_exec_inodes s) _) as [t|]; simpl deref_is.
  - intros ->. run. eexists; split; [|reflexivity]. by read_slots.
  - intros _. branches; [eexists; split; [|reflexivity]; by read_slots | by exists s].
Qed.

(** C24: an exec that is not refused is reported as the process it creates: with
    a reservation one record is committed, in which user space reads the
    process's own pid, its parent's pid, and the executed path, both as the image
    path and, cut at 1024 bytes instead of 512, as the command line (the arguments
    are not captured). *)
Theorem exec_reported (c : ctx) (bprm : Z) (s : bst) (ev0 : list Z) :
  ctx_ok c -> bprm <> NULL -> bprm_filename c bprm <> NULL ->
  policy c (BprmCredsForExec bprm) s = false ->
  rb_reserved (st_telemetry_ringbuf s) sizeof_TelemetryEvent = Some ev0 ->
  exists ev, records (snd (run_hook c (BprmCredsForExec bprm) s)) = records s ++ [ev] /\
    get_uint (user_field UserLayout.ProcessCreateDetails "child_pid") ev =
      wrap 32 (pid (get_current_process_key c)) /\
    get_uint (user_field UserLayout.ProcessCreateDetails "real_parent_pid") ev =
      wrap 32 (real_parent_tgid c) /\
    user_path UserLayout.ProcessCreateDetails "child_image_path" ev = exec_path c bprm 512 /\
    user_path UserLayout.ProcessCreateDetails "child_command_line" ev = exec_path c bprm 1024.
Proof.
  intros Hc Hb Hn Hp Hres. destruct (exec_reports c bprm s Hb Hp) as (s1 & Hs1 & ->).
  eapply with_event_commits; [by apply process_create_event_body | done | exact Hres |].
  intros s2 Hl. by apply process_create_details.
Qed.

(** ** Writes

    The kernel's [file_write_details] has a [zone_id] between the byte count and
    the path; user space has none, and decodes the record as a FileCreate, whose
    first member is the [zone_id]. *)
Lemma file_write_details_read (c : ctx) (key : process_key) (file : Z) (ev0 : list Z) (s : bst) :
  ctx_ok c -> length ev0 = sizeof_TelemetryEvent ->
  let ev := fst (file_write_event c key file ev0 s) in
  user_path UserLayout.FileCreateDetails "file_path" ev = [] /\
  user_path UserLayout.FileWriteDetails "file_path" ev = [] /\
  cstr (get file_write_file_path ev) = file_name c file.
Proof.
  intros Hc Hl ev. unfold ev, file_write_event. rewrite run_bind.
  destruct (fill_header_run c ev0 EVT_FILE_WRITE SRC_BPF_LSM (pid key) s Hl)
    as (ev1 & -> & Hl1 & _). cbv zeta. rewrite run_ret. cbn [fst snd].
  split; [|split].
  3: apply path_read_back; [exact (kernel_terminates _ (ctx_mem _ Hc)) | simpl; lia | record_size Hc].
  all: unfold user_path.
  1: change (user_field UserLayout.FileCreateDetails "file_path") with (Field 26 512).
  2: change (user_field UserLayout.FileWriteDetails "file_path") with (Field 26 512).
  all: rewrite (get_app (Field 26 512) file_write_zone_id (Field 30 508)) by reflexivity;
    unfold put_uint, put_str;
    rewrite get_put_record_ne by (solve_record Hc);
    rewrite get_put_record by (solve_record Hc); done.
Qed.

Lemma file_permission_reports (c : ctx) (file mask : Z) (s : bst) :
  let key := get_current_process_key c in
  file <> NULL -> Z.land mask MAY_WRITE <> 0 -> is_trusted s key = false ->
  snd (run_hook c (FilePermission file mask) s) = snd (with_event (file_write_event c key file) s).
Proof.
  intros key Hf%Z.eqb_neq Hm%Z.eqb_neq Ht. simpl run_hook. unfold file_permission. fold key.
  unfold is_trusted in Ht. rewrite Hm, Hf. run. rewrite Ht. by run.
Qed.

(** The path of a write never reaches a consumer: every write by a process
    that is not trusted commits a record (with a reservation) that holds the
    file's name, but user space decodes it as a FileCreate with an empty path,
    and reads an empty path through its FileWrite structure too. *)
Theorem write_path_lost (c : ctx) (file mask : Z) (s : bst) (ev0 : list Z) :
  ctx_ok c -> file <> NULL -> Z.land mask MAY_WRITE <> 0 ->
  is_trusted s (get_current_process_key c) = false ->
  rb_reserved (st_telemetry_ringbuf s) sizeof_TelemetryEvent = Some ev0 ->
  exists ev, records (snd (run_hook c (FilePermission file mask) s)) = records s ++ [ev] /\
    user_path UserLayout.FileCreateDetails "file_path" ev = [] /\
    user_path UserLayout.FileWriteDetails "file_path" ev = [] /\
    cstr (get file_write_file_path ev) = file_name c file.
Proof.
  intros Hc Hf Hm Ht Hres. rewrite file_permission_reports by done.
  eapply with_event_commits; [by apply file_write_event_body | done | exact Hres |].
  intros s1 Hl. by apply file_write_details_read.
Qed.

(** ** Image loads

    The kernel stores an inode where user space reads [is_signed]. *)
Lemma image_load_details (c : ctx) (key : process_key) (file : Z) (ev0 : list Z) (s : bst) :
  ctx_ok c -> length ev0 = sizeof_TelemetryEvent ->
  let inode := file_f_inode c file in
  let ino := if inode =? NULL then 0 else inode_i_ino c inode in
  let ev := fst (image_load_event c key file ev0 s) in
  get_uint (user_field UserLayout.ImageLoadDetails "is_signed") ev = wrap 8 ino.
Proof.
  intros Hc Hl inode ino ev. unfold ev, image_load_event. rewrite run_bind.
  destruct (fill_header_run c ev0 EVT_IMAGE_LOAD SRC_BPF_LSM (pid key) s Hl)
    as (ev1 & -> & Hl1 & _). cbv zeta. fold inode. fold ino. rewrite run_ret. cbn [fst snd].
  unfold get_uint.
  change (user_field UserLayout.ImageLoadDetails "is_signed")
    with (sub image_load_file_inode 0 1).
  assert (forall ev2, length ev2 = sizeof_TelemetryEvent ->
    get (sub image_load_file_inode 0 1) ev2 = take 1 (get image_load_file_inode ev2)) as Hsub.
  { intros ev2 Hl2. rewrite get_sub by (simpl; lia). done. }
  assert (le_dec (take 1 (le_enc 8 ino)) = wrap 8 ino) as Hino.
  { cbn [le_enc take le_dec]. unfold wrap. change (2 ^ 8) with 256. lia. }
  clearbody ino. destruct (file_f_path_dentry c file =? NULL); rewrite Hsub by (solve_record Hc); read_field Hc; exact Hino.
Qed.

Lemma mmap_file_reports (c : ctx) (file prot : Z) (s : bst) :
  let key := get_current_process_key c in
  file <> NULL -> Z.land prot PROT_EXEC <> 0 -> is_trusted s key = false ->
  snd (run_hook c (MmapFile file prot) s) = snd (with_event (image_load_event c key file) s).
Proof.
  intros key Hf%Z.eqb_neq Hm%Z.eqb_neq Ht. simpl run_hook. unfold mmap_file. fold key.
  unfold is_trusted in Ht. rewrite Hf, Hm. run. rewrite Ht. by run.
Qed.

(** The signature flag of an image-load record is an accident of the inode
    number: user space reads the low byte of the mapped file's inode as
    [is_signed], so a module counts as signed unless its inode is divisible by
    256. *)
Theorem image_signed_flag_is_inode (c : ctx) (file prot : Z) (s : bst) (ev0 : list Z) :
  let inode := file_f_inode c file in
  ctx_ok c -> file <> NULL -> Z.land prot PROT_EXEC <> 0 -> inode <> NULL ->
  is_trusted s (get_current_process_key c) = false ->
  rb_reserved (st_telemetry_ringbuf s) sizeof_TelemetryEvent = Some ev0 ->
  exists ev, records (snd (run_hook c (MmapFile file prot) s)) = records s ++ [ev] /\
    get_uint (user_field UserLayout.ImageLoadDetails "is_signed") ev =
      wrap 8 (inode_i_ino c inode).
Proof.
  intros inode Hc Hf Hm Hi%Z.eqb_neq Ht Hres. rewrite mmap_file_reports by done.
  eapply with_event_commits; [by apply image_load_event_body | done | exact Hres |].
  intros s1 Hl. pose proof (image_load_details c (get_current_process_key c) file ev0 s1 Hc Hl)
    as Hd. cbv zeta in Hd. fold inode in Hd. by rewrite Hi in Hd.
Qed.

(** ** Anonymous mappings *)

(** The details user space does not overwrite keep the reserved memory. *)
Lemma mmap_details (c : ctx) (key : process_key) (args : sys_enter_mmap_args) (ev0 : list Z)
    (s : bst) :
  ctx_ok c -> length ev0 = sizeof_TelemetryEvent ->
  let ev := fst (mmap_event c key args ev0 s) in
  get_uint memory_map_addr ev = wrap 64 (mmap_addr args) /\
  get_uint memory_map_length ev = wrap 64 (mmap_len args) /\
  get memory_map_file_inode ev = get memory_map_file_inode ev0.
Proof.
  intros Hc Hl ev. unfold ev, mmap_event, fill_header. rewrite !run_bind, !run_ret.
  cbn [fst snd]. unfold get_uint. split; [|split]; read_field Hc; try done; apply le_dec_enc.
Qed.

(** An anonymous executable mapping reported by the fallback tracepoint
    carries uninitialised memory: the record has the mapping's address and
    length, but its file_inode keeps the bytes the reserved ring buffer memory
    happened to hold. *)
Theorem mmap_record_stale_inode (c : ctx) (args : sys_enter_mmap_args) (s : bst)
    (ev0 : list Z) :
  ctx_ok c -> Z.land (mmap_prot args) PROT_EXEC <> 0 ->
  Z.land (mmap_flags args) MAP_ANONYMOUS <> 0 ->
  rb_reserved (st_telemetry_ringbuf s) sizeof_TelemetryEvent = Some ev0 ->
  exists ev, records (snd (run_hook c (SysEnterMmap args) s)) = records s ++ [ev] /\
    get_uint memory_map_addr ev = wrap 64 (mmap_addr args) /\
    get_uint memory_map_length ev = wrap 64 (mmap_len args) /\
    get memory_map_file_inode ev = get memory_map_file_inode ev0.
Proof.
  intros Hc Hp%Z.eqb_neq Hf%Z.eqb_neq Hres. simpl run_hook.
  unfold tracepoint_sys_enter_mmap. rewrite Hp, Hf. run.
  eapply with_event_commits; [by apply mmap_event_body | done | exact Hres |].
  intros s1 Hl. by apply mmap_details.
Qed.

End drift.

(** A 1566-byte reservation of the demo ring buffer. *)
Definition stale_record : list Z := repeat 170 sizeof_TelemetryEvent.

Lemma exec_reported_witness :
  exists ev, records (snd (run_hook (demo_ctx 0 42 1) (BprmCredsForExec demo_bprm) configured)) =
      records configured ++ [ev] /\
    get_uint (user_field UserLayout.ProcessCreateDetails "child_pid") ev = 42 /\
    get_uint (user_field UserLayout.ProcessCreateDetails "real_parent_pid") ev = 7 /\
    user_path UserLayout.ProcessCreateDetails "child_image_path" ev = str "shadow" /\
    user_path UserLayout.ProcessCreateDetails "child_command_line" ev = str "shadow".
Proof.
  exact (exec_reported (demo_ctx 0 42 1) demo_bprm configured stale_record
    (demo_ctx_ok 0 42 1) ltac:(discriminate) ltac:(discriminate) eq_refl eq_refl).
Defined.

Lemma write_path_lost_witness :
  exists ev, records (snd (run_hook (demo_ctx 0 42 1) (FilePermission demo_file 2) loaded)) =
      records loaded ++ [ev] /\
    user_path UserLayout.FileCreateDetails "file_path" ev = [] /\
    user_path UserLayout.FileWriteDetails "file_path" ev = [] /\
    cstr (get file_write_file_path ev) = str "shadow".
Proof.
  exact (write_path_lost (demo_ctx 0 42 1) demo_file 2 loaded stale_record
    (demo_ctx_ok 0 42 1) ltac:(discriminate) ltac:(discriminate) eq_refl eq_refl).
Defined.

(** Inode 500 is 1 * 256 + 244. *)
Lemma image_signed_flag_is_inode_witness :
  exists ev, records (snd (run_hook (demo_ctx 0 42 1) (MmapFile demo_file 5) loaded)) =
      records loaded ++ [ev] /\
    get_uint (user_field UserLayout.ImageLoadDetails "is_signed") ev = 244.
Proof.
  exact (image_signed_flag_is_inode (demo_ctx 0 42 1) demo_file 5 loaded stale_record
    (demo_ctx_ok 0 42 1) ltac:(discriminate) ltac:(discriminate) ltac:(discriminate)
    eq_refl eq_refl).
Defined.

Lemma mmap_record_stale_inode_witness :
  let args := SysEnterMmapArgs 4096 8192 7 34 (-1) in
  exists ev, records (snd (run_hook (demo_ctx 0 42 1) (SysEnterMmap args) loaded)) =
      records loaded ++ [ev] /\
    get_uint memory_map_addr ev = 4096 /\ get_uint memory_map_length ev = 8192 /\
    get memory_map_file_inode ev = repeat 170 8.
Proof.
  exact (mmap_record_stale_inode (demo_ctx 0 42 1) (SysEnterMmapArgs 4096 8192 7 34 (-1)) loaded
    stale_record (demo_ctx_ok 0 42 1) ltac:(discriminate) ltac:(discriminate) eq_refl).
Defined.
