(* ===== verification/Tty.v ===== *)
(** The PTY capture end to end: what a terminal write or read hands to the agent,
    and how a read's entry and return are paired across interleaved threads. *)

From S2P Require Export BpfTheorems.

Local Open Scope Z_scope.

(** [event.m] of the [TtyEvent] a callback reads. *)
Definition tty_field (name : string) : field := mem UserLayout.TtyEvent name.

(** What user space reads from a capture record. *)
Record tty_record (c : ctx) (is_write : Z) (data ev : list Z) : Prop := TtyRecord {
  tr_length : length ev = UserLayout.sizeof_TtyEvent;
  tr_timestamp : get_uint (tty_field "timestamp_ns") ev = wrap 64 (ktime c);
  tr_pid : get_uint (tty_field "pid") ev = wrap 32 (Z.shiftr (current_pid_tgid c) 32);
  tr_is_write : get_uint (tty_field "is_write") ev = is_write;
  tr_comm : get (tty_field "comm") ev = current_comm c;
  tr_len : get_uint (tty_field "len") ev = Z.of_nat (length data);
  tr_data : take (length data) (get (tty_field "data") ev) = data;
}.

Section tty_stores.

Lemma length_tty_put (f : field) (v ev : list Z) :
  (f_end f <=? sizeof_tty_event)%nat = true -> (length v <= f_len f)%nat ->
  length ev = sizeof_tty_event -> length (put f v ev) = sizeof_tty_event.
Proof. intros Hf Hv Hl. rewrite length_put; [done| |done]. unfold within. by rewrite Hl. Qed.

Lemma get_tty_put (f : field) (v ev : list Z) :
  (f_end f <=? sizeof_tty_event)%nat = true -> length v = f_len f ->
  length ev = sizeof_tty_event -> get f (put f v ev) = v.
Proof. intros Hf Hv Hl. apply get_put_eq; [|done]. unfold within. by rewrite Hl. Qed.

Lemma get_tty_put_ne (f g : field) (v ev : list Z) :
  disjoint_fields f g = true -> (f_end g <=? sizeof_tty_event)%nat = true ->
  (length v <= f_len g)%nat -> length ev = sizeof_tty_event ->
  get f (put g v ev) = get f ev.
Proof. intros Hd Hf Hv Hl. apply get_put_disjoint; [done| |done]. unfold within. by rewrite Hl. Qed.

End tty_stores.

Ltac solve_tty :=
  repeat first
    [ assumption
    | reflexivity
    | apply length_tty_put
    | apply Nat.leb_le; reflexivity
    | rewrite length_le_enc; simpl; lia
    | simpl; lia ].

Section tty_theorems.
Context {BM : BpfMaps} {RB : BpfRingbuf} `{!BpfMapsLaws, !BpfRingbufLaws}.

(** The bytes a capture of [n] bytes at [buf] copies. *)
Definition captured (c : ctx) (buf n : Z) : list Z := probe_read_user c buf (Z.to_nat n).

Lemma fill_tty_event_record (c : ctx) (w n buf : Z) (ev0 : list Z) :
  ctx_ok c -> length ev0 = sizeof_tty_event -> 0 <= n <= 1023 -> in_range 8 w ->
  exists ev, fill_tty_event c w n buf ev0 = mret ev /\ tty_record c w (captured c buf n) ev.
Proof.
  intros Hc Hl Hn Hw. eexists. split; [reflexivity|]. unfold captured.
  destruct (user_fills _ (ctx_mem _ Hc) buf (Z.to_nat n)) as [Hd _].
  assert (length (probe_read_user c buf (Z.to_nat n)) <= f_len tty_data)%nat as Hd'
    by (rewrite Hd; simpl; lia).
  pose proof (ctx_comm _ Hc) as Hcomm.
  assert (length (current_comm c) <= f_len tty_comm)%nat as Hcomm' by (rewrite Hcomm; simpl; lia).
  unfold put_uint.
  split; unfold get_uint.
  - by solve_tty.
  - change (tty_field "timestamp_ns") with tty_timestamp_ns.
    repeat (rewrite get_tty_put_ne by solve_tty). rewrite get_tty_put by solve_tty.
    apply le_dec_enc.
  - change (tty_field "pid") with tty_pid.
    repeat (rewrite get_tty_put_ne by solve_tty). rewrite get_tty_put by solve_tty.
    rewrite le_dec_enc. apply wrap_wrap.
  - change (tty_field "is_write") with tty_is_write.
    repeat (rewrite get_tty_put_ne by solve_tty). rewrite get_tty_put by solve_tty.
    rewrite le_dec_enc. by apply wrap_small.
  - change (tty_field "comm") with tty_comm.
    repeat (rewrite get_tty_put_ne by solve_tty). by rewrite get_tty_put by solve_tty.
  - change (tty_field "len") with tty_len.
    repeat (rewrite get_tty_put_ne by solve_tty). rewrite get_tty_put by solve_tty.
    rewrite le_dec_enc, Hd, Z2Nat.id by lia. apply wrap_small.
    change (in_range 32 n). unfold in_range. lia.
  - change (tty_field "data") with tty_data.
    match goal with |- context [put tty_data _ ?e] =>
      assert (length e = sizeof_tty_event) as Hle by solve_tty end.
    rewrite get_put_prefix; [by rewrite take_app_length | by unfold within; rewrite Hle | done].
Qed.

(** A capture with a reservation commits one record. *)
Lemma with_tty_event_commits (c : ctx) (w n buf : Z) (s0 s : bst) (ev0 : list Z) :
  ctx_ok c -> 0 <= n <= 1023 -> in_range 8 w ->
  st_tty_ringbuf s = st_tty_ringbuf s0 ->
  rb_reserved (st_tty_ringbuf s0) sizeof_tty_event = Some ev0 ->
  exists ev, tty_records (snd (with_tty_event (fill_tty_event c w n buf) s)) =
      tty_records s0 ++ [ev] /\ tty_record c w (captured c buf n) ev.
Proof.
  unfold tty_records at 2. intros Hc Hn Hw <- Hres. unfold with_tty_event, with_record.
  unfold bpf_ringbuf_reserve. rewrite run_bind, run_act. autorewrite with slots.
  destruct (rb_reserveP (st_tty_ringbuf s) sizeof_tty_event) as [ev r Hlen _ Hrec|]; [|done].
  injection Hres as ->. cbn [fst snd]. rewrite run_bind.
  destruct (fill_tty_event_record c w n buf ev0 Hc Hlen Hn Hw) as (ev & -> & Hev).
  exists ev. split; [|exact Hev]. rewrite run_ret. unfold tty_records, bpf_ringbuf_submit.
  rewrite run_modify. simpl. by rewrite rb_submit_records, Hrec.
Qed.

(** The length both probes compute. *)
Lemma to_copy_min (n : Z) :
  0 <= n -> wrap 32 (if 1023 <? n then 1023 else n) = Z.min 1023 n.
Proof.
  intros Hn. rewrite wrap_small; unfold in_range; destruct (Z.ltb_spec 1023 n); lia.
Qed.

(** ** What is taken for a PTY *)

(** The files the probes capture, in terms of the kernel's device numbers (the major
    number above twenty minor bits): those with an inode whose minor number is between
    34816 and 35071 (136 times 256 and the 255 after it), whatever the major number. *)
Definition takes_for_pty (c : ctx) (file : Z) : bool :=
  let minor := inode_i_rdev c (file_f_inode c file) mod 2 ^ 20 in
  negb (file =? NULL) && negb (file_f_inode c file =? NULL) &&
  (34816 <=? minor) && (minor <=? 35071).

(** Bits 8 to 19 of a device number are 136 exactly when its minor is in that range. *)
Lemma minor_bits (rdev : Z) :
  (Z.land (Z.shiftr (wrap 32 rdev) 8) 4095 =? UNIX98_PTY_SLAVE_MAJOR) =
  (34816 <=? rdev mod 2 ^ 20) && (rdev mod 2 ^ 20 <=? 35071).
Proof.
  change 4095 with (Z.ones 12). rewrite Z.land_ones, Z.shiftr_div_pow2 by lia.
  assert (rdev mod 2 ^ 20 = wrap 32 rdev mod 2 ^ 20) as ->
    by (unfold wrap; symmetry; apply Z.mod_mod_divide; by exists (2 ^ 12)).
  set (x := wrap 32 rdev). change (2 ^ 8) with 256. change (2 ^ 12) with 4096. change (2 ^ 20) with (256 * 4096).
  rewrite Z.rem_mul_r by lia. generalize (Z.mod_pos_bound x 256 ltac:(lia)).
  generalize (x mod 256) ((x / 256) mod 4096). unfold UNIX98_PTY_SLAVE_MAJOR. intros a b Ha.
  destruct (Z.eqb_spec b 136), (Z.leb_spec 34816 (a + 256 * b)), (Z.leb_spec (a + 256 * b) 35071);
    simpl; try done; lia.
Qed.

Lemma is_pty_file_takes (c : ctx) (file : Z) : is_pty_file c file = takes_for_pty c file.
Proof.
  unfold is_pty_file, takes_for_pty. destruct (file =? NULL); [done|].
  destruct (file_f_inode c file =? NULL); [done|]. cbv zeta. by rewrite minor_bits.
Qed.

(** A capture commits one record when there is room for one, none otherwise. *)
Definition commits_capture (c : ctx) (is_write : Z) (data : list Z) (s s' : bst) : Prop :=
  match rb_reserved (st_tty_ringbuf s) sizeof_tty_event with
  | Some _ => exists ev, tty_records s' = tty_records s ++ [ev] /\ tty_record c is_write data ev
  | None => tty_records s' = tty_records s
  end.

Lemma with_tty_event_commits_one (c : ctx) (w n buf : Z) (s0 s : bst) :
  ctx_ok c -> 0 <= n <= 1023 -> in_range 8 w -> st_tty_ringbuf s = st_tty_ringbuf s0 ->
  commits_capture c w (captured c buf n) s0 (snd (with_tty_event (fill_tty_event c w n buf) s)).
Proof.
  intros Hc Hn Hw Hs. unfold commits_capture.
  destruct (rb_reserved (st_tty_ringbuf s0) sizeof_tty_event) as [ev0|] eqn:Hres;
    [by apply (with_tty_event_commits c w n buf s0 s ev0)|].
  revert Hres. unfold tty_records. rewrite <- Hs. unfold with_tty_event, with_record, bpf_ringbuf_reserve.
  rewrite run_bind, run_act. autorewrite with slots.
  destruct (rb_reserveP (st_tty_ringbuf s) sizeof_tty_event) as [|r Hp Hr]; [done|].
  intros _. cbn [fst snd]. rewrite run_ret. simpl. by autorewrite with slots.
Qed.

(** C22: what a terminal write captures.  The probe never changes the verdict.  If the
    file is taken for a PTY, which depends on the minor number alone ([takes_for_pty]),
    then with room in the ring buffer exactly one record is committed, whose length is the
    byte count capped at 1023 and whose data is exactly that many bytes of the
    writer's buffer, in a record of the size user space expects; without room no record is.
    A write to any other file, an ordinary PTY slave (major 136, minor below 34816)
    included, changes nothing. *)
Theorem tty_write_captured (c : ctx) (file buf count : Z) (s : bst) :
  ctx_ok c -> in_range 64 count ->
  let '(verdict, s') := run_hook c (TtyWrite file buf count) s in
  verdict = 0 /\
  if takes_for_pty c file then commits_capture c 1 (probe_read_user c buf (Z.to_nat (Z.min 1023 count))) s s'
  else s' = s.
Proof.
  intros Hc [Hn _]. simpl run_hook. unfold kprobe_tty_write. rewrite is_pty_file_takes.
  destruct (takes_for_pty c file); cbn [negb]; [|done]. rewrite to_copy_min by done.
  rewrite run_bind, run_ret. cbn [fst snd]. split; [done|]. apply with_tty_event_commits_one; try done; lia.
Qed.

(** ** Pairing reads *)

(** The calls that touch the pending read of the thread [tid]. *)
Definition tty_read_of (tid : Z) (ch : ctx * hook_call) : bool :=
  match snd ch with
  | TtyRead _ _ | TtyReadReturn _ => current_tid (fst ch) =? tid
  | _ => false
  end.

Definition pending (s : bst) (tid : Z) : option tty_read_req :=
  map_lookup (st_pending_tty_reads s) tid.

Lemma preserves_pending (c : ctx) (h : hook_call) (tid : Z) :
  tty_read_of tid (c, h) = false -> preserves (fixes (fun s => pending s tid)) (run_hook c h).
Proof.
  unfold tty_read_of. simpl. intros Ht.
  destruct h; try (unfold_hook; solve_preserves; fail); apply Z.eqb_neq in Ht;
    unfold_hook; solve_preserves; first [apply preserves_update_at | apply preserves_delete_at];
    intros s; unfold fixes, pending; read_slots; autorewrite with slots;
    first [by apply map_update_ne | by apply map_delete_ne].
Qed.

Lemma pending_kept (c : ctx) (h : hook_call) (tid : Z) (s : bst) :
  tty_read_of tid (c, h) = false -> pending (snd (run_hook c h s)) tid = pending s tid.
Proof. intros Ht. exact (preserves_run (preserves_pending c h tid Ht) s). Qed.

Lemma pending_kept_run (l : list (ctx * hook_call)) (tid : Z) (s : bst) :
  Forall (fun ch => tty_read_of tid ch = false) l ->
  pending (run_hooks l s) tid = pending s tid.
Proof.
  intros Hl. revert s. induction Hl as [|[c h] l Hch Hl IH]; intros s; simpl; [done|].
  by rewrite IH, pending_kept.
Qed.

Lemma pending_after_capture (c : ctx) (w n buf : Z) (s : bst) :
  st_pending_tty_reads (snd (with_tty_event (fill_tty_event c w n buf) s)) = st_pending_tty_reads s.
Proof.
  assert (preserves (fixes st_pending_tty_reads) (with_tty_event (fill_tty_event c w n buf))) as Hp
    by solve_preserves.
  exact (preserves_run Hp s).
Qed.

(** A return finds what its thread left. *)
Lemma read_return_pending (c : ctx) (ret : Z) (req : tty_read_req) (s : bst) :
  ctx_ok c -> ret < 2 ^ 31 -> pending s (current_tid c) = Some req ->
  let s' := snd (run_hook c (TtyReadReturn ret) s) in
  pending s' (current_tid c) = None /\
  if 0 <? ret then commits_capture c 0 (captured c (req_buf req) (Z.min 1023 ret)) s s'
  else tty_records s' = tty_records s.
Proof.
  intros Hc Hr Hp s'. unfold s'. simpl run_hook. unfold kretprobe_tty_read.
  unfold pending in Hp. run. rewrite Hp. run.
  destruct (Z.leb_spec ret 0), (Z.ltb_spec 0 ret); try lia.
  - rewrite run_ret. cbn [snd]. split; [|done]. unfold pending. read_slots. apply map_delete_lookup.
  - rewrite to_copy_min by lia. rewrite run_bind. cbn [fst snd]. rewrite run_ret. cbn [snd]. split.
    + unfold pending. rewrite pending_after_capture. read_slots. apply map_delete_lookup.
    + apply with_tty_event_commits_one; try done; lia.
Qed.

Lemma read_return_nothing (c : ctx) (ret : Z) (s : bst) :
  pending s (current_tid c) = None -> snd (run_hook c (TtyReadReturn ret) s) = s.
Proof. intros Hp. simpl run_hook. unfold kretprobe_tty_read. unfold pending in Hp. run. by rewrite Hp. Qed.

(** What the entry of a read leaves for its return. *)
Lemma read_entry_pending (c : ctx) (file buf : Z) (s : bst) :
  let stored := fst (map_update (st_pending_tty_reads s) (current_tid c) (TtyReadReq file buf)) =? 0 in
  pending (snd (run_hook c (TtyRead file buf) s)) (current_tid c) =
    if takes_for_pty c file && stored then Some (TtyReadReq file buf) else pending s (current_tid c).
Proof.
  cbv zeta. simpl run_hook. unfold kprobe_tty_read, pending. rewrite is_pty_file_takes.
  destruct (takes_for_pty c file); cbn [negb andb]; [|done]. run.
  destruct (Z.eqb_spec (fst (map_update (st_pending_tty_reads s) (current_tid c) (TtyReadReq file buf))) 0);
    [by apply map_update_lookup | by apply map_update_fail].
Qed.

(** C21: a terminal read is reported from the buffer its own thread passed.  A thread
    enters tty_read and later returns [ret]; whatever other programs, other threads'
    reads included, run in between: if the file was taken for a PTY
    ([takes_for_pty]: by its minor number alone) and the map of pending reads took the
    entry, the entry is gone and, when bytes were read, the return commits (with room
    in the ring buffer, and otherwise nothing) exactly one record with the first
    [min 1023 ret] bytes of that buffer; when none were, no record.  Otherwise, if the
    thread had left no earlier entry, the return changes nothing: the read is not
    reported, as it is for every ordinary PTY slave. *)
Theorem tty_read_paired (c c' : ctx) (file buf ret : Z) (l : list (ctx * hook_call)) (s : bst) :
  let tid := current_tid c in
  let s1 := run_hooks ((c, TtyRead file buf) :: l) s in
  let s' := snd (run_hook c' (TtyReadReturn ret) s1) in
  let stored := fst (map_update (st_pending_tty_reads s) tid (TtyReadReq file buf)) =? 0 in
  ctx_ok c' -> current_tid c' = tid -> Forall (fun ch => tty_read_of tid ch = false) l -> ret < 2 ^ 31 ->
  if takes_for_pty c file && stored then
    pending s' tid = None /\
    if 0 <? ret then commits_capture c' 0 (probe_read_user c' buf (Z.to_nat (Z.min 1023 ret))) s1 s'
    else tty_records s' = tty_records s1
  else pending s tid = None -> s' = s1.
Proof.
  intros tid s1 s' stored Hc Ht Hl Hr.
  assert (pending s1 tid =
    if takes_for_pty c file && stored then Some (TtyReadReq file buf) else pending s tid) as Hp.
  { unfold s1. cbn [run_hooks]. rewrite pending_kept_run by done. apply read_entry_pending. }
  rewrite <- Ht in Hp |- *. destruct (takes_for_pty c file && stored).
  - exact (read_return_pending c' ret _ s1 Hc Hr Hp).
  - intros Hn. apply read_return_nothing. by rewrite Hp.
Qed.

(** The PTY test looks at the wrong bits of the device number: a PTY slave (major 136)
    is recognised only when its minor number is between 34816 and 35071, and any
    other device with such a minor is taken for a PTY. *)
Theorem pty_test_ignores_major (c : ctx) (file major minor : Z) :
  file <> NULL -> file_f_inode c file <> NULL -> 0 <= minor < 2 ^ 20 ->
  inode_i_rdev c (file_f_inode c file) = major * 2 ^ 20 + minor ->
  is_pty_file c file = (34816 <=? minor) && (minor <=? 35071).
Proof.
  intros Hf%Z.eqb_neq Hi%Z.eqb_neq Hm Hr. rewrite is_pty_file_takes. unfold takes_for_pty.
  by rewrite Hf, Hi, Hr, Z.add_comm, Z.mod_add, Z.mod_small.
Qed.

End tty_theorems.

(** A terminal write of the 6 bytes "whoami" to a device with number 34816 is captured;
    the same write to /dev/pts/0 is not. *)
Lemma tty_write_captured_witness :
  let c := demo_ctx 0 42 1 in
  (exists ev, tty_records (snd (run_hook c (TtyWrite demo_file 5000 6) loaded)) = tty_records loaded ++ [ev] /\
     tty_record c 1 (str "whoami") ev) /\
  snd (run_hook c (TtyWrite demo_slave 5000 6) loaded) = loaded.
Proof.
  intros c. split.
  - exact (proj2 (tty_write_captured c demo_file 5000 6 loaded (demo_ctx_ok 0 42 1)
      ltac:(split; [discriminate | reflexivity]))).
  - exact (proj2 (tty_write_captured c demo_slave 5000 6 loaded (demo_ctx_ok 0 42 1)
      ltac:(split; [discriminate | reflexivity]))).
Defined.

(** Two threads read concurrently; the first one's return reports its own buffer.  A
    read of /dev/pts/0 is not reported. *)
Lemma tty_read_paired_witness :
  let l := [(demo_ctx 1 7 2, TtyRead demo_file 6000)] in
  let s1 file := run_hooks ((demo_ctx 0 42 1, TtyRead file 5000) :: l) loaded in
  let s' file := snd (run_hook (demo_ctx 1 42 1) (TtyReadReturn 6) (s1 file)) in
  pending (s' demo_file) 42 = None /\
  (exists ev, tty_records (s' demo_file) = tty_records (s1 demo_file) ++ [ev] /\
     tty_record (demo_ctx 1 42 1) 0 (str "whoami") ev) /\
  s' demo_slave = s1 demo_slave.
Proof.
  intros l s1 s'.
  assert (Forall (fun ch => tty_read_of 42 ch = false) l) as Hl by (constructor; [reflexivity | constructor]).
  pose proof (fun file => tty_read_paired (demo_ctx 0 42 1) (demo_ctx 1 42 1) file 5000 6 l loaded
    (demo_ctx_ok 1 42 1) eq_refl Hl eq_refl) as H.
  destruct (H demo_file) as [Hp Hc]. split; [exact Hp|]. split; [exact Hc|].
  exact (H demo_slave eq_refl).
Defined.

(** The first PTY slave, /dev/pts/0. *)
Lemma pty_test_ignores_major_witness : is_pty_file (demo_ctx 0 42 1) demo_slave = false.
Proof.
  rewrite (pty_test_ignores_major (demo_ctx 0 42 1) demo_slave 136 0);
    [reflexivity | discriminate | discriminate | lia | reflexivity].
Defined.
