(* ===== verification/EbpfLoader.v ===== *)
(** The eBPF loader (src/linux/ebpf_loader.cpp): the life of the libbpf object,
    its links, the ring buffer and the polling thread.

    libbpf is not in the repository: what each call returns is a parameter, a
    function of the calls made so far, so the theorems hold for whatever libbpf
    answers.  The calls themselves are recorded in the order the loader makes
    them, which is what resource theorems are stated on. *)

From S2P Require Export Prelude.
From S2P Require UserLayout.

Local Open Scope Z_scope.

(** ** Calls to the outside *)

Inductive libbpf_call : Type :=
| ObjectOpenFile (path : string)
| ProgramSetTypeLsm (prog_ : Z)
| ProgramSetAttachTypeLsmMac (prog_ : Z)
| ProgramSetAutoload (prog_ : Z) (autoload : bool)
| ObjectLoad (obj : Z)
| ObjectClose (obj : Z)
| FindProgramByName (obj : Z) (name : string)
| ProgramAttach (prog_ : Z)
| LinkDestroy (link : Z)
| FindMapByName (obj : Z) (name : string)
| MapFd (map_ : Z)
| RingBufferNew (fd : Z)
| RingBufferAdd (rb fd : Z)
| RingBufferFree (rb : Z)
| ThreadStart
| ThreadJoin.

#[export] Instance libbpf_call_eq_dec : EqDecision libbpf_call.
Proof. solve_decision. Defined.

(** The calls made so far with their results, the latest first. *)
Definition history : Type := list (libbpf_call * Z).

Record libbpf : Type := Libbpf {
  result : history -> libbpf_call -> Z;
  object_programs : Z -> list Z;
  section_name : Z -> option string;
  file_exists : string -> bool;
  lsm_file : option string;
}.

(** ** State *)

Inductive link_field : Type :=
| file_open_link_ | socket_connect_link_ | socket_listen_link_ | exec_link_ | ptrace_link_
| mprotect_link_ | tp_exec_link_ | tp_connect_link_ | tp_exit_link_ | tp_openat_link_
| tp_mmap_link_ | tp_mprotect_link_ | tp_dup2_link_ | tp_dup3_link_ | tp_listen_link_
| kprobe_tty_write_link_ | kprobe_tty_read_link_ | kretprobe_tty_read_link_.

#[export] Instance link_field_eq_dec : EqDecision link_field.
Proof. solve_decision. Defined.

(** Pointers are addresses, 0 is [nullptr]. *)
Record loader : Type := Loader {
  bpf_obj_path_ : string;
  initialized_ : bool;
  running_ : bool;
  lsm_active_ : bool;
  mock_mode_ : bool;
  bpf_obj_ : Z;
  links_ : link_field -> Z;
  ring_buf_ : Z;
  thread_joinable : bool;
  calls : history;
}.

Definition nullptr : Z := 0.

(** [EbpfLoader::EbpfLoader() = default] with the header's initialisers. *)
Definition new_loader : loader :=
  Loader "" false false false false nullptr (fun _ => nullptr) nullptr false [].

Definition set_path (v : string) (s : loader) : loader :=
  Loader v (initialized_ s) (running_ s) (lsm_active_ s) (mock_mode_ s) (bpf_obj_ s)
    (links_ s) (ring_buf_ s) (thread_joinable s) (calls s).
Definition set_initialized (v : bool) (s : loader) : loader :=
  Loader (bpf_obj_path_ s) v (running_ s) (lsm_active_ s) (mock_mode_ s) (bpf_obj_ s)
    (links_ s) (ring_buf_ s) (thread_joinable s) (calls s).
Definition set_running (v : bool) (s : loader) : loader :=
  Loader (bpf_obj_path_ s) (initialized_ s) v (lsm_active_ s) (mock_mode_ s) (bpf_obj_ s)
    (links_ s) (ring_buf_ s) (thread_joinable s) (calls s).
Definition set_lsm_active (v : bool) (s : loader) : loader :=
  Loader (bpf_obj_path_ s) (initialized_ s) (running_ s) v (mock_mode_ s) (bpf_obj_ s)
    (links_ s) (ring_buf_ s) (thread_joinable s) (calls s).
Definition set_mock_mode (v : bool) (s : loader) : loader :=
  Loader (bpf_obj_path_ s) (initialized_ s) (running_ s) (lsm_active_ s) v (bpf_obj_ s)
    (links_ s) (ring_buf_ s) (thread_joinable s) (calls s).
Definition set_obj (v : Z) (s : loader) : loader :=
  Loader (bpf_obj_path_ s) (initialized_ s) (running_ s) (lsm_active_ s) (mock_mode_ s) v
    (links_ s) (ring_buf_ s) (thread_joinable s) (calls s).
Definition set_link (f : link_field) (v : Z) (s : loader) : loader :=
  Loader (bpf_obj_path_ s) (initialized_ s) (running_ s) (lsm_active_ s) (mock_mode_ s)
    (bpf_obj_ s) (fun g => if decide (g = f) then v else links_ s g) (ring_buf_ s)
    (thread_joinable s) (calls s).
Definition set_ring (v : Z) (s : loader) : loader :=
  Loader (bpf_obj_path_ s) (initialized_ s) (running_ s) (lsm_active_ s) (mock_mode_ s)
    (bpf_obj_ s) (links_ s) v (thread_joinable s) (calls s).
Definition set_joinable (v : bool) (s : loader) : loader :=
  Loader (bpf_obj_path_ s) (initialized_ s) (running_ s) (lsm_active_ s) (mock_mode_ s)
    (bpf_obj_ s) (links_ s) (ring_buf_ s) v (calls s).
Definition log (c : libbpf_call) (r : Z) (s : loader) : loader :=
  Loader (bpf_obj_path_ s) (initialized_ s) (running_ s) (lsm_active_ s) (mock_mode_ s)
    (bpf_obj_ s) (links_ s) (ring_buf_ s) (thread_joinable s) ((c, r) :: calls s).

Section operations.
Context (lib : libbpf).

Definition call (c : libbpf_call) : prog loader Z :=
  act (fun s => let r := result lib (calls s) c in (r, log c r s)).

(** [for (x : l) body(x)] *)
Fixpoint for_each {A : Type} (l : list A) (body : A -> prog loader unit) : prog loader unit :=
  match l with
  | [] => mret tt
  | x :: rest => body x;; for_each rest body
  end.

(** [std::getline]: the first line of the file. *)
Fixpoint getline (s : string) : string :=
  match s with
  | EmptyString => EmptyString
  | String a rest => if Ascii.eqb a (Ascii.ascii_of_nat 10) then EmptyString else String a (getline rest)
  end.

Definition CheckLsmSupport : bool :=
  match lsm_file lib with
  | None => false
  | Some content =>
      match String.index 0 "bpf" (getline content) with Some _ => true | None => false end
  end.

Definition Initialize (path : string) (force_fallback : bool) : prog loader bool :=
  s ← gets id;
  if initialized_ s then mret false else
  modify (set_path path);;
  if negb (file_exists lib path) then
    modify (set_mock_mode true);;
    modify (set_lsm_active false);;
    modify (set_initialized true);;
    mret true
  else
    modify (set_lsm_active (if force_fallback then false else CheckLsmSupport));;
    modify (set_initialized true);;
    mret true.

(** [sec_name && strncmp(sec_name, "lsm/", 4) == 0] *)
Definition is_lsm_section (p : Z) : bool :=
  match section_name lib p with Some n => String.prefix "lsm/" n | None => false end.

(** [prog = find_program_by_name(..); if (prog) link_ = bpf_program__attach(prog);] *)
Definition attach_to (field_name : link_field * string) : prog loader unit :=
  s ← gets id;
  p ← call (FindProgramByName (bpf_obj_ s) (snd field_name));
  if p =? nullptr then mret tt else
  l ← call (ProgramAttach p);
  modify (set_link (fst field_name) l).

Definition lsm_programs : list (link_field * string) :=
  [(file_open_link_, "file_open"); (socket_connect_link_, "socket_connect");
   (socket_listen_link_, "socket_listen"); (exec_link_, "bprm_creds_for_exec");
   (ptrace_link_, "ptrace_access_check"); (mprotect_link_, "file_mprotect")]%string.

Definition fallback_programs : list (link_field * string) :=
  [(tp_exec_link_, "tracepoint_sys_enter_execve");
   (tp_connect_link_, "tracepoint_sys_enter_connect");
   (tp_exit_link_, "tracepoint_sched_process_exit");
   (tp_openat_link_, "tracepoint_sys_enter_openat");
   (tp_mmap_link_, "tracepoint_sys_enter_mmap");
   (tp_mprotect_link_, "tracepoint_sys_enter_mprotect");
   (tp_dup2_link_, "tracepoint_sys_enter_dup2");
   (tp_dup3_link_, "tracepoint_sys_enter_dup3");
   (tp_listen_link_, "tracepoint_sys_enter_listen")]%string.

Definition tty_programs : list (link_field * string) :=
  [(kprobe_tty_write_link_, "kprobe_tty_write"); (kprobe_tty_read_link_, "kprobe_tty_read");
   (kretprobe_tty_read_link_, "kretprobe_tty_read")]%string.

(** Prepares the programs of "lsm/" sections and loads the object. *)
Definition prepare_and_load (prepare : Z -> prog loader unit) : prog loader bool :=
  s ← gets id;
  for_each (object_programs lib (bpf_obj_ s))
    (fun p => if is_lsm_section p then prepare p else mret tt);;
  s ← gets id;
  rc ← call (ObjectLoad (bpf_obj_ s));
  if negb (rc =? 0) then
    s ← gets id;
    call (ObjectClose (bpf_obj_ s));;
    modify (set_obj nullptr);;
    mret false
  else mret true.

(** The common first half of the two load functions. *)
Definition open_and_load (prepare : Z -> prog loader unit) : prog loader bool :=
  s ← gets id;
  obj ← call (ObjectOpenFile (bpf_obj_path_ s));
  modify (set_obj obj);;
  if obj =? nullptr then mret false else prepare_and_load prepare.

Definition LoadAndAttachLsm : prog loader bool :=
  loaded ← open_and_load (fun p =>
    call (ProgramSetTypeLsm p);; call (ProgramSetAttachTypeLsmMac p);; mret tt);
  if negb (loaded : bool) then mret false else
  for_each lsm_programs attach_to;;
  (* the link of file_permission is not stored *)
  s ← gets id;
  p ← call (FindProgramByName (bpf_obj_ s) "file_permission");
  (if p =? nullptr then mret 0 else call (ProgramAttach p));;
  s ← gets id;
  mret (negb (links_ s file_open_link_ =? nullptr) &&
        negb (links_ s socket_connect_link_ =? nullptr) && negb (links_ s exec_link_ =? nullptr)).

Definition LoadAndAttachFallback : prog loader bool :=
  loaded ← open_and_load (fun p => call (ProgramSetAutoload p false);; mret tt);
  if negb (loaded : bool) then mret false else
  for_each fallback_programs attach_to;;
  s ← gets id;
  mret (negb (links_ s tp_exec_link_ =? nullptr)).

(** The link fields in the order [Stop] destroys and clears them. *)
Definition stop_order : list link_field :=
  [file_open_link_; socket_connect_link_; socket_listen_link_; exec_link_; ptrace_link_;
   kprobe_tty_write_link_; kprobe_tty_read_link_; kretprobe_tty_read_link_; mprotect_link_;
   tp_exec_link_; tp_connect_link_; tp_exit_link_; tp_openat_link_; tp_mmap_link_;
   tp_mprotect_link_; tp_dup2_link_; tp_dup3_link_; tp_listen_link_].

Definition destroy_link (f : link_field) : prog loader unit :=
  s ← gets id;
  if links_ s f =? nullptr then mret tt else call (LinkDestroy (links_ s f));; mret tt.

Definition Stop : prog loader unit :=
  modify (set_running false);;
  s ← gets id;
  (if thread_joinable s then call ThreadJoin;; modify (set_joinable false) else mret tt);;
  s ← gets id;
  (if ring_buf_ s =? nullptr then mret tt
   else call (RingBufferFree (ring_buf_ s));; modify (set_ring nullptr));;
  (* the links, in the order of [stop_order] *)
  for_each stop_order destroy_link;;
  for_each stop_order (fun f => modify (set_link f nullptr));;
  s ← gets id;
  (if bpf_obj_ s =? nullptr then mret tt
   else call (ObjectClose (bpf_obj_ s));; modify (set_obj nullptr));;
  modify (set_initialized false).

(** The second half of [Start], with the object loaded. *)
Definition start_ring_buffer : prog loader bool :=
  s ← gets id;
  m ← call (FindMapByName (bpf_obj_ s) "telemetry_ringbuf");
  fd ← call (MapFd m);
  rb ← call (RingBufferNew fd);
  modify (set_ring rb);;
  if rb =? nullptr then Stop;; mret false else
  tty_map ← call (FindMapByName (bpf_obj_ s) "tty_ringbuf");
  (if tty_map =? nullptr then mret tt
   else tty_fd ← call (MapFd tty_map); call (RingBufferAdd rb tty_fd);; mret tt);;
  for_each tty_programs attach_to;;
  call ThreadStart;;
  modify (set_joinable true);;
  mret true.

Definition Start : prog loader bool :=
  s ← gets id;
  if negb (initialized_ s) || running_ s then mret false else
  if mock_mode_ s then modify (set_running true);; mret true else
  modify (set_running true);;
  attached ← (if lsm_active_ s then
                ok ← LoadAndAttachLsm;
                if (ok : bool) then mret true
                else modify (set_lsm_active false);; LoadAndAttachFallback
              else LoadAndAttachFallback);
  if negb (attached : bool) then modify (set_running false);; mret false else
  s ← gets id;
  if bpf_obj_ s =? nullptr then mret true else start_ring_buffer.

(** [RingBufferPollLoop]: the i-th iteration reads [running_] as [alive i] and
    polls with the result [poll i]; the result is the number of polls made, or
    [None] when [fuel] iterations did not end the loop. *)
Definition EINTR : Z := 4.

Fixpoint RingBufferPollLoop (alive : nat -> bool) (poll : nat -> Z) (i fuel : nat)
  : option nat :=
  match fuel with
  | O => None
  | S fuel =>
      if negb (alive i) then Some i else
      let err := poll i in
      if (err <? 0) && negb (err =? - EINTR) then Some (S i)
      else RingBufferPollLoop alive poll (S i) fuel
  end.

End operations.

(** The two ring buffer callbacks: [Some data] when the registered callback is
    called with the record's bytes. *)
Definition deliver (expected : nat) (callback_set : bool) (data : option (list Z))
  : option (list Z) :=
  match data with
  | Some d => if callback_set && (length d =? expected)%nat then Some d else None
  | None => None
  end.

Definition HandleRingBufferEvent : bool -> option (list Z) -> option (list Z) :=
  deliver UserLayout.sizeof_TelemetryEvent.

Definition HandleTtyRingBufferEvent : bool -> option (list Z) -> option (list Z) :=
  deliver UserLayout.sizeof_TtyEvent.
