(* ===== verification/LoaderFacts.v ===== *)
(** The loader's sessions: ledgers of what its calls acquire and release, and the
    invariants every sequence of Initialize, Start and Stop keeps. *)

From S2P Require Export EbpfLoader.

Local Open Scope Z_scope.

(** ** Ledgers *)

(** The handles one kind of call acquires and another releases. *)
Fixpoint ledger (acquires : libbpf_call -> bool) (releases : libbpf_call -> option Z)
  (h : history) : list Z :=
  match h with
  | [] => []
  | (c, r) :: h =>
      let live := ledger acquires releases h in
      if acquires c then (if r =? nullptr then live else r :: live)
      else match releases c with
           | Some x => filter (fun y => y <> x) live
           | None => live
           end
  end.

Definition is_attach (c : libbpf_call) : bool := match c with ProgramAttach _ => true | _ => false end.
Definition is_open (c : libbpf_call) : bool := match c with ObjectOpenFile _ => true | _ => false end.
Definition is_new_ring (c : libbpf_call) : bool := match c with RingBufferNew _ => true | _ => false end.
Definition destroyed (c : libbpf_call) : option Z :=
  match c with LinkDestroy l => Some l | _ => None end.
Definition closed (c : libbpf_call) : option Z :=
  match c with ObjectClose o => Some o | _ => None end.
Definition freed (c : libbpf_call) : option Z :=
  match c with RingBufferFree r => Some r | _ => None end.

Definition live_links : history -> list Z := ledger is_attach destroyed.
Definition open_objects : history -> list Z := ledger is_open closed.
Definition live_rings : history -> list Z := ledger is_new_ring freed.

(** Whether the polling thread has been started and not joined. *)
Fixpoint thread_live (h : history) : bool :=
  match h with
  | [] => false
  | (ThreadStart, _) :: _ => true
  | (ThreadJoin, _) :: _ => false
  | _ :: h => thread_live h
  end.

(** The order of calls that keeps the polling thread safe: a ring buffer is freed
    when no thread polls it, a thread is started when none is running (assigning
    over a joinable std::thread terminates the process), and joined when it is. *)
Fixpoint safe_calls (h : history) : bool :=
  match h with
  | [] => true
  | (ThreadStart, _) :: h | (RingBufferFree _, _) :: h => negb (thread_live h) && safe_calls h
  | (ThreadJoin, _) :: h => thread_live h && safe_calls h
  | _ :: h => safe_calls h
  end.

(** ** Sessions *)

Inductive loader_op : Type :=
| OpInitialize (path : string) (force_fallback : bool)
| OpStart
| OpStop.

#[export] Instance loader_op_eq_dec : EqDecision loader_op.
Proof. solve_decision. Defined.

Definition run_op (lib : libbpf) (o : loader_op) (s : loader) : loader :=
  match o with
  | OpInitialize path ff => snd (Initialize lib path ff s)
  | OpStart => snd (Start lib s)
  | OpStop => snd (Stop lib s)
  end.

Definition run_ops (lib : libbpf) (l : list loader_op) (s : loader) : loader :=
  fold_left (fun s o => run_op lib o s) l s.

(** ** Invariants, operation by operation

    What an invariant must be closed under to hold through the loading and
    attaching part of [Start]: the calls that are not listed separately, and the
    calls whose result is stored, together with the store. *)
Definition plain (c : libbpf_call) : bool :=
  match c with
  | ThreadStart | ThreadJoin | RingBufferFree _ | RingBufferNew _ | LinkDestroy _
  | ObjectOpenFile _ | ObjectClose _ => false
  | _ => true
  end.

Lemma run_call (lib : libbpf) (c : libbpf_call) (s : loader) :
  call lib c s = (result lib (calls s) c, log c (result lib (calls s) c) s).
Proof. done. Qed.

Ltac keep_simple :=
  first [ apply keeps_gets | apply keeps_ret | apply keeps_if | assumption ].

Section invariants.
Context (lib : libbpf) (I : loader -> Prop).

Definition logged (c : libbpf_call) (s : loader) : loader := log c (result lib (calls s) c) s.

Lemma keeps_for_each {A : Type} (l : list A) (body : A -> prog loader unit) :
  (forall x, keeps I (body x)) -> keeps I (for_each l body).
Proof using.
  intros Hb. induction l as [|x l IH]; [apply keeps_ret|].
  apply keeps_bind; [apply Hb | by intros _].
Qed.

Record loading_inv : Prop := LoadingInv {
  li_call : forall c s, plain c = true -> I s -> I (logged c s);
  li_open : forall path s, I s ->
    I (set_obj (result lib (calls s) (ObjectOpenFile path)) (logged (ObjectOpenFile path) s));
  li_close : forall s, I s -> I (set_obj nullptr (logged (ObjectClose (bpf_obj_ s)) s));
  li_attach : forall f p s, I s ->
    I (set_link f (result lib (calls s) (ProgramAttach p)) (logged (ProgramAttach p) s));
  li_lsm : forall v s, I s -> I (set_lsm_active v s);
}.

Section loading.
Context (HI : loading_inv).

Lemma keeps_call (c : libbpf_call) : plain c = true -> keeps I (call lib c).
Proof using HI. intros Hc s Hs. by apply (li_call HI). Qed.

Lemma keeps_attach_to (fn : link_field * string) : keeps I (attach_to lib fn).
Proof using HI.
  unfold attach_to. apply keeps_bind; [apply keeps_gets|]. intros s0.
  apply keeps_bind; [by apply keeps_call|]. intros p. apply keeps_if; [apply keeps_ret|].
  intros s Hs. rewrite run_bind. by apply (li_attach HI).
Qed.

Lemma keeps_prepare_and_load (prepare : Z -> prog loader unit) :
  (forall p, keeps I (prepare p)) -> keeps I (prepare_and_load lib prepare).
Proof using HI.
  intros Hp. unfold prepare_and_load. apply keeps_bind; [apply keeps_gets|]. intros s0.
  apply keeps_bind.
  - apply keeps_for_each. intros p. apply keeps_if; [apply Hp | apply keeps_ret].
  - intros _. apply keeps_bind; [apply keeps_gets|]. intros s1.
    apply keeps_bind; [by apply keeps_call|]. intros rc.
    apply keeps_if; [|apply keeps_ret]. intros s Hs.
    rewrite !run_bind. by apply (li_close HI).
Qed.

Lemma keeps_open_and_load (prepare : Z -> prog loader unit) :
  (forall p, keeps I (prepare p)) -> keeps I (open_and_load lib prepare).
Proof using HI.
  intros Hp s Hs. unfold open_and_load. rewrite run_bind, run_gets. cbn [fst snd id].
  rewrite run_bind. rewrite run_bind. rewrite run_modify, run_call. cbn [fst snd].
  destruct (_ =? nullptr); [|apply keeps_prepare_and_load; [done|]];
    by apply (li_open HI (bpf_obj_path_ s)).
Qed.

Lemma keeps_LoadAndAttachFallback : keeps I (LoadAndAttachFallback lib).
Proof using HI.
  unfold LoadAndAttachFallback. apply keeps_bind.
  - apply keeps_open_and_load. intros p. apply keeps_bind; [by apply keeps_call|].
    intros _. apply keeps_ret.
  - intros b. apply keeps_if; [apply keeps_ret|].
    apply keeps_bind; [apply keeps_for_each, keeps_attach_to|]. intros _.
    apply keeps_bind; [apply keeps_gets|]. intros s0. apply keeps_ret.
Qed.

Lemma keeps_LoadAndAttachLsm : keeps I (LoadAndAttachLsm lib).
Proof using HI.
  unfold LoadAndAttachLsm. apply keeps_bind.
  - apply keeps_open_and_load. intros p. do 2 (apply keeps_bind; [by apply keeps_call|]; intros _).
    apply keeps_ret.
  - intros b. apply keeps_if; [apply keeps_ret|].
    apply keeps_bind; [apply keeps_for_each, keeps_attach_to|]. intros _.
    apply keeps_bind; [apply keeps_gets|]. intros s0.
    apply keeps_bind; [by apply keeps_call|]. intros p.
    apply keeps_bind; [apply keeps_if; [apply keeps_ret | by apply keeps_call]|]. intros _.
    apply keeps_bind; [apply keeps_gets|]. intros s1. apply keeps_ret.
Qed.

Lemma keeps_attach (lsm : bool) :
  keeps I (if lsm then
             ok ← LoadAndAttachLsm lib;
             if (ok : bool) then mret true
             else modify (set_lsm_active false);; LoadAndAttachFallback lib
           else LoadAndAttachFallback lib).
Proof using HI.
  apply keeps_if; [|apply keeps_LoadAndAttachFallback].
  apply keeps_bind; [apply keeps_LoadAndAttachLsm|]. intros ok.
  apply keeps_if; [apply keeps_ret|].
  apply keeps_bind; [apply keeps_modify, (li_lsm HI) | intros _; apply keeps_LoadAndAttachFallback].
Qed.

End loading.

(** What an invariant of whole sessions must be closed under besides. *)
Record session_inv : Prop := SessionInv {
  si_loading : loading_inv;
  si_destroy : forall f s, I s -> links_ s f <> nullptr -> I (logged (LinkDestroy (links_ s f)) s);
  si_clear : forall f s, I s -> I (set_link f nullptr s);
  si_thread : forall c s, (c = ThreadStart \/ c = ThreadJoin) -> I s -> I (logged c s);
  si_ring : forall c s, is_new_ring c = true \/ is_Some (freed c) -> I s -> I (logged c s);
  si_fields : forall p i r m v j s, I s ->
    I (set_path p s) /\ I (set_initialized i s) /\ I (set_running r s) /\
    I (set_mock_mode m s) /\ I (set_ring v s) /\ I (set_joinable j s);
}.

Section sessions.
Context (HI : session_inv).

Lemma keeps_field (f : loader -> loader) :
  (exists v, f = set_path v) \/ (exists v, f = set_initialized v) \/ (exists v, f = set_running v) \/
  (exists v, f = set_mock_mode v) \/ (exists v, f = set_ring v) \/ (exists v, f = set_joinable v) ->
  keeps I (modify f).
Proof using HI.
  intros Hf s Hs.
  destruct Hf as [[v ->]|[[v ->]|[[v ->]|[[v ->]|[[v ->]|[v ->]]]]]]; simpl.
  - by destruct (si_fields HI v false false false 0 false s Hs).
  - by destruct (si_fields HI "" v false false 0 false s Hs) as (?&?&?).
  - by destruct (si_fields HI "" false v false 0 false s Hs) as (?&?&?&?).
  - by destruct (si_fields HI "" false false v 0 false s Hs) as (?&?&?&?&?).
  - by destruct (si_fields HI "" false false false v false s Hs) as (?&?&?&?&?&?).
  - by destruct (si_fields HI "" false false false 0 v s Hs) as (?&?&?&?&?&?).
Qed.

Ltac keep_field := apply keeps_field; eauto 10.

Lemma keeps_Stop : keeps I (Stop lib).
Proof using HI.
  unfold Stop. apply keeps_bind; [keep_field|]. intros _.
  apply keeps_bind; [apply keeps_gets|]. intros s0. apply keeps_bind.
  { apply keeps_if; [|apply keeps_ret]. apply keeps_bind; [|intros _; keep_field].
    intros s Hs. apply (si_thread HI); auto. }
  intros _. apply keeps_bind; [apply keeps_gets|]. intros s1. apply keeps_bind.
  { apply keeps_if; [apply keeps_ret|]. apply keeps_bind; [|intros _; keep_field].
    intros s Hs. apply (si_ring HI); [right; by eexists | done]. }
  intros _. apply keeps_bind.
  { apply keeps_for_each. intros f s Hs. unfold destroy_link. rewrite run_bind.
    rewrite run_gets. cbn [fst snd id]. destruct (Z.eqb_spec (links_ s f) nullptr); [by rewrite run_ret|].
    rewrite run_bind. by apply (si_destroy HI). }
  intros _. apply keeps_bind.
  { apply keeps_for_each. intros f. apply keeps_modify, (si_clear HI). }
  intros _ s Hs. rewrite run_bind, run_gets. cbn [fst snd id]. rewrite run_bind.
  destruct (bpf_obj_ s =? nullptr); apply keeps_field; eauto 10.
  rewrite run_bind. by apply (li_close (si_loading HI)).
Qed.

Lemma keeps_start_ring_buffer : keeps I (start_ring_buffer lib).
Proof using HI.
  pose proof (keeps_call (si_loading HI)) as Hc.
  unfold start_ring_buffer. apply keeps_bind; [apply keeps_gets|]. intros s0.
  apply keeps_bind; [by apply Hc|]. intros m. apply keeps_bind; [by apply Hc|]. intros fd.
  apply keeps_bind; [intros s Hs; apply (si_ring HI); [by left | done]|]. intros rb.
  apply keeps_bind; [keep_field|]. intros _. apply keeps_if.
  { apply keeps_bind; [apply keeps_Stop | intros _; apply keeps_ret]. }
  apply keeps_bind; [by apply Hc|]. intros tm. apply keeps_bind.
  { apply keeps_if; [apply keeps_ret|].
    do 2 (apply keeps_bind; [by apply Hc|]; intros ?). apply keeps_ret. }
  intros _. apply keeps_bind; [apply keeps_for_each, keeps_attach_to, (si_loading HI)|].
  intros _. apply keeps_bind; [intros s Hs; apply (si_thread HI); auto|]. intros _.
  apply keeps_bind; [keep_field | intros _; apply keeps_ret].
Qed.

(** An invariant of sessions holds after every operation. *)
Lemma keeps_op (o : loader_op) (s : loader) : I s -> I (run_op lib o s).
Proof using HI.
  destruct o as [path ff| |]; simpl run_op; revert s.
  - change (keeps I (Initialize lib path ff)). unfold Initialize.
    apply keeps_bind; [apply keeps_gets|]. intros s0. apply keeps_if; [apply keeps_ret|].
    apply keeps_bind; [keep_field|]. intros _. apply keeps_if.
    + apply keeps_bind; [keep_field|]. intros _.
      apply keeps_bind; [apply keeps_modify, (li_lsm (si_loading HI))|]. intros _.
      apply keeps_bind; [keep_field | intros _; apply keeps_ret].
    + apply keeps_bind; [apply keeps_modify, (li_lsm (si_loading HI))|]. intros _.
      apply keeps_bind; [keep_field | intros _; apply keeps_ret].
  - change (keeps I (Start lib)). unfold Start.
    apply keeps_bind; [apply keeps_gets|]. intros s0. apply keeps_if; [apply keeps_ret|].
    apply keeps_if; [apply keeps_bind; [keep_field | intros _; apply keeps_ret]|].
    apply keeps_bind; [keep_field|]. intros _.
    apply keeps_bind; [apply keeps_attach, (si_loading HI)|]. intros att.
    apply keeps_if; [apply keeps_bind; [keep_field | intros _; apply keeps_ret]|].
    apply keeps_bind; [apply keeps_gets|]. intros s1.
    apply keeps_if; [apply keeps_ret | apply keeps_start_ring_buffer].
  - exact keeps_Stop.
Qed.

End sessions.

End invariants.

(** An invariant of all operations holds after every sequence of them. *)
Lemma run_ops_invariant (lib : libbpf) (I : loader -> Prop) (l : list loader_op) (s : loader) :
  (forall o s, I s -> I (run_op lib o s)) -> I s -> I (run_ops lib l s).
Proof. intros Ho. revert s. induction l as [|o l IH]; intros s Hs; simpl; [done | by apply IH, Ho]. Qed.

