(* ===== verification/LoaderTheorems.v ===== *)
(** Theorems about the loader's sessions: safety of the polling thread, release of
    every resource in fallback mode, and what is lost otherwise. *)

From S2P Require Export LoaderFacts.

Local Open Scope Z_scope.

(** A demo libbpf: an acquiring call returns a handle larger than every result so
    far (so handles are fresh), loads return 0, and the calls of [fails] return 0,
    a null pointer. *)
Definition largest (h : history) : Z := fold_right (fun e m => Z.max (snd e) m) 0 h.

Definition demo_result (fails : libbpf_call -> bool) (h : history) (c : libbpf_call) : Z :=
  if fails c then nullptr else
  match c with
  | ObjectLoad _ => 0
  | FindProgramByName _ "file_permission" => 777
  | _ => largest h + 1
  end.

Definition demo_lib (fails : libbpf_call -> bool) (lsm : string) : libbpf :=
  Libbpf (demo_result fails) (fun _ => [1; 2])
    (fun p => if p =? 1 then Some "lsm/file_open"%string else None)
    (fun path => String.eqb path "kinnector.bpf.o") (Some lsm).

(** [steps]: runs the simple statements at the head of a program. *)
Ltac steps :=
  repeat (first
    [ match goal with |- context [exec (modify ?f ≫= ?k) ?s] => rewrite (run_bind (modify f) k s) end
    | match goal with |- context [exec (gets ?f ≫= ?k) ?s] => rewrite (run_bind (gets f) k s) end
    | match goal with |- context [exec (call ?l ?c ≫= ?k) ?s] => rewrite (run_bind (call l c) k s) end
    | match goal with |- context [exec (mret ?x ≫= ?k) ?s] => rewrite (run_bind (mret x) k s) end
    | match goal with |- context [exec ((?m ≫= ?j) ≫= ?k) ?s] => rewrite (run_bind_assoc m j k s) end ];
    rewrite ?run_gets, ?run_modify, ?run_call, ?run_ret;
    cbn [modify gets call log fst snd id mret prog_ret set_path set_initialized set_running
      set_lsm_active set_mock_mode set_obj set_ring set_joinable bpf_obj_path_ initialized_
      running_ lsm_active_ mock_mode_ bpf_obj_ links_ ring_buf_ thread_joinable calls]).

(** ** The polling thread *)

(** Between operations: the history is safe, the field says whether a thread
    runs, and a running thread has a ring buffer to poll and is not told to stop. *)
Record thread_inv (s : loader) : Prop := ThreadInv {
  ti_safe : safe_calls (calls s) = true;
  ti_live : thread_live (calls s) = thread_joinable s;
  ti_ring : thread_joinable s = false -> ring_buf_ s = nullptr;
  ti_polls : thread_joinable s = true -> running_ s = true /\ ring_buf_ s <> nullptr;
}.

(** While no thread runs, with the two fields the thread reads. *)
Record quiescent (run_ : bool) (rb : Z) (s : loader) : Prop := Quiescent {
  qu_safe : safe_calls (calls s) = true;
  qu_live : thread_live (calls s) = false;
  qu_join : thread_joinable s = false;
  qu_run : running_ s = run_;
  qu_ring : ring_buf_ s = rb;
}.

Section thread.
Context (lib : libbpf).

Lemma quiescent_call (b : bool) (rb : Z) (c : libbpf_call) (r : Z) (s : loader) :
  (match c with ThreadStart | ThreadJoin => false | _ => true end) = true ->
  quiescent b rb s -> quiescent b rb (log c r s).
Proof.
  intros Hc [Hs Hl Hj Hr Hb]. split; simpl; try done; destruct c; try done;
    by rewrite Hl, Hs.
Qed.

Lemma quiescent_loading (b : bool) (rb : Z) : loading_inv lib (quiescent b rb).
Proof using.
  split.
  - intros c s Hc Hs. apply quiescent_call; [by destruct c | done].
  - intros path s Hs. by destruct (quiescent_call b rb (ObjectOpenFile path)
      (result lib (calls s) (ObjectOpenFile path)) s eq_refl Hs).
  - intros s Hs. by destruct (quiescent_call b rb (ObjectClose (bpf_obj_ s))
      (result lib (calls s) (ObjectClose (bpf_obj_ s))) s eq_refl Hs).
  - intros f p s Hs. by destruct (quiescent_call b rb (ProgramAttach p)
      (result lib (calls s) (ProgramAttach p)) s eq_refl Hs).
  - by intros v s [].
Qed.

Lemma quiescent_destroy (b : bool) (rb : Z) (f : link_field) :
  keeps (quiescent b rb) (destroy_link lib f).
Proof using.
  intros s Hs. unfold destroy_link. rewrite run_bind, run_gets. cbn [fst snd id].
  destruct (_ =? _); [done|]. by apply quiescent_call.
Qed.

(** The tail of [Stop], after the thread and the ring buffer are gone. *)
Lemma quiescent_stop_tail (b : bool) (rb : Z) :
  keeps (quiescent b rb)
    (for_each stop_order (destroy_link lib);;
     for_each stop_order (fun f => modify (set_link f nullptr));;
     s ← gets id;
     (if bpf_obj_ s =? nullptr then mret tt
      else call lib (ObjectClose (bpf_obj_ s));; modify (set_obj nullptr));;
     modify (set_initialized false)).
Proof using.
  apply keeps_bind; [apply keeps_for_each, quiescent_destroy|]. intros _.
  apply keeps_bind.
  { apply keeps_for_each. intros f. apply keeps_modify. by intros s []. }
  intros _ s Hs. steps. destruct (bpf_obj_ s =? nullptr); steps.
  - by destruct Hs.
  - by destruct (quiescent_call b rb (ObjectClose (bpf_obj_ s))
      (result lib (calls s) (ObjectClose (bpf_obj_ s))) s eq_refl Hs).
Qed.

(** [Stop] joins before it frees. *)
Lemma Stop_quiescent :
  triple (fun s => safe_calls (calls s) = true /\ thread_live (calls s) = thread_joinable s)
    (Stop lib) (fun _ => quiescent false nullptr).
Proof using.
  intros s [Hs Hl]. unfold Stop. steps.
  destruct (thread_joinable s) eqn:Hj; steps;
    destruct (Z.eqb_spec (ring_buf_ s) nullptr) as [Hr|Hr]; steps;
    apply (quiescent_stop_tail false nullptr); split; simpl; try done;
    by rewrite ?Hl, ?Hs.
Qed.

(** Calls and attaching keep the loader quiescent. *)
Lemma quiescent_calls (b : bool) (rb : Z) (c : libbpf_call) :
  plain c = true -> keeps (quiescent b rb) (call lib c).
Proof using. intros Hc s Hs. apply quiescent_call; [by destruct c | done]. Qed.

Lemma quiescent_attach (b : bool) (rb : Z) (fn : link_field * string) :
  keeps (quiescent b rb) (attach_to lib fn).
Proof using.
  apply keeps_attach_to, quiescent_loading.
Qed.

Lemma start_ring_buffer_inv :
  triple (quiescent true nullptr) (start_ring_buffer lib) (fun _ => thread_inv).
Proof using.
  unfold start_ring_buffer.
  eapply triple_bind; [apply keeps_gets|]. intros s0.
  eapply triple_bind; [by apply quiescent_calls|]. intros m.
  eapply triple_bind; [by apply quiescent_calls|]. intros fd.
  apply (triple_bind _ (fun _ => quiescent true nullptr)); [intros s Hs; by apply quiescent_call|].
  intros rb.
  eapply (triple_bind _ (fun _ => quiescent true rb)); [intros s []; by split|]. intros _.
  destruct (Z.eqb_spec rb nullptr) as [->|Hrb].
  { eapply triple_bind.
    - eapply triple_conseq; [apply Stop_quiescent | | done].
      intros s []. split; [done | congruence].
    - intros _ s []. split; rewrite ?run_ret; cbn [snd]; congruence. }
  eapply triple_bind; [by apply quiescent_calls|]. intros tm.
  eapply (triple_bind _ (fun _ => quiescent true rb)).
  { apply keeps_if; [apply keeps_ret|].
    do 2 (apply keeps_bind; [by apply quiescent_calls|]; intros ?).
    apply keeps_ret. }
  intros _. eapply (triple_bind _ (fun _ => quiescent true rb)).
  { apply keeps_for_each, quiescent_attach. }
  intros _ s []. steps.
  split; simpl; [by rewrite qu_live0, qu_safe0 | done | done | by rewrite qu_ring0].
Qed.

(** [Start] once [running_] is set. *)
Lemma start_inv (lsm : bool) :
  triple (quiescent true nullptr)
    (attached ← (if lsm then
                   ok ← LoadAndAttachLsm lib;
                   if (ok : bool) then mret true
                   else modify (set_lsm_active false);; LoadAndAttachFallback lib
                 else LoadAndAttachFallback lib);
     if negb (attached : bool) then modify (set_running false);; mret false else
     s ← gets id;
     if bpf_obj_ s =? nullptr then mret true else start_ring_buffer lib)
    (fun _ => thread_inv).
Proof using.
  eapply (triple_bind _ (fun _ => quiescent true nullptr)).
  { apply keeps_attach, quiescent_loading. }
  intros attached. destruct attached; cbn [negb].
  - eapply (triple_bind _ (fun _ => quiescent true nullptr)); [apply keeps_gets|].
    intros s0. destruct (_ =? _); [|apply start_ring_buffer_inv].
    intros s []. split; rewrite ?run_ret; cbn [snd]; congruence.
  - intros s []. steps. split; simpl; congruence.
Qed.

Lemma thread_inv_op (o : loader_op) (s : loader) : thread_inv s -> thread_inv (run_op lib o s).
Proof using.
  intros Hi. pose proof Hi as [Hs Hl Hn Hp]. destruct o as [path ff| |]; simpl run_op.
  - unfold Initialize. steps. destruct (initialized_ s); [done|].
    steps. destruct (negb _); steps; by split.
  - unfold Start. steps. destruct (initialized_ s); [|done].
    destruct (running_ s) eqn:Hr; [done|].
    assert (thread_joinable s = false) as Hj.
    { destruct (thread_joinable s); [|done]. destruct Hp as [? _]; congruence. }
    specialize (Hn Hj). cbn [negb orb]. destruct (mock_mode_ s).
    { steps. split; simpl; [done | done | done | congruence]. }
    steps. apply start_inv. split; simpl; congruence.
  - destruct (Stop_quiescent s) as []; [done|]. split; congruence.
Qed.

(** C15: the polling thread is used safely whatever libbpf answers.  In every
    sequence of Initialize, Start and Stop on a new loader, the ring buffer is
    freed only when no thread polls it, a thread is started only when none is
    running and joined only when one is; and while a thread runs, running_ is set
    and the ring buffer is there. *)
Theorem polling_thread_safe (l : list loader_op) :
  let s := run_ops lib l new_loader in
  safe_calls (calls s) = true /\ thread_live (calls s) = thread_joinable s /\
  (thread_joinable s = true -> running_ s = true /\ ring_buf_ s <> nullptr).
Proof using.
  intros s. destruct (run_ops_invariant lib thread_inv l new_loader) as []; [|by split|done].
  intros o s0. apply thread_inv_op.
Qed.

End thread.
