(* ===== verification/LoaderResources.v ===== *)
(** Resources of a loader session: in fallback mode everything acquired is
    released; in LSM mode a link, and after a partial failure an object, is lost. *)

From S2P Require Export LoaderTheorems.

Local Open Scope Z_scope.

(** [owned D s]: every live link is held in a field of [D], every open object in
    [bpf_obj_], every live ring buffer in [ring_buf_]; the other fields are null. *)
Record owned (D : list link_field) (s : loader) : Prop := Owned {
  ow_links : forall l, l ∈ live_links (calls s) -> exists f, f ∈ D /\ links_ s f = l;
  ow_null : forall f, f ∉ D -> links_ s f = nullptr;
  ow_objs : forall o, o ∈ open_objects (calls s) -> bpf_obj_ s = o /\ o <> nullptr;
  ow_rings : forall r, r ∈ live_rings (calls s) -> ring_buf_ s = r /\ r <> nullptr;
}.

(** Nothing acquired. *)
Record released (s : loader) : Prop := Released {
  rl_links : live_links (calls s) = [];
  rl_objs : open_objects (calls s) = [];
  rl_rings : live_rings (calls s) = [];
  rl_fields : forall f, links_ s f = nullptr;
  rl_obj : bpf_obj_ s = nullptr;
  rl_ring : ring_buf_ s = nullptr;
}.

(** A call that neither acquires nor releases. *)
Definition neutral (c : libbpf_call) : bool :=
  match c with
  | ObjectOpenFile _ | ObjectClose _ | ProgramAttach _ | LinkDestroy _ | RingBufferNew _
  | RingBufferFree _ => false
  | _ => true
  end.

Lemma neutral_ledgers (c : libbpf_call) (r : Z) (h : history) :
  neutral c = true ->
  live_links ((c, r) :: h) = live_links h /\ open_objects ((c, r) :: h) = open_objects h /\
  live_rings ((c, r) :: h) = live_rings h.
Proof. by destruct c. Qed.

Lemma no_members (l : list Z) : (forall x, x ∈ l -> False) -> l = [].
Proof. destruct l as [|x l]; [done|]. intros H. exfalso. apply (H x). by left. Qed.

(** Ledgers hold handles, never null. *)
Lemma live_links_nonnull (h : history) (l : Z) : l ∈ live_links h -> l <> nullptr.
Proof.
  unfold live_links. induction h as [|[c r] h IH]; simpl; [by intros ?%elem_of_nil|].
  destruct (is_attach c).
  - destruct (Z.eqb_spec r nullptr); [done|]. intros [->|?]%elem_of_cons; auto.
  - destruct (destroyed c); [|done]. intros [_ ?]%list_elem_of_filter. auto.
Qed.

Lemma open_objects_nonnull (h : history) (o : Z) : o ∈ open_objects h -> o <> nullptr.
Proof.
  unfold open_objects. induction h as [|[c r] h IH]; simpl; [by intros ?%elem_of_nil|].
  destruct (is_open c).
  - destruct (Z.eqb_spec r nullptr); [done|]. intros [->|?]%elem_of_cons; auto.
  - destruct (closed c); [|done]. intros [_ ?]%list_elem_of_filter. auto.
Qed.

Section resources.
Context (lib : libbpf).

Lemma owned_neutral (D : list link_field) (c : libbpf_call) :
  neutral c = true -> keeps (owned D) (call lib c).
Proof using.
  intros Hc s [Hl Hn Ho Hr]. destruct (neutral_ledgers c (result lib (calls s) c) (calls s) Hc)
    as (H1 & H2 & H3).
  split; rewrite ?run_call; cbn [snd log calls links_ bpf_obj_ ring_buf_]; rewrite ?H1, ?H2, ?H3; done.
Qed.

Lemma owned_attach_to (D : list link_field) (f : link_field) (name : string) :
  f ∉ D -> triple (owned D) (attach_to lib (f, name)) (fun _ => owned (f :: D)).
Proof using.
  intros Hf. unfold attach_to. eapply triple_bind; [apply keeps_gets|]. intros s0.
  eapply triple_bind; [by apply owned_neutral|]. intros p.
  assert (forall s, owned D s -> owned (f :: D) s) as Hweak.
  { intros s [Hl Hn Ho Hr]. split; [|intros g Hg; apply Hn; intros Hin; apply Hg; by right|done|done].
    intros l Hin. destruct (Hl l Hin) as (g & Hg & Hlg). exists g. split; [by right | done]. }
  destruct (p =? nullptr). { intros s Hs. by apply Hweak. }
  intros s [Hl Hn Ho Hr]. steps. cbn [fst snd]. split; simpl; [| |done|done].
  - intros l Hin. change (l ∈ (if result lib (calls s) (ProgramAttach p) =? nullptr
      then live_links (calls s)
      else result lib (calls s) (ProgramAttach p) :: live_links (calls s))) in Hin.
    destruct (_ =? nullptr); [|apply elem_of_cons in Hin as [->|Hin]].
    + destruct (Hl l Hin) as (g & Hg & Hlg). exists g. split; [by right|].
      by rewrite decide_False by (intros Heq; by rewrite Heq in Hg).
    + exists f. split; [by left|]. by rewrite decide_True.
    + destruct (Hl l Hin) as (g & Hg & Hlg). exists g. split; [by right|].
      by rewrite decide_False by (intros Heq; by rewrite Heq in Hg).
  - intros g Hg. apply not_elem_of_cons in Hg as [Hne Hg]. by rewrite decide_False, Hn.
Qed.

Lemma owned_attach_all (l : list (link_field * string)) (D : list link_field) :
  NoDup (map fst l ++ D) ->
  triple (owned D) (for_each l (attach_to lib)) (fun _ => owned (rev (map fst l) ++ D)).
Proof using.
  revert D. induction l as [|[f n] l IH]; intros D Hnd; cbn [for_each map fst rev]; [by intros s|].
  simpl in Hnd. apply NoDup_cons in Hnd as [Hf Hnd].
  apply (triple_bind _ (fun _ => owned (f :: D))).
  { apply owned_attach_to. intros Hin. apply Hf, elem_of_app. by right. }
  intros _. rewrite <- app_assoc. apply (IH (f :: D)). rewrite <- Permutation_middle. by constructor.
Qed.

(** The state between opening an object and attaching. *)
Record opened (obj : Z) (s : loader) : Prop := Opened {
  op_links : live_links (calls s) = [];
  op_objs : forall o, o ∈ open_objects (calls s) -> o = obj;
  op_rings : live_rings (calls s) = [];
  op_fields : forall f, links_ s f = nullptr;
  op_obj : bpf_obj_ s = obj;
  op_ring : ring_buf_ s = nullptr;
}.

Lemma opened_neutral (obj : Z) (c : libbpf_call) :
  neutral c = true -> keeps (opened obj) (call lib c).
Proof using.
  intros Hc s [Hl Ho Hr Hf Hob Hri].
  destruct (neutral_ledgers c (result lib (calls s) c) (calls s) Hc) as (H1 & H2 & H3).
  split; rewrite ?run_call; cbn [snd log calls links_ bpf_obj_ ring_buf_]; rewrite ?H1, ?H2, ?H3; done.
Qed.

Lemma opened_owned (obj : Z) (s : loader) : obj <> nullptr -> opened obj s -> owned [] s.
Proof using.
  intros Hne [Hl Ho Hr Hf Hob Hri]. split; [| done | |].
  - rewrite Hl. set_solver.
  - intros o Hin. by rewrite (Ho o Hin).
  - rewrite Hr. set_solver.
Qed.

Lemma opened_close (obj : Z) (s : loader) (r : Z) :
  opened obj s -> released (set_obj nullptr (log (ObjectClose obj) r s)).
Proof using.
  intros [Hl Ho Hr Hf Hob Hri]. split; simpl; try done.
  apply no_members. intros o. unfold open_objects; simpl. fold (open_objects (calls s)).
  intros [Hne Hin]%list_elem_of_filter. by apply Hne, Ho.
Qed.

Lemma opened_prepare_and_load (prepare : Z -> prog loader unit) (obj : Z) :
  (forall obj p, keeps (opened obj) (prepare p)) -> obj <> nullptr ->
  triple (opened obj) (prepare_and_load lib prepare)
    (fun (ok : bool) s => if ok then owned [] s else released s).
Proof using.
  intros Hp Hne. unfold prepare_and_load.
  apply (triple_bind _ (fun _ => opened obj)); [apply keeps_gets|]. intros s0.
  apply (triple_bind _ (fun _ => opened obj)).
  { apply keeps_for_each. intros p. apply keeps_if; [apply Hp | apply keeps_ret]. }
  intros _. apply (triple_bind _ (fun _ => opened obj)); [apply keeps_gets|]. intros s1.
  apply (triple_bind _ (fun _ => opened obj)); [by apply opened_neutral|].
  intros rc. destruct (negb _).
  - intros s Hs. steps. rewrite (op_obj _ _ Hs). by apply opened_close.
  - intros s Hs. by apply (opened_owned obj).
Qed.

(** Opening from a released state. *)
Lemma owned_open_and_load (prepare : Z -> prog loader unit) :
  (forall obj p, keeps (opened obj) (prepare p)) ->
  triple released (open_and_load lib prepare)
    (fun (ok : bool) s => if ok then owned [] s else released s).
Proof using.
  intros Hp s [Hl Ho Hr Hf Hob Hri]. unfold open_and_load. steps.
  set (obj := result lib (calls s) (ObjectOpenFile (bpf_obj_path_ s))).
  assert (opened obj (set_obj obj (log (ObjectOpenFile (bpf_obj_path_ s)) obj s))) as Hop.
  { split; simpl; try done. unfold open_objects; simpl. fold (open_objects (calls s)).
    rewrite Ho. intros o. destruct (obj =? nullptr); [by intros ?%elem_of_nil|].
    by intros ->%list_elem_of_singleton. }
  destruct (Z.eqb_spec obj nullptr) as [Heq|Hne].
  { split; rewrite ?run_ret; cbn [fst snd]; try done.
    unfold open_objects; simpl. fold (open_objects (calls s)). by rewrite Heq. }
  by apply (opened_prepare_and_load prepare obj).
Qed.

Lemma owned_LoadAndAttachFallback :
  triple released (LoadAndAttachFallback lib)
    (fun (ok : bool) s => owned (rev (map fst fallback_programs)) s).
Proof using.
  assert (forall D s, released s -> owned D s) as Hweak.
  { intros D s [Hl Ho Hr Hf Hob Hri]. split; rewrite ?Hl, ?Ho, ?Hr; try done.
    all: by intros ? ?%elem_of_nil. }
  unfold LoadAndAttachFallback. eapply triple_bind.
  { apply owned_open_and_load. intros obj p. apply keeps_bind; [by apply opened_neutral|].
    intros _. apply keeps_ret. }
  intros [|]; cbn [negb].
  - apply (triple_bind _ (fun _ => owned (rev (map fst fallback_programs)))).
    + rewrite <- (app_nil_r (rev _)). apply owned_attach_all. apply (bool_decide_unpack _).
      by vm_compute.
    + intros _. apply keeps_bind; [apply keeps_gets|]. intros s0. apply keeps_ret.
  - intros s Hs. by apply Hweak.
Qed.

(** ** Stop *)

(** The links still to be destroyed are held in the fields [D]. *)
Definition to_destroy (D : list link_field) (s : loader) : Prop :=
  forall l, l ∈ live_links (calls s) -> exists f, f ∈ D /\ links_ s f = l.

(** What [Stop] leaves alone while it destroys the links. *)
Record stopping (obj : Z) (s : loader) : Prop := Stopping {
  st_objs : forall o, o ∈ open_objects (calls s) -> o = obj;
  st_rings : live_rings (calls s) = [];
  st_obj : bpf_obj_ s = obj;
  st_ring : ring_buf_ s = nullptr;
}.

Lemma destroy_link_step (obj : Z) (f : link_field) (D : list link_field) :
  triple (fun s => to_destroy (f :: D) s /\ stopping obj s) (destroy_link lib f)
    (fun _ s => to_destroy D s /\ stopping obj s).
Proof using.
  intros s [Hd [Ho Hr Hob Hri]]. unfold destroy_link. steps.
  destruct (Z.eqb_spec (links_ s f) nullptr) as [Hf|Hf]; rewrite ?run_ret; cbn [fst snd].
  - split; [|done]. intros l Hin. destruct (Hd l Hin) as (g & Hg & Hlg).
    apply elem_of_cons in Hg as [->|Hg]; [|by exists g]. exfalso.
    apply (live_links_nonnull _ _ Hin). by rewrite <- Hlg.
  - split; [|done]. intros l. unfold live_links. simpl. fold (live_links (calls s)).
    intros [Hne Hin]%list_elem_of_filter. destruct (Hd l Hin) as (g & Hg & Hlg).
    apply elem_of_cons in Hg as [->|Hg]; [done | by exists g].
Qed.

Lemma destroy_links (obj : Z) (D : list link_field) :
  triple (fun s => to_destroy D s /\ stopping obj s) (for_each D (destroy_link lib))
    (fun _ s => live_links (calls s) = [] /\ stopping obj s).
Proof using.
  induction D as [|f D IH]; simpl.
  - intros s [Hd Hs]. split; [|done]. apply no_members. intros l Hin.
    destruct (Hd l Hin) as (f & Hf & _). by apply elem_of_nil in Hf.
  - apply (triple_bind _ (fun _ s => to_destroy D s /\ stopping obj s));
      [apply destroy_link_step | by intros _].
Qed.

(** Clearing fields touches nothing else. *)
Lemma clear_links (D : list link_field) (s : loader) :
  let s' := snd (for_each D (fun f => modify (set_link f nullptr)) s) in
  calls s' = calls s /\ bpf_obj_ s' = bpf_obj_ s /\ ring_buf_ s' = ring_buf_ s /\
  forall f, f ∈ D \/ links_ s f = nullptr -> links_ s' f = nullptr.
Proof using.
  revert s. induction D as [|g D IH]; intros s; simpl.
  { repeat split; try done. by intros f [?%elem_of_nil|?]. }
  steps. destruct (IH (set_link g nullptr s)) as (H1 & H2 & H3 & H4).
  repeat split; [done..|]. intros f Hf. apply H4. simpl.
  destruct (decide (f = g)); [by right|]. destruct Hf as [[->|Hf]%elem_of_cons|Hf]; auto. done.
Qed.

Lemma all_links (f : link_field) : f ∈ stop_order.
Proof using. apply (bool_decide_unpack _). by destruct f. Qed.

(** The tail of [Stop]: links, fields, object. *)
Lemma stop_tail_releases (obj : Z) :
  triple (fun s => to_destroy stop_order s /\ stopping obj s)
    (for_each stop_order (destroy_link lib);;
     for_each stop_order (fun f => modify (set_link f nullptr));;
     s ← gets id;
     (if bpf_obj_ s =? nullptr then mret tt
      else call lib (ObjectClose (bpf_obj_ s));; modify (set_obj nullptr));;
     modify (set_initialized false))
    (fun _ => released).
Proof using.
  eapply triple_bind; [apply destroy_links|]. intros u s [Hl [Ho Hr Hob Hri]]. clear u.
  rewrite run_bind. destruct (clear_links stop_order s) as (H1 & H2 & H3 & H4).
  assert (forall f, links_ (snd (for_each stop_order
    (fun f => modify (set_link f nullptr)) s)) f = nullptr) as Hf
    by (intros f; apply H4; left; apply all_links).
  revert H1 H2 H3 Hf. generalize (snd (for_each stop_order
    (fun f => modify (set_link f nullptr)) s)). intros s' H1 H2 H3 Hf. clear H4.
  rewrite <- H1 in Ho, Hr, Hl. rewrite <- H2 in Hob. rewrite <- H3 in Hri.
  steps. rewrite Hob. destruct (Z.eqb_spec obj nullptr) as [Heq|Hne]; steps; cbn [modify snd].
  - split; simpl; try done; [|congruence]. apply no_members. intros o Hin.
    apply (open_objects_nonnull _ _ Hin). by rewrite (Ho o Hin).
  - split; simpl; try done. apply no_members. intros o. unfold open_objects; simpl.
    fold (open_objects (calls s')). intros [Hn Hin]%list_elem_of_filter. by apply Hn, Ho.
Qed.

Lemma Stop_releases (D : list link_field) :
  triple (owned D) (Stop lib) (fun _ => released).
Proof using.
  intros s [Hl Hn Ho Hr]. unfold Stop. steps.
  assert (forall l, l ∈ live_links (calls s) -> exists f, f ∈ stop_order /\ links_ s f = l) as Hd.
  { intros l Hin. destruct (Hl l Hin) as (f & _ & Hf). exists f. split; [apply all_links | done]. }
  assert (forall o, o ∈ open_objects (calls s) -> o = bpf_obj_ s) as Ho'
    by (intros o Hin; by destruct (Ho o Hin)).
  assert (ring_buf_ s = nullptr -> live_rings (calls s) = []) as Hr0.
  { intros Hz. apply no_members. intros r Hin. destruct (Hr r Hin). congruence. }
  assert (filter (fun y => y <> ring_buf_ s) (live_rings (calls s)) = []) as Hr1.
  { apply no_members. intros r [Hne Hin]%list_elem_of_filter. destruct (Hr r Hin). congruence. }
  destruct (thread_joinable s); steps; (destruct (Z.eqb_spec (ring_buf_ s) nullptr) as [Hz|Hz]);
    steps; apply (stop_tail_releases (bpf_obj_ s)); (split; [exact Hd|]); split; simpl; auto.
Qed.

(** ** A session in fallback mode *)

Lemma released_owned (D : list link_field) (s : loader) : released s -> owned D s.
Proof using.
  intros [Hl Ho Hr Hf Hob Hri]. split; rewrite ?Hl, ?Ho, ?Hr; try done.
  all: by intros ? ?%elem_of_nil.
Qed.

(** [start_ring_buffer] once the ring buffer is there. *)
Lemma start_rest_resources (obj rb : Z) :
  let D := rev (map fst fallback_programs) in
  triple (owned D)
    (tty_map ← call lib (FindMapByName obj "tty_ringbuf");
     (if tty_map =? nullptr then mret tt
      else tty_fd ← call lib (MapFd tty_map); call lib (RingBufferAdd rb tty_fd);; mret tt);;
     for_each tty_programs (attach_to lib);;
     call lib ThreadStart;;
     modify (set_joinable true);;
     mret true) (fun _ s => exists D, owned D s).
Proof using.
  intros D. apply (triple_bind (owned D) (fun _ => owned D)); [by apply owned_neutral|].
  intros tm. apply (triple_bind _ (fun _ => owned D)).
  { apply keeps_if; [apply keeps_ret|].
    do 2 (apply keeps_bind; [by apply owned_neutral|]; intros ?). apply keeps_ret. }
  intros _. apply (triple_bind _ (fun _ => owned (rev (map fst tty_programs) ++ D))).
  { apply owned_attach_all. apply (bool_decide_unpack _). by vm_compute. }
  intros _ s Hs. steps. eexists.
  destruct (owned_neutral _ ThreadStart eq_refl s Hs) as [H1 H2 H3 H4]. by split.
Qed.

Lemma start_ring_buffer_resources :
  triple (fun s => owned (rev (map fst fallback_programs)) s /\ ring_buf_ s = nullptr)
    (start_ring_buffer lib) (fun _ s => exists D, owned D s).
Proof using.
  set (D := rev (map fst fallback_programs)).
  assert (forall c, neutral c = true ->
    keeps (fun s => owned D s /\ ring_buf_ s = nullptr) (call lib c)) as Hc.
  { intros c Hc s [Hs Hr]. split; [by apply owned_neutral | done]. }
  unfold start_ring_buffer. eapply triple_bind; [apply keeps_gets|]. intros s0.
  eapply triple_bind; [by apply Hc|]. intros m. eapply triple_bind; [by apply Hc|]. intros fd.
  intros s [[Hl Hn Ho Hr] Hri]. steps. set (rb := result lib (calls s) (RingBufferNew fd)).
  assert (owned D (set_ring rb (log (RingBufferNew fd) rb s))) as Hs1.
  { split; simpl; try done. intros r. unfold live_rings; simpl. fold (live_rings (calls s)).
    assert (live_rings (calls s) = []) as ->.
    { apply no_members. intros x Hx. destruct (Hr x Hx). congruence. }
    destruct (Z.eqb_spec rb nullptr); [by intros ?%elem_of_nil|].
    by intros ->%list_elem_of_singleton. }
  destruct (rb =? nullptr).
  { rewrite run_bind. exists []. apply released_owned. by apply (Stop_releases D). }
  by apply start_rest_resources.
Qed.

Lemma Start_resources (s : loader) :
  released s -> lsm_active_ s = false -> exists D, owned D (snd (Start lib s)).
Proof using.
  intros Hs Hl. unfold Start. steps.
  destruct (negb (initialized_ s) || running_ s); [by exists []; apply released_owned|].
  destruct (mock_mode_ s); steps; rewrite ?Hl.
  { exists []. destruct (released_owned [] s Hs). by split. }
  assert (released (set_running true s)) as Hs1 by (by destruct Hs).
  refine (triple_bind released (fun (ok : bool) s =>
    owned (rev (map fst fallback_programs)) s /\ ring_buf_ s = nullptr)
    (fun _ s => exists D, owned D s) _ _ _ _ (set_running true s) Hs1); clear s Hs Hl Hs1.
  { intros s Hs. split; [by apply owned_LoadAndAttachFallback|].
    apply (keeps_LoadAndAttachFallback lib (fun s => ring_buf_ s = nullptr)).
    - by split.
    - by destruct Hs. }
  intros [|]; cbn [negb].
  - intros s Hs. steps. destruct (bpf_obj_ s =? nullptr); [|by apply start_ring_buffer_resources].
    by destruct Hs as [Hs _]; eexists.
  - intros s [Hs _]. steps. eexists. destruct Hs as [H1 H2 H3 H4]. by split.
Qed.

(** C18: a session in fallback mode leaks nothing, whatever libbpf answers (a
    missing object file, a failed load, a program that is not found or does not
    attach, a failed ring buffer).  Initialize, Start, Stop from a state that
    holds nothing ends in a state where every link has been destroyed, every
    object closed, the ring buffer freed, and every pointer is null. *)
Theorem fallback_session_releases (path : string) (force_fallback : bool) (s : loader) :
  released s -> initialized_ s = false ->
  force_fallback = true \/ CheckLsmSupport lib = false ->
  released (run_ops lib [OpInitialize path force_fallback; OpStart; OpStop] s).
Proof using.
  intros Hs Hi Hf. simpl.
  destruct (Start_resources (snd (Initialize lib path force_fallback s))) as [D HD].
  - unfold Initialize. steps. rewrite Hi. steps.
    destruct (negb _); steps; by destruct Hs.
  - unfold Initialize. steps. rewrite Hi. steps.
    destruct (negb _); steps; [done|]. by destruct Hf as [->| ->]; [|destruct force_fallback].
  - by apply (Stop_releases D).
Qed.

End resources.

Lemma fallback_session_releases_witness :
  let s := run_ops (demo_lib (fun _ => false) "lockdown,bpf")
    [OpInitialize "kinnector.bpf.o" true; OpStart; OpStop] new_loader in
  released s /\ length (calls s) = 49%nat.
Proof.
  intros s. split; [|reflexivity].
  apply (fallback_session_releases _ "kinnector.bpf.o" true new_loader);
    [by split | reflexivity | by left].
Defined.
