(* ===== verification/LoaderLosses.v ===== *)
(** What the loader does not release or reset: the link of file_permission, the
    object of a partially failed LSM start, the mock mode flag; and the programs
    that LSM mode never attaches. *)

From S2P Require Export LoaderResources.

Local Open Scope Z_scope.

(** libbpf returns new handles: a call that acquires never returns one in use. *)
Definition fresh_links (lib : libbpf) : Prop :=
  forall h p, result lib h (ProgramAttach p) ∉ live_links h.
Definition fresh_objects (lib : libbpf) : Prop :=
  forall h path, result lib h (ObjectOpenFile path) ∉ open_objects h.

(** [r] is live, no field holds it, and since the calls [h0] nobody has destroyed it. *)
Record lost_link (h0 : history) (r : Z) (s : loader) : Prop := LostLink {
  ll_live : r ∈ live_links (calls s);
  ll_fields : forall f, links_ s f <> r;
  ll_since : exists after, calls s = after ++ h0 /\ Forall (fun x => fst x <> LinkDestroy r) after;
}.

(** [o] is open and [bpf_obj_] is something else. *)
Record lost_object (o : Z) (s : loader) : Prop := LostObject {
  lo_open : o ∈ open_objects (calls s);
  lo_obj : bpf_obj_ s <> o;
}.

Lemma live_links_other (c : libbpf_call) (r : Z) (h : history) :
  is_attach c = false -> destroyed c = None -> live_links ((c, r) :: h) = live_links h.
Proof. unfold live_links. simpl. by intros -> ->. Qed.

Lemma live_links_attach (p r x : Z) (h : history) :
  x ∈ live_links h -> x ∈ live_links ((ProgramAttach p, r) :: h).
Proof.
  unfold live_links. simpl. intros Hx. destruct (r =? nullptr); [done | by right].
Qed.

Lemma live_links_destroy (l r x : Z) (h : history) :
  x ∈ live_links h -> l <> x -> x ∈ live_links ((LinkDestroy l, r) :: h).
Proof. unfold live_links. simpl. intros Hx Hne. by apply list_elem_of_filter. Qed.

Lemma open_objects_other (c : libbpf_call) (r : Z) (h : history) :
  is_open c = false -> closed c = None -> open_objects ((c, r) :: h) = open_objects h.
Proof. unfold open_objects. simpl. by intros -> ->. Qed.

Lemma open_objects_open (path : string) (r x : Z) (h : history) :
  x ∈ open_objects h -> x ∈ open_objects ((ObjectOpenFile path, r) :: h).
Proof.
  unfold open_objects. simpl. intros Hx. destruct (r =? nullptr); [done | by right].
Qed.

Lemma open_objects_close (o r x : Z) (h : history) :
  x ∈ open_objects h -> o <> x -> x ∈ open_objects ((ObjectClose o, r) :: h).
Proof. unfold open_objects. simpl. intros Hx Hne. by apply list_elem_of_filter. Qed.

Section losses.
Context (lib : libbpf).

(** A lost link stays lost whatever is done next. *)
Lemma lost_link_call (h0 : history) (r : Z) (c : libbpf_call) (s : loader) :
  c <> LinkDestroy r -> lost_link h0 r s -> lost_link h0 r (logged lib c s).
Proof using.
  intros Hc [Hl Hf (after & Ha & Hd)]. unfold logged. split; cbn [log calls links_]; [|done|].
  - destruct (is_attach c) eqn:Hat; [destruct c; try done; by apply live_links_attach|].
    destruct c; try (by rewrite live_links_other). apply live_links_destroy; [done | congruence].
  - rewrite Ha. eexists (_ :: after). split; [done|]. by constructor.
Qed.

Lemma lost_link_session (h0 : history) (r : Z) :
  fresh_links lib -> r <> nullptr -> session_inv lib (lost_link h0 r).
Proof using.
  intros Hfresh Hne.
  assert (forall c s, destroyed c = None -> lost_link h0 r s -> lost_link h0 r (logged lib c s)) as Hlog
    by (intros c s Hc; apply lost_link_call; by intros ->).
  split; [split|..].
  - intros c s Hc. apply Hlog. by destruct c.
  - intros path s Hs. by destruct (Hlog (ObjectOpenFile path) s eq_refl Hs).
  - intros s Hs. by destruct (Hlog (ObjectClose (bpf_obj_ s)) s eq_refl Hs).
  - intros f p s Hs. destruct (Hlog (ProgramAttach p) s eq_refl Hs) as [Hl Hf Ha]. split; [done| |done].
    intros g. cbn [set_link links_]. destruct (decide _); [|apply Hf].
    intros Heq. apply (Hfresh (calls s) p). rewrite Heq. apply Hs.
  - by intros v s [].
  - intros f s Hs Hn. apply lost_link_call; [|done]. intros [= Heq]. by apply (ll_fields _ _ _ Hs f).
  - intros f s [Hl Hf Ha]. split; [done| |done]. intros g. cbn [set_link links_].
    destruct (decide _); [by intros <- | apply Hf].
  - intros c s [-> | ->]; by apply Hlog.
  - intros c s Hc. apply Hlog. destruct c; try done; by destruct Hc as [?|[? ?]].
  - by intros p i ru m v j s [].
Qed.

(** A field that is not null holds a live link, until [Stop]. *)
Definition fields_live (s : loader) : Prop :=
  forall f, links_ s f = nullptr \/ links_ s f ∈ live_links (calls s).

Lemma fields_live_loading : loading_inv lib fields_live.
Proof using.
  assert (forall c s, destroyed c = None -> fields_live s -> fields_live (logged lib c s)) as Hlog.
  { intros c s Hd Hs f. destruct (Hs f) as [Hf|Hf]; [by left | right].
    unfold logged. cbn [log calls links_]. destruct (is_attach c) eqn:Ha.
    - destruct c; try done. by apply live_links_attach.
    - by rewrite live_links_other. }
  split.
  - intros c s Hc. apply Hlog. by destruct c.
  - intros path s Hs. exact (Hlog (ObjectOpenFile path) s eq_refl Hs).
  - intros s Hs. exact (Hlog (ObjectClose (bpf_obj_ s)) s eq_refl Hs).
  - intros f p s Hs g. cbn [set_link links_]. destruct (decide (g = f)).
    + destruct (Z.eqb_spec (result lib (calls s) (ProgramAttach p)) nullptr) as [Heq|Hne];
        [by left | right].
      unfold logged, live_links. simpl. destruct (Z.eqb_spec (result lib (calls s)
        (ProgramAttach p)) nullptr); [done | by left].
    + apply (Hlog (ProgramAttach p) s eq_refl Hs).
  - by intros v s.
Qed.

(** [LoadAndAttachLsm] loses the link of file_permission when it succeeds. *)
Lemma LoadAndAttachLsm_loses (fp : Z) (s : loader) :
  fresh_links lib -> fp <> nullptr ->
  (forall h obj, result lib h (FindProgramByName obj "file_permission") = fp) ->
  (forall h, result lib h (ProgramAttach fp) <> nullptr) ->
  fields_live s -> fst (LoadAndAttachLsm lib s) = true ->
  exists r obj before, r <> nullptr /\
    lost_link ((ProgramAttach fp, r) :: (FindProgramByName obj "file_permission", fp) :: before) r
      (snd (LoadAndAttachLsm lib s)).
Proof using.
  intros Hfresh Hfp Hfind Hatt Hs. unfold LoadAndAttachLsm. rewrite run_bind.
  pose proof (keeps_open_and_load lib fields_live fields_live_loading (fun p =>
    call lib (ProgramSetTypeLsm p);; call lib (ProgramSetAttachTypeLsmMac p);; mret tt)
    ltac:(intros p; do 2 (apply keeps_bind;
      [by apply keeps_call; [apply fields_live_loading|]|]; intros _); apply keeps_ret) s Hs) as Hs1.
  revert Hs1. destruct (open_and_load lib _ s) as [[|] s1]; cbn [fst snd negb]; [|done].
  intros Hs1. rewrite run_bind.
  pose proof (keeps_for_each fields_live lsm_programs (attach_to lib)
    (keeps_attach_to lib fields_live fields_live_loading) s1 Hs1) as Hs2.
  revert Hs2. destruct (for_each lsm_programs (attach_to lib) s1) as [u s2]; cbn [fst snd].
  intros Hs2 _. steps. rewrite Hfind. apply Z.eqb_neq in Hfp as Hfp'. rewrite Hfp'. steps.
  set (h := (FindProgramByName (bpf_obj_ s2) "file_permission", fp) :: calls s2).
  exists (result lib h (ProgramAttach fp)), (bpf_obj_ s2), (calls s2). split; [apply Hatt|].
  split; cbn [calls links_]; [| |by exists []].
  - unfold live_links. simpl. destruct (Z.eqb_spec (result lib h (ProgramAttach fp)) nullptr) as [H|H];
      [by apply Hatt in H | by left].
  - intros f Heq. destruct (Hs2 f) as [Hf|Hf].
    + apply (Hatt h). by rewrite <- Heq.
    + apply (Hfresh h fp). rewrite <- Heq. exact Hf.
Qed.

(** C34: LSM mode leaks the link of file_permission.  When the loader comes up in
    LSM mode (the program is found and attaches), [Start] looks file_permission up and
    attaches it, and the link it is given for it, whichever later sequence of
    Initialize, Start and Stop follows, is held by no field of the loader, is never
    passed to bpf_link__destroy and stays live. *)
Theorem file_permission_link_leaks (fp : Z) (s : loader) :
  fresh_links lib -> fp <> nullptr ->
  (forall h obj, result lib h (FindProgramByName obj "file_permission") = fp) ->
  (forall h, result lib h (ProgramAttach fp) <> nullptr) ->
  released s -> initialized_ s = true -> running_ s = false -> mock_mode_ s = false ->
  lsm_active_ s = true -> fst (LoadAndAttachLsm lib (set_running true s)) = true ->
  exists r obj before, r <> nullptr /\
    forall l, let s' := run_ops lib (OpStart :: l) s in
      (exists after,
        calls s' = after ++ (ProgramAttach fp, r) ::
                     (FindProgramByName obj "file_permission", fp) :: before /\
        Forall (fun x => fst x <> LinkDestroy r) after) /\
      (forall f, links_ s' f <> r) /\ r ∈ live_links (calls s').
Proof using.
  intros Hfresh Hfp Hfind Hatt Hs Hi Hr Hm Hl Hok.
  destruct (LoadAndAttachLsm_loses fp (set_running true s)) as (r & obj & before & Hne & Hlost); try done.
  { intros f. left. apply Hs. }
  set (h0 := (ProgramAttach fp, r) :: _) in *. pose proof (lost_link_session h0 r Hfresh Hne) as Hinv.
  exists r, obj, before. split; [done|]. intros l s'.
  enough (lost_link h0 r s') as [Hlive Hfields Hsince] by done. unfold s'. simpl.
  apply run_ops_invariant; [intros o s0; by apply keeps_op|].
  unfold Start. steps. rewrite Hi, Hr, Hm. cbn [negb orb]. steps. rewrite Hl. steps.
  rewrite run_bind, Hok. steps. cbn [negb]. steps.
  destruct (_ =? nullptr); [done | by apply keeps_start_ring_buffer].
Qed.

(** ** A partial LSM start *)

Lemma lost_object_session (o : Z) :
  fresh_objects lib -> o <> nullptr -> session_inv lib (lost_object o).
Proof using.
  intros Hfresh Hne.
  assert (forall c s, closed c = None -> lost_object o s ->
    o ∈ open_objects (calls (logged lib c s))) as Hlog.
  { intros c s Hc [Ho _]. unfold logged. cbn [log calls]. destruct (is_open c) eqn:Hop.
    - destruct c; try done. by apply open_objects_open.
    - by rewrite open_objects_other. }
  split; [split|..].
  - intros c s Hc Hs. split; [|apply Hs]. apply Hlog; [by destruct c | done].
  - intros path s Hs. split; [by apply (Hlog (ObjectOpenFile path))|].
    cbn [set_obj bpf_obj_]. intros Heq. apply (Hfresh (calls s) path). rewrite Heq. apply Hs.
  - intros s [Ho Hob]. split; [by apply open_objects_close | by intros Heq; apply Hne].
  - intros f p s Hs. split; [by apply (Hlog (ProgramAttach p)) | apply Hs].
  - by intros v s [].
  - intros f s Hs _. split; [by apply Hlog | apply Hs].
  - by intros f s [].
  - intros c s [-> | ->] Hs; (split; [by apply Hlog | apply Hs]).
  - intros c s Hc Hs. split; [|apply Hs]. apply Hlog; [|done].
    destruct c; try done; by destruct Hc as [?|[? ?]].
  - by intros p i ru m v j s [].
Qed.

(** [bpf_obj_] is null or open while the loader loads. *)
Definition object_open (s : loader) : Prop :=
  bpf_obj_ s = nullptr \/ bpf_obj_ s ∈ open_objects (calls s).

Lemma object_open_loading : loading_inv lib object_open.
Proof using.
  assert (forall c s, is_open c = false -> closed c = None -> object_open s ->
    object_open (logged lib c s)) as Hlog.
  { intros c s Ho Hc [Hs|Hs]; [by left | right].
    unfold logged. cbn [log calls bpf_obj_]. by rewrite open_objects_other. }
  split.
  - intros c s Hc. by apply Hlog; destruct c.
  - intros path s Hs. unfold object_open. cbn [set_obj bpf_obj_ logged log calls].
    destruct (Z.eqb_spec (result lib (calls s) (ObjectOpenFile path)) nullptr) as [H|H];
      [by left | right].
    unfold logged, open_objects. simpl. destruct (Z.eqb_spec (result lib (calls s)
      (ObjectOpenFile path)) nullptr); [done | by left].
  - intros s Hs. by left.
  - intros f p s Hs. exact (Hlog (ProgramAttach p) s eq_refl eq_refl Hs).
  - by intros v s.
Qed.

(** Opening the object file again drops the object that was held. *)
Lemma LoadAndAttachFallback_drops (o : Z) (s : loader) :
  fresh_objects lib -> o <> nullptr -> o ∈ open_objects (calls s) ->
  lost_object o (snd (LoadAndAttachFallback lib s)).
Proof using.
  intros Hfresh Hne Ho. pose proof (si_loading _ _ (lost_object_session o Hfresh Hne)) as Hinv.
  assert (keeps (lost_object o) (prepare_and_load lib (fun p =>
    call lib (ProgramSetAutoload p false);; mret tt))) as Hprep.
  { apply keeps_prepare_and_load; [done|]. intros p.
    apply keeps_bind; [by apply keeps_call | intros _; apply keeps_ret]. }
  unfold LoadAndAttachFallback, open_and_load. steps.
  set (obj := result lib (calls s) (ObjectOpenFile (bpf_obj_path_ s))).
  assert (lost_object o (set_obj obj (log (ObjectOpenFile (bpf_obj_path_ s)) obj s))) as Hs1.
  { split; [by apply open_objects_open|]. cbn [set_obj bpf_obj_]. intros Heq.
    apply (Hfresh (calls s) (bpf_obj_path_ s)). fold obj. by rewrite Heq. }
  destruct (obj =? nullptr); steps; [done|]. revert Hs1.
  apply (keeps_bind (lost_object o) (prepare_and_load lib (fun p =>
    call lib (ProgramSetAutoload p false);; mret tt)) (fun loaded =>
      if negb (loaded : bool) then mret false else
      for_each fallback_programs (attach_to lib);;
      s ← gets id; mret (negb (links_ s tp_exec_link_ =? nullptr)))); [done|].
  intros loaded. apply keeps_if; [apply keeps_ret|].
  apply keeps_bind; [by apply keeps_for_each, keeps_attach_to|]. intros _.
  apply keeps_bind; [apply keeps_gets | intros s0; apply keeps_ret].
Qed.

(** C33: a partially failed LSM start leaks its object.  When the LSM object
    loads but a required hook does not attach, [Start] falls back to tracepoints
    by opening the file again: the first object stays open through every later
    sequence of operations. *)
Theorem partial_lsm_start_leaks_object (s : loader) :
  let s1 := snd (LoadAndAttachLsm lib (set_running true s)) in
  fresh_objects lib -> released s -> initialized_ s = true -> running_ s = false ->
  mock_mode_ s = false -> lsm_active_ s = true ->
  fst (LoadAndAttachLsm lib (set_running true s)) = false -> bpf_obj_ s1 <> nullptr ->
  forall l, bpf_obj_ s1 ∈ open_objects (calls (run_ops lib (OpStart :: l) s)).
Proof using.
  intros s1 Hfresh Hs Hi Hr Hm Hl Hfail Ho l.
  pose proof (lost_object_session _ Hfresh Ho) as Hinv.
  apply lo_open. simpl. apply run_ops_invariant; [intros o s0; by apply keeps_op|].
  assert (object_open s1) as [Hopen|Hopen]; [|done|].
  { apply (keeps_LoadAndAttachLsm lib object_open object_open_loading). left. apply Hs. }
  unfold Start. steps. rewrite Hi, Hr, Hm. cbn [negb orb]. steps. rewrite Hl. steps.
  rewrite run_bind, Hfail. fold s1. steps.
  rewrite run_bind.
  pose proof (LoadAndAttachFallback_drops (bpf_obj_ s1) (set_lsm_active false s1) Hfresh Ho Hopen)
    as Hlost.
  revert Hlost. destruct (LoadAndAttachFallback lib _) as [att s2]. cbn [fst snd]. intros Hlost.
  destruct att; cbn [negb]; steps; [|by destruct Hlost].
  destruct (_ =? nullptr); [done | by apply keeps_start_ring_buffer].
Qed.

End losses.

(** ** Demo sessions *)

Lemma ledger_largest (acq : libbpf_call -> bool) (rel : libbpf_call -> option Z) (h : history)
    (x : Z) : x ∈ ledger acq rel h -> x <= largest h.
Proof.
  induction h as [|[c r] h IH]; simpl; [by intros ?%elem_of_nil|].
  destruct (acq c).
  - destruct (r =? nullptr); [intros ?%IH; lia|]. intros [->|?%IH]%elem_of_cons; lia.
  - destruct (rel c); [intros [_ ?%IH]%list_elem_of_filter; lia | intros ?%IH; lia].
Qed.

Lemma largest_nonneg (h : history) : 0 <= largest h.
Proof. induction h; simpl; lia. Qed.

Section demo.
Context (fails : libbpf_call -> bool) (lsm : string).
Context (Hattach : forall p, fails (ProgramAttach p) = false).
Context (Hopen : forall p, fails (ObjectOpenFile p) = false).

Lemma demo_fresh_links : fresh_links (demo_lib fails lsm).
Proof using Hattach.
  intros h p Hin. apply ledger_largest in Hin. simpl in Hin. unfold demo_result in Hin.
  rewrite Hattach in Hin. lia.
Qed.

Lemma demo_fresh_objects : fresh_objects (demo_lib fails lsm).
Proof using Hopen.
  intros h p Hin. apply ledger_largest in Hin. simpl in Hin. unfold demo_result in Hin.
  rewrite Hopen in Hin. lia.
Qed.

End demo.

(** A loader initialised for LSM mode. *)
Definition lsm_ready (lib : libbpf) : loader :=
  snd (Initialize lib "kinnector.bpf.o" false new_loader).

(** The session that starts and stops once: libbpf finds each program at a new address but
    file_permission, which is at 777. *)
Lemma file_permission_link_leaks_witness :
  let lib := demo_lib (fun _ => false) "lockdown,bpf" in
  exists r obj before after, r <> nullptr /\
    let h := calls (run_ops lib [OpStart; OpStop] (lsm_ready lib)) in
    h = after ++ (ProgramAttach 777, r) :: (FindProgramByName obj "file_permission", 777) :: before /\
    r ∈ live_links h.
Proof.
  intros lib.
  assert (forall h, result lib h (ProgramAttach 777) <> nullptr) as Hatt.
  { intros h. simpl. unfold demo_result. pose proof (largest_nonneg h). unfold nullptr. lia. }
  assert (fst (LoadAndAttachLsm lib (set_running true (lsm_ready lib))) = true) as Hok
    by (vm_compute; reflexivity).
  destruct (file_permission_link_leaks lib 777 (lsm_ready lib)
    (demo_fresh_links _ _ (fun _ => eq_refl)) ltac:(discriminate) (fun _ _ => eq_refl) Hatt
    ltac:(split; done) eq_refl eq_refl eq_refl eq_refl Hok) as (r & obj & before & Hne & Hr).
  destruct (Hr [OpStop]) as ((after & Hcalls & _) & _ & Hlive).
  exists r, obj, before, after. split; [exact Hne|]. split; [exact Hcalls | exact Hlive].
Defined.

(** socket_connect does not attach. *)
Lemma partial_lsm_start_leaks_object_witness :
  let lib := demo_lib (fun c => match c with
    FindProgramByName _ "socket_connect" => true | _ => false end) "lockdown,bpf" in
  1 ∈ open_objects (calls (run_ops lib [OpStart; OpStop] (lsm_ready lib))).
Proof.
  intros lib.
  assert (fst (LoadAndAttachLsm lib (set_running true (lsm_ready lib))) = false) as Hfail
    by (vm_compute; reflexivity).
  assert (bpf_obj_ (snd (LoadAndAttachLsm lib (set_running true (lsm_ready lib)))) = 1) as Hobj
    by (vm_compute; reflexivity).
  rewrite <- Hobj.
  apply (partial_lsm_start_leaks_object lib (lsm_ready lib)
    (demo_fresh_objects _ _ (fun _ => eq_refl)) ltac:(split; done) eq_refl eq_refl eq_refl eq_refl
    Hfail ltac:(rewrite Hobj; discriminate) [OpStop]).
Defined.
