(* ===== verification/LoaderModes.v ===== *)
(** The loader's modes: mock mode is never left, LSM mode never looks up the
    programs that clean up after a process; and termination of the polling loop. *)

From S2P Require Export LoaderLosses.

Local Open Scope Z_scope.

(** ** Mock mode *)

(** Mock mode holding nothing, with the calls [h] made so far. *)
Record mocked (h : history) (s : loader) : Prop := Mocked {
  mk_mock : mock_mode_ s = true;
  mk_calls : calls s = h;
  mk_thread : thread_joinable s = false;
  mk_ring : ring_buf_ s = nullptr;
  mk_links : forall f, links_ s f = nullptr;
  mk_obj : bpf_obj_ s = nullptr;
}.

Section modes.
Context (lib : libbpf).

Lemma mocked_stop (h : history) : keeps (mocked h) (Stop lib).
Proof using.
  intros s [Hm Hc Ht Hr Hl Ho]. unfold Stop. steps. rewrite Ht. steps. rewrite Hr.
  change (nullptr =? nullptr) with true. cbv iota. steps.
  assert (forall D s', mocked h s' -> mocked h (snd (for_each D (destroy_link lib) s'))) as Hd.
  { intros D. apply keeps_for_each. intros f s' Hs. unfold destroy_link. steps.
    by rewrite (mk_links _ _ Hs). }
  assert (mocked h (set_running false s)) as Hs by (by split).
  revert Hs. generalize (set_running false s). clear - Hd.
  match goal with |- forall s', _ -> mocked h (snd (exec ?m s')) => change (keeps (mocked h) m) end.
  apply keeps_bind; [intros s; apply Hd|]. intros _. apply keeps_bind.
  { apply keeps_for_each. intros f s [Hm Hc Ht Hr Hl Ho].
    split; try done. intros g. simpl. by destruct (decide _). }
  intros _ s Hs. steps. rewrite (mk_obj _ _ Hs).
  change (nullptr =? nullptr) with true. cbv iota. steps. by destruct Hs.
Qed.

Lemma mocked_op (h : history) (o : loader_op) (s : loader) :
  mocked h s -> mocked h (run_op lib o s).
Proof using.
  intros Hs. destruct o as [path ff| |]; simpl run_op.
  - unfold Initialize. steps. destruct (initialized_ s); [done|]. steps.
    destruct (negb _); steps; by destruct Hs.
  - unfold Start. steps. destruct (_ || _); [done|]. rewrite (mk_mock _ _ Hs). steps.
    by destruct Hs.
  - by apply mocked_stop.
Qed.

End modes.

(** Mock mode is never left.  Once an Initialize finds no object file, no
    later Initialize, Start or Stop makes a single libbpf call, even after the
    file has appeared (the later operations see another file system [lib']); yet
    every Start after an Initialize reports success. *)
Theorem mock_mode_never_left (lib lib' : libbpf) (path : string) (force_fallback : bool)
    (s : loader) (l : list loader_op) :
  released s -> thread_joinable s = false -> initialized_ s = false ->
  file_exists lib path = false ->
  let s' := run_ops lib' l (snd (Initialize lib path force_fallback s)) in
  calls s' = calls s /\ mock_mode_ s' = true /\
  (initialized_ s' = true -> running_ s' = false -> fst (Start lib' s') = true).
Proof.
  intros Hs Ht Hi Hf s'.
  assert (mocked (calls s) s') as Hm.
  { apply run_ops_invariant; [intros o s0; apply mocked_op|].
    unfold Initialize. steps. rewrite Hi. steps. rewrite Hf. cbn [negb]. steps.
    destruct Hs. by split. }
  split; [by apply mk_calls|]. split; [by apply Hm|]. intros Hi' Hr'.
  unfold Start. steps. by rewrite Hi', Hr', (mk_mock _ _ Hm).
Qed.

(** ** What LSM mode attaches *)

Definition lsm_mode_names : list string :=
  map snd lsm_programs ++ ["file_permission"%string] ++ map snd tty_programs.

(** Only programs of [N] have been looked up. *)
Definition looked_up (N : list string) (s : loader) : Prop :=
  forall obj name r, (FindProgramByName obj name, r) ∈ calls s -> name ∈ N.

Section lookups.
Context (lib : libbpf) (N : list string).

Definition looks_up (c : libbpf_call) : bool :=
  match c with FindProgramByName _ name => bool_decide (name ∈ N) | _ => true end.

Lemma looked_call (c : libbpf_call) : looks_up c = true -> keeps (looked_up N) (call lib c).
Proof using.
  intros Hc s Hs obj name r. simpl. intros [[= <- _]|Hin]%elem_of_cons; [|by eapply Hs].
  by apply bool_decide_eq_true in Hc.
Qed.

Lemma looked_modify (f : loader -> loader) :
  (forall s, calls (f s) = calls s) -> keeps (looked_up N) (modify f).
Proof using. intros Hf s Hs obj name r. simpl. rewrite Hf. apply Hs. Qed.

Lemma looked_attach_all (l : list (link_field * string)) :
  Forall (fun fn => snd fn ∈ N) l -> keeps (looked_up N) (for_each l (attach_to lib)).
Proof using.
  induction 1 as [|[f n] l Hn Hl IH]; [apply keeps_ret|].
  apply keeps_bind; [|by intros _]. unfold attach_to. apply keeps_bind; [apply keeps_gets|].
  intros s0. apply keeps_bind; [apply looked_call; by apply bool_decide_eq_true|]. intros p.
  apply keeps_if; [apply keeps_ret|]. apply keeps_bind; [by apply looked_call|]. intros r.
  by apply looked_modify.
Qed.

Lemma looked_open_and_load (prepare : Z -> prog loader unit) :
  (forall p, keeps (looked_up N) (prepare p)) -> keeps (looked_up N) (open_and_load lib prepare).
Proof using.
  intros Hp. unfold open_and_load, prepare_and_load.
  apply keeps_bind; [apply keeps_gets|]. intros s0.
  apply keeps_bind; [by apply looked_call|]. intros obj.
  apply keeps_bind; [by apply looked_modify|]. intros _. apply keeps_if; [apply keeps_ret|].
  apply keeps_bind; [apply keeps_gets|]. intros s1. apply keeps_bind.
  { apply keeps_for_each. intros p. apply keeps_if; [apply Hp | apply keeps_ret]. }
  intros _. apply keeps_bind; [apply keeps_gets|]. intros s2.
  apply keeps_bind; [by apply looked_call|]. intros rc. apply keeps_if; [|apply keeps_ret].
  apply keeps_bind; [apply keeps_gets|]. intros s3.
  apply keeps_bind; [by apply looked_call|]. intros _.
  apply keeps_bind; [by apply looked_modify | intros _; apply keeps_ret].
Qed.

Lemma looked_stop : keeps (looked_up N) (Stop lib).
Proof using.
  unfold Stop. apply keeps_bind; [by apply looked_modify|]. intros _.
  apply keeps_bind; [apply keeps_gets|]. intros s0. apply keeps_bind.
  { apply keeps_if; [|apply keeps_ret].
    apply keeps_bind; [by apply looked_call | intros _; by apply looked_modify]. }
  intros _. apply keeps_bind; [apply keeps_gets|]. intros s1. apply keeps_bind.
  { apply keeps_if; [apply keeps_ret|].
    apply keeps_bind; [by apply looked_call | intros _; by apply looked_modify]. }
  intros _. apply keeps_bind.
  { apply keeps_for_each. intros f. unfold destroy_link. apply keeps_bind; [apply keeps_gets|].
    intros s2. apply keeps_if; [apply keeps_ret|].
    apply keeps_bind; [by apply looked_call | intros _; apply keeps_ret]. }
  intros _. apply keeps_bind; [apply keeps_for_each; intros f; by apply looked_modify|].
  intros _. apply keeps_bind; [apply keeps_gets|]. intros s2. apply keeps_bind.
  { apply keeps_if; [apply keeps_ret|].
    apply keeps_bind; [by apply looked_call | intros _; by apply looked_modify]. }
  intros _. by apply looked_modify.
Qed.

Lemma looked_start_ring_buffer :
  Forall (fun fn => snd fn ∈ N) tty_programs -> keeps (looked_up N) (start_ring_buffer lib).
Proof using.
  intros Hn. unfold start_ring_buffer. apply keeps_bind; [apply keeps_gets|]. intros s0.
  do 3 (apply keeps_bind; [by apply looked_call|]; intros ?).
  apply keeps_bind; [by apply looked_modify|]. intros _. apply keeps_if.
  { apply keeps_bind; [apply looked_stop | intros _; apply keeps_ret]. }
  apply keeps_bind; [by apply looked_call|]. intros tm. apply keeps_bind.
  { apply keeps_if; [apply keeps_ret|].
    do 2 (apply keeps_bind; [by apply looked_call|]; intros ?). apply keeps_ret. }
  intros _. apply keeps_bind; [by apply looked_attach_all|]. intros _.
  apply keeps_bind; [by apply looked_call|]. intros _.
  apply keeps_bind; [by apply looked_modify | intros _; apply keeps_ret].
Qed.

End lookups.

Lemma looked_LoadAndAttachLsm (lib : libbpf) :
  keeps (looked_up lsm_mode_names) (LoadAndAttachLsm lib).
Proof.
  unfold LoadAndAttachLsm. apply keeps_bind.
  { apply looked_open_and_load. intros p.
    do 2 (apply keeps_bind; [by apply looked_call|]; intros _). apply keeps_ret. }
  intros b. apply keeps_if; [apply keeps_ret|].
  apply keeps_bind; [apply looked_attach_all; by apply (bool_decide_unpack _)|]. intros _.
  apply keeps_bind; [apply keeps_gets|]. intros s0.
  apply keeps_bind; [by apply looked_call|]. intros p.
  apply keeps_bind; [apply keeps_if; [apply keeps_ret | by apply looked_call]|]. intros _.
  apply keeps_bind; [apply keeps_gets | intros s1; apply keeps_ret].
Qed.

(** A loader that comes up in LSM mode runs without the cleanup program.  It
    looks up the six LSM programs it stores, file_permission and the three PTY
    probes, and no other: the program that deletes a dead process's entries
    (tracepoint_sched_process_exit) and the image-load hook (mmap_file) are never
    even looked up, so they never run. *)
Theorem lsm_mode_without_cleanup (lib : libbpf) (s : loader) (obj r : Z) (name : string) :
  calls s = [] -> initialized_ s = true -> running_ s = false -> mock_mode_ s = false ->
  lsm_active_ s = true -> fst (LoadAndAttachLsm lib (set_running true s)) = true ->
  (FindProgramByName obj name, r) ∈ calls (snd (Start lib s)) ->
  name ∈ lsm_mode_names /\ name <> "tracepoint_sched_process_exit"%string /\
  name <> "mmap_file"%string.
Proof.
  intros Hc Hi Hr Hm Hl Hok Hin.
  assert (looked_up lsm_mode_names (snd (Start lib s))) as Hlook.
  { unfold Start. steps. rewrite Hi, Hr, Hm. cbn [negb orb]. steps. rewrite Hl. steps.
    rewrite run_bind, Hok. steps. cbn [negb]. steps.
    pose proof (looked_LoadAndAttachLsm lib (set_running true s)
      ltac:(intros o n x; simpl; rewrite Hc; by intros ?%elem_of_nil)) as Hs1.
    destruct (_ =? nullptr); [done|].
    apply looked_start_ring_buffer; [by apply (bool_decide_unpack _) | done]. }
  specialize (Hlook obj name r Hin). split; [done|].
  split; intros ->; revert Hlook; apply (bool_decide_unpack _); by vm_compute.
Qed.

(** ** The polling loop *)

(** A poll that ends the loop: it failed, and was not merely interrupted (EINTR is 4). *)
Definition poll_failed (err : Z) : Prop := err < 0 /\ err <> -4.

#[export] Instance poll_failed_dec (err : Z) : Decision (poll_failed err).
Proof. unfold poll_failed. apply _. Defined.

(** The loop at [i] ends after [k] polls in all: each of them while [running_] read
    true, none but possibly the last failed, and the end has a reason. *)
Record loop_ends_at (alive : nat -> bool) (poll : nat -> Z) (i k : nat) : Prop := LoopEndsAt {
  le_alive : forall j, (i <= j < k)%nat -> alive j = true;
  le_polls : forall j, (i <= j)%nat -> (S j < k)%nat -> ~ poll_failed (poll j);
  le_reason : alive k = false \/ exists j, (i <= j)%nat /\ k = S j /\ poll_failed (poll j);
}.

Lemma poll_loop_step (alive : nat -> bool) (poll : nat -> Z) (i fuel : nat) :
  RingBufferPollLoop alive poll i (S fuel) =
    if alive i then if decide (poll_failed (poll i)) then Some (S i)
                    else RingBufferPollLoop alive poll (S i) fuel
    else Some i.
Proof.
  cbn [RingBufferPollLoop]. destruct (alive i); [|done]. cbn [negb]. unfold poll_failed. change (- EINTR) with (-4).
  destruct (decide _) as [Hd|Hd], (Z.ltb_spec (poll i) 0), (Z.eqb_spec (poll i) (-4));
    cbn [andb negb]; done || lia.
Qed.

Lemma poll_loop_at (alive : nat -> bool) (poll : nat -> Z) (n i : nat) :
  alive (i + n)%nat = false ->
  exists k, RingBufferPollLoop alive poll i (S n) = Some k /\ (i <= k <= i + n)%nat /\
    loop_ends_at alive poll i k.
Proof.
  revert i. induction n as [|n IH]; intros i Hn; rewrite poll_loop_step.
  - rewrite Nat.add_0_r in Hn. rewrite Hn. exists i. split; [done|]. split; [lia|].
    split; [lia | lia | by left].
  - destruct (alive i) eqn:Hi.
    2:{ exists i. split; [done|]. split; [lia|]. split; [lia | lia | by left]. }
    destruct (decide (poll_failed (poll i))) as [Hp|Hp].
    { exists (S i). split; [done|]. split; [lia|]. split; [|lia|].
      - intros j Hj. by replace j with i by lia.
      - right. exists i. split; [lia | done]. }
    destruct (IH (S i)) as (k & Hk & Hb & [Ha Hf He]); [by rewrite <- Hn; f_equal; lia|].
    exists k. split; [done|]. split; [lia|]. split.
    + intros j Hj. destruct (decide (j = i)) as [->|]; [done | apply Ha; lia].
    + intros j Hj Hlt. destruct (decide (j = i)) as [->|]; [done | apply Hf; lia].
    + destruct He as [He|(j & Hj & He)]; [by left | right; exists j; split; [lia | done]].
Qed.

(** C30: the polling thread ends, and when.  If [running_] reads false at the n-th
    test of the loop, the loop ends after some [k] polls, at most n: each was made while
    [running_] read true, every one before the last succeeded or was interrupted
    (EINTR, 4), and the end is due either to [running_] reading false or to the
    last poll, the first to fail with another error.  So the join in [Stop] returns
    after at most one more poll, and a fatal error is never polled past. *)
Theorem poll_loop_ends (alive : nat -> bool) (poll : nat -> Z) (n : nat) :
  alive n = false ->
  exists k, RingBufferPollLoop alive poll 0 (S n) = Some k /\ (k <= n)%nat /\
    (forall j, (j < k)%nat -> alive j = true) /\
    (forall j, (S j < k)%nat -> 0 <= poll j \/ poll j = -4) /\
    (alive k = false \/ exists j, k = S j /\ poll j < 0 /\ poll j <> -4).
Proof.
  intros Hn. destruct (poll_loop_at alive poll n 0 Hn) as (k & Hk & Hb & [Ha Hf He]).
  exists k. split; [done|]. split; [lia|]. split; [intros j Hj; apply Ha; lia|]. split.
  - intros j Hj. specialize (Hf j ltac:(lia) Hj). unfold poll_failed in Hf. lia.
  - destruct He as [He|(j & _ & He)]; [by left | right; by exists j].
Qed.

Lemma mock_mode_never_left_witness :
  let lib := demo_lib (fun _ => false) "bpf" in
  let s' := run_ops lib [OpStart; OpStop; OpInitialize "kinnector.bpf.o" false]
    (snd (Initialize lib "missing.o" false new_loader)) in
  calls s' = [] /\ mock_mode_ s' = true /\
  (initialized_ s' = true -> running_ s' = false -> fst (Start lib s') = true).
Proof.
  intros lib s'. apply (mock_mode_never_left lib lib "missing.o" false new_loader
    [OpStart; OpStop; OpInitialize "kinnector.bpf.o" false]); [by split | reflexivity..].
Defined.

Lemma lsm_mode_without_cleanup_witness :
  let lib := demo_lib (fun _ => false) "lockdown,bpf" in
  (FindProgramByName 1 "bprm_creds_for_exec", 10) ∈ calls (snd (Start lib (lsm_ready lib))) /\
  "bprm_creds_for_exec"%string ∈ lsm_mode_names /\
  "bprm_creds_for_exec"%string <> "tracepoint_sched_process_exit"%string /\
  "bprm_creds_for_exec"%string <> "mmap_file"%string.
Proof.
  intros lib.
  assert ((FindProgramByName 1 "bprm_creds_for_exec", 10) ∈ calls (snd (Start lib (lsm_ready lib))))
    as Hin by (apply (bool_decide_unpack _); vm_compute; exact I).
  split; [exact Hin|].
  apply (lsm_mode_without_cleanup lib (lsm_ready lib) 1 10); try exact Hin;
    [reflexivity | reflexivity | reflexivity | reflexivity | reflexivity |
     vm_compute; reflexivity].
Defined.

(** The second poll is interrupted, the third fails: the loop ends there, although
    [running_] stays true until the sixth test. *)
Lemma poll_loop_ends_witness :
  let alive i := (i <? 5)%nat in
  let poll i := match i with 1%nat => -4 | 2%nat => - 9 | _ => 1 end in
  RingBufferPollLoop alive poll 0 6 = Some 3%nat /\
  exists k, RingBufferPollLoop alive poll 0 6 = Some k /\
    (forall j, (S j < k)%nat -> 0 <= poll j \/ poll j = -4) /\
    (alive k = false \/ exists j, k = S j /\ poll j < 0 /\ poll j <> -4).
Proof.
  intros alive poll. split; [reflexivity|].
  destruct (poll_loop_ends alive poll 5 eq_refl) as (k & Hk & _ & _ & Hf & He).
  exists k. split; [exact Hk|]. split; [exact Hf | exact He].
Defined.
