(* ===== verification/MapApi.v ===== *)
(** The loader's map interface (src/linux/ebpf_loader.cpp, lines 293-395): how the
    agent configures the eBPF programs, on the same maps the programs read.

    Each operation holds [map_mutex_] for its whole body, so it is one step on the
    maps.  [find_map] says which map names the loaded object has; the map system
    calls are the operations of [BpfMaps]. *)

From S2P Require Export Lifecycle EbpfLoader.

Local Open Scope Z_scope.

Inductive BpfMapType : Type :=
| CategoryFlags | PendingNetwork | TrustedRoots | SensitiveInodes | TaintedProcess
| TrustedExecInodes | ProcessThreshold | ConfigMap.

#[export] Instance bpf_map_type_eq_dec : EqDecision BpfMapType.
Proof. solve_decision. Defined.

Section map_api.
Context {BM : BpfMaps} {RB : BpfRingbuf} (find_map : string -> bool).

(** The [switch] on the map type: the per-process maps and their names. *)
Definition process_map (t : BpfMapType) : option (string * slot (hash process_key Z)) :=
  match t with
  | CategoryFlags => Some ("category_flags_map"%string, category_flags_map)
  | PendingNetwork => Some ("pending_network_connect"%string, pending_network_connect)
  | TrustedRoots => Some ("trusted_ancestor_roots"%string, trusted_ancestor_roots)
  | TaintedProcess => Some ("tainted_process_map"%string, tainted_process_map)
  | ProcessThreshold => Some ("process_threshold_map"%string, process_threshold_map)
  | _ => None
  end.

(** [mock_mode_ || !bpf_obj_] *)
Definition detached (ld : loader) : bool := mock_mode_ ld || (bpf_obj_ ld =? nullptr).

(** The value stored: [trusted_ancestor_roots] holds bytes. *)
Definition stored_value (t : BpfMapType) (value : Z) : Z :=
  match t with TrustedRoots => wrap 8 value | _ => value end.

Definition UpdateMapEntry (ld : loader) (t : BpfMapType) (pid start_time value : Z)
  : prog bst bool :=
  if detached ld then mret true else
  match process_map t with
  | None => mret false
  | Some (name, m) =>
      if negb (find_map name) then mret false else
      rc ← bpf_map_update_elem m (ProcessKey pid start_time) (stored_value t value);
      mret (rc =? 0)
  end.

Definition DeleteMapEntry (ld : loader) (t : BpfMapType) (pid start_time : Z) : prog bst bool :=
  if detached ld then mret true else
  match process_map t with
  | None => mret false
  | Some (name, m) =>
      if negb (find_map name) then mret false else
      rc ← bpf_map_delete_elem m (ProcessKey pid start_time);
      mret (rc =? 0)
  end.

(** The three maps with integer keys. *)
Definition update_named (ld : loader) (name : string) (m : slot (hash Z Z)) (k v : Z)
  : prog bst bool :=
  if detached ld then mret true else
  if negb (find_map name) then mret false else
  rc ← bpf_map_update_elem m k v;
  mret (rc =? 0).

Definition AddSensitiveInode (ld : loader) (inode category : Z) : prog bst bool :=
  update_named ld "sensitive_inodes_map" sensitive_inodes_map inode category.

Definition AddTrustedExecInode (ld : loader) (inode trust_level : Z) : prog bst bool :=
  update_named ld "trusted_exec_inodes" trusted_exec_inodes inode trust_level.

Definition SetConfigValue (ld : loader) (index value : Z) : prog bst bool :=
  update_named ld "config_map" config_map index value.

Definition LookupTrustedExecInode (ld : loader) (inode : Z) : prog bst bool :=
  if detached ld then mret true else
  if negb (find_map "trusted_exec_inodes") then mret false else
  v ← bpf_map_lookup_elem trusted_exec_inodes inode;
  mret (match v with Some _ => true | None => false end).

(** ** What the agent's calls do *)

(** The operations as one type. *)
Inductive map_op : Type :=
| OpUpdate (t : BpfMapType) (pid start_time value : Z)
| OpDelete (t : BpfMapType) (pid start_time : Z)
| OpAddSensitive (inode category : Z)
| OpAddTrustedExec (inode trust_level : Z)
| OpSetConfig (index value : Z)
| OpLookupTrustedExec (inode : Z).

Definition run_map_op (ld : loader) (o : map_op) : prog bst bool :=
  match o with
  | OpUpdate t pid start_time value => UpdateMapEntry ld t pid start_time value
  | OpDelete t pid start_time => DeleteMapEntry ld t pid start_time
  | OpAddSensitive inode category => AddSensitiveInode ld inode category
  | OpAddTrustedExec inode level => AddTrustedExecInode ld inode level
  | OpSetConfig index value => SetConfigValue ld index value
  | OpLookupTrustedExec inode => LookupTrustedExecInode ld inode
  end.

(** The operations write the configuration and process maps only. *)
Lemma map_op_frame (R : relation bst) `{!PreOrder R} (ld : loader) (o : map_op) :
  frame_slot R sensitive_inodes_map -> frame_slot R trusted_exec_inodes ->
  frame_slot R config_map ->
  (forall t name m, process_map t = Some (name, m) -> frame_slot R m) ->
  preserves R (run_map_op ld o).
Proof using.
  intros Hs Ht Hc Hp.
  destruct o; cbn [run_map_op];
    unfold UpdateMapEntry, DeleteMapEntry, AddSensitiveInode, AddTrustedExecInode, SetConfigValue,
      LookupTrustedExecInode, update_named;
    try (destruct (process_map t) as [[name m]|] eqn:Hm; [apply Hp in Hm|]); solve_preserves.
Qed.

Context `{!BpfMapsLaws}.

(** From [s] to [s'] the map [field] has come to hold [v] at [k]; its other keys, and
    everything else in the state, are as they were. *)
Definition entry_written {K V : Type} `{EqDecision K} (field : bst -> hash K V) (m : slot (hash K V))
    (k : K) (v : option V) (s s' : bst) : Prop :=
  map_lookup (field s') k = v /\
  (forall k', k' <> k -> map_lookup (field s') k' = map_lookup (field s) k') /\
  s' = slot_set m (field s') s.

(** What a successful operation has made true, map by map. *)
Definition map_op_effect (o : map_op) (s s' : bst) : Prop :=
  match o with
  | OpUpdate t pid start_time value =>
      let key := ProcessKey pid start_time in
      match t with
      | CategoryFlags => find_map "category_flags_map" = true /\
          entry_written st_category_flags_map category_flags_map key (Some value) s s'
      | PendingNetwork => find_map "pending_network_connect" = true /\
          entry_written st_pending_network_connect pending_network_connect key (Some value) s s'
      | TrustedRoots => find_map "trusted_ancestor_roots" = true /\
          entry_written st_trusted_ancestor_roots trusted_ancestor_roots key (Some (value mod 256)) s s'
      | TaintedProcess => find_map "tainted_process_map" = true /\
          entry_written st_tainted_process_map tainted_process_map key (Some value) s s'
      | ProcessThreshold => find_map "process_threshold_map" = true /\
          entry_written st_process_threshold_map process_threshold_map key (Some value) s s'
      | SensitiveInodes | TrustedExecInodes | ConfigMap => False
      end
  | OpDelete t pid start_time =>
      let key := ProcessKey pid start_time in
      match t with
      | CategoryFlags => find_map "category_flags_map" = true /\
          entry_written st_category_flags_map category_flags_map key None s s'
      | PendingNetwork => find_map "pending_network_connect" = true /\
          entry_written st_pending_network_connect pending_network_connect key None s s'
      | TrustedRoots => find_map "trusted_ancestor_roots" = true /\
          entry_written st_trusted_ancestor_roots trusted_ancestor_roots key None s s'
      | TaintedProcess => find_map "tainted_process_map" = true /\
          entry_written st_tainted_process_map tainted_process_map key None s s'
      | ProcessThreshold => find_map "process_threshold_map" = true /\
          entry_written st_process_threshold_map process_threshold_map key None s s'
      | SensitiveInodes | TrustedExecInodes | ConfigMap => False
      end
  | OpAddSensitive inode category => find_map "sensitive_inodes_map" = true /\
      entry_written st_sensitive_inodes_map sensitive_inodes_map inode (Some category) s s'
  | OpAddTrustedExec inode level => find_map "trusted_exec_inodes" = true /\
      entry_written st_trusted_exec_inodes trusted_exec_inodes inode (Some level) s s'
  | OpSetConfig index value => find_map "config_map" = true /\
      entry_written st_config_map config_map index (Some value) s s'
  | OpLookupTrustedExec inode => find_map "trusted_exec_inodes" = true /\
      s' = s /\ is_Some (map_lookup (st_trusted_exec_inodes s) inode)
  end.

(** The two system calls that write. *)
Lemma update_writes {K V : Type} `{EqDecision K} (field : bst -> hash K V) (m : slot (hash K V))
    (k : K) (v : V) (s : bst) :
  (forall s, field s = slot_get m s) -> (forall x s, slot_get m (slot_set m x s) = x) -> fst (bpf_map_update_elem m k v s) = 0 ->
  entry_written field m k (Some v) s (snd (bpf_map_update_elem m k v s)).
Proof.
  intros Hf Hm. unfold bpf_map_update_elem, entry_written. rewrite run_act, !Hf.
  pose proof (map_update_lookup (slot_get m s) k v) as Hk.
  pose proof (fun k' => map_update_ne (slot_get m s) k k' v) as Hne.
  destruct (map_update (slot_get m s) k v) as [rc m']. cbn [fst snd] in *. intros H0. rewrite Hm.
  split; [by apply Hk|]. split; [|done]. intros k' Hk'. by apply Hne.
Qed.

Lemma delete_writes {K V : Type} `{EqDecision K} (field : bst -> hash K V) (m : slot (hash K V))
    (k : K) (s : bst) :
  (forall s, field s = slot_get m s) -> (forall x s, slot_get m (slot_set m x s) = x) ->
  entry_written field m k None s (snd (bpf_map_delete_elem m k s)).
Proof.
  intros Hf Hm. unfold bpf_map_delete_elem, entry_written. rewrite run_act, !Hf.
  pose proof (map_delete_lookup (slot_get m s) k) as Hk.
  pose proof (fun k' => map_delete_ne (slot_get m s) k k') as Hne.
  destruct (map_delete (slot_get m s) k) as [rc m']. cbn [fst snd] in *. rewrite Hm.
  split; [by apply Hk|]. split; [|done]. intros k' Hk'. by apply Hne.
Qed.

Lemma update_named_effect (ld : loader) (name : string) (m : slot (hash Z Z)) (k v : Z) (s : bst) :
  (forall x s, slot_get m (slot_set m x s) = x) -> detached ld = false ->
  fst (update_named ld name m k v s) = true ->
  find_map name = true /\
  entry_written (slot_get m) m k (Some v) s (snd (update_named ld name m k v s)).
Proof.
  intros Hm Hd. unfold update_named. rewrite Hd. destruct (find_map name); [|done].
  cbn [negb]. rewrite run_bind, run_ret. cbn [fst snd]. intros Hrc%Z.eqb_eq.
  split; [done|]. by apply update_writes.
Qed.

(** C25: the agent's calls mean what they report.  With an object loaded, an
    operation that returns true has found the map of that name and, in that map of the
    ones the programs read, the entry of the key now holds the value passed (its low
    byte for trusted roots), or is gone; no other entry of it and no other map has
    changed.  A lookup that returns true found the inode and changed nothing.  The
    three types without a per-process map are always refused. *)
Theorem map_op_reported (ld : loader) (o : map_op) (s : bst) :
  detached ld = false -> fst (run_map_op ld o s) = true ->
  map_op_effect o s (snd (run_map_op ld o s)).
Proof.
  intros Hd. destruct o as [t p st v|t p st|i cat|i lvl|i v|i]; cbn [run_map_op map_op_effect].
  - unfold UpdateMapEntry. rewrite Hd. destruct t; cbn [process_map stored_value]; try done;
      (destruct (find_map _); [|done]); cbn [negb]; rewrite run_bind, run_ret; cbn [fst snd];
      intros Hrc%Z.eqb_eq; (split; [done|]); by apply update_writes.
  - unfold DeleteMapEntry. rewrite Hd. destruct t; cbn [process_map]; try done;
      (destruct (find_map _); [|done]); cbn [negb]; rewrite run_bind, run_ret; cbn [fst snd];
      intros _; (split; [done|]); by apply delete_writes.
  - by apply (update_named_effect ld "sensitive_inodes_map" sensitive_inodes_map).
  - by apply (update_named_effect ld "trusted_exec_inodes" trusted_exec_inodes).
  - by apply (update_named_effect ld "config_map" config_map).
  - unfold LookupTrustedExecInode. rewrite Hd. destruct (find_map _); [|done]. cbn [negb]. run.
    by destruct (map_lookup (st_trusted_exec_inodes s) i).
Qed.

(** Without an object every operation is a false success: in mock mode, and
    before [Start] or after [Stop], each returns true and changes nothing, and
    every inode is reported as trusted. *)
Lemma detached_map_ops_pretend (ld : loader) (o : map_op) (s : bst) :
  detached ld = true -> run_map_op ld o s = (true, s).
Proof using.
  intros Hd. destruct o; simpl; unfold UpdateMapEntry, DeleteMapEntry, AddSensitiveInode,
    AddTrustedExecInode, SetConfigValue, LookupTrustedExecInode, update_named; by rewrite Hd.
Qed.

(** C26: the trust level the agent lists decides the exec.  After
    AddTrustedExecInode(inode, level) succeeded, an exec of a file with that
    inode is refused when the level is 0; otherwise it is admitted and (when the
    threshold map takes the entry) the process is labelled with the level. *)
Theorem listed_level_decides_exec (ld : loader) (level bprm : Z) (c : ctx) (s : bst) :
  let inode := inode_i_ino c (file_f_inode c (bprm_file c bprm)) in
  let s1 := snd (AddTrustedExecInode ld inode level s) in
  let r := run_hook c (BprmCredsForExec bprm) s1 in
  detached ld = false -> fst (AddTrustedExecInode ld inode level s) = true ->
  bprm <> NULL -> bprm_file c bprm <> NULL -> file_f_inode c (bprm_file c bprm) <> NULL ->
  if level =? 0 then fst r = - EACCES else
  fst r = 0 /\
  (fst (map_update (st_process_threshold_map s1) (get_current_process_key c) level) = 0 ->
   map_lookup (st_process_threshold_map (snd r)) (get_current_process_key c) = Some level).
Proof.
  intros inode s1 r Hd Hok Hb%Z.eqb_neq Hf%Z.eqb_neq Hi%Z.eqb_neq.
  assert (map_lookup (st_trusted_exec_inodes s1) inode = Some level) as Hl
    by (by apply (update_named_effect ld "trusted_exec_inodes" trusted_exec_inodes inode level s)).
  assert (exec_trust c bprm s1 = Some level) as Ht
    by (unfold exec_trust; cbv zeta; by rewrite Hf, Hi).
  unfold r. rewrite run_hook_verdict. unfold policy. rewrite Hb, Ht. simpl.
  destruct (level =? 0) eqn:Hz; [done|]. split; [done|]. intros Hup.
  rewrite exec_labels. unfold exec_label. rewrite Hb, Hf, Hi, Ht, Hz.
  by apply map_update_lookup.
Qed.

End map_api.

Definition all_maps (name : string) : bool := true.

(** A loader with an object. *)
Definition attached_loader : loader := set_obj 1 (set_initialized true new_loader).

(** The trust value 257 is stored as 1, and only there. *)
Lemma map_op_reported_witness :
  let s' := snd (run_map_op all_maps attached_loader (OpUpdate TrustedRoots 42 1000 257) loaded) in
  map_lookup (st_trusted_ancestor_roots s') demo_key = Some 1 /\
  st_category_flags_map s' = st_category_flags_map loaded.
Proof.
  destruct (map_op_reported all_maps attached_loader (OpUpdate TrustedRoots 42 1000 257) loaded
    eq_refl eq_refl) as (_ & H1 & _ & H2).
  cbv zeta. split; [exact H1|]. rewrite H2. reflexivity.
Defined.

Lemma listed_level_decides_exec_witness :
  let s1 := snd (AddTrustedExecInode all_maps attached_loader demo_inode 2 loaded) in
  let r := run_hook (demo_ctx 0 42 1) (BprmCredsForExec demo_bprm) s1 in
  fst r = 0 /\ map_lookup (st_process_threshold_map (snd r)) demo_key = Some 2.
Proof.
  destruct (listed_level_decides_exec all_maps attached_loader 2 demo_bprm (demo_ctx 0 42 1)
    loaded eq_refl eq_refl ltac:(discriminate) ltac:(discriminate) ltac:(discriminate)) as [H1 H2].
  split; [exact H1 | apply H2; reflexivity].
Defined.
