(* ===== verification/LsmTest.v ===== *)
(** The loader test (src/linux/test_lsm.cpp): brings the loader up, writes and deletes
    an entry of [category_flags_map], and takes it down. *)

From S2P Require Export MapApi LoaderModes.

Local Open Scope Z_scope.

(** What the test prints, as far as it depends on a result. *)
Inductive line : Type :=
| NotRoot
| InitializeFailed
| StartFailed
| Started (lsm_active mock_mode : bool)
| EntryUpdated
| EntryDeleted
| DeleteFailed
| UpdateFailed.

Section test.
Context {BM : BpfMaps} {RB : BpfRingbuf} (lib : libbpf) (find_map : string -> bool).

(** The loader on the stack and the maps of the kernel. *)
Record test_state : Type := TestState { the_loader : loader; maps : bst }.

Definition on_loader {A : Type} : prog loader A -> prog test_state A :=
  zoom the_loader (fun l s => TestState l (maps s)).
Definition on_maps {A : Type} : prog bst A -> prog test_state A :=
  zoom maps (fun m s => TestState (the_loader s) m).

Definition bpf_path : string := "build/kinnector.bpf.o".
Definition test_pid : Z := 99999.
Definition test_time : Z := 123456789.
Definition test_value : Z := 16.

(** The exit code and the lines.  Leaving [main] once the loader exists runs
    [~EbpfLoader], which is [Stop]. *)
Definition main (uid : Z) : prog test_state (Z * list line) :=
  if negb (uid =? 0) then mret (1, [NotRoot]) else
  initialized ← on_loader (Initialize lib bpf_path false);
  if negb initialized then on_loader (Stop lib);; mret (1, [InitializeFailed]) else
  started ← on_loader (Start lib);
  if negb started then on_loader (Stop lib);; mret (1, [StartFailed]) else
  s ← gets id;
  let loader := the_loader s in
  updated ← on_maps (UpdateMapEntry find_map loader CategoryFlags test_pid test_time test_value);
  lines ← (if (updated : bool) then
             deleted ← on_maps (DeleteMapEntry find_map loader CategoryFlags test_pid test_time);
             mret [EntryUpdated; if (deleted : bool) then EntryDeleted else DeleteFailed]
           else mret [UpdateFailed]);
  on_loader (Stop lib);;
  on_loader (Stop lib);;
  mret (0, Started (lsm_active_ loader) (mock_mode_ loader) :: lines).

(** ** Outcomes *)

Lemma run_on_loader {A : Type} (m : prog loader A) (s : test_state) :
  on_loader m s = (fst (m (the_loader s)), TestState (snd (m (the_loader s))) (maps s)).
Proof. unfold on_loader. rewrite run_zoom; [done | done | done | by intros []]. Qed.

Lemma run_on_maps {A : Type} (m : prog bst A) (s : test_state) :
  on_maps m s = (fst (m (maps s)), TestState (the_loader s) (snd (m (maps s)))).
Proof. unfold on_maps. rewrite run_zoom; [done | done | done | by intros []]. Qed.

Definition initialized_loader : loader := snd (Initialize lib bpf_path false new_loader).
Definition started_loader : loader := snd (Start lib initialized_loader).

Lemma Initialize_fresh : fst (Initialize lib bpf_path false new_loader) = true.
Proof. unfold Initialize. steps. cbn [initialized_ new_loader]. steps. by destruct (file_exists _ _). Qed.

(** As root, from a loader just constructed. *)
Lemma main_runs (b : bst) :
  main 0 (TestState new_loader b) =
    let ld := started_loader in
    let stopped := snd (Stop lib ld) in
    if negb (fst (Start lib initialized_loader)) then ((1, [StartFailed]), TestState stopped b) else
    let up := UpdateMapEntry find_map ld CategoryFlags test_pid test_time test_value b in
    let down := DeleteMapEntry find_map ld CategoryFlags test_pid test_time (snd up) in
    let stopped := snd (Stop lib stopped) in
    let shown := Started (lsm_active_ ld) (mock_mode_ ld) in
    if fst up
    then ((0, [shown; EntryUpdated; if fst down then EntryDeleted else DeleteFailed]),
          TestState stopped (snd down))
    else ((0, [shown; UpdateFailed]), TestState stopped (snd up)).
Proof.
  unfold main. change (negb (0 =? 0)) with false. cbv iota zeta.
  rewrite run_bind, run_on_loader. cbn [fst snd the_loader maps]. rewrite Initialize_fresh. cbn [negb].
  rewrite run_bind, run_on_loader. cbn [fst snd the_loader maps].
  fold initialized_loader. fold started_loader.
  destruct (fst (Start lib initialized_loader)); cbn [negb].
  2: { by rewrite run_bind, run_on_loader. }
  rewrite run_bind, run_gets. cbn [fst snd id the_loader].
  rewrite run_bind, run_on_maps. cbn [fst snd maps the_loader].
  destruct (fst (UpdateMapEntry _ _ _ _ _ _ b)).
  all: repeat (rewrite ?run_bind, ?run_on_maps, ?run_on_loader, ?run_ret; cbn [fst snd the_loader maps]); done.
Qed.

(** The exit code says whether the loader started, and nothing about the maps. *)
Lemma exit_code (uid : Z) (b : bst) :
  fst (fst (main uid (TestState new_loader b))) =
    if (uid =? 0) && fst (Start lib initialized_loader) then 0 else 1.
Proof.
  destruct (Z.eqb_spec uid 0) as [->|Hne].
  - rewrite main_runs. cbv zeta. destruct (fst (Start _ _)); [|done]. cbn [negb andb].
    by destruct (fst (UpdateMapEntry _ _ _ _ _ _ _)).
  - apply Z.eqb_neq in Hne. unfold main. by rewrite Hne.
Qed.

(** Without the object file (for one, from another working directory) the test reports
    every step as done and succeeds, though no call was made and no map touched. *)
Lemma passes_without_object (b : bst) :
  file_exists lib bpf_path = false ->
  let r := main 0 (TestState new_loader b) in
  fst r = (0, [Started false true; EntryUpdated; EntryDeleted]) /\
  maps (snd r) = b /\ calls (the_loader (snd r)) = [].
Proof.
  intros Hf r.
  assert (mocked [] initialized_loader) as Hm.
  { unfold initialized_loader, Initialize. steps. cbn [initialized_ new_loader]. steps. rewrite Hf.
    cbn [negb]. steps. by split. }
  assert (initialized_ initialized_loader = true /\ running_ initialized_loader = false /\
    lsm_active_ initialized_loader = false) as (Hi & Hr & Ha).
  { unfold initialized_loader, Initialize. steps. cbn [initialized_ new_loader]. steps. rewrite Hf.
    by steps. }
  assert (Start lib initialized_loader = (true, set_running true initialized_loader)) as Hs.
  { unfold Start. steps. rewrite Hi, Hr, (mk_mock _ _ Hm). by steps. }
  assert (mocked [] (snd (Stop lib (snd (Stop lib started_loader))))) as Hstop.
  { do 2 apply mocked_stop. unfold started_loader. rewrite Hs. by destruct Hm. }
  assert (detached started_loader = true) as Hd.
  { unfold detached, started_loader. rewrite Hs. cbn [snd set_running mock_mode_].
    by rewrite (mk_mock _ _ Hm). }
  unfold r. rewrite main_runs, Hs. cbn [fst negb]. cbv zeta.
  unfold UpdateMapEntry, DeleteMapEntry. rewrite Hd, !run_ret. cbn [fst snd maps the_loader].
  unfold started_loader at 1 2. rewrite Hs. cbn [snd set_running lsm_active_ mock_mode_].
  rewrite Ha, (mk_mock _ _ Hm). split; [done|]. split; [done|]. by apply mk_calls.
Qed.

Context `{!BpfMapsLaws}.

(** What a run of the loader test leaves behind.  Its exit code is 0 exactly when
    it runs as root and the loader starts, whatever the map operations report; and if
    it reports the entry as updated and deleted, with a loaded object, then no entry
    of the test's process remains and every other entry is as it was. *)
Theorem lsm_test_outcome (uid : Z) (b : bst) :
  let r := main uid (TestState new_loader b) in
  (fst (fst r) = 0 <-> uid = 0 /\ fst (Start lib initialized_loader) = true) /\
  (detached started_loader = false -> EntryDeleted ∈ snd (fst r) ->
   forall key, map_lookup (st_category_flags_map (maps (snd r))) key =
     if decide (key = ProcessKey test_pid test_time) then None
     else map_lookup (st_category_flags_map b) key).
Proof.
  intros r. split.
  { unfold r. rewrite exit_code. destruct (Z.eqb_spec uid 0) as [->|Hne]; cbn [andb].
    - destruct (fst (Start _ _)); by split; [|intros [_ ?]].
    - split; [done | by intros [? _]]. }
  intros Hd. unfold r. destruct (Z.eqb_spec uid 0) as [->|Hne].
  2: { apply Z.eqb_neq in Hne. unfold main. rewrite Hne. cbn [negb]. rewrite run_ret. cbn [fst snd].
       intros Hin. by apply list_elem_of_singleton in Hin. }
  rewrite main_runs. cbv zeta. destruct (negb _); cbn [fst snd].
  { intros Hin. by apply list_elem_of_singleton in Hin. }
  unfold UpdateMapEntry, DeleteMapEntry. rewrite Hd. cbn [process_map].
  destruct (find_map "category_flags_map"); cbn [negb].
  2: { rewrite run_ret. cbn [fst snd]. intros Hin%list_elem_of_In. simpl in Hin. intuition discriminate. }
  run. set (k := ProcessKey test_pid test_time). set (m := map_update (st_category_flags_map b) k _).
  destruct (fst m =? 0); cbn [fst snd maps]; [|intros Hin%list_elem_of_In; simpl in Hin; intuition discriminate].
  intros Hin key. read_slots.
  destruct (decide (key = k)) as [->|Hk]; [by rewrite map_delete_lookup|].
  rewrite map_delete_ne by done. unfold m. by rewrite map_update_ne.
Qed.

End test.

(** On the executable kernel, with a libbpf that fails nothing. *)
Lemma lsm_test_outcome_witness :
  let lib := Libbpf (demo_result (fun _ => false)) (fun _ => [1; 2]) (fun _ => None)
               (String.eqb bpf_path) (Some "lockdown,bpf"%string) in
  let b := slot_set category_flags_map (Bounded 10240 [(demo_key, 1)]) loaded in
  let r := main lib all_maps 0 (TestState new_loader b) in
  fst r = (0, [Started true false; EntryUpdated; EntryDeleted]) /\
  map_lookup (st_category_flags_map (maps (snd r))) demo_key = Some 1.
Proof.
  intros lib b r.
  assert (fst r = (0, [Started true false; EntryUpdated; EntryDeleted])) as Hr by (vm_compute; reflexivity).
  split; [exact Hr|].
  assert (EntryDeleted ∈ snd (fst r)) as Hin by (rewrite Hr; by repeat constructor).
  exact (proj2 (lsm_test_outcome lib all_maps 0 b) eq_refl Hin demo_key).
Defined.
