(* ===== verification/MonitorSpec.v ===== *)
(** What the access control of the object promises, without maps, hooks or kernel
    structures: a reference monitor over processes and inodes.

    A process is labelled when it executes a file, confined when its label is 1,
    blocking is on and it is not a trusted root, and refused a fixed set of accesses
    while it is confined.  The agent's requests change the configuration.  The only
    freedom is that a label or a request may be lost (a full map).  [Enforcement]
    proves that the programs and the loader's map interface implement this; the
    theorems here are about the monitor alone. *)

From S2P Require Export KernelLayout Kernel.

Local Open Scope Z_scope.

Record monitor : Type := Monitor {
  m_blocking : bool;
  m_trusted : process_key -> bool;
  m_label : process_key -> option Z;
  m_sensitive : Z -> bool;
  m_listed : Z -> option Z;
}.

(** Two monitors that answer alike. *)
Record monitor_same (m m' : monitor) : Prop := MonitorSame {
  ms_blocking : m_blocking m = m_blocking m';
  ms_trusted : forall p, m_trusted m p = m_trusted m' p;
  ms_label : forall p, m_label m p = m_label m' p;
  ms_sensitive : forall i, m_sensitive m i = m_sensitive m' i;
  ms_listed : forall i, m_listed m i = m_listed m' i;
}.

#[export] Instance monitor_equiv : Equiv monitor := monitor_same.

#[export] Instance monitor_equivalence : Equivalence (≡@{monitor}).
Proof.
  split.
  - intros m. by split.
  - intros m m' []. by split.
  - intros m1 m2 m3 [] []. split; intros; etrans; eauto.
Qed.

(** ** Requests *)

(** Accesses that are refused to every confined process. *)
Inductive guarded : Type := ConnectInet | ConnectGui | Attach | MapCode | ServeDesktop.

Inductive access : Type :=
| OpenFile (device : bool) (ino : Z)   (* [device]: procfs memory, input devices *)
| Guarded (g : guarded)
| Execute (ino : Z)
| Exit
| Unmediated.

Inductive request : Type :=
| Access (p : process_key) (a : access)
| SetBlocking (on : bool)
| SetTrusted (p : process_key) (on : bool)
| SetLabel (p : process_key) (label : option Z)
| MarkSensitive (ino : Z)
| ListExec (ino level : Z)
| Unrelated.                           (* a map the policy does not read *)

#[export] Instance guarded_eq_dec : EqDecision guarded.
Proof. solve_decision. Defined.

#[export] Instance access_eq_dec : EqDecision access.
Proof. solve_decision. Defined.

(** ** The policy *)

Definition confined (m : monitor) (p : process_key) : bool :=
  negb (m_trusted m p) && m_blocking m && bool_decide (m_label m p = Some 1).

Definition denies (m : monitor) (p : process_key) (a : access) : bool :=
  match a with
  | OpenFile device ino => confined m p && (device || m_sensitive m ino)
  | Guarded _ => confined m p
  | Execute ino => bool_decide (m_listed m ino = Some 0)
  | Exit | Unmediated => false
  end.

(** The label of a process that executes an admitted file. *)
Definition exec_level (m : monitor) (ino : Z) : option Z :=
  match m_listed m ino with
  | Some level => Some level
  | None => if m_blocking m then Some 1 else None
  end.

Definition at_process {A : Type} (f : process_key -> A) (p : process_key) (v : A) : process_key -> A :=
  fun q => if decide (p = q) then v else f q.

Definition set_label (p : process_key) (l : option Z) (m : monitor) : monitor :=
  Monitor (m_blocking m) (m_trusted m) (at_process (m_label m) p l) (m_sensitive m) (m_listed m).

Definition set_trusted (p : process_key) (on : bool) (m : monitor) : monitor :=
  Monitor (m_blocking m) (at_process (m_trusted m) p on) (m_label m) (m_sensitive m) (m_listed m).

(** A request that takes effect. *)
Definition apply_request (r : request) (m : monitor) : monitor :=
  match r with
  | Access p (Execute ino) =>
      match exec_level m ino with Some l => set_label p (Some l) m | None => m end
  | Access p Exit => set_label p None (set_trusted p false m)
  | Access _ _ | Unrelated => m
  | SetBlocking on => Monitor on (m_trusted m) (m_label m) (m_sensitive m) (m_listed m)
  | SetTrusted p on => set_trusted p on m
  | SetLabel p l => set_label p l m
  | MarkSensitive ino =>
      Monitor (m_blocking m) (m_trusted m) (m_label m)
        (fun i => if decide (ino = i) then true else m_sensitive m i) (m_listed m)
  | ListExec ino level =>
      Monitor (m_blocking m) (m_trusted m) (m_label m) (m_sensitive m)
        (fun i => if decide (ino = i) then Some level else m_listed m i)
  end.

(** The requests whose effect may be missing from an admitted access: the label of
    an exec. *)
Definition may_lose (r : request) : bool :=
  match r with Access _ (Execute _) => true | _ => false end.

(** The requests that report failure and still hold afterwards: removing what is
    not there. *)
Definition may_be_absent (r : request) : bool :=
  match r with SetTrusted _ false | SetLabel _ None => true | _ => false end.

(** The answer to a request and the monitor after it. *)
Inductive mstep (m : monitor) : request -> bool -> monitor -> Prop :=
| m_refused p a m' : denies m p a = true -> m' ≡ m -> mstep m (Access p a) false m'
| m_granted p a m' :
    denies m p a = false -> m' ≡ apply_request (Access p a) m -> mstep m (Access p a) true m'
| m_label_lost p a m' :
    denies m p a = false -> may_lose (Access p a) = true -> m' ≡ m -> mstep m (Access p a) true m'
| m_configured r m' :
    (forall p a, r <> Access p a) -> m' ≡ apply_request r m -> mstep m r true m'
| m_failed r m' : (forall p a, r <> Access p a) -> m' ≡ m -> mstep m r false m'
| m_absent r m' : may_be_absent r = true -> m' ≡ apply_request r m -> mstep m r false m'.

Inductive mrun : monitor -> list (request * bool) -> monitor -> Prop :=
| mrun_nil m : mrun m [] m
| mrun_cons m r ok m1 tr m2 : mstep m r ok m1 -> mrun m1 tr m2 -> mrun m ((r, ok) :: tr) m2.

(** ** Confinement *)

#[export] Instance confined_proper : Proper ((≡) ==> (=) ==> (=)) confined.
Proof. intros m m' [Hb Ht Hl _ _] p ? <-. unfold confined. by rewrite Hb, Ht, Hl. Qed.

#[export] Instance denies_proper : Proper ((≡) ==> (=) ==> (=) ==> (=)) denies.
Proof.
  intros m m' Hm0 ? p -> ? a ->.
  assert (confined m p = confined m' p) as Hm by (by rewrite Hm0).
  destruct Hm0 as [_ _ _ Hs Hl]. destruct a; simpl; by rewrite ?Hm, ?Hs, ?Hl.
Qed.

(** What can end or interrupt the confinement of [p]. *)
Definition releases (p : process_key) (r : request) : bool :=
  match r with
  | Access q (Execute _) | Access q Exit => bool_decide (q = p)
  | SetBlocking on => negb on
  | SetTrusted q on => on && bool_decide (q = p)
  | SetLabel q l => negb (bool_decide (l = Some 1)) && bool_decide (q = p)
  | _ => false
  end.

(** The accesses a confined process is refused. *)
Definition restricted (m : monitor) (a : access) : bool :=
  match a with
  | OpenFile device ino => device || m_sensitive m ino
  | Guarded _ => true
  | _ => false
  end.

Lemma at_process_ne {A : Type} (f : process_key -> A) (p q : process_key) (v : A) :
  p <> q -> at_process f p v q = f q.
Proof. unfold at_process. by intros; rewrite decide_False. Qed.

Lemma apply_confined (m : monitor) (p : process_key) (r : request) :
  releases p r = false -> confined m p = true -> confined (apply_request r m) p = true.
Proof.
  unfold confined. intros Hr Hc. destruct r as [q a|on|q on|q l|ino|ino level|]; simpl in *; try done.
  - destruct a; simpl in *; try done; apply bool_decide_eq_false in Hr;
      [destruct (exec_level m ino); simpl; [|done] |]; by rewrite ?at_process_ne.
  - apply negb_false_iff in Hr as ->. split_bools. by known_bools.
  - unfold at_process. destruct (decide (q = p)) as [->|]; [|done].
    rewrite bool_decide_true, andb_true_r in Hr by done. subst on. split_bools. by known_bools.
  - unfold at_process. destruct (decide (q = p)) as [->|]; [|done].
    rewrite (bool_decide_true (p = p)) in Hr by done.
    rewrite andb_true_r in Hr. apply negb_false_iff in Hr. rewrite Hr. split_bools. by known_bools.
Qed.

Lemma mstep_confined (m m' : monitor) (p : process_key) (r : request) (ok : bool) :
  mstep m r ok m' -> releases p r = false -> confined m p = true -> confined m' p = true.
Proof.
  intros Hs Hr Hc. destruct Hs as [? ? ? ? ->|? ? ? ? ->|? ? ? ? ? ->|? ? ? ->|? ? ? ->|? ? ? ->];
    try done; by apply apply_confined.
Qed.

Lemma mstep_sensitive (m m' : monitor) (r : request) (ok : bool) (ino : Z) :
  mstep m r ok m' -> m_sensitive m ino = true -> m_sensitive m' ino = true.
Proof.
  intros Hs Hi.
  assert (m_sensitive (apply_request r m) ino = true) as Ha.
  { destruct r as [q []| | | | | |]; simpl; try done; [by destruct (exec_level m _)|]. by case_decide. }
  destruct Hs as [? ? ? ? []|? ? ? ? []|? ? ? ? ? []|? ? ? []|? ? ? []|? ? ? []]; congruence.
Qed.

Lemma not_an_access (p : process_key) (a : access) :
  (forall q b, Access p a <> Access q b) -> False.
Proof. intros H. by apply (H p a). Qed.

Lemma confined_denies (m : monitor) (p : process_key) (a : access) :
  confined m p = true -> restricted m a = true -> denies m p a = true.
Proof. intros Hc. destruct a; simpl; by rewrite ?Hc. Qed.

Lemma mstep_restricted (m m' : monitor) (p : process_key) (a : access) (ok : bool) :
  mstep m (Access p a) ok m' -> confined m p = true -> restricted m a = true -> ok = false.
Proof.
  intros Hs Hc Hr.
  pose proof (confined_denies m p a Hc Hr) as Hd.
  inversion Hs; subst; try done; try congruence; by edestruct not_an_access.
Qed.

(** A confined process stays confined, and is refused every restricted access,
    until a request releases it. *)
Lemma confinement (m m' : monitor) (p : process_key) (tr : list (request * bool)) :
  mrun m tr m' -> confined m p = true -> Forall (fun x => releases p (fst x) = false) tr ->
  confined m' p = true /\
  Forall (fun x => forall a, fst x = Access p a -> restricted m a = true -> snd x = false) tr.
Proof.
  intros Hrun Hc Htr.
  assert (forall m0, mrun m0 tr m' -> confined m0 p = true ->
    (forall ino, m_sensitive m ino = true -> m_sensitive m0 ino = true) ->
    confined m' p = true /\
    Forall (fun x => forall a, fst x = Access p a -> restricted m a = true -> snd x = false) tr) as Hgen.
  { clear Hrun Hc. induction Htr as [|[r ok] tr Hr Htr IH]; intros m0 Hrun Hc Hs;
      inversion Hrun as [|? ? ? m1 ? ? Hstep Hrest]; subst; [by split|].
    destruct (IH m1 Hrest) as [Hc' Hall].
    { by eapply mstep_confined. }
    { intros ino Hi. eapply mstep_sensitive; eauto. }
    split; [done|]. constructor; [|done]. simpl. intros a -> Hra.
    eapply mstep_restricted; [done | done|]. destruct a; simpl in *; try done.
    apply orb_true_iff in Hra as [->|Hra]; [done|]. by rewrite (Hs ino Hra), orb_true_r. }
  by apply (Hgen m).
Qed.

(** With blocking off and never switched on, only the exec of a file listed with
    level 0 is refused. *)
Lemma monitor_mode (m m' : monitor) (tr : list (request * bool)) :
  mrun m tr m' -> m_blocking m = false ->
  Forall (fun x => fst x <> SetBlocking true) tr ->
  Forall (fun x => forall p a, fst x = Access p a -> (forall ino, a <> Execute ino) -> snd x = true) tr.
Proof.
  intros Hrun Hb Htr. revert m Hrun Hb.
  induction Htr as [|[r ok] tr Hr Htr IH]; intros m Hrun Hb;
    inversion Hrun as [|? ? ? m1 ? ? Hstep Hrest]; subst; constructor.
  - simpl in *. intros p a -> Ha.
    assert (denies m p a = false) as Hd.
    { destruct a; simpl; try done; [| |by destruct (Ha ino)];
        unfold confined; by rewrite Hb, andb_false_r. }
    inversion Hstep; subst; try done; try congruence; by edestruct not_an_access.
  - apply (IH m1); [done|]. simpl in Hr.
    assert (m_blocking (apply_request r m) = false) as Hap.
    { destruct r as [q []|[]| | | | |]; simpl; try done. by destruct (exec_level m _). }
    destruct Hstep as [? ? ? ? []|? ? ? ? []|? ? ? ? ? []|? ? ? []|? ? ? []|? ? ? []]; congruence.
Qed.
