(* ===== verification/Enforcement.v ===== *)
(** The programs and the agent's map calls implement the reference monitor of
    [MonitorSpec]: every run of both, interleaved, is a run of the monitor with the
    same requests and the same answers. *)

From S2P Require Export MonitorSpec MapApi.

Local Open Scope Z_scope.

Section enforcement.
Context {BM : BpfMaps} {RB : BpfRingbuf}.

(** ** Calls as requests *)

Definition open_access (c : ctx) (file mask : Z) : access :=
  if (file =? NULL) || (file_f_inode c file =? NULL) then Unmediated
  else OpenFile (is_blocked_dev c file mask) (inode_i_ino c (file_f_inode c file)).

Definition connect_access (c : ctx) (address : Z) : access :=
  let family := socket_family c address in
  if inet_family family then Guarded ConnectInet
  else if (family =? AF_UNIX) && is_gui_socket (unix_path c address) then Guarded ConnectGui
  else Unmediated.

Definition exec_access (c : ctx) (bprm : Z) : access :=
  if (bprm =? NULL) || (bprm_file c bprm =? NULL) || (file_f_inode c (bprm_file c bprm) =? NULL)
  then Unmediated
  else Execute (inode_i_ino c (file_f_inode c (bprm_file c bprm))).

Definition listen_access (c : ctx) (sock : Z) : access :=
  if (sock =? NULL) || (socket_sk c sock =? NULL) then Unmediated
  else if is_remote_desktop_port (wrap 16 (sock_skc_num c (socket_sk c sock)))
  then Guarded ServeDesktop else Unmediated.

Definition access_of (c : ctx) (h : hook_call) : access :=
  match h with
  | FileOpen file mask => open_access c file mask
  | SocketConnect address => connect_access c address
  | BprmCredsForExec bprm => exec_access c bprm
  | PtraceAccessCheck child mode => if child =? NULL then Unmediated else Guarded Attach
  | FileMprotect vma _ _ newprot =>
      if negb (Z.land newprot PROT_EXEC =? 0) && (vma_vm_file c vma =? NULL)
      then Guarded MapCode else Unmediated
  | SocketListen sock => listen_access c sock
  | SchedProcessExit => Exit
  | _ => Unmediated
  end.

Definition request_of_op (o : map_op) : request :=
  match o with
  | OpUpdate TrustedRoots pid start_time value =>
      SetTrusted (ProcessKey pid start_time) (wrap 8 value =? 1)
  | OpUpdate ProcessThreshold pid start_time value =>
      SetLabel (ProcessKey pid start_time) (Some value)
  | OpDelete TrustedRoots pid start_time => SetTrusted (ProcessKey pid start_time) false
  | OpDelete ProcessThreshold pid start_time => SetLabel (ProcessKey pid start_time) None
  | OpAddSensitive inode _ => MarkSensitive inode
  | OpAddTrustedExec inode level => ListExec inode level
  | OpSetConfig index value => if index =? 0 then SetBlocking (value =? 1) else Unrelated
  | _ => Unrelated
  end.

(** A program that runs, or a map call of the agent. *)
Inductive call : Type :=
| Hook (c : ctx) (h : hook_call)
| Agent (o : map_op).

Definition request_of (x : call) : request :=
  match x with
  | Hook c h => Access (get_current_process_key c) (access_of c h)
  | Agent o => request_of_op o
  end.

Section calls.
Context (find_map : string -> bool) (ld : loader).

(** Whether the call was admitted, or reported success. *)
Definition run_call (x : call) : prog bst bool :=
  match x with
  | Hook c h => rc ← run_hook c h; mret (rc =? 0)
  | Agent o => run_map_op find_map ld o
  end.

Fixpoint run_calls (l : list call) (s : bst) : bst :=
  match l with
  | [] => s
  | x :: rest => run_calls rest (snd (run_call x s))
  end.

(** The requests of a run with their answers. *)
Fixpoint trace (l : list call) (s : bst) : list (request * bool) :=
  match l with
  | [] => []
  | x :: rest => (request_of x, fst (run_call x s)) :: trace rest (snd (run_call x s))
  end.

End calls.

(** ** The monitor behind a state *)

Definition monitor_of (s : bst) : monitor := {|
  m_blocking := blocking s;
  m_trusted := is_trusted s;
  m_label p := map_lookup (st_process_threshold_map s) p;
  m_sensitive := is_sensitive s;
  m_listed ino := map_lookup (st_trusted_exec_inodes s) ino;
|}.

Lemma deref_is_spec (o : option Z) (v : Z) : deref_is o v = bool_decide (o = Some v).
Proof using.
  destruct o as [x|]; simpl; [|done].
  destruct (Z.eqb_spec x v) as [->|Hne]; symmetry; [by apply bool_decide_true|].
  apply bool_decide_false. congruence.
Qed.

Lemma confined_enforced (s : bst) (p : process_key) : confined (monitor_of s) p = enforced s p.
Proof using. unfold confined, enforced, is_untrusted. simpl. by rewrite deref_is_spec. Qed.

(** The policy of the programs is the policy of the monitor. *)
Lemma policy_denies (c : ctx) (h : hook_call) (s : bst) :
  policy c h s = denies (monitor_of s) (get_current_process_key c) (access_of c h).
Proof using.
  destruct h; try done; cbn [access_of policy]; cbv zeta.
  - unfold open_access. destruct (file =? NULL); cbn [orb negb andb]; [by rewrite !andb_false_r|].
    destruct (file_f_inode c file =? NULL); cbn [negb andb]; [by rewrite !andb_false_r|].
    simpl. by rewrite confined_enforced, !andb_true_r.
  - unfold connect_access. destruct (inet_family _); cbn [orb];
      [simpl; by rewrite confined_enforced, andb_true_r|].
    destruct ((socket_family c address =? AF_UNIX) && is_gui_socket (unix_path c address));
      simpl; rewrite ?confined_enforced; by rewrite ?andb_true_r, ?andb_false_r.
  - unfold exec_access, exec_trust. cbv zeta. destruct (bprm =? NULL); [done|].
    destruct (bprm_file c bprm =? NULL); [done|]. destruct (file_f_inode _ _ =? NULL); [done|].
    simpl. by rewrite deref_is_spec.
  - destruct (child =? NULL); [done|]. simpl. by rewrite confined_enforced.
  - destruct (negb (Z.land newprot PROT_EXEC =? 0)); [|done]. simpl.
    destruct (vma_vm_file c vma =? NULL); simpl; rewrite ?confined_enforced;
      by rewrite ?andb_true_r, ?andb_false_r.
  - unfold listen_access. destruct (sock =? NULL); [done|]. destruct (socket_sk c sock =? NULL); [done|].
    cbn [negb andb orb]. destruct (is_remote_desktop_port _); [|done]. simpl. by rewrite confined_enforced.
Qed.

Context `{!BpfMapsLaws}.

(** ** The programs *)

Lemma config_same (c : ctx) (h : hook_call) (s : bst) :
  let s' := snd (run_hook c h s) in
  blocking s' = blocking s /\ (forall i, is_sensitive s' i = is_sensitive s i) /\
  (forall i, map_lookup (st_trusted_exec_inodes s') i = map_lookup (st_trusted_exec_inodes s) i).
Proof.
  destruct (preserves_run (run_hook_config c h) s) as [Hs Ht Hc]. unfold blocking, is_sensitive.
  by rewrite Hs, Ht, Hc.
Qed.

(** Programs other than the exec hook and the exit tracepoint. *)
Lemma other_hook_same (c : ctx) (h : hook_call) (s : bst) :
  match h with BprmCredsForExec _ | SchedProcessExit => False | _ => True end ->
  monitor_of (snd (run_hook c h s)) ≡ monitor_of s.
Proof.
  intros Hh. assert (h <> SchedProcessExit) as Hx by (by intros ->).
  destruct (config_same c h s) as (Hb & Hs & Ht). split; simpl; try done.
  - intros p. unfold is_trusted. by rewrite (preserves_run (trusted_map_kept c h Hx) s).
  - intros p. apply threshold_kept. by destruct h.
Qed.

Lemma exec_monitor (c : ctx) (bprm : Z) (s : bst) :
  let p := get_current_process_key c in
  let s' := snd (run_hook c (BprmCredsForExec bprm) s) in
  match exec_label c bprm s with
  | Some l => monitor_of s' ≡ set_label p (Some l) (monitor_of s) \/ monitor_of s' ≡ monitor_of s
  | None => monitor_of s' ≡ monitor_of s
  end.
Proof.
  intros p s'. destruct (config_same c (BprmCredsForExec bprm) s) as (Hb & Hs & Ht).
  assert (BprmCredsForExec bprm <> SchedProcessExit) as Hx by done.
  pose proof (preserves_run (trusted_map_kept c (BprmCredsForExec bprm) Hx) s) as Htr.
  pose proof (exec_labels c bprm s) as Hl. unfold s'. simpl run_hook in *.
  destruct (exec_label c bprm s) as [l|].
  - destruct (decide (fst (map_update (st_process_threshold_map s) p l) = 0)) as [Hup|Hup].
    + left. split; simpl; try done; [by intros q; unfold is_trusted; rewrite Htr|].
      intros q. rewrite Hl. unfold at_process. destruct (decide (p = q)) as [<-|Hne];
        [by apply map_update_lookup | by apply map_update_ne].
    + right. split; simpl; try done; [by intros q; unfold is_trusted; rewrite Htr|].
      intros q. rewrite Hl. destruct (decide (p = q)) as [<-|Hne];
        [by apply map_update_fail | by apply map_update_ne].
  - split; simpl; try done; [by intros q; unfold is_trusted; rewrite Htr|]. intros q. by rewrite Hl.
Qed.

Lemma exit_monitor (c : ctx) (s : bst) :
  monitor_of (snd (run_hook c SchedProcessExit s)) ≡
    apply_request (Access (get_current_process_key c) Exit) (monitor_of s).
Proof.
  destruct (config_same c SchedProcessExit s) as (Hb & Hs & Ht).
  destruct (exit_maps c s) as (_ & _ & Htr & Hth & _). split; simpl in *; try done.
  - intros q. unfold is_trusted. rewrite Htr. unfold at_process.
    destruct (decide _) as [<-|Hne]; [by rewrite map_delete_lookup | by rewrite map_delete_ne].
  - intros q. rewrite Hth. unfold at_process.
    destruct (decide _) as [<-|Hne]; [by rewrite map_delete_lookup | by rewrite map_delete_ne].
Qed.

(** What an admitted exec labels is what the monitor says. *)
Lemma exec_label_level (c : ctx) (bprm : Z) (s : bst) :
  exec_label c bprm s =
    match exec_access c bprm with
    | Execute ino =>
        if denies (monitor_of s) (get_current_process_key c) (Execute ino) then None
        else exec_level (monitor_of s) ino
    | _ => None
    end.
Proof using.
  unfold exec_label, exec_access, exec_trust. cbv zeta. destruct (bprm =? NULL); [done|].
  destruct (bprm_file c bprm =? NULL); [done|]. destruct (file_f_inode _ _ =? NULL); [done|].
  cbn [orb denies]. unfold exec_level. simpl.
  rewrite <- deref_is_spec. by destruct (map_lookup _ _) as [t|]; simpl; [destruct (t =? 0)|].
Qed.

Lemma exec_access_cases (c : ctx) (bprm : Z) :
  exec_access c bprm = Unmediated \/ exists ino, exec_access c bprm = Execute ino.
Proof using. unfold exec_access. destruct (_ || _); eauto. Qed.

(** Every program answers and moves as the monitor does. *)
Lemma hook_step (c : ctx) (h : hook_call) (s : bst) :
  mstep (monitor_of s) (Access (get_current_process_key c) (access_of c h))
    (fst (run_hook c h s) =? 0) (monitor_of (snd (run_hook c h s))).
Proof.
  rewrite run_hook_verdict, policy_denies.
  destruct (denies _ _ (access_of c h)) eqn:Hd; cbn [Z.eqb Z.opp EACCES].
  - apply m_refused; [done|]. destruct h; try (by apply other_hook_same).
    pose proof (exec_monitor c bprm s) as He. cbv zeta in He.
    rewrite exec_label_level in He. simpl access_of in Hd.
    destruct (exec_access_cases c bprm) as [Hx|[ino Hx]]; rewrite Hx in *; [done|].
    by rewrite Hd in He.
  - destruct h; try (by apply m_granted; [done | apply other_hook_same]);
      try (apply m_granted; [done|]; etrans; [by apply other_hook_same|]).
    all: try (simpl access_of; unfold open_access, connect_access, listen_access;
              repeat case_match; done).
    + pose proof (exec_monitor c bprm s) as He. cbv zeta in He.
      rewrite exec_label_level in He. simpl access_of in *.
      destruct (exec_access_cases c bprm) as [Hx|[ino Hx]]; rewrite Hx in *; [by apply m_granted|].
      rewrite Hd in He. destruct (exec_level (monitor_of s) ino) as [l|] eqn:Hl.
      * destruct He as [He|He]; [|by apply m_label_lost]. apply m_granted; [done|].
        simpl. by rewrite Hl.
      * apply m_granted; [done|]. simpl. by rewrite Hl.
    + apply m_granted; [done | apply exit_monitor].
Qed.

(** ** The agent's calls *)

(** A change that only touches one entry of one map. *)
Lemma update_named_monitor (find_map : string -> bool) (ld : loader) (name : string)
    (m : slot (hash Z Z)) (k v : Z) (r : request) (s : bst) :
  detached ld = false -> (forall p a, r <> Access p a) ->
  (fst (map_update (slot_get m s) k v) = 0 ->
     monitor_of (slot_set m (snd (map_update (slot_get m s) k v)) s) ≡
       apply_request r (monitor_of s)) ->
  (fst (map_update (slot_get m s) k v) <> 0 ->
     monitor_of (slot_set m (snd (map_update (slot_get m s) k v)) s) ≡ monitor_of s) ->
  let x := update_named find_map ld name m k v s in
  mstep (monitor_of s) r (fst x) (monitor_of (snd x)).
Proof using.
  intros Hd Hr Hok Hfail. unfold update_named. rewrite Hd. destruct (find_map name); cbn [negb].
  - run. destruct (Z.eqb_spec (fst (map_update (slot_get m s) k v)) 0) as [H0|H0].
    + by apply m_configured, Hok.
    + by apply m_failed, Hfail.
  - by apply m_failed.
Qed.

(** A successful or failed update as seen through lookups. *)
Lemma lookup_updated {K V : Type} `{EqDecision K} (m : hash K V) (k q : K) (v : V) :
  fst (map_update m k v) = 0 ->
  map_lookup (snd (map_update m k v)) q = if decide (k = q) then Some v else map_lookup m q.
Proof.
  intros H0. destruct (decide (k = q)) as [<-|Hne]; [by apply map_update_lookup | by apply map_update_ne].
Qed.

Lemma lookup_not_updated {K V : Type} `{EqDecision K} (m : hash K V) (k q : K) (v : V) :
  fst (map_update m k v) <> 0 -> map_lookup (snd (map_update m k v)) q = map_lookup m q.
Proof.
  intros H0. destruct (decide (k = q)) as [<-|Hne]; [by apply map_update_fail | by apply map_update_ne].
Qed.

Lemma lookup_deleted {K V : Type} `{EqDecision K} (m : hash K V) (k q : K) :
  map_lookup (snd (map_delete m k)) q = if decide (k = q) then None else map_lookup m q.
Proof. destruct (decide (k = q)) as [<-|Hne]; [apply map_delete_lookup | by apply map_delete_ne]. Qed.

(** Monitors of states that differ in one map. *)
Ltac same_monitor :=
  split; simpl; unfold blocking, is_trusted, is_sensitive, at_process; intros; read_slots; simpl; try done.

Lemma request_of_op_admin (o : map_op) (p : process_key) (a : access) : request_of_op o <> Access p a.
Proof using. destruct o as [[]| [] | | | |]; simpl; try done. by destruct (index =? 0). Qed.

Lemma update_monitor (t : BpfMapType) (name : string) (m : slot (hash process_key Z))
    (pid st v : Z) (s : bst) :
  process_map t = Some (name, m) ->
  let k := ProcessKey pid st in
  let u := map_update (slot_get m s) k (stored_value t v) in
  monitor_of (slot_set m (snd u) s) ≡
    if fst u =? 0 then apply_request (request_of_op (OpUpdate t pid st v)) (monitor_of s)
    else monitor_of s.
Proof.
  intros Ht k u. destruct (Z.eqb_spec (fst u) 0) as [H0|H0]; destruct t; try discriminate Ht; injection Ht as <- <-;
    simpl in *; same_monitor; unfold u, k in *;
    rewrite ?(lookup_updated _ _ _ _ H0), ?(lookup_not_updated _ _ _ _ H0); try done;
    by destruct (decide _).
Qed.

Lemma delete_monitor (t : BpfMapType) (name : string) (m : slot (hash process_key Z))
    (pid st : Z) (s : bst) :
  process_map t = Some (name, m) ->
  monitor_of (slot_set m (snd (map_delete (slot_get m s) (ProcessKey pid st))) s) ≡
    apply_request (request_of_op (OpDelete t pid st)) (monitor_of s).
Proof.
  intros Ht. destruct t; try discriminate Ht; injection Ht as <- <-; simpl in *; same_monitor;
    rewrite ?lookup_deleted; try done; by destruct (decide _).
Qed.

Lemma agent_step (find_map : string -> bool) (ld : loader) (o : map_op) (s : bst) :
  detached ld = false ->
  let x := run_map_op find_map ld o s in
  mstep (monitor_of s) (request_of_op o) (fst x) (monitor_of (snd x)).
Proof.
  intros Hd. pose proof (request_of_op_admin o) as Hr. cbv zeta.
  destruct o as [t pid st v|t pid st|ino cat|ino lvl|idx v|ino]; cbn [run_map_op] in *.
  - unfold UpdateMapEntry. rewrite Hd. destruct (process_map t) as [[name m]|] eqn:Ht; [|by apply m_failed].
    destruct (find_map name); cbn [negb]; [|by apply m_failed]. run.
    pose proof (update_monitor t name m pid st v s Ht) as Hu. cbv zeta in Hu.
    destruct (_ =? 0); [by apply m_configured | by apply m_failed].
  - unfold DeleteMapEntry. rewrite Hd. destruct (process_map t) as [[name m]|] eqn:Ht; [|by apply m_failed].
    destruct (find_map name); cbn [negb]; [|by apply m_failed]. run.
    pose proof (delete_monitor t name m pid st s Ht) as Hu.
    destruct (_ =? 0); [by apply m_configured|].
    destruct t; try done; first [by apply m_absent | by apply m_failed].
  - apply update_named_monitor; [done | done | intros H0 | intros H0]; same_monitor;
      rewrite ?(lookup_updated _ _ _ _ H0), ?(lookup_not_updated _ _ _ _ H0); try done;
      by destruct (decide _).
  - apply update_named_monitor; [done | done | intros H0 | intros H0]; same_monitor;
      rewrite ?(lookup_updated _ _ _ _ H0), ?(lookup_not_updated _ _ _ _ H0); done.
  - cbn [request_of_op] in *. destruct (Z.eqb_spec idx 0) as [->|Hne];
      (apply update_named_monitor; [done | done | intros H0 | intros H0]); same_monitor;
      rewrite ?(lookup_updated _ _ _ _ H0), ?(lookup_not_updated _ _ _ _ H0); try done;
      by destruct (decide _).
  - unfold LookupTrustedExecInode. rewrite Hd. destruct (find_map _); cbn [negb]; [|by apply m_failed].
    run. destruct (map_lookup _ _); [by apply m_configured | by apply m_failed].
Qed.

(** ** Runs *)

Section runs.
Context (find_map : string -> bool) (ld : loader) (Hld : detached ld = false).

Lemma call_step (x : call) (s : bst) :
  mstep (monitor_of s) (request_of x) (fst (run_call find_map ld x s))
    (monitor_of (snd (run_call find_map ld x s))).
Proof using All.
  destruct x as [c h|o]; cbn [run_call request_of]; [rewrite run_bind; apply hook_step|].
  by apply agent_step.
Qed.

Lemma calls_run (l : list call) (s : bst) :
  mrun (monitor_of s) (trace find_map ld l s) (monitor_of (run_calls find_map ld l s)).
Proof using All.
  revert s. induction l as [|x l IH]; intros s; [constructor|].
  econstructor; [apply call_step | apply IH].
Qed.

Lemma trace_requests (l : list call) (s : bst) :
  map fst (trace find_map ld l s) = map request_of l.
Proof using. revert s. induction l as [|x l IH]; intros s; [done|]. simpl. by rewrite IH. Qed.

Lemma trace_forall (P : request -> Prop) (l : list call) (s : bst) :
  Forall (fun x => P (request_of x)) l -> Forall (fun y => P (fst y)) (trace find_map ld l s).
Proof using. intros Hl. apply Forall_map. rewrite trace_requests. by apply Forall_map. Qed.

End runs.

(** C6: the eBPF programs and the agent's map calls together are a reference
    monitor.  Every run of them, interleaved in any order by any processes, is
    step by step a run of the monitor of [MonitorSpec] with the same requests and
    the same answers, from the monitor behind the first state to the monitor
    behind the last; the one thing the implementation may do that the plain
    policy does not is to lose the label of an exec (a full map). *)
Theorem enforcement_refines (find_map : string -> bool) (ld : loader) (l : list call) (s : bst) :
  detached ld = false ->
  map fst (trace find_map ld l s) = map request_of l /\
  mrun (monitor_of s) (trace find_map ld l s) (monitor_of (run_calls find_map ld l s)).
Proof. intros Hld. split; [apply trace_requests | by apply calls_run]. Qed.

(** C7: containment outlasts everything but the agent's own release.  A process that
    executes an unlisted file under blocking, that is not a trusted root (those are
    always admitted), and whose label the threshold map stored (a full map fails
    open, [Lifecycle]), is confined from then on: whatever programs run and whatever map calls the agent
    makes, as long as the process neither executes again nor exits and the agent
    does not switch blocking off, trust it or label it differently, each of its
    accesses that the monitor restricts in that state (sensitive files, including
    those added later, devices, IP connections, display sockets, ptrace, anonymous
    code, remote-desktop ports) is refused. *)
Theorem confined_until_released (find_map : string -> bool) (ld : loader) (c c' : ctx) (bprm : Z)
    (h : hook_call) (s : bst) (l : list call) :
  let key := get_current_process_key c in
  let s' := run_calls find_map ld l (snd (run_hook c (BprmCredsForExec bprm) s)) in
  detached ld = false ->
  blocking s = true -> exec_label c bprm s = Some 1 -> is_trusted s key = false ->
  fst (map_update (st_process_threshold_map s) key 1) = 0 ->
  Forall (fun x => releases key (request_of x) = false) l ->
  get_current_process_key c' = key -> restricted (monitor_of s') (access_of c' h) = true ->
  fst (run_hook c' h s') = - EACCES.
Proof.
  intros key s' Hld Hb Hlabel Ht Hup Hl Hk Hr.
  set (s1 := snd (run_hook c (BprmCredsForExec bprm) s)) in *.
  assert (confined (monitor_of s1) key = true) as Hc.
  { rewrite confined_enforced. unfold enforced, is_untrusted, s1.
    rewrite trusted_kept by done. destruct (config_same c (BprmCredsForExec bprm) s) as (-> & _ & _).
    rewrite Hb. simpl run_hook. rewrite exec_labels, Hlabel, map_update_lookup by done. done. }
  destruct (confinement _ _ key _ (calls_run find_map ld Hld l s1) Hc) as [Hc' _].
  { by apply (trace_forall _ _ (fun r => releases key r = false)). }
  pose proof (hook_step c' h s') as Hs. rewrite Hk in Hs.
  pose proof (mstep_restricted _ _ key _ _ Hs Hc' Hr) as Hf.
  rewrite run_hook_verdict in *. by destruct (policy c' h s').
Qed.

(** While blocking is off and the agent does not switch it on, the only calls that
    can be refused are execs. *)
Lemma monitor_mode_admits (find_map : string -> bool) (ld : loader) (l : list call) (s : bst) :
  detached ld = false -> blocking s = false ->
  Forall (fun x => request_of x <> SetBlocking true) l ->
  Forall (fun y => forall p a, fst y = Access p a -> (forall ino, a <> Execute ino) -> snd y = true)
    (trace find_map ld l s).
Proof.
  intros Hld Hb Hl. eapply monitor_mode; [by apply calls_run | done|].
  by apply (trace_forall _ _ (fun r => r <> SetBlocking true)).
Qed.

End enforcement.

(** The agent switches blocking on, process 42 executes an unlisted file and opens
    a file; the agent lists that file as sensitive, and the next open is refused. *)
Definition demo_session : list call :=
  [Agent (OpSetConfig 0 1); Hook (demo_ctx 0 42 1) (BprmCredsForExec demo_bprm);
   Hook (demo_ctx 0 42 1) (FileOpen demo_file 0); Agent (OpAddSensitive demo_inode 16);
   Hook (demo_ctx 1 42 1) (FileOpen demo_file 0)].

Lemma enforcement_refines_witness :
  map snd (trace all_maps attached_loader demo_session loaded) = [true; true; true; true; false] /\
  mrun (monitor_of loaded) (trace all_maps attached_loader demo_session loaded)
    (monitor_of (run_calls all_maps attached_loader demo_session loaded)).
Proof.
  split; [reflexivity|].
  exact (proj2 (enforcement_refines all_maps attached_loader demo_session loaded eq_refl)).
Defined.

Lemma confined_until_released_witness :
  let l := [Agent (OpAddSensitive 500 16); Hook (demo_ctx 1 7 2) (BprmCredsForExec demo_bprm);
            Agent (OpUpdate TrustedRoots 7 2000 1)] in
  fst (run_hook (demo_ctx 0 42 1) (FileOpen demo_file 0) (run_calls all_maps attached_loader l
    (snd (run_hook (demo_ctx 0 42 1) (BprmCredsForExec demo_bprm)
      (snd (run_call all_maps attached_loader (Agent (OpSetConfig 0 1)) loaded)))))) = - EACCES.
Proof.
  intros l. apply (confined_until_released all_maps attached_loader (demo_ctx 0 42 1)
    (demo_ctx 0 42 1) demo_bprm); try reflexivity. repeat constructor.
Defined.
