(* ===== verification/Interleaving.v ===== *)
(** Programs that really overlap: any number of runs of the eBPF programs, each
    interrupted between any two of its helper calls by the others and by the map
    calls of the agent.

    The programs are the ones the other files run alone; only the scheduler is new.
    A helper call is atomic (the kernel's maps and ring buffers are synchronised); a
    map lookup and the read through the pointer it returns are one action, and so
    are the map calls of the agent, which make at most one system call. *)

From S2P Require Export Enforcement Records.

Local Open Scope Z_scope.

Section interleaving.
Context {BM : BpfMaps} {RB : BpfRingbuf}.
Context (find_map : string -> bool) (ld : loader).

(** A program run: who runs it, which program it is, and what is left of it. *)
Record thread : Type := Thread {
  th_ctx : ctx;
  th_call : hook_call;
  th_rest : prog bst Z;
}.

Record machine : Type := Machine {
  shared : bst;
  threads : list thread;
}.

Definition boot (s : bst) : machine := Machine s [].

Inductive event : Type :=
| Begin (c : ctx) (h : hook_call)   (* the kernel starts a program *)
| Step (i : nat)                    (* the next helper call of the i-th program *)
| AgentCall (o : map_op).           (* a map call of the agent *)

Definition begin (c : ctx) (h : hook_call) : thread := Thread c h (run_hook c h).

Definition step (e : event) (m : machine) : option machine :=
  match e with
  | Begin c h => Some (Machine (shared m) (threads m ++ [begin c h]))
  | Step i =>
      match threads m !! i with
      | None => None
      | Some t =>
          match advance (th_rest t) (shared m) with
          | None => None
          | Some (p, s) =>
              Some (Machine s (<[i := Thread (th_ctx t) (th_call t) p]> (threads m)))
          end
      end
  | AgentCall o => Some (Machine (snd (run_map_op find_map ld o (shared m))) (threads m))
  end.

Fixpoint run (es : list event) (m : machine) : option machine :=
  match es with
  | [] => Some m
  | e :: rest => match step e m with Some m' => run rest m' | None => None end
  end.

(** What a program has returned. *)
Definition returned (t : thread) : option Z :=
  match th_rest t with Ret v => Some v | Act _ _ => None end.

Definition verdict (m : machine) (i : nat) : option Z :=
  match threads m !! i with Some t => returned t | None => None end.

(** ** Runs *)

Lemma run_app (es es' : list event) (m : machine) : run (es ++ es') m = run es m ≫= run es'.
Proof using. revert m. induction es as [|e es IH]; intros m; [done|]. simpl. by destruct (step e m). Qed.

(** A step of a program that has not returned. *)
Lemma step_act {B : Type} (i : nat) (c : ctx) (h : hook_call) (f : bst -> B * bst)
    (k : B -> prog bst Z) (m : machine) :
  threads m !! i = Some (Thread c h (Act f k)) ->
  step (Step i) m =
    Some (Machine (snd (f (shared m))) (<[i := Thread c h (k (fst (f (shared m))))]> (threads m))).
Proof using. simpl. intros ->. simpl. by destruct (f (shared m)). Qed.

(** A program stays who it is. *)
Lemma step_kept (e : event) (m m' : machine) (i : nat) (c : ctx) (h : hook_call) (p : prog bst Z) :
  step e m = Some m' -> threads m !! i = Some (Thread c h p) ->
  exists p', threads m' !! i = Some (Thread c h p').
Proof using.
  intros Hs Hi. destruct e as [c' h'|j|o]; simpl in Hs.
  - injection Hs as <-. exists p. by apply lookup_app_l_Some.
  - destruct (threads m !! j) as [[c' h' q]|] eqn:Hj; [|done].
    destruct (advance _ _) as [[q' s']|]; [|done]. injection Hs as <-. simpl.
    destruct (decide (i = j)) as [<-|Hne].
    + rewrite Hi in Hj. injection Hj as <- <- <-. exists q'. apply list_lookup_insert_eq.
      by eapply lookup_lt_Some.
    + exists p. by rewrite list_lookup_insert_ne.
  - injection Hs as <-. by exists p.
Qed.

Lemma run_kept (es : list event) (m m' : machine) (i : nat) (c : ctx) (h : hook_call) (p : prog bst Z) :
  run es m = Some m' -> threads m !! i = Some (Thread c h p) ->
  exists p', threads m' !! i = Some (Thread c h p').
Proof using.
  revert m p. induction es as [|e es IH]; intros m p Hr Hi; simpl in Hr;
    [injection Hr as <-; by exists p|].
  destruct (step e m) as [m1|] eqn:Hs; [|done].
  destruct (step_kept e m m1 i c h p Hs Hi) as [p1 Hi1]. by apply (IH m1 p1).
Qed.

(** An invariant of the steps is an invariant of the runs. *)
Lemma run_inv (J : machine -> Prop) (E : event -> Prop) (es : list event) (m m' : machine) :
  (forall e m m', E e -> J m -> step e m = Some m' -> J m') ->
  Forall E es -> J m -> run es m = Some m' -> J m'.
Proof using.
  intros HJ HE. revert m. induction HE as [|e es He Hes IH]; intros m Hm; simpl; [by intros [= <-]|].
  destruct (step e m) as [m1|] eqn:Hs; [|done]. apply IH. by apply (HJ e m).
Qed.

(** A property of all programs that a step of each keeps, whatever state it finds in
    [P], holds as long as [P] does. *)
Lemma step_threads (P : bst -> Prop) (T : thread -> Prop) (e : event) (m m' : machine) :
  (forall c h, e = Begin c h -> T (begin c h)) ->
  (forall c h B (f : bst -> B * bst) k s, P s -> T (Thread c h (Act f k)) ->
     T (Thread c h (k (fst (f s))))) ->
  P (shared m) -> Forall T (threads m) -> step e m = Some m' -> Forall T (threads m').
Proof using.
  intros Hb Hs HP HT Hstep. destruct e as [c h|i|o]; simpl in Hstep.
  - injection Hstep as <-. apply Forall_app. split; [done|]. constructor; [by apply Hb | done].
  - destruct (threads m !! i) as [[c h p]|] eqn:Hi; [|done]. destruct p as [v|B f k]; [done|].
    simpl in Hstep. pose proof (Forall_lookup_1 _ _ _ _ HT Hi) as Ht.
    pose proof (Hs c h B f k (shared m) HP Ht) as Ht'. destruct (f (shared m)) as [x s].
    injection Hstep as <-. by apply Forall_insert.
  - by injection Hstep as <-.
Qed.

(** ** Relations every step keeps *)

Definition event_in (R : relation bst) (e : event) : Prop :=
  match e with
  | Begin c h => preserves R (run_hook c h)
  | Step _ => True
  | AgentCall o => forall s, R s (snd (run_map_op find_map ld o s))
  end.

Lemma step_preserves (R : relation bst) `{!Reflexive R} (e : event) (m m' : machine) :
  Forall (fun t => preserves R (th_rest t)) (threads m) -> event_in R e ->
  step e m = Some m' ->
  R (shared m) (shared m') /\ Forall (fun t => preserves R (th_rest t)) (threads m').
Proof using.
  intros Ht He Hs. split.
  - destruct e as [c h|i|o]; simpl in Hs; [by injection Hs as <-| |by injection Hs as <-; apply He].
    destruct (threads m !! i) as [[c h p]|] eqn:Hi; [|done].
    pose proof (Forall_lookup_1 _ _ _ _ Ht Hi) as Hp. destruct p as [v|B f k]; [done|].
    apply (preserves_inv R f k (shared m)) in Hp as [Hp _]. simpl in *.
    destruct (f (shared m)) as [x s]. by injection Hs as <-.
  - apply (step_threads (fun _ => True) _ e m m'); try done.
    + by intros c h ->.
    + intros c h B f k s _ Hp. by apply (preserves_inv R f k s) in Hp as [].
Qed.

Lemma run_preserves (R : relation bst) `{!PreOrder R} (es : list event) (m m' : machine) :
  Forall (fun t => preserves R (th_rest t)) (threads m) -> Forall (event_in R) es ->
  run es m = Some m' -> R (shared m) (shared m').
Proof using.
  intros Ht He. revert m Ht. induction He as [|e es He Hes IH]; intros m Ht; simpl;
    [intros [= <-]; reflexivity|].
  destruct (step e m) as [m1|] eqn:Hs; [|done]. intros Hrun.
  destruct (step_preserves R e m m1 Ht He Hs) as [HR Ht1]. etrans; [exact HR | by apply IH].
Qed.

(** ** Programs that are not interrupted *)

Lemma finish_alone (i : nat) (c : ctx) (h : hook_call) (p : prog bst Z) (m : machine) :
  threads m !! i = Some (Thread c h p) ->
  exists n m', run (repeat (Step i) n) m = Some m' /\ shared m' = snd (p (shared m)) /\
    verdict m' i = Some (fst (p (shared m))) /\ length (threads m') = length (threads m).
Proof using.
  revert m. induction p as [v|B f k IH]; intros m Hi.
  - exists O, m. split; [done|]. split; [done|]. split; [|done]. unfold verdict. by rewrite Hi.
  - destruct (IH (fst (f (shared m))) (Machine (snd (f (shared m)))
      (<[i := Thread c h (k (fst (f (shared m))))]> (threads m)))) as (n & m' & Hrun & Hs & Hv & Hl).
    { simpl. apply list_lookup_insert_eq. by eapply lookup_lt_Some. }
    exists (S n), m'. cbn [repeat run]. rewrite (step_act i c h f k m Hi). split; [exact Hrun|].
    rewrite run_step. split; [exact Hs|]. split; [exact Hv|]. rewrite Hl. simpl. by rewrite length_insert.
Qed.

(** Every run of whole programs and map calls, one after the other, is a run of the
    machine: the other files' runs are among those here. *)
Lemma serial_runs (l : list call) (m : machine) :
  exists es m', run es m = Some m' /\ shared m' = run_calls find_map ld l (shared m).
Proof using.
  revert m. induction l as [|[c h|o] l IH]; intros m.
  - by exists [], m.
  - set (m0 := Machine (shared m) (threads m ++ [begin c h])).
    destruct (finish_alone (length (threads m)) c h (run_hook c h) m0)
      as (n & m1 & Hrun & Hs & _).
    { unfold m0. simpl. by rewrite lookup_app_r, Nat.sub_diag by lia. }
    destruct (IH m1) as (es & m' & Hrun' & Hs').
    exists (Begin c h :: repeat (Step (length (threads m))) n ++ es), m'.
    split.
    { change (run (repeat (Step (length (threads m))) n ++ es) m0 = Some m').
      rewrite run_app, Hrun. exact Hrun'. }
    rewrite Hs', Hs. cbn [run_calls run_call]. by rewrite run_bind.
  - destruct (IH (Machine (snd (run_map_op find_map ld o (shared m))) (threads m)))
      as (es & m' & Hrun & Hs). by exists (AgentCall o :: es), m'.
Qed.

(** ** Every program ends *)

Lemma ends_bind_at {A B : Type} (a n : nat) (p : prog bst A) (k : A -> prog bst B) :
  ends_within a p -> (a <= n)%nat -> (forall x, ends_within (n - a) (k x)) -> ends_within n (p ≫= k).
Proof using.
  intros Hp Ha Hk. replace n with (a + (n - a))%nat by lia. by apply ends_bind.
Qed.

Lemma ends_with_record (r : slot ringbuf) (n size : nat) (body : list Z -> prog bst (list Z)) :
  (forall ev, ends_within n (body ev)) -> ends_within (2 + n) (with_record r size body).
Proof using.
  intros Hb. apply (ends_bind_at 1); [apply ends_act | lia|]. intros [[h ev]|]; [|apply ends_ret].
  apply (ends_bind_at n); [apply Hb | lia|]. intros ev'. apply (ends_mono 1); [lia | apply ends_act].
Qed.

Lemma ends_fill_header (c : ctx) (ev : list Z) (t src p : Z) :
  ends_within 2 (fill_header c ev t src p).
Proof using.
  apply (ends_bind_at 2); [|lia | intros; apply ends_ret].
  apply (ends_bind_at 1); [apply ends_act | lia|]. intros [v|]; [|apply ends_ret].
  apply (ends_bind_at 1); [apply ends_act | simpl; lia | intros; apply ends_ret].
Qed.

End interleaving.

Ltac ends_leaf :=
  first [ apply ends_ret | apply ends_act | apply ends_fill_header
        | apply (ends_with_record _ 2); intros; ends_all ]
with ends_all :=
  repeat first
    [ progress intros
    | solve [ends_leaf]
    | progress cbv zeta
    | match goal with |- ends_within _ (if ?b then _ else _) => destruct b end
    | match goal with |- ends_within _ (match ?o with Some _ => _ | None => _ end) => destruct o end
    | apply (ends_bind_at 1); [solve [ends_all] | simpl; lia |]
    | apply (ends_bind_at 2); [solve [ends_all] | simpl; lia |]
    | apply (ends_bind_at 4); [solve [ends_all] | simpl; lia |] ].

Section termination.
Context {BM : BpfMaps} {RB : BpfRingbuf} (find_map : string -> bool) (ld : loader).

(** No program makes more than eleven helper calls. *)
Lemma run_hook_ends (c : ctx) (h : hook_call) : ends_within 11 (run_hook c h).
Proof. destruct h; unfold_hook; ends_all. Qed.

Definition is_step (i : nat) (e : event) : bool :=
  match e with Step j => (i =? j)%nat | _ => false end.

Definition steps_of (i : nat) (es : list event) : nat := length (List.filter (is_step i) es).

(** What the [i]-th program may still do. *)
Definition budget (n i : nat) (m : machine) : Prop :=
  match threads m !! i with Some t => ends_within n (th_rest t) | None => n = 11%nat end.

Lemma step_budget (n i : nat) (e : event) (m m' : machine) :
  budget n i m -> step find_map ld e m = Some m' ->
  exists n', budget n' i m' /\ (n' + (if is_step i e then 1 else 0) <= n)%nat.
Proof.
  unfold budget. intros Hb Hs. destruct e as [c h|j|o]; cbn [is_step].
  - simpl in Hs. injection Hs as <-. exists n. split; [|lia]. cbn [threads].
    destruct (decide (i < length (threads m))%nat) as [Hi|Hi]; [by rewrite lookup_app_l|].
    rewrite (lookup_ge_None_2 (threads m) i) in Hb by lia. subst n. rewrite lookup_app_r by lia.
    destruct (i - length (threads m))%nat; [apply run_hook_ends | done].
  - destruct (threads m !! j) as [[c h [v|B f k]]|] eqn:Hj; [by simpl in Hs; rewrite Hj in Hs| |
      by simpl in Hs; rewrite Hj in Hs].
    rewrite (step_act find_map ld j c h f k m Hj) in Hs. injection Hs as <-. cbn [threads].
    destruct (Nat.eqb_spec i j) as [->|Hne].
    + rewrite Hj in Hb. apply ends_within_inv in Hb as (n' & -> & Hk).
      rewrite list_lookup_insert_eq by (by eapply lookup_lt_Some).
      exists n'. split; [apply Hk | lia].
    + rewrite list_lookup_insert_ne by done. exists n. split; [done | lia].
  - simpl in Hs. injection Hs as <-. exists n. split; [done | lia].
Qed.

(** C29: every program ends, and nothing makes it wait.  In every interleaving, however
    the others are scheduled and whatever they and the agent do to the maps, a program
    takes at most eleven steps; and as long as it has not returned, it can take the
    next one. *)
Theorem programs_terminate (es : list event) (s : bst) (m : machine) (i : nat) :
  run find_map ld es (boot s) = Some m ->
  (steps_of i es <= 11)%nat /\
  ((i < length (threads m))%nat -> verdict m i = None -> step find_map ld (Step i) m <> None).
Proof.
  intros Hrun. split.
  - assert (forall n m0, budget n i m0 -> run find_map ld es m0 = Some m -> (steps_of i es <= n)%nat) as Hgen.
    { clear Hrun. induction es as [|e es IH]; intros n m0 Hb Hrun; [unfold steps_of; simpl; lia|].
      simpl in Hrun. destruct (step find_map ld e m0) as [m1|] eqn:Hs; [|done].
      destruct (step_budget n i e m0 m1 Hb Hs) as (n' & Hb' & Hle).
      pose proof (IH n' m1 Hb' Hrun) as Hes. unfold steps_of in *. simpl.
      destruct (is_step i e); simpl; lia. }
    by apply (Hgen 11%nat (boot s)).
  - intros [[c h p] Hi]%lookup_lt_is_Some Hv. unfold verdict in Hv. rewrite Hi in Hv.
    destruct p as [v|B f k]; [done|]. by rewrite (step_act find_map ld i c h f k m Hi).
Qed.

End termination.

(** Names the end of a concrete run. *)
Ltac take_run m E :=
  lazymatch goal with
  | |- context [match ?r with Some _ => _ | None => False end] =>
      let H := fresh in
      assert (match r with Some _ => true | None => false end = true) as H by (vm_compute; reflexivity);
      destruct r as [m|] eqn:E; [clear H | discriminate H]
  end.
