(* ===== verification/OverlapPolicy.v ===== *)
(** The access policy when programs overlap: what a program answers when other
    programs and the agent run between its helper calls. *)

From S2P Require Export Interleaving.

Local Open Scope Z_scope.

Section overlap.
Context {BM : BpfMaps} {RB : BpfRingbuf}.

(** [P] holds in every state of the run in which the [i]-th program has not returned. *)
Fixpoint while_running (find_map : string -> bool) (ld : loader) (i : nat) (P : bst -> Prop)
    (es : list event) (m : machine) : Prop :=
  (verdict m i = None -> P (shared m)) /\
  match es with
  | [] => True
  | e :: rest =>
      match step find_map ld e m with
      | Some m' => while_running find_map ld i P rest m'
      | None => True
      end
  end.

Lemma while_running_any (find_map : string -> bool) (ld : loader) (i : nat) (es : list event)
    (m : machine) : while_running find_map ld i (fun _ => True) es m.
Proof using.
  revert m. induction es as [|e es IH]; intros m; simpl; [done|]. split; [done|].
  by destruct (step find_map ld e m).
Qed.

(** ... in particular if an invariant of the run implies it. *)
Lemma while_running_inv (find_map : string -> bool) (ld : loader) (J : machine -> Prop)
    (E : event -> Prop) (P : bst -> Prop) (i : nat) (es : list event) (m : machine) :
  (forall e m m', E e -> J m -> step find_map ld e m = Some m' -> J m') ->
  (forall m, J m -> P (shared m)) -> Forall E es -> J m -> while_running find_map ld i P es m.
Proof using.
  intros Hstep HP HE. revert m. induction HE as [|e es He Hes IH]; intros m HJ; simpl.
  - by split; [intros _; apply HP|].
  - split; [intros _; by apply HP|]. destruct (step find_map ld e m) as [m'|] eqn:Hs; [|done].
    by apply IH, (Hstep e m).
Qed.

Lemma sure_thread (find_map : string -> bool) (ld : loader) (P : bst -> Prop) (Q : Z -> Prop)
    (es : list event) (m m' : machine) (i : nat) (c : ctx) (h : hook_call) (p : prog bst Z) (v : Z) :
  threads m !! i = Some (Thread c h p) -> sure P Q p ->
  while_running find_map ld i P es m -> run find_map ld es m = Some m' ->
  verdict m' i = Some v -> Q v.
Proof using.
  revert m p. induction es as [|e es IH]; intros m p Hi Hp [HP Ht] Hrun Hv; simpl in Hrun.
  { injection Hrun as <-. unfold verdict in Hv. rewrite Hi in Hv. destruct p as [x|]; [|done].
    injection Hv as <-. exact (sure_inv P Q _ Hp). }
  destruct (step find_map ld e m) as [m1|] eqn:Hs; [|done].
  assert (exists p1, threads m1 !! i = Some (Thread c h p1) /\ sure P Q p1) as (p1 & Hi1 & Hp1);
    [|by apply (IH m1 p1)].
  destruct e as [c' h'|j|o].
  - simpl in Hs. injection Hs as <-. exists p. split; [|done]. by apply lookup_app_l_Some.
  - destruct (decide (i = j)) as [<-|Hne].
    + destruct p as [x|B f k]; [by simpl in Hs; rewrite Hi in Hs|].
      rewrite (step_act find_map ld i c h f k m Hi) in Hs. injection Hs as <-.
      exists (k (fst (f (shared m)))). split; [apply list_lookup_insert_eq; by eapply lookup_lt_Some|].
      apply (sure_inv P Q _ Hp (shared m)), HP. unfold verdict. by rewrite Hi.
    + simpl in Hs. destruct (threads m !! j) as [[c' h' p']|]; [|done].
      destruct (advance _ _) as [[p2 s2]|]; [|done]. injection Hs as <-. exists p.
      split; [|done]. simpl. by rewrite list_lookup_insert_ne.
  - simpl in Hs. injection Hs as <-. by exists p.
Qed.

Lemma begin_sure (find_map : string -> bool) (ld : loader) (P : bst -> Prop) (Q : Z -> Prop)
    (es : list event) (m m' : machine) (c : ctx) (h : hook_call) (v : Z) :
  run find_map ld (Begin c h :: es) m = Some m' -> verdict m' (length (threads m)) = Some v ->
  sure P Q (run_hook c h) ->
  while_running find_map ld (length (threads m)) P (Begin c h :: es) m -> Q v.
Proof using.
  intros Hrun Hv Hs [_ Hw]. simpl in Hw, Hrun.
  eapply sure_thread; [|exact Hs|exact Hw|exact Hrun|exact Hv].
  simpl. by rewrite lookup_app_r, Nat.sub_diag by done.
Qed.

(** ** Walking a program *)

(** What a lookup in a state of [P] can return. *)
Lemma sure_lookup {K V A : Type} `{EqDecision K} (P : bst -> Prop) (Q : A -> Prop)
    (m : slot (hash K V)) (k : K) (f : option V -> prog bst A) :
  (forall s, P s -> sure P Q (f (map_lookup (slot_get m s) k))) ->
  sure P Q (bpf_map_lookup_elem m k ≫= f).
Proof using.
  intros Hf.
  apply (sure_bind P (fun o => exists s, P s /\ o = map_lookup (slot_get m s) k)).
  - apply sure_act. intros s Hs. by exists s.
  - by intros o (s & Hs & ->); apply Hf.
Qed.

Lemma sure_skip {A B : Type} (P : bst -> Prop) (Q : B -> Prop) (p : prog bst A) (f : A -> prog bst B) :
  (forall x, sure P Q (f x)) -> sure P Q (p ≫= f).
Proof using.
  intros Hf. apply (sure_bind P (fun _ => True)); [apply sure_any | intros x _; apply Hf].
Qed.

Lemma sure_assoc {A B C : Type} (P : bst -> Prop) (Q : C -> Prop) (p : prog bst A)
    (f : A -> prog bst B) (g : B -> prog bst C) :
  sure P Q (p ≫= fun x => f x ≫= g) -> sure P Q ((p ≫= f) ≫= g).
Proof using.
  induction p as [x|D h k IH]; intros Hp; [exact Hp|]. apply (SureAct P Q h). intros s Hs.
  apply IH. exact (sure_inv P Q _ Hp s Hs).
Qed.

Lemma sure_bind_ret {A B : Type} (P : bst -> Prop) (Q : B -> Prop) (x : A) (f : A -> prog bst B) :
  sure P Q (f x) -> sure P Q (mret x ≫= f).
Proof using. done. Qed.

(** ** Verdicts *)

(** What a refusal takes.  The refusal of an exec takes one thing only, the level of
    the file. *)
Inductive condition : Type := Untrusted_root | Blocking_on | Labelled | Restricted_target.

Definition holds (q : condition) (c : ctx) (h : hook_call) (s : bst) : bool :=
  match h, q with
  | BprmCredsForExec _, _ => policy c h s
  | _, Untrusted_root => negb (is_trusted s (get_current_process_key c))
  | _, Blocking_on => blocking s
  | _, Labelled => is_untrusted s (get_current_process_key c)
  | _, Restricted_target => restricted (monitor_of s) (access_of c h)
  end.

(** The policy is their conjunction. *)
Lemma policy_conditions (c : ctx) (h : hook_call) (s : bst) :
  policy c h s =
    holds Untrusted_root c h s && holds Blocking_on c h s && holds Labelled c h s &&
    holds Restricted_target c h s.
Proof using.
  assert (forall b : bool, b = b && b && b && b) as Hb by (by intros []).
  destruct h; try (apply Hb); cbn [holds];
    change (negb (is_trusted s (get_current_process_key c)) && blocking s &&
      is_untrusted s (get_current_process_key c)) with (enforced s (get_current_process_key c));
    rewrite policy_denies, <- confined_enforced; simpl; try (by rewrite andb_false_r);
    unfold open_access, connect_access, listen_access; repeat case_match; simpl;
    by rewrite ?andb_true_r, ?andb_false_r.
Qed.

End overlap.

(** [walk facts]: follows a program; after a lookup, [facts] extracts from the
    hypothesis about the state what decides the branches. *)
Ltac walk facts :=
  repeat (cbv zeta; lazymatch goal with
    | |- sure _ _ (mret _) => apply sure_ret
    | |- sure _ _ (mret _ ≫= _) => apply sure_bind_ret
    | |- sure _ _ ((if ?b then _ else _) ≫= _) => destruct b eqn:?
    | |- sure _ _ (match ?o with Some _ => _ | None => _ end ≫= _) => destruct o eqn:?
    | |- sure _ _ ((with_event _) ≫= _) => apply sure_skip; intros _
    | |- sure _ _ ((with_tty_event _) ≫= _) => apply sure_skip; intros _
    | |- sure _ _ (bpf_map_lookup_elem _ _ ≫= _) =>
        apply sure_lookup; let s := fresh "s" in let Hs := fresh "Hs" in intros s Hs; facts Hs;
        autorewrite with slots; known_bools; cbn [negb orb andb]
    | |- sure _ _ (bpf_map_update_elem _ _ _ ≫= _) => apply sure_skip; intros _
    | |- sure _ _ (bpf_map_delete_elem _ _ ≫= _) => apply sure_skip; intros _
    | |- sure _ _ ((_ ≫= _) ≫= _) => apply sure_assoc
    | |- sure _ _ (if ?b then _ else _) => destruct b eqn:?
    | |- sure _ _ (match ?o with Some _ => _ | None => _ end) => destruct o eqn:?
    end).

(** [known_bools] in a hypothesis. *)
Ltac rewrite_other E H b :=
  tryif constr_eq E H then fail else match type of H with context [b] => rewrite E in H end.

Ltac known_in H :=
  repeat (match goal with
    | E : ?b = true |- _ => rewrite_other E H b
    | E : ?b = false |- _ => rewrite_other E H b
    | E : ?o = Some _ |- _ => rewrite_other E H o
    | E : ?o = None |- _ => rewrite_other E H o
    end; cbn [negb orb andb] in H).

Section verdicts.
Context {BM : BpfMaps} {RB : BpfRingbuf}.

Lemma hook_admitted (q : condition) (c : ctx) (h : hook_call) :
  sure (fun s => holds q c h s = false) (fun v => v = 0) (run_hook c h).
Proof.
  destruct h; unfold_hook; try (by walk ltac:(fun Hs => idtac));
    (destruct q; cbn [holds]; unfold restricted, access_of, open_access, connect_access, listen_access;
     walk ltac:(fun Hs => unfold is_trusted, blocking, is_untrusted in Hs;
       try apply negb_false_iff in Hs); try done).
  all: unfold policy, exec_trust, socket_family, unix_path, inet_family in *; cbn [orb negb andb] in *;
    simpl in *; split_bools; try congruence.
  all: unfold is_sensitive in *;
    repeat match goal with H : context [map_lookup _ _] |- _ => progress known_in H end;
    try congruence.
  all: repeat match goal with
    | H : context [if ?b then _ else _] |- _ => progress known_in H
    | H : context [if ?b then _ else _] |- _ => destruct b eqn:?; cbn [orb andb negb] in *
    end; split_bools; try congruence.
  all: unfold deref_is in *; repeat case_match; simpl in *; split_bools; congruence.
Qed.

Lemma hook_denied (c : ctx) (h : hook_call) (s0 : bst) :
  policy c h s0 = true ->
  sure (fun s => policy c h s = true) (fun v => v = - EACCES) (run_hook c h).
Proof.
  intros H0. destruct h; try discriminate H0; unfold_hook; cbn [policy] in *;
    unfold enforced, is_trusted, blocking, is_untrusted, is_sensitive, exec_trust, socket_family,
      unix_path in *;
    split_bools; walk ltac:(fun Hs => split_bools); try congruence;
    unfold inet_family, deref_is in *; cbn [negb orb andb] in *; split_bools; try congruence;
    repeat case_match; simpl in *; split_bools; congruence || lia.
Qed.

(** Every program answers 0 or refuses. *)
Lemma hook_answers (c : ctx) (h : hook_call) :
  sure (fun _ => True) (fun v => v = 0 \/ v = - EACCES) (run_hook c h).
Proof.
  destruct h; unfold_hook; walk ltac:(fun Hs => idtac); first [by left | by right].
Qed.

(** C4: the access policy when programs overlap.  Whatever other programs and the
    agent do between the helper calls of a program, its verdict is 0 or a refusal;
    if the policy denies the access in every state the program may act in, it
    refuses; and if one of the conditions of the policy (the process is not a trusted
    root, blocking is on, the process is labelled untrusted, the target is restricted;
    for an exec, the level of the file) fails in all of them, it admits. *)
Theorem overlapped_verdict (find_map : string -> bool) (ld : loader) (c : ctx) (h : hook_call)
    (es : list event) (m m' : machine) (v : Z) :
  let i := length (threads m) in
  run find_map ld (Begin c h :: es) m = Some m' -> verdict m' i = Some v ->
  (v = 0 \/ v = - EACCES) /\
  (while_running find_map ld i (fun s => policy c h s = true) (Begin c h :: es) m -> v = - EACCES) /\
  (forall q, while_running find_map ld i (fun s => holds q c h s = false) (Begin c h :: es) m -> v = 0).
Proof.
  intros i Hrun Hv.
  pose proof (fun P Q => begin_sure find_map ld P Q es m m' c h v Hrun Hv) as Hgen.
  split; [|split].
  - apply (Hgen _ _ (hook_answers c h)), while_running_any.
  - intros Hw. assert (policy c h (shared m) = true) as Hp.
    { apply Hw. unfold verdict. by rewrite (lookup_ge_None_2 (threads m)). }
    exact (Hgen _ _ (hook_denied c h (shared m) Hp) Hw).
  - intros q. apply (Hgen _ _ (hook_admitted q c h)).
Qed.

(** ** Confinement *)

Section confinement.
Context `{!BpfMapsLaws} (find_map : string -> bool) (ld : loader).

(** A confined process stays confined, and sensitive files stay sensitive. *)
Definition keeps_confined (key : process_key) : relation bst := fun s s' =>
  (enforced s key = true -> enforced s' key = true) /\
  forall ino, is_sensitive s ino = true -> is_sensitive s' ino = true.

#[export] Instance keeps_confined_preorder (key : process_key) : PreOrder (keeps_confined key).
Proof.
  split; [by split|]. intros s1 s2 s3 [He Hs] [He' Hs']. split; [by auto|].
  intros ino Hi. by apply Hs', Hs.
Qed.

Lemma preserves_trusted (c : ctx) (h : hook_call) (key : process_key) :
  relabels key (c, h) = false ->
  preserves (fixes (fun s => map_lookup (st_trusted_ancestor_roots s) key)) (run_hook c h).
Proof.
  intros Hr. destruct (decide (h = SchedProcessExit)) as [->|Hh].
  - apply bool_decide_eq_false in Hr. unfold_hook. solve_preserves.
    apply preserves_delete_at. intros s. unfold fixes. read_slots. autorewrite with slots.
    by apply map_delete_ne.
  - apply (preserves_mono (fixes st_trusted_ancestor_roots)); [|by apply trusted_map_kept].
    unfold fixes. by intros s s' ->.
Qed.

Lemma hook_keeps_confined (c : ctx) (h : hook_call) (key : process_key) :
  relabels key (c, h) = false -> preserves (keeps_confined key) (run_hook c h).
Proof.
  intros Hr. eapply preserves_mono;
    [|apply preserves_and; [apply (run_hook_config c h)|];
      apply preserves_and; [apply (preserves_trusted c h key Hr) | apply (preserves_threshold c h key Hr)]].
  intros s s' ([Hsen _ Hcfg] & Ht & Hth). unfold fixes in *. split.
  - unfold enforced, is_trusted, blocking, is_untrusted. by rewrite Hcfg, Ht, Hth.
  - intros ino. unfold is_sensitive. by rewrite Hsen.
Qed.

Lemma agent_keeps_confined (o : map_op) (key : process_key) (s : bst) :
  detached ld = false -> releases key (request_of_op o) = false ->
  keeps_confined key s (snd (run_map_op find_map ld o s)).
Proof.
  intros Hd Hr. pose proof (agent_step find_map ld o s Hd) as Hs. split.
  - rewrite <- !confined_enforced. by apply (mstep_confined _ _ _ _ _ Hs).
  - intros ino. apply (mstep_sensitive _ _ _ _ ino Hs).
Qed.

(** The events that can release a process. *)
Definition may_release (key : process_key) (e : event) : bool :=
  match e with
  | Begin c h => relabels key (c, h)
  | Step _ => false
  | AgentCall o => releases key (request_of_op o)
  end.

Lemma event_keeps_confined (key : process_key) (e : event) :
  detached ld = false -> may_release key e = false -> event_in find_map ld (keeps_confined key) e.
Proof.
  intros Hd He. destruct e as [c h|i|o]; simpl in *; [by apply hook_keeps_confined | done|].
  intros s. by apply agent_keeps_confined.
Qed.

(** The programs running in [m] have been started by what they say they are. *)
Lemma running_keep (key : process_key) (es : list event) (s : bst) (m : machine) :
  run find_map ld es (boot s) = Some m ->
  Forall (fun t => relabels key (th_ctx t, th_call t) = false ->
            preserves (keeps_confined key) (th_rest t)) (threads m).
Proof.
  assert (forall m0, Forall (fun t => relabels key (th_ctx t, th_call t) = false ->
            preserves (keeps_confined key) (th_rest t)) (threads m0) ->
          run find_map ld es m0 = Some m ->
          Forall (fun t => relabels key (th_ctx t, th_call t) = false ->
            preserves (keeps_confined key) (th_rest t)) (threads m)) as Hgen; [|by apply Hgen].
  induction es as [|e es IH]; intros m0 H0; simpl; [by intros [= <-]|].
  destruct (step find_map ld e m0) as [m1|] eqn:Hs; [|done]. apply IH.
  apply (step_threads find_map ld (fun _ => True) _ e m0 m1); try done.
  - intros c h _ Hr. by apply hook_keeps_confined.
  - simpl. intros c h B f k s1 _ Hp Hr.
    by destruct (preserves_inv _ f k s1 (Hp Hr)).
Qed.

(** A program that has come up since was started by an event of the run. *)
Lemma begun_at (es : list event) (m m' : machine) (i : nat) (c : ctx) (h : hook_call) (p : prog bst Z) :
  run find_map ld es m = Some m' -> (length (threads m) <= i)%nat ->
  threads m' !! i = Some (Thread c h p) ->
  exists es1 es2 m1, es = es1 ++ Begin c h :: es2 /\ run find_map ld es1 m = Some m1 /\
    length (threads m1) = i.
Proof using.
  revert m. induction es as [|e es IH]; intros m Hrun Hi Hp; simpl in Hrun.
  { injection Hrun as <-. apply lookup_lt_Some in Hp. lia. }
  destruct (step find_map ld e m) as [m0|] eqn:Hs; [|done].
  assert (length (threads m0) <= i \/ length (threads m) = i /\ exists c' h', e = Begin c' h')%nat
    as [Hi0|[Hl (c' & h' & ->)]].
  { destruct e as [c' h'|j|o]; simpl in Hs.
    - injection Hs as <-. simpl. rewrite length_app. simpl.
      destruct (decide (length (threads m) = i)); [right; eauto | left; lia].
    - left. destruct (threads m !! j) as [t|]; [|done]. destruct (advance _ _) as [[? ?]|]; [|done].
      injection Hs as <-. simpl. by rewrite length_insert.
    - injection Hs as <-. by left. }
  - destruct (IH m0 Hrun Hi0 Hp) as (es1 & es2 & m1 & -> & Hrun1 & Hl). exists (e :: es1), es2, m1.
    split; [done|]. split; [|done]. simpl. by rewrite Hs.
  - exists [], es, m. split; [|done]. simpl. f_equal.
    destruct (run_kept find_map ld es m0 m' i c' h' (run_hook c' h') Hrun) as [p' Hp'].
    { simpl in Hs. injection Hs as <-. simpl. by rewrite lookup_app_r, <- Hl, Nat.sub_diag by lia. }
    rewrite Hp' in Hp. by injection Hp as -> ->.
Qed.

(** C5: containment when programs overlap.  Once a process is confined, no
    interleaving of other programs and map calls releases it: as long as the process
    neither executes again nor exits and the agent does not switch blocking off, trust
    it or label it differently, every program it starts on a target that is restricted
    returns a refusal, whatever runs between the program's helper calls - also the
    programs, of this process or of others, that were under way when it was confined. *)
Theorem confined_under_overlap (es0 es : list event) (s : bst) (m m' : machine) (key : process_key)
    (i : nat) (c : ctx) (h : hook_call) (v : Z) :
  detached ld = false -> run find_map ld es0 (boot s) = Some m ->
  Forall (fun t => relabels key (th_ctx t, th_call t) = false \/ is_Some (returned t)) (threads m) ->
  enforced (shared m) key = true ->
  Forall (fun e => may_release key e = false) es -> run find_map ld es m = Some m' ->
  (length (threads m) <= i)%nat -> threads m' !! i = Some (Thread c h (Ret v)) ->
  get_current_process_key c = key -> restricted (monitor_of (shared m)) (access_of c h) = true ->
  v = - EACCES.
Proof.
  intros Hd Hrun0 Hidle He Hes Hrun Hi Hv Hk Hr.
  set (J := fun m1 => keeps_confined key (shared m) (shared m1) /\
    Forall (fun t => preserves (keeps_confined key) (th_rest t)) (threads m1)).
  assert (forall e m1 m2, may_release key e = false -> J m1 -> step find_map ld e m1 = Some m2 -> J m2)
    as HJ.
  { intros e m1 m2 Hee [H1 H2] Hs.
    destruct (step_preserves find_map ld (keeps_confined key) e m1 m2 H2
      (event_keeps_confined key e Hd Hee) Hs) as [H3 H4]. split; [by etrans | done]. }
  assert (J m) as Jm.
  { split; [done|]. pose proof (running_keep key es0 s m Hrun0) as Hall.
    rewrite Forall_forall in Hidle, Hall. apply Forall_forall. intros t Hin.
    destruct (Hidle t Hin) as [Ht|[x Ht]]; [by apply Hall|].
    unfold returned in Ht. destruct (th_rest t); [apply preserves_ret | done]. }
  destruct (begun_at es m m' i c h (Ret v) Hrun Hi Hv) as (es1 & es2 & m1 & -> & Hrun1 & Hl).
  apply Forall_app in Hes as [Hes1 Hes2]. rewrite run_app, Hrun1 in Hrun.
  pose proof (run_inv find_map ld J _ es1 m m1 HJ Hes1 Jm Hrun1) as Jm1.
  assert (forall m2, J m2 -> policy c h (shared m2) = true) as Hp.
  { intros m2 [[Hc Hs] _]. rewrite policy_denies. apply confined_denies.
    - rewrite confined_enforced, Hk. by apply Hc.
    - destruct (access_of c h); simpl in *; try done.
      apply orb_true_iff in Hr as [->|Hr]; [done|]. by rewrite (Hs _ Hr), orb_true_r. }
  refine (begin_sure find_map ld _ _ es2 m1 m' c h v Hrun _ (hook_denied c h (shared m1) (Hp m1 Jm1)) _).
  - rewrite Hl. unfold verdict. by rewrite Hv.
  - by apply (while_running_inv find_map ld J (fun e => may_release key e = false)).
Qed.

End confinement.

End verdicts.

(** ** Runs on the executable kernel *)

(** Process 42 opens the sensitive file while the agent labels it; the program is
    interrupted after its first lookup, and another process executes meanwhile. *)
Definition demo_overlap : list event :=
  [AgentCall (OpUpdate ProcessThreshold 42 1000 1);
   Begin (demo_ctx 0 42 1) (FileOpen demo_file 0); Step 0;
   Begin (demo_ctx 1 7 2) (BprmCredsForExec demo_bprm); Step 1; Step 0; Step 1;
   AgentCall (OpAddSensitive 77 16); Step 0; Step 0; Step 1; Step 0; Step 0; Step 0; Step 0].

Lemma programs_terminate_witness :
  exists m, run all_maps attached_loader demo_overlap (boot configured) = Some m /\
    verdict m 0 = Some (- EACCES) /\ verdict m 1 = None /\
    step all_maps attached_loader (Step 1) m <> None.
Proof.
  assert (match run all_maps attached_loader demo_overlap (boot configured) with
    | Some m => verdict m 0 = Some (- EACCES) /\ verdict m 1 = None /\ (length (threads m) = 2)%nat
    | None => False end) as Hm by (vm_compute; by repeat split).
  destruct (run all_maps attached_loader demo_overlap (boot configured)) as [m|] eqn:E; [|destruct Hm].
  destruct Hm as (H0 & H1 & Hl).
  exists m. split; [done|]. split; [done|]. split; [done|].
  pose proof (programs_terminate all_maps attached_loader demo_overlap configured m 1 E) as [_ Hn].
  apply Hn; [rewrite Hl; constructor | exact H1].
Defined.

Lemma overlapped_verdict_witness :
  let s := snd (run_map_op all_maps attached_loader (OpUpdate ProcessThreshold 42 1000 1) configured) in
  let es := drop 2 demo_overlap in
  match run all_maps attached_loader (Begin (demo_ctx 0 42 1) (FileOpen demo_file 0) :: es) (boot s) with
  | Some m => forall v, verdict m 0 = Some v -> v = - EACCES
  | None => False
  end.
Proof.
  intros s es. take_run m E.
  intros v Hv.
  apply (proj1 (proj2 (overlapped_verdict all_maps attached_loader (demo_ctx 0 42 1)
    (FileOpen demo_file 0) es (boot s) m v E Hv))).
  vm_compute. repeat split.
Defined.

(** A verdict can mix two states: the agent trusts a labelled process and then turns
    blocking on, in the safe order, and the open is refused although the policy
    denies it at no moment. *)
Lemma mixed_verdict :
  let s := slot_set process_threshold_map (Bounded 10240 [(demo_key, 1)])
             (slot_set config_map (Bounded 1 [(0, 0)]) configured) in
  let es := [Begin (demo_ctx 0 42 1) (FileOpen demo_file 0); Step 0;
             AgentCall (OpUpdate TrustedRoots 42 1000 1); AgentCall (OpSetConfig 0 1);
             Step 0; Step 0; Step 0; Step 0; Step 0; Step 0; Step 0] in
  while_running all_maps attached_loader 0
    (fun s => policy (demo_ctx 0 42 1) (FileOpen demo_file 0) s = false) es (boot s) /\
  match run all_maps attached_loader es (boot s) with
  | Some m => verdict m 0 = Some (- EACCES)
  | None => False
  end.
Proof. vm_compute. repeat split. Qed.

(** Process 42 is confined while process 7 executes and the agent marks the file;
    the open starts before the mark and ends after it. *)
Lemma confined_under_overlap_witness :
  let s := snd (run_map_op all_maps attached_loader (OpUpdate ProcessThreshold 42 1000 1) configured) in
  let es := [Begin (demo_ctx 1 7 2) (BprmCredsForExec demo_bprm); Step 0;
             Begin (demo_ctx 0 42 1) (FileOpen demo_file 0); Step 1; Step 0;
             AgentCall (OpUpdate TrustedRoots 7 2000 1); Step 1; Step 0; Step 1; Step 1;
             Step 1; Step 1; Step 1; Step 1] in
  match run all_maps attached_loader es (boot s) with
  | Some m => forall v, threads m !! 1%nat =
      Some (Thread (demo_ctx 0 42 1) (FileOpen demo_file 0) (Ret v)) -> v = - EACCES
  | None => False
  end.
Proof.
  intros s es. take_run m E.
  intros v Hv.
  eapply (confined_under_overlap all_maps attached_loader [] es s (boot s) m demo_key 1
    (demo_ctx 0 42 1) (FileOpen demo_file 0) v); [reflexivity | reflexivity | constructor |
    vm_compute; reflexivity | repeat constructor | exact E | apply Nat.le_0_l | exact Hv | reflexivity |
    vm_compute; reflexivity].
Defined.
