(* ===== verification/OverlapRecords.v ===== *)
(** The records of programs that overlap: whatever the interleaving, every record in
    either ring buffer is the one record there of one program run. *)

From S2P Require Export Interleaving Tty.

Local Open Scope Z_scope.

Section commits.
Context {BM : BpfMaps} {RB : BpfRingbuf}.

(** ** The ring buffers *)

Inductive channel : Type := Telemetry | Terminal.

#[export] Instance channel_eq_dec : EqDecision channel.
Proof. solve_decision. Defined.

Definition ring_buffer (w : channel) : slot ringbuf :=
  match w with Telemetry => telemetry_ringbuf | Terminal => tty_ringbuf end.

(** The places of a ring buffer in the order of reservation, and its records in the
    order of submission. *)
Definition places (w : channel) (s : bst) : list (option (list Z)) :=
  rb_places (slot_get (ring_buffer w) s).
Definition submitted (w : channel) (s : bst) : list (list Z) :=
  rb_records (slot_get (ring_buffer w) s).

Lemma get_set_ring (w : channel) (r : ringbuf) (s : bst) :
  slot_get (ring_buffer w) (slot_set (ring_buffer w) r s) = r.
Proof using. by destruct w. Qed.

Lemma get_set_other (w w' : channel) (r : ringbuf) (s : bst) :
  w' <> w -> slot_get (ring_buffer w') (slot_set (ring_buffer w) r s) = slot_get (ring_buffer w') s.
Proof using. by destruct w, w'. Qed.

(** ** The life of a record *)

Context (w : channel).

(** What a program has done: nothing yet, reserved a place in the ring buffer, or
    committed the record of its place. *)
Inductive stage : Type :=
| Fresh
| Holding (h : nat)
| Committed.

Definition busy (st : stage) (s : bst) : Prop :=
  match st with Holding h => places w s !! h = Some None | _ => True end.

(** What an action of the program does to the ring buffer. *)
Inductive advances (Q : list Z -> Prop) (s s' : bst) : stage -> stage -> Prop :=
| Idles (st : stage) :
    places w s' = places w s -> submitted w s' = submitted w s -> advances Q s s' st st
| Reserves :
    places w s' = places w s ++ [None] -> submitted w s' = submitted w s ->
    advances Q s s' Fresh (Holding (length (places w s)))
| Commits (h : nat) (ev : list Z) :
    places w s' = <[h := Some ev]> (places w s) -> submitted w s' = submitted w s ++ [ev] -> Q ev ->
    advances Q s s' (Holding h) Committed.

(** [commits Q st p]: whatever happens between its actions (as long as nobody submits
    the record it holds), [p] goes through the stages from [st] on, commits a record
    that satisfies [Q], and does not return while it holds a record. *)
Fixpoint commits (Q : list Z -> Prop) (st : stage) {A : Type} (p : prog bst A) : Prop :=
  match p with
  | Ret _ => match st with Holding _ => False | _ => True end
  | Act f k => forall s, busy st s ->
      exists st', advances Q s (snd (f s)) st st' /\ commits Q st' (k (fst (f s)))
  end.

Section rules.
Context (Q : list Z -> Prop).

(** A program that does not touch the ring buffer. *)
Abbreviation silent p := (preserves (fixes (slot_get (ring_buffer w))) p).

Lemma idles (s s' : bst) (st : stage) :
  fixes (slot_get (ring_buffer w)) s s' -> advances Q s s' st st.
Proof using. intros Hr. by apply Idles; unfold places, submitted; rewrite Hr. Qed.

(** What the first part is sure to return may be used. *)
Lemma commits_sure {A B : Type} (st : stage) (T : A -> Prop) (p : prog bst A) (k : A -> prog bst B) :
  silent p -> sure (fun _ => True) T p -> (forall x, T x -> commits Q st (k x)) ->
  commits Q st (p ≫= k).
Proof using.
  intros Hp Ht Hk. induction Hp as [x|C f k' Hf Hp IH]; [apply Hk; exact (sure_inv _ _ _ Ht)|].
  intros s _. exists st. split; [by apply idles | apply IH; exact (sure_inv _ _ _ Ht s I)].
Qed.

Lemma commits_after {A B : Type} (st : stage) (p : prog bst A) (k : A -> prog bst B) :
  silent p -> (forall x, commits Q st (k x)) -> commits Q st (p ≫= k).
Proof using. intros Hp Hk. apply (commits_sure st (fun _ => True)); [done | apply sure_any | auto]. Qed.

Lemma commits_silent {A : Type} (st : stage) (p : prog bst A) :
  silent p -> match st with Holding _ => False | _ => True end -> commits Q st p.
Proof using.
  intros Hp Hst. induction Hp as [x|B f k Hf Hk IH]; [done|].
  intros s _. exists st. split; [by apply idles | apply IH].
Qed.

Lemma commits_before {A B : Type} (st : stage) (p : prog bst A) (k : A -> prog bst B) :
  commits Q st p -> (forall x, silent (k x)) -> commits Q st (p ≫= k).
Proof using.
  intros Hp Hk. revert st Hp. induction p as [x|C f k' IH]; intros st Hp; [apply commits_silent; [apply Hk | exact Hp]|].
  intros s Hs. destruct (Hp s Hs) as (st' & Ha & Hc). exists st'. split; [done | by apply IH].
Qed.

Lemma commits_if {A : Type} (st : stage) (b : bool) (p q : prog bst A) :
  (b = true -> commits Q st p) -> (b = false -> commits Q st q) ->
  commits Q st (if b then p else q).
Proof using. destruct b; auto. Qed.

Lemma commits_option {A B : Type} (st : stage) (o : option B) (k : B -> prog bst A) (p : prog bst A) :
  (forall x, commits Q st (k x)) -> commits Q st p ->
  commits Q st (match o with Some x => k x | None => p end).
Proof using. by destruct o. Qed.

End rules.

Context `{!BpfRingbufLaws}.

(** A program that reserves a record, fills it and submits it. *)
Lemma commits_with_record (Q : list Z -> Prop) (size : nat) (body : list Z -> prog bst (list Z)) :
  (forall ev, length ev = size -> preserves (fixes (slot_get (ring_buffer w))) (body ev)) ->
  (forall ev, length ev = size -> sure (fun _ => True) Q (body ev)) ->
  commits Q Fresh (with_record (ring_buffer w) size body).
Proof using All.
  intros Hs Hb s _. unfold bpf_ringbuf_reserve.
  destruct (rb_reserveP (slot_get (ring_buffer w) s) size) as [ev r Hl Hp Hr|r Hp Hr]; cbn [fst snd].
  - exists (Holding (length (places w s))).
    split; [by apply Reserves; unfold places, submitted; rewrite get_set_ring|].
    change (commits Q (Holding (length (places w s)))
      (body ev ≫= fun ev' => bpf_ringbuf_submit (ring_buffer w) (length (places w s)) ev')).
    eapply commits_sure; [by apply Hs | by apply Hb|].
    intros ev' Hev' s' Hs'. exists Committed. split; [|done].
    apply (Commits _ _ _ _ ev'); [| |done]; cbn [snd]; unfold places, submitted; rewrite get_set_ring;
      [by apply rb_submit_places | apply rb_submit_records].
  - exists Fresh. split; [|done]. by apply Idles; unfold places, submitted; rewrite get_set_ring.
Qed.

End commits.

Section bodies.
Context {BM : BpfMaps} {RB : BpfRingbuf} `{!BpfMapsLaws, !BpfRingbufLaws}.

(** Whatever happens while it is filled, a record body leaves a record of the right
    size with the right header. *)
Lemma event_body_sure (c : ctx) (t src p : Z) (body : list Z -> prog bst (list Z)) (ev : list Z) :
  event_body c t src p body -> length ev = sizeof_TelemetryEvent ->
  sure (fun _ => True)
    (fun ev' => length ev' = sizeof_TelemetryEvent /\ exists seq, header_is c seq t src p ev') (body ev).
Proof using.
  intros Hb Hl. destruct (Hb ev Hl) as (ev0 & fill & -> & Hl0 & Hfill).
  apply (sure_bind _ (fun ev1 => length ev1 = sizeof_TelemetryEvent /\
    exists seq, header_is c seq t src p ev1)).
  - apply (sure_bind _ (fun _ => True)); [apply sure_any|]. intros seq _. apply sure_ret.
    destruct (header_stored c ev0 seq t src p Hl0) as [H1 H2]. by split; [|exists seq].
  - intros ev1 (H1 & seq & H2). apply sure_ret.
    destruct (header_kept c ev1 (fill ev1) seq t src p (conj H1 H2) (Hfill ev1 H1)) as [H3 H4].
    by split; [|exists seq].
Qed.

Lemma commits_with_event (c : ctx) (t src p : Z) (body : list Z -> prog bst (list Z)) :
  event_body c t src p body ->
  commits Telemetry
    (fun ev => length ev = sizeof_TelemetryEvent /\ exists seq, header_is c seq t src p ev)
    Fresh (with_event body).
Proof.
  intros Hb. apply (commits_with_record Telemetry); intros ev Hl; [|by apply event_body_sure].
  destruct (Hb ev Hl) as (ev0 & fill & -> & _ & _). solve_preserves.
Qed.

Lemma commits_with_tty_event (c : ctx) (d n buf : Z) (Q : list Z -> Prop) :
  ctx_ok c -> 0 <= n -> in_range 8 d ->
  (forall ev, tty_record c d (captured c buf (Z.min 1023 n)) ev -> Q ev) ->
  commits Terminal Q Fresh
    (with_tty_event (fill_tty_event c d (wrap 32 (if 1023 <? n then 1023 else n)) buf)).
Proof.
  intros Hc Hn Hd HQ. rewrite to_copy_min by done.
  apply (commits_with_record Terminal); intros ev Hl; [solve_preserves|].
  destruct (fill_tty_event_record c d (Z.min 1023 n) buf ev Hc Hl ltac:(lia) Hd) as (ev' & -> & Hev).
  by apply sure_ret, HQ.
Qed.

End bodies.

(** The byte count of a capture. *)
Ltac tty_count :=
  match goal with
  | H : in_range 64 ?n |- 0 <= ?n => exact (proj1 H)
  | H : (?n <=? 0) = false |- 0 <= ?n => by apply Z.leb_gt, Z.lt_le_incl in H
  end.

Ltac solve_commits :=
  repeat first
    [ progress intros
    | apply commits_silent; [solve [solve_preserves] | exact I]
    | apply commits_with_event; solve [auto with preserves nocore]
    | apply commits_with_tty_event; [assumption | tty_count | by split | by eauto]
    | apply commits_if
    | apply commits_option
    | apply commits_after; [solve [solve_preserves] |]
    | apply commits_before; [| solve [intros; solve_preserves]] ].

Section records.
Context {BM : BpfMaps} {RB : BpfRingbuf} `{!BpfMapsLaws, !BpfRingbufLaws}.

(** A record that reports the terminal data of the program [h] run in [c]. *)
Definition captures (ev : list Z) (c : ctx) (h : hook_call) : Prop :=
  match h with
  | TtyWrite _ buf count => tty_record c 1 (captured c buf (Z.min 1023 count)) ev
  | TtyReadReturn ret => exists buf, tty_record c 0 (captured c buf (Z.min 1023 ret)) ev
  | _ => False
  end.

(** The record of a program run. *)
Definition record_of (w : channel) (c : ctx) (h : hook_call) (ev : list Z) : Prop :=
  match w with
  | Telemetry => length ev = UserLayout.sizeof_TelemetryEvent /\ reports ev c h
  | Terminal => length ev = UserLayout.sizeof_TtyEvent /\ captures ev c h
  end.

(** The byte count of a terminal write is a [size_t]. *)
Definition args_ok (h : hook_call) : Prop :=
  match h with TtyWrite _ _ count => in_range 64 count | _ => True end.

Lemma run_hook_commits (w : channel) (c : ctx) (h : hook_call) :
  ctx_ok c -> args_ok h -> commits w (record_of w c h) Fresh (run_hook c h).
Proof.
  intros Hc Ha. destruct w.
  - destruct h; unfold record_of, reports, hook_event; unfold_hook; solve_commits.
  - assert (forall n d buf ev, tty_record c d (captured c buf n) ev ->
      length ev = UserLayout.sizeof_TtyEvent) as Hl by (by intros n d buf ev []).
    destruct h; unfold record_of, captures; unfold_hook; simpl in Ha; solve_commits.
Qed.

Context (find_map : string -> bool) (ld : loader) (w : channel).

Lemma agent_ringbuf (o : map_op) (s : bst) :
  slot_get (ring_buffer w) (snd (run_map_op find_map ld o s)) = slot_get (ring_buffer w) s.
Proof using.
  refine (preserves_run (map_op_frame find_map (fixes (slot_get (ring_buffer w))) ld o _ _ _ _) s);
    [by intros; destruct w..|].
  intros t name m Ht. by destruct w, t; try done; injection Ht as <- <-.
Qed.

(** ** The places of a run *)

(** The [i]-th program run owns a place. *)
Definition owns (m : machine) (i : nat) (place : option (list Z)) : Prop :=
  exists t, threads m !! i = Some t /\
    match place with Some ev => record_of w (th_ctx t) (th_call t) ev | None => True end.

(** The stage of the [i]-th program, given who owns the places added since [base]. *)
Definition stage_in (base : nat) (owners : list nat) (new : list (option (list Z))) (i : nat)
    (st : stage) : Prop :=
  match st with
  | Fresh => i ∉ owners
  | Holding h => exists j, h = (base + j)%nat /\ owners !! j = Some i /\ new !! j = Some None
  | Committed => exists j ev, owners !! j = Some i /\ new !! j = Some (Some ev)
  end.

(** What is left of a program run goes on from its stage. *)
Definition sound (base : nat) (owners : list nat) (new : list (option (list Z))) (i : nat)
    (t : thread) : Prop :=
  exists st, stage_in base owners new i st /\
    commits w (record_of w (th_ctx t) (th_call t)) st (th_rest t).

(** The places and records added since [s], with the programs that own them. *)
Definition recorded (s : bst) (m : machine) : Prop :=
  exists owners new, places w (shared m) = places w s ++ new /\ NoDup owners /\
    Forall2 (owns m) owners new /\ submitted w (shared m) ≡ₚ submitted w s ++ omap id new /\
    forall i t, threads m !! i = Some t -> sound (length (places w s)) owners new i t.

Lemma owns_kept (e : event) (m m' : machine) (owners : list nat) (new : list (option (list Z))) :
  step find_map ld e m = Some m' -> Forall2 (owns m) owners new -> Forall2 (owns m') owners new.
Proof using.
  intros Hs Hown. eapply Forall2_impl; [exact Hown|]. intros i place ([c h p] & Hi & Hr).
  destruct (step_kept find_map ld e m m' i c h p Hs Hi) as [p' Hi']. by exists (Thread c h p').
Qed.

Lemma owner_started (m : machine) (owners : list nat) (new : list (option (list Z))) (i : nat) :
  Forall2 (owns m) owners new -> i ∈ owners -> (i < length (threads m))%nat.
Proof using.
  intros Hown [j Hj]%list_elem_of_lookup. destruct (Forall2_lookup_l _ _ _ _ _ Hown Hj) as (ev & _ & t & Ht & _).
  by apply lookup_lt_Some in Ht.
Qed.

(** What the others do to the places does not change the stage of a program. *)
Lemma stage_reserved (base : nat) (owners : list nat) (new : list (option (list Z))) (i k : nat) (st : stage) :
  length owners = length new -> k <> i -> stage_in base owners new k st ->
  stage_in base (owners ++ [i]) (new ++ [None]) k st.
Proof using.
  intros Hl Hne. destruct st as [|h|]; simpl.
  - intros Hk [Hin|Hin%list_elem_of_singleton]%elem_of_app; done.
  - intros (j & -> & Ho & Hn). exists j. by rewrite !(lookup_app_l_Some _ _ _ _ Ho), !(lookup_app_l_Some _ _ _ _ Hn).
  - intros (j & ev & Ho & Hn). exists j, ev. by split; apply lookup_app_l_Some.
Qed.

Lemma stage_committed (base : nat) (owners : list nat) (new : list (option (list Z))) (i j k : nat)
    (ev : list Z) (st : stage) :
  owners !! j = Some i -> k <> i -> stage_in base owners new k st ->
  stage_in base owners (<[j := Some ev]> new) k st.
Proof using.
  intros Hj Hne. destruct st as [|h|]; simpl; [done|..].
  - intros (j' & -> & Ho & Hn). exists j'. rewrite list_lookup_insert_ne; [done|]. congruence.
  - intros (j' & ev' & Ho & Hn). exists j', ev'. rewrite list_lookup_insert_ne; [done|]. congruence.
Qed.

Lemma nodup_snoc (l : list nat) (i : nat) : NoDup l -> i ∉ l -> NoDup (l ++ [i]).
Proof using.
  intros Hl Hi. rewrite NoDup_app. split; [done|]. split; [|apply NoDup_singleton].
  by intros j Hj ->%list_elem_of_singleton.
Qed.

(** A commitment adds its record to the history. *)
Lemma omap_commit (new : list (option (list Z))) (j : nat) (ev : list Z) :
  new !! j = Some None -> omap id (<[j := Some ev]> new) ≡ₚ omap id new ++ [ev].
Proof using.
  intros Hj. rewrite <- (take_drop_middle new j None Hj) at 2.
  rewrite insert_take_drop by (by eapply lookup_lt_Some). rewrite !omap_app. simpl.
  rewrite <- Permutation_cons_append. symmetry. apply Permutation_middle.
Qed.

(** Committed records stay where they are, and no place disappears. *)
Record settles (s s' : bst) : Prop := Settles {
  set_kept : forall j ev, places w s !! j = Some (Some ev) -> places w s' !! j = Some (Some ev);
  set_length : (length (places w s) <= length (places w s'))%nat;
}.

#[export] Instance settles_preorder : PreOrder settles.
Proof using. split; [by intros s; split | intros s1 s2 s3 [] []; split; [auto | lia]]. Qed.

Lemma settles_same (s s' : bst) : places w s' = places w s -> settles s s'.
Proof using. intros Hp. split; by rewrite Hp. Qed.

Lemma advances_settles (Q : list Z -> Prop) (s s' : bst) (st st' : stage) :
  busy w st s -> advances w Q s s' st st' -> settles s s'.
Proof using.
  intros Hb Ha. destruct Ha as [st Hp _|Hp _|h ev Hp _ _]; [by apply settles_same|..]; split; rewrite Hp.
  - intros j ev. by apply lookup_app_l_Some.
  - rewrite length_app. lia.
  - intros j ev' Hj. rewrite list_lookup_insert_ne; [done|]. simpl in Hb. congruence.
  - by rewrite length_insert.
Qed.

Definition begins_ok (e : event) : Prop :=
  match e with Begin c h => ctx_ok c /\ args_ok h | _ => True end.

(** A property of all programs after one has been replaced. *)
Lemma insert_all (T : nat -> thread -> Prop) (l : list thread) (i : nat) (t : thread) :
  (forall j t', l !! j = Some t' -> j <> i -> T j t') -> T i t ->
  forall j t', <[i := t]> l !! j = Some t' -> T j t'.
Proof using.
  intros Hl Ht j t' Hj. destruct (decide (j = i)) as [->|Hne].
  - apply list_lookup_insert_Some in Hj as [(_ & <- & _)|(Hn & _)]; done.
  - rewrite list_lookup_insert_ne in Hj by done. by apply Hl.
Qed.

(** The ring buffer may be consumed meanwhile. *)
Lemma recorded_frame (s s' : bst) (m : machine) :
  places w s' = places w (shared m) -> submitted w s' = submitted w (shared m) ->
  recorded s m -> recorded s (Machine s' (threads m)).
Proof using.
  intros Hp Hr (owners & new & Hpl & Hrest). exists owners, new. cbn [shared]. by rewrite Hp, Hr.
Qed.

Lemma begin_recorded (s : bst) (c : ctx) (h : hook_call) (m m' : machine) :
  ctx_ok c -> args_ok h -> recorded s m -> step find_map ld (Begin c h) m = Some m' -> recorded s m'.
Proof.
  intros Hc Ha (owners & new & Hp & Hnd & Hown & Hrec & Hall) Hs.
  pose proof (owns_kept _ m m' _ _ Hs Hown) as Hown'. simpl in Hs. injection Hs as <-.
  exists owners, new. do 4 (split; [done|]).
  intros i t Hi. apply lookup_app_Some in Hi as [Hi|[Hge Hi]]; [by apply Hall|].
  apply list_lookup_singleton_Some in Hi as [Hi0 <-]. exists Fresh. split; [|by apply run_hook_commits].
  intros Hin. pose proof (owner_started m owners new i Hown Hin). lia.
Qed.

Lemma act_recorded (s : bst) (i : nat) (m m' : machine) :
  recorded s m -> step find_map ld (Step i) m = Some m' ->
  recorded s m' /\ settles (shared m) (shared m').
Proof using.
  intros (owners & new & Hp & Hnd & Hown & Hrec & Hall) Hs.
  pose proof (owns_kept _ m m' _ _ Hs Hown) as Hown'.
  destruct (threads m !! i) as [[c h [v|B f k]]|] eqn:Hi; [by simpl in Hs; rewrite Hi in Hs| |
    by simpl in Hs; rewrite Hi in Hs].
  rewrite (step_act find_map ld i c h f k m Hi) in Hs. injection Hs as <-.
  destruct (Hall i _ Hi) as (st & Hst & Hc). specialize (Hc (shared m)).
  pose proof (Forall2_length _ _ _ Hown) as Hlen.
  assert (busy w st (shared m)) as Hb.
  { destruct st as [|hd|]; try done. destruct Hst as (j & -> & _ & Hn). simpl.
    by rewrite Hp, lookup_app_r, Nat.add_sub_swap, Nat.sub_diag by lia. }
  destruct (Hc Hb) as (st' & Ha & Hk). split; [|by eapply advances_settles].
  pose proof (list_lookup_insert_eq (threads m) i (Thread c h (k (fst (f (shared m)))))
    (lookup_lt_Some _ _ _ Hi)) as Hi'.
  destruct Ha as [st Hpl Hre|Hpl Hre|hd ev Hpl Hre HQ].
  - exists owners, new. cbn [shared]. rewrite Hpl, Hre. do 4 (split; [done|]).
    apply insert_all; [by intros j t Hj _; apply Hall|]. by exists st.
  - exists (owners ++ [i]), (new ++ [None]). cbn [shared]. rewrite Hpl, Hre, Hp, app_assoc.
    split; [done|]. split; [by apply nodup_snoc|]. split; [apply Forall2_app; [done|]; repeat constructor;
      by eexists|]. split; [by rewrite omap_app, app_nil_r|].
    apply insert_all.
    + intros j t Hj Hne. destruct (Hall j t Hj) as (stj & Hsj & Hcj). exists stj.
      split; [by apply stage_reserved | done].
    + exists (Holding (length (places w (shared m)))). split; [|done].
      exists (length new). rewrite Hp, length_app. split; [done|].
      by rewrite <- Hlen at 1; rewrite !lookup_app_r, Hlen, !Nat.sub_diag by lia.
  - destruct Hst as (j & -> & Ho & Hn). exists owners, (<[j := Some ev]> new). cbn [shared].
    rewrite Hpl, Hre, Hp, insert_app_r. split; [done|]. split; [done|]. split.
    { rewrite <- (list_insert_id owners j i Ho). apply Forall2_insert; [done|]. by eexists. }
    split; [by rewrite Hrec, omap_commit, app_assoc|].
    apply insert_all.
    + intros k' t Hk' Hne. destruct (Hall k' t Hk') as (stj & Hsj & Hcj). exists stj.
      split; [by eapply stage_committed | done].
    + exists Committed. split; [|done]. exists j, ev. split; [done|].
      apply list_lookup_insert_eq. by eapply lookup_lt_Some.
Qed.

Lemma step_recorded (s : bst) (e : event) (m m' : machine) :
  begins_ok e -> recorded s m -> step find_map ld e m = Some m' ->
  recorded s m' /\ settles (shared m) (shared m').
Proof.
  intros He Hm Hs. destruct e as [c h|i|o].
  - destruct He. split; [by eapply begin_recorded|]. simpl in Hs. by injection Hs as <-.
  - by apply (act_recorded s i m m').
  - simpl in Hs. injection Hs as <-. pose proof (agent_ringbuf o (shared m)) as Hr.
    split; [apply recorded_frame; [by unfold places; rewrite Hr | by unfold submitted; rewrite Hr | done]|].
    apply settles_same. unfold places. cbn [shared]. by rewrite Hr.
Qed.

Lemma boot_recorded (s : bst) : recorded s (boot s).
Proof using.
  exists [], []. cbn [shared boot omap list_omap]. rewrite !app_nil_r. by repeat (split; [constructor|]).
Qed.

(** The owner of a busy place is still running. *)
Lemma busy_owner (base : nat) (owners : list nat) (new : list (option (list Z))) (i j : nat) (t : thread) :
  NoDup owners -> owners !! j = Some i -> new !! j = Some None -> sound base owners new i t ->
  returned t = None.
Proof using.
  intros Hnd Ho Hn (st & Hst & Hc). destruct st as [|h|]; simpl in Hst.
  - exfalso. apply Hst. by eapply list_elem_of_lookup_2.
  - unfold returned. by destruct (th_rest t).
  - destruct Hst as (j' & ev & Ho' & Hn'). rewrite (NoDup_lookup _ _ _ _ Hnd Ho' Ho) in Hn'. congruence.
Qed.

(** C8: what the ring buffers hold when programs overlap.  In every interleaving of
    programs and map calls, the places reserved in a ring buffer since the start are
    owned by different program runs.  A place still busy belongs to a program that has
    not returned; a committed telemetry record has the size user space requires, and user
    space reads in its header the timestamp of its owner's run and the event type,
    source and process of the table [hook_event]; a committed terminal record has the
    data its owner captured, up to 1023 bytes.  The records submitted are those of the
    committed places, each once. *)
Theorem overlapped_records (es : list event) (s : bst) (m : machine) :
  Forall begins_ok es -> run find_map ld es (boot s) = Some m ->
  exists owners new, places w (shared m) = places w s ++ new /\ NoDup owners /\
    Forall2 (fun i place => exists t, threads m !! i = Some t /\
      match place with
      | Some ev => record_of w (th_ctx t) (th_call t) ev
      | None => returned t = None
      end) owners new /\
    submitted w (shared m) ≡ₚ submitted w s ++ omap id new.
Proof.
  intros Hes Hrun.
  assert (recorded s m) as (owners & new & Hp & Hnd & Hown & Hrec & Hall).
  { refine (run_inv find_map ld (recorded s) begins_ok es (boot s) m _ Hes (boot_recorded s) Hrun).
    intros e m1 m2 He Hm Hs. by eapply step_recorded. }
  exists owners, new. split; [done|]. split; [done|]. split; [|done].
  apply Forall2_same_length_lookup. split; [by eapply Forall2_length|]. intros j i place Ho Hn.
  destruct (Forall2_lookup_lr _ _ _ _ _ _ Hown Ho Hn) as (t & Ht & Hr). exists t. split; [done|].
  destruct place as [ev|]; [exact Hr|]. by eapply busy_owner, Hall.
Qed.

End records.

(** The events of a concrete run. *)
Ltac events_ok :=
  repeat (constructor; [first [exact I | split; [apply demo_ctx_ok | first [exact I | done]]]|]);
  constructor.

(** Two programs fill their records at the same time: the one that reserves first
    commits last; a terminal write has its record in the other ring buffer. *)
Lemma overlapped_records_witness :
  let es := [Begin (demo_ctx 0 42 1) SysEnterListen; Step 0; Begin (demo_ctx 1 7 2) SysEnterListen;
             Step 1; Step 1; Step 0; Step 1; Step 1; AgentCall (OpSetConfig 0 1);
             Begin (demo_ctx 1 42 1) (TtyWrite demo_file 5000 6); Step 2; Step 2] in
  match run all_maps attached_loader es (boot loaded) with
  | Some m =>
      (forall w, exists owners new, places w (shared m) = places w loaded ++ new /\ NoDup owners /\
        Forall2 (fun i place => exists t, threads m !! i = Some t /\
          match place with
          | Some ev => record_of w (th_ctx t) (th_call t) ev
          | None => returned t = None
          end) owners new /\
        submitted w (shared m) ≡ₚ submitted w loaded ++ omap id new) /\
      map (fun w => map (fun p => bool_decide (is_Some p)) (places w (shared m))) [Telemetry; Terminal] =
        [[false; true]; [true]]
  | None => False
  end.
Proof.
  intros es.
  assert (match run all_maps attached_loader es (boot loaded) with
    | Some m => map (fun w => map (fun p => bool_decide (is_Some p)) (places w (shared m)))
        [Telemetry; Terminal] = [[false; true]; [true]]
    | None => False end) as Hl by (vm_compute; reflexivity).
  take_run m E. split; [|exact Hl]. intros w.
  apply (overlapped_records all_maps attached_loader w es loaded m); [|exact E].
  events_ok.
Defined.
