(* ===== verification/Exclusion.v ===== *)
(** Programs that share something and never overlap with each other, among programs
    that do.  The programs that [mine] selects own a [view] of the state that nobody
    else changes; if they run one at a time, what each does to the view alone is what
    they do to it in every interleaving.  The instances are the sequence numbers of a
    CPU and the category flags of a process, which the programs update without a lock. *)

From S2P Require Export OverlapRecords.

Local Open Scope Z_scope.

(** ** Protocols

    [moves g x evs g' x']: the view goes from [x] to [x'] while the records [evs] are
    committed; [g] is what is known besides.  [rests g x]: the view between programs. *)
Class protocol {G T : Type} (moves : G -> T -> list (list Z) -> G -> T -> Prop) : Prop := {
  moves_refl : forall g x, moves g x [] g x;
  moves_app : forall g1 x1 e1 g2 x2 e2 g3 x3,
    moves g1 x1 e1 g2 x2 -> moves g2 x2 e2 g3 x3 -> moves g1 x1 (e1 ++ e2) g3 x3;
}.

Section protocols.
Context {BM : BpfMaps} {RB : BpfRingbuf}.

Context {G T : Type} (view : bst -> T) (moves : G -> T -> list (list Z) -> G -> T -> Prop)
  (rests : G -> T -> Prop).

(** A program that follows the protocol as long as nobody else changes the view. *)
Fixpoint follows (g : G) (x : T) {A : Type} (p : prog bst A) : Prop :=
  match p with
  | Ret _ => rests g x
  | Act f k => forall s, view s = x ->
      exists g', moves g x (committed s (snd (f s))) g' (view (snd (f s))) /\
        follows g' (view (snd (f s))) (k (fst (f s)))
  end.

Definition disciplined {A : Type} (p : prog bst A) : Prop := forall g x, rests g x -> follows g x p.

Lemma follows_bind {A B : Type} (p : prog bst A) (k : A -> prog bst B) (g : G) (x : T) :
  follows g x p -> (forall a, disciplined (k a)) -> follows g x (p ≫= k).
Proof using.
  intros Hp Hk. revert g x Hp. induction p as [a|C f k' IH]; intros g x Hp; [by apply Hk|].
  intros s Hs. destruct (Hp s Hs) as (g' & Hm & Hf). exists g'. split; [done | by apply IH].
Qed.

Lemma disciplined_bind {A B : Type} (p : prog bst A) (k : A -> prog bst B) :
  disciplined p -> (forall a, disciplined (k a)) -> disciplined (p ≫= k).
Proof using. intros Hp Hk g x Hx. apply follows_bind; [by apply Hp | done]. Qed.

Lemma disciplined_if {A : Type} (b : bool) (p q : prog bst A) :
  disciplined p -> disciplined q -> disciplined (if b then p else q).
Proof using. by destruct b. Qed.

Lemma disciplined_option {A B : Type} (o : option B) (k : B -> prog bst A) (p : prog bst A) :
  (forall b, disciplined (k b)) -> disciplined p ->
  disciplined (match o with Some b => k b | None => p end).
Proof using. by destruct o. Qed.

(** Neither the view nor the records change. *)
Definition untouched : relation bst := fun s s' => view s' = view s /\ records s' = records s.

#[export] Instance untouched_preorder : PreOrder untouched.
Proof. split; [done|]. intros s1 s2 s3 [] []. split; congruence. Qed.

Lemma committed_none (s s' : bst) : records s' = records s -> committed s s' = [].
Proof using. unfold committed. intros ->. apply drop_all. Qed.

Lemma committed_one (s s' : bst) (ev : list Z) : records s' = records s ++ [ev] -> committed s s' = [ev].
Proof using. unfold committed. intros ->. apply drop_app_length. Qed.

Context {Hprotocol : protocol moves}.

Lemma follows_after {A B : Type} (R : A -> Prop) (g : G) (x : T) (p : prog bst A)
    (k : A -> prog bst B) :
  preserves untouched p -> sure (fun _ => True) R p -> (forall a, R a -> follows g x (k a)) ->
  follows g x (p ≫= k).
Proof using All.
  intros Hp Hr Hk. induction Hp as [a|C f k' Hf Hp IH]; [apply Hk; exact (sure_inv _ _ _ Hr)|].
  intros s Hs. exists g. destruct (Hf s) as [Hv Hc]. rewrite (committed_none _ _ Hc), Hv, Hs.
  split; [apply moves_refl|]. apply IH. exact (sure_inv _ _ _ Hr s I).
Qed.

Lemma disciplined_untouched {A : Type} (p : prog bst A) : preserves untouched p -> disciplined p.
Proof using All.
  intros Hp g x Hx. induction Hp as [a|C f k' Hf Hp IH]; [exact Hx|].
  intros s Hs. exists g. destruct (Hf s) as [Hv Hr]. rewrite (committed_none _ _ Hr), Hv, Hs.
  split; [apply moves_refl | apply IH].
Qed.

End protocols.

Section exclusion.
Context {BM : BpfMaps} {RB : BpfRingbuf} (find_map : string -> bool) (ld : loader).
Context (mine : ctx -> bool).

(** No program of [mine] is running. *)
Definition idle (m : machine) : bool :=
  forallb (fun t => negb (mine (th_ctx t)) || bool_decide (is_Some (returned t))) (threads m).

(** The programs of [mine] run one at a time. *)
Fixpoint one_at_a_time (es : list event) (m : machine) : bool :=
  match es with
  | [] => true
  | e :: rest =>
      match e with Begin c _ => negb (mine c) || idle m | _ => true end &&
      match step find_map ld e m with Some m' => one_at_a_time rest m' | None => true end
  end.

(** The records the programs of [mine] commit, in order. *)
Definition committed_by (e : event) (m m' : machine) : list (list Z) :=
  match e with
  | Step i =>
      match threads m !! i with
      | Some t => if mine (th_ctx t) then committed (shared m) (shared m') else []
      | None => []
      end
  | _ => []
  end.

Fixpoint stream (es : list event) (m : machine) : list (list Z) :=
  match es with
  | [] => []
  | e :: rest =>
      match step find_map ld e m with
      | Some m' => committed_by e m m' ++ stream rest m'
      | None => []
      end
  end.

Context {G T : Type} (view : bst -> T) (moves : G -> T -> list (list Z) -> G -> T -> Prop)
  (rests : G -> T -> Prop).
Context {Hprotocol : protocol moves}.

(** ** Runs *)

(** The [j]-th program is the only one of [mine] that may be running. *)
Definition only (j : nat) (m : machine) : Prop :=
  forall i t, threads m !! i = Some t -> i <> j -> mine (th_ctx t) = true -> is_Some (returned t).

Definition others_frame (m : machine) : Prop :=
  Forall (fun t => mine (th_ctx t) = false -> preserves (fixes view) (th_rest t)) (threads m).

Definition on_track (g : G) (m : machine) : Prop :=
  others_frame m /\
  ((idle m = true /\ rests g (view (shared m))) \/
   exists j t, threads m !! j = Some t /\ mine (th_ctx t) = true /\ only j m /\
     follows view moves rests g (view (shared m)) (th_rest t)).

(** What the events of the run must satisfy. *)
Definition fits (e : event) : Prop :=
  match e with
  | Begin c h => if mine c then disciplined view moves rests (run_hook c h) else preserves (fixes view) (run_hook c h)
  | Step _ => True
  | AgentCall o => forall s, view (snd (run_map_op find_map ld o s)) = view s
  end.

Lemma idle_spec (m : machine) :
  idle m = true <->
  forall i t, threads m !! i = Some t -> mine (th_ctx t) = true -> is_Some (returned t).
Proof using.
  unfold idle. rewrite forallb_forall. split.
  - intros H i t Hi Hm. apply list_elem_of_lookup_2, list_elem_of_In, H in Hi.
    rewrite Hm in Hi. by apply bool_decide_eq_true in Hi.
  - intros H t [i Hi]%list_elem_of_In%list_elem_of_lookup. destruct (mine (th_ctx t)) eqn:Hm; [|done].
    simpl. apply bool_decide_true. by apply (H i).
Qed.

Lemma idle_rests (g : G) (m : machine) : on_track g m -> idle m = true -> rests g (view (shared m)).
Proof using.
  intros [_ [[_ Hr]|(j & t & Hj & Hm & _ & Hf)]] Hi; [done|].
  apply (proj1 (idle_spec m) Hi j t Hj) in Hm as [v Hv]. unfold returned in Hv.
  by destruct (th_rest t).
Qed.

(** Somebody else's step, or the agent's. *)
Lemma on_track_other (g : G) (m : machine) (s : bst) (l : list thread) :
  on_track g m -> view s = view (shared m) -> others_frame (Machine s l) ->
  (forall i t, l !! i = Some t -> mine (th_ctx t) = true -> threads m !! i = Some t) ->
  (forall i t, threads m !! i = Some t -> mine (th_ctx t) = true -> l !! i = Some t) ->
  on_track g (Machine s l).
Proof using.
  intros [_ Ht] Hv Ho Hl Hl'. split; [done|]. cbn [shared]. rewrite Hv.
  destruct Ht as [[Hi Hr]|(j & t & Hj & Hm & Hon & Hf)].
  - left. split; [|done]. apply idle_spec. intros i t Hit Hm.
    by apply (proj1 (idle_spec m) Hi i t); [apply Hl|].
  - right. exists j, t. split; [by apply Hl'|]. split; [done|]. split; [|done].
    intros i t' Hi Hij Hm'. by apply (Hon i t'); [apply Hl| |].
Qed.

Lemma others_frame_step (e : event) (m m' : machine) :
  fits e -> others_frame m -> step find_map ld e m = Some m' -> others_frame m'.
Proof using.
  intros He Ho. apply (step_threads find_map ld (fun _ => True)); [|by intros c h B f k s _ Hp Hm;
    destruct (preserves_inv _ f k s (Hp Hm)) | done | done].
  intros c h -> Hm. simpl in *. by rewrite Hm in He.
Qed.

Lemma step_on_track (g : G) (e : event) (m m' : machine) :
  fits e -> match e with Begin c _ => negb (mine c) || idle m | _ => true end = true ->
  on_track g m -> step find_map ld e m = Some m' ->
  exists g', moves g (view (shared m)) (committed_by e m m') g' (view (shared m')) /\ on_track g' m'.
Proof using All.
  intros He Hx Ht Hs.
  pose proof (others_frame_step e m m' He (proj1 Ht) Hs) as Ho.
  destruct e as [c h|i|o]; simpl in He, Hs; cbn [committed_by].
  - injection Hs as <-. exists g. split; [apply moves_refl|]. destruct (mine c) eqn:Hm; simpl in Hx.
    + split; [done|]. right. exists (length (threads m)), (begin c h).
      split; [simpl; by rewrite lookup_app_r, Nat.sub_diag by lia|]. split; [done|]. split.
      * intros i t Hi Hne Hmt. apply lookup_app_Some in Hi as [Hi|[Hge Hi]].
        -- by apply (proj1 (idle_spec m) Hx i t).
        -- apply list_lookup_singleton_Some in Hi as [Hi _]. lia.
      * by apply He, (idle_rests g m).
    + apply (on_track_other g m); [done | done | done | | intros; by apply lookup_app_l_Some].
      intros i t Hi Hmt. apply lookup_app_Some in Hi as [Hi|[_ Hi]]; [done|].
      apply list_lookup_singleton_Some in Hi as [_ <-]. simpl in Hmt. congruence.
  - destruct (threads m !! i) as [[c h p]|] eqn:Hi; [|done]. cbn [th_rest th_ctx th_call] in *.
    destruct p as [v|B f k]; [done|]. simpl in Hs. destruct (mine c) eqn:Hm.
    + destruct Ht as [_ [[Hidle _]|(j & t & Hj & Hmt & Hon & Hf)]].
      { by destruct (proj1 (idle_spec m) Hidle i _ Hi Hm) as [v Hv]. }
      assert (i = j) as <-.
      { destruct (decide (i = j)) as [|Hne]; [done|]. by destruct (Hon i _ Hi Hne Hm) as [v Hv]. }
      rewrite Hi in Hj. injection Hj as <-. simpl in Hf.
      destruct (Hf (shared m) eq_refl) as (g' & Hmv & Hf'). exists g'.
      destruct (f (shared m)) as [x s]. injection Hs as <-. split; [exact Hmv|].
      split; [done|]. right. exists i, (Thread c h (k x)).
      split; [apply list_lookup_insert_eq; by eapply lookup_lt_Some|]. split; [done|]. split; [|done].
      intros j t' Hj Hne Hm'. cbn [threads] in Hj. rewrite list_lookup_insert_ne in Hj by done.
      by apply (Hon j t').
    + pose proof (Forall_lookup_1 _ _ _ _ (proj1 Ht) Hi Hm) as Hp.
      apply (preserves_inv _ f k (shared m)) in Hp as [Hv _].
      destruct (f (shared m)) as [x s]. injection Hs as <-. unfold fixes in Hv. cbn [fst snd shared] in *.
      exists g. split; [rewrite Hv; apply moves_refl|].
      apply (on_track_other g m); [done | done | done | |]; intros j t Hj Hmt; destruct (decide (i = j)) as [<-|Hne].
      * apply list_lookup_insert_Some in Hj as [(_ & <- & _)|(Hn & _)]; [simpl in Hmt; congruence | done].
      * by rewrite list_lookup_insert_ne in Hj.
      * rewrite Hi in Hj. injection Hj as <-. simpl in Hmt. congruence.
      * by rewrite list_lookup_insert_ne.
  - injection Hs as <-. exists g. cbn [shared]. rewrite He. split; [apply moves_refl|].
    by apply (on_track_other g m).
Qed.

Lemma run_on_track (g : G) (es : list event) (m m' : machine) :
  Forall fits es -> one_at_a_time es m = true -> on_track g m -> run find_map ld es m = Some m' ->
  exists g', moves g (view (shared m)) (stream es m) g' (view (shared m')) /\ on_track g' m'.
Proof using All.
  intros He. revert g m. induction He as [|e es He Hes IH]; intros g m Hx Ht Hrun; simpl in *.
  { injection Hrun as <-. exists g. split; [apply moves_refl | done]. }
  destruct (step find_map ld e m) as [m1|] eqn:Hs; [|done].
  apply andb_true_iff in Hx as [Hx1 Hx2].
  destruct (step_on_track g e m m1 He Hx1 Ht Hs) as (g1 & Hm1 & Ht1).
  destruct (IH g1 m1 Hx2 Ht1 Hrun) as (g2 & Hm2 & Ht2). exists g2.
  split; [by eapply moves_app | done].
Qed.

(** A run from the start is as good as a serial one. *)
Lemma boot_on_track (g : G) (es : list event) (s : bst) (m : machine) :
  Forall fits es -> one_at_a_time es (boot s) = true -> rests g (view s) ->
  run find_map ld es (boot s) = Some m ->
  exists g', moves g (view s) (stream es (boot s)) g' (view (shared m)) /\ on_track g' m.
Proof using All.
  intros He Hx Hr. apply (run_on_track g es (boot s)); [done | done|].
  split; [constructor|]. by left.
Qed.

End exclusion.

(** [leaf] is for what touches the view. *)
Ltac solve_disciplined leaf :=
  repeat first
    [ progress intros
    | apply disciplined_untouched; [apply _ | solve [solve_preserves]]
    | leaf
    | apply disciplined_if
    | apply disciplined_option
    | apply disciplined_bind ].
