(* ===== verification/OverlapCounters.v ===== *)
(** The two things the programs update by a lookup followed by a store, when programs
    overlap: the sequence counter of a CPU and the category flags of a process. *)

From S2P Require Export Exclusion.

Local Open Scope Z_scope.

(** ** Sequence numbers *)

Section sequence.
Context {BM : BpfMaps} {RB : BpfRingbuf} `{!BpfMapsLaws, !BpfRingbufLaws}.
Context (find_map : string -> bool) (ld : loader) (k : Z).

Definition on (c : ctx) : bool := cpu c =? k.

(** The reservation of a record: the records stay, the bytes are as many as asked. *)
Lemma reserve_silent (R : relation bst) (n : nat) :
  (forall r s, rb_records r = records s -> R s (slot_set telemetry_ringbuf r s)) ->
  preserves R (bpf_ringbuf_reserve telemetry_ringbuf n).
Proof.
  intros HR. apply preserves_act. intros s. cbn [slot_get telemetry_ringbuf].
  destruct (rb_reserveP (st_telemetry_ringbuf s) n); by apply HR.
Qed.

Lemma reserve_sure (n : nat) :
  sure (fun _ => True) (fun o => match o with Some (_, ev) => length ev = n | None => True end)
    (bpf_ringbuf_reserve telemetry_ringbuf n).
Proof.
  apply sure_act. intros s _. cbn [slot_get telemetry_ringbuf].
  by destruct (rb_reserveP (st_telemetry_ringbuf s) n).
Qed.

(** *** Programs on another CPU *)

Lemma next_seq_elsewhere (c : ctx) : on c = false -> preserves (fixes (fun s => cell s k)) (next_seq c).
Proof.
  intros Hk%Z.eqb_neq. apply preserves_bind; [solve_preserves|]. intros [v|]; [|apply preserves_ret].
  apply preserves_bind; [|intros; apply preserves_ret].
  apply preserves_act. intros s. unfold fixes, cell. cbn [fst snd]. read_slots. autorewrite with slots.
  apply map_store_ne. congruence.
Qed.

Lemma event_elsewhere (c : ctx) (t src p : Z) (body : list Z -> prog bst (list Z)) :
  on c = false -> event_body c t src p body ->
  preserves (fixes (fun s => cell s k)) (with_event body).
Proof.
  intros Hk Hb. eapply preserves_bind_sure; [by apply reserve_silent | apply reserve_sure|].
  intros [[h ev]|] Hl; [|apply preserves_ret]. destruct (Hb ev Hl) as (ev0 & fill & -> & _ & _).
  apply preserves_bind; [|intros; by apply preserves_act].
  apply preserves_bind; [|intros; apply preserves_ret].
  apply preserves_bind; [by apply next_seq_elsewhere | intros; apply preserves_ret].
Qed.

End sequence.

Ltac solve_elsewhere :=
  repeat first
    [ progress intros
    | eapply event_elsewhere; [eassumption | solve [auto with preserves nocore]]
    | solve [auto 3 with preserves nocore]
    | apply preserves_if
    | apply preserves_option
    | apply preserves_bind ].

Section numbers.
Context {BM : BpfMaps} {RB : BpfRingbuf} `{!BpfMapsLaws, !BpfRingbufLaws}.
Context (find_map : string -> bool) (ld : loader) (k v : Z).

Lemma hook_elsewhere (c : ctx) (h : hook_call) :
  ctx_ok c -> on k c = false -> preserves (fixes (fun s => cell s k)) (run_hook c h).
Proof. intros Hc Hk. destruct h; unfold_hook; solve_elsewhere. Qed.

(** *** Programs on the CPU

    [n] records have been committed since the counter was [v]. *)

Definition numbered (n : nat) (x : option Z) (evs : list (list Z)) (n' : nat) (x' : option Z) : Prop :=
  n' = (n + length evs)%nat /\
  forall i ev, evs !! i = Some ev -> event_seq ev = wrap 64 (v + 1 + Z.of_nat (n + i)).

Definition counted (n : nat) (x : option Z) : Prop :=
  exists u, x = Some u /\ wrap 64 u = wrap 64 (v + Z.of_nat n).

#[export] Instance numbered_protocol : protocol numbered.
Proof.
  split.
  - intros n x. split; [simpl; lia | done].
  - intros n1 x1 e1 n2 x2 e2 n3 x3 [-> H1] [-> H2]. split; [rewrite length_app; lia|].
    intros i ev [Hi|[Hge Hi]]%lookup_app_Some; [by apply H1|].
    rewrite (H2 _ _ Hi). do 3 f_equal. lia.
Qed.

Definition counts {A : Type} (p : prog bst A) : Prop :=
  disciplined (fun s => cell s k) numbered counted p.

Lemma event_numbered (c : ctx) (t src p : Z) (body : list Z -> prog bst (list Z)) :
  on k c = true -> event_body c t src p body -> counts (with_event body).
Proof.
  intros Hk%Z.eqb_eq Hb n x (u & -> & Hu).
  eapply follows_after; [apply _ | by apply reserve_silent | apply reserve_sure |].
  intros [[h ev]|] Hl; [|by exists u]. destruct (Hb ev Hl) as (ev0 & fill & -> & Hl0 & Hfill).
  (* the lookup *)
  intros s1 Hs1. exists n. cbn [fst snd]. rewrite committed_none, Hs1 by done.
  split; [apply moves_refl|]. unfold cell in Hs1. rewrite get_seq_counter, Hk, Hs1.
  (* the store *)
  intros s2 Hs2. exists n. cbn [fst snd]. rewrite committed_none by done. unfold cell.
  read_slots. autorewrite with slots. unfold cell in Hs2. rewrite map_store_lookup by (by rewrite Hs2).
  split; [by split; [simpl; lia|]|].
  (* the submission *)
  intros s3 Hs3. exists (S n). cbn [fst snd].
  pose proof (header_stored c ev0 (wrap 64 (u + 1)) t src p Hl0) as Hev.
  apply (fun H1 => header_kept c _ _ _ _ _ _ H1 (Hfill _ (proj1 H1))) in Hev as [_ Hh].
  erewrite committed_one by apply rb_submit_records.
  match goal with |- numbered _ _ _ _ ?y /\ _ => change y with (map_lookup (st_seq_counter s3) (k, 0)) end. rewrite Hs3.
  assert (wrap 64 (u + 1) = wrap 64 (v + 1 + Z.of_nat n)) as Hn.
  { rewrite <- (wrap_add_l 64 u), Hu, wrap_add_l. f_equal. lia. }
  split; [split; [simpl; lia|]|].
  - intros [|i] ev' Hi; [|done]. injection Hi as <-. unfold event_seq. rewrite Hh. simpl.
    rewrite !wrap_wrap, Hn. do 2 f_equal. lia.
  - exists (wrap 64 (u + 1)). split; [done|]. rewrite wrap_wrap, Hn. f_equal. lia.
Qed.

Lemma hook_counts (c : ctx) (h : hook_call) : ctx_ok c -> on k c = true -> counts (run_hook c h).
Proof.
  intros Hc Hk. unfold counts.
  destruct h; unfold_hook;
    solve_disciplined ltac:(eapply event_numbered; [exact Hk | solve [auto with preserves nocore]]).
Qed.

Lemma agent_seq_counter (o : map_op) (s : bst) :
  cell (snd (run_map_op find_map ld o s)) k = cell s k.
Proof using.
  refine (preserves_run (map_op_frame find_map (fixes (fun s => cell s k)) ld o _ _ _ _) s); try done.
  intros t name m Ht. by destruct t; try done; injection Ht as <- <-.
Qed.

(** C9: the sequence numbers of a CPU when programs overlap.  However the programs of
    other CPUs and the agent interfere, if the programs of a CPU run one after the
    other, the i-th record they commit carries the CPU's initial counter plus i + 1,
    modulo 2^64; and when none of them is running, the counter is the number of the
    last record: no number is skipped, repeated or drawn in vain. *)
Theorem overlapped_sequence_numbers (es : list event) (s : bst) (m : machine) :
  Forall begins_ok es -> one_at_a_time find_map ld (on k) es (boot s) = true ->
  cell s k = Some v -> run find_map ld es (boot s) = Some m ->
  let evs := stream find_map ld (on k) es (boot s) in
  (forall i ev, evs !! i = Some ev -> event_seq ev = wrap 64 (v + 1 + Z.of_nat i)) /\
  (idle (on k) m = true ->
   exists u, cell (shared m) k = Some u /\ wrap 64 u = wrap 64 (v + Z.of_nat (length evs))).
Proof.
  intros He Hx Hv Hrun evs.
  destruct (boot_on_track find_map ld (on k) (fun s => cell s k) numbered counted 0%nat es s m)
    as (n & [Hn Hseq] & Ht); [| done | | done |].
  - eapply Forall_impl; [exact He|]. intros [c h|i|o] Hok; simpl; [|done|apply agent_seq_counter].
    destruct Hok as [Hok _]. destruct (on k c) eqn:Hk; [by apply hook_counts | by apply hook_elsewhere].
  - exists v. split; [done|]. f_equal. lia.
  - split; [exact Hseq|]. intros Hi. apply (idle_rests _ _ _ _ _ _ Ht) in Hi.
    by rewrite Hn in Hi.
Qed.

End numbers.

(** Two programs on CPU 0 and one on CPU 1, which overlaps with both. *)
Lemma overlapped_sequence_numbers_witness :
  let es := [Begin (demo_ctx 0 42 1) SysEnterListen; Step 0; Begin (demo_ctx 1 7 2) SysEnterListen;
             Step 1; Step 1; Step 0; Step 1; Step 0; Step 0; Begin (demo_ctx 0 7 2) SysEnterListen;
             Step 2; Step 2; Step 1; Step 2; Step 2] in
  match run all_maps attached_loader es (boot loaded) with
  | Some m =>
      let evs := stream all_maps attached_loader (on 0) es (boot loaded) in
      length evs = 2%nat /\ forall ev, evs !! 1%nat = Some ev -> event_seq ev = 2
  | None => False
  end.
Proof.
  intros es. take_run m E. split; [vm_compute; reflexivity|]. intros ev Hev.
  apply (overlapped_sequence_numbers all_maps attached_loader 0 0 es loaded m) in Hev;
    [exact Hev | | vm_compute; reflexivity | reflexivity | exact E].
  events_ok.
Defined.

(** The proviso matters.  The increment in [next_seq] is a load and a store: a program that another one
    on its CPU preempts in between commits the other's number a second time. *)
Lemma preempted_number_repeated :
  let es := [Begin (demo_ctx 0 42 1) SysEnterListen; Step 0; Step 0;
             Begin (demo_ctx 0 7 2) SysEnterListen; Step 1; Step 1; Step 1; Step 1;
             Step 0; Step 0] in
  match run all_maps attached_loader es (boot loaded) with
  | Some m => map event_seq (records (shared m)) = [1; 1]
  | None => False
  end.
Proof. vm_compute. reflexivity. Qed.

(** ** Category flags *)

Section flags.
Context {BM : BpfMaps} {RB : BpfRingbuf} `{!BpfMapsLaws, !BpfRingbufLaws}.
Context (find_map : string -> bool) (ld : loader) (key : process_key).

Definition of_key (c : ctx) : bool := bool_decide (get_current_process_key c = key).

Definition flags_at (s : bst) : option Z := map_lookup (st_category_flags_map s) key.

(** The flags gain bits; records and bookkeeping do not matter. *)
Definition gains (_ : unit) (x : option Z) (_ : list (list Z)) (_ : unit) (x' : option Z) : Prop :=
  forall f, x = Some f -> exists f', x' = Some f' /\ Z.land f f' = f.

Definition anytime (_ : unit) (_ : option Z) : Prop := True.

#[export] Instance gains_protocol : protocol gains.
Proof.
  split.
  - intros _ x f Hf. exists f. by rewrite Z.land_diag.
  - intros g1 x1 e1 g2 x2 e2 g3 x3 H12 H23 f Hf. destruct (H12 f Hf) as (f2 & Hf2 & Hl2).
    destruct (H23 f2 Hf2) as (f3 & Hf3 & Hl3). exists f3. split; [done|].
    by rewrite <- Hl2, <- Z.land_assoc, Hl3.
Qed.

Definition only_gains {A : Type} (p : prog bst A) : Prop := disciplined flags_at gains anytime p.

Lemma gains_fixed {A : Type} (p : prog bst A) : preserves (fixes flags_at) p -> only_gains p.
Proof.
  intros Hp [] x Hx. induction Hp as [a|C f k Hf Hp IH]; [done|].
  intros s Hs. exists tt. specialize (Hf s). unfold fixes in Hf. rewrite Hf, Hs.
  split; [|apply IH]. exact (moves_refl (moves := gains) tt x).
Qed.

(** The lookup and the update of [file_open]. *)
Lemma gains_update {A : Type} (c : ctx) (category : Z) (k : prog bst A) :
  of_key c = true -> only_gains k ->
  only_gains (flags ← bpf_map_lookup_elem category_flags_map (get_current_process_key c);
    bpf_map_update_elem category_flags_map (get_current_process_key c)
      (match flags with Some f => Z.lor f category | None => category end);;
    k).
Proof.
  unfold of_key. intros ->%bool_decide_eq_true Hk g x _.
  intros s1 Hs1. exists tt. cbn [fst snd]. rewrite Hs1. split; [exact (moves_refl (moves := gains) tt x)|].
  autorewrite with slots. change (map_lookup (st_category_flags_map s1) key) with (flags_at s1).
  rewrite Hs1. intros s2 Hs2. exists tt. autorewrite with slots.
  split; [|by apply Hk].
  intros f ->. destruct (decide (fst (map_update (st_category_flags_map s2) key (Z.lor f category)) = 0)) as [Hz|Hz];
    [exists (Z.lor f category) | exists f]; (split; [|apply land_lor_absorb || apply Z.land_diag]);
    unfold flags_at in *; destruct (map_update _ key _) as [rc m] eqn:Hu; cbn [fst snd] in *; read_slots;
    change m with (snd (rc, m)); rewrite <- Hu.
  - apply map_update_lookup. by rewrite Hu.
  - rewrite map_update_fail; [done|]. by rewrite Hu.
Qed.

(** The events that take the flags of the process away or set them from outside. *)
Definition overrides (e : event) : bool :=
  match e with
  | Begin c h => forgets key (c, h)
  | Step _ => false
  | AgentCall (OpUpdate CategoryFlags pid start_time _)
  | AgentCall (OpDelete CategoryFlags pid start_time) =>
      bool_decide (ProcessKey pid start_time = key)
  | AgentCall _ => false
  end.

Lemma hook_gains (c : ctx) (h : hook_call) :
  forgets key (c, h) = false -> of_key c = true -> only_gains (run_hook c h).
Proof.
  intros Hf Hk.
  destruct h as [file mask| | | | | | | | | | | | | | | | | | |];
    try (apply gains_fixed, (preserves_mono (fixes st_category_flags_map));
         [by unfold fixes, flags_at; intros s s' -> | by apply category_flags_kept]).
  - unfold only_gains. unfold_hook.
    solve_disciplined ltac:(first [by intros ? ? | apply (gains_update c); [exact Hk |] |
      apply gains_fixed; solve [solve_preserves]]).
  - unfold forgets, of_key in *. simpl in Hf. apply bool_decide_eq_false in Hf.
    by apply bool_decide_eq_true in Hk.
Qed.

Lemma hook_other_flags (c : ctx) (h : hook_call) :
  of_key c = false -> preserves (fixes flags_at) (run_hook c h).
Proof.
  intros Hk%bool_decide_eq_false.
  destruct h as [file mask| | | | | | | | | | | | | | | | | | |];
    try (apply (preserves_mono (fixes st_category_flags_map));
         [by unfold fixes, flags_at; intros s s' -> | by apply category_flags_kept]);
    unfold_hook; solve_preserves; first [apply preserves_update_at | apply preserves_delete_at];
    intros s; unfold fixes, flags_at; read_slots; autorewrite with slots;
    first [by apply map_update_ne | by apply map_delete_ne].
Qed.

Lemma agent_flags (o : map_op) (s : bst) :
  overrides (AgentCall o) = false -> flags_at (snd (run_map_op find_map ld o s)) = flags_at s.
Proof.
  intros Ho.
  destruct o as [[] pid st x|[] pid st|ino x|ino x|i x|ino];
    try (refine (preserves_run (_ : preserves (fixes flags_at) (run_map_op find_map ld _)) s);
      unfold run_map_op, UpdateMapEntry, DeleteMapEntry, AddSensitiveInode, AddTrustedExecInode,
        SetConfigValue, LookupTrustedExecInode, update_named, process_map; solve_preserves).
  - apply bool_decide_eq_false in Ho. apply preserves_update_at. intros s0.
    unfold fixes, flags_at. read_slots. autorewrite with slots. by apply map_update_ne.
  - apply bool_decide_eq_false in Ho. apply preserves_delete_at. intros s0.
    unfold fixes, flags_at. read_slots. autorewrite with slots. by apply map_delete_ne.
Qed.

(** C20: the category flags of a process when programs overlap.  The flags are updated
    by a lookup and a later update, without a lock; yet if the programs of the process
    run one after the other, then whatever the programs of other processes and the
    agent do in between, no flag it carries is ever lost, until it exits or the agent
    overrides its entry, and even when updates fail. *)
Theorem overlapped_category_flags (es : list event) (s : bst) (m : machine) (flags : Z) :
  Forall (fun e => overrides e = false) es ->
  one_at_a_time find_map ld of_key es (boot s) = true ->
  flags_at s = Some flags -> run find_map ld es (boot s) = Some m ->
  exists flags', flags_at (shared m) = Some flags' /\ Z.land flags flags' = flags.
Proof.
  intros He Hx Hv Hrun.
  destruct (boot_on_track find_map ld of_key flags_at gains anytime tt es s m)
    as (g & Hg & _); [| done | done | done | by apply Hg].
  eapply Forall_impl; [exact He|]. intros [c h|i|o] Ho; simpl; [|done|intros s0; by apply agent_flags].
  destruct (of_key c) eqn:Hk; [by apply hook_gains | by apply hook_other_flags].
Qed.

End flags.

(** Process 42 opens a file of a second category while process 7 opens it too. *)
Lemma overlapped_category_flags_witness :
  let s := slot_set category_flags_map (Bounded 10240 [(demo_key, 1)]) configured in
  let es := [Begin (demo_ctx 0 42 1) (FileOpen demo_file 0); Step 0; Step 0; Step 0; Step 0;
             Begin (demo_ctx 1 7 2) (FileOpen demo_file 0); Step 1; Step 1; Step 1; Step 1; Step 0;
             Step 1; Step 1; Step 0; AgentCall (OpUpdate CategoryFlags 7 2000 0); Step 0; Step 0;
             Step 0; Step 0] in
  match run all_maps attached_loader es (boot s) with
  | Some m => exists flags, flags_at demo_key (shared m) = Some flags /\ Z.land 1 flags = 1
  | None => False
  end.
Proof.
  intros s es. take_run m E.
  apply (overlapped_category_flags all_maps attached_loader demo_key es s m 1);
    [repeat (constructor; [reflexivity|]); constructor | vm_compute; reflexivity | reflexivity | exact E].
Defined.
