(* ===== verification/UserRecords.v ===== *)
(** Records built in user space: stores into a cleared [TelemetryEvent] and what a
    consumer reads back, shared by the monitors that fill such records
    ([Fanotify], [EtwConsumer]). *)

From S2P Require Export Prelude.
From S2P Require UserLayout.

Local Open Scope Z_scope.

(** [TelemetryEvent event{}] *)
Definition cleared_record : list Z := repeat 0 UserLayout.sizeof_TelemetryEvent.

Definition record_ok (ev : list Z) : Prop := length ev = UserLayout.sizeof_TelemetryEvent.

Section record.

Lemma cleared_record_ok : record_ok cleared_record.
Proof. apply repeat_length. Qed.

Lemma record_put (f : field) (v ev : list Z) :
  (f_end f <=? UserLayout.sizeof_TelemetryEvent)%nat = true -> (length v <= f_len f)%nat ->
  record_ok ev -> record_ok (put f v ev).
Proof.
  unfold record_ok. intros Hf Hv Hl. rewrite length_put; [done| |done].
  unfold within. by rewrite Hl.
Qed.

Lemma record_get_put (f : field) (v ev : list Z) :
  (f_end f <=? UserLayout.sizeof_TelemetryEvent)%nat = true -> length v = f_len f ->
  record_ok ev -> get f (put f v ev) = v.
Proof. intros Hf Hv Hl. apply get_put_eq; [|done]. unfold within. by rewrite Hl. Qed.

Lemma record_get_put_prefix (f : field) (v ev : list Z) :
  (f_end f <=? UserLayout.sizeof_TelemetryEvent)%nat = true -> (length v <= f_len f)%nat ->
  record_ok ev -> get f (put f v ev) = v ++ drop (length v) (get f ev).
Proof. intros Hf Hv Hl. apply get_put_prefix; [|done]. unfold within. by rewrite Hl. Qed.

Lemma record_get_ne (f g : field) (v ev : list Z) :
  disjoint_fields f g = true -> (f_end g <=? UserLayout.sizeof_TelemetryEvent)%nat = true ->
  (length v <= f_len g)%nat -> record_ok ev -> get f (put g v ev) = get f ev.
Proof. intros Hd Hf Hv Hl. apply get_put_disjoint; [done| |done]. unfold within. by rewrite Hl. Qed.

Lemma drop_zeros (n m : nat) : drop n (repeat 0 m) = repeat 0 (m - n).
Proof. revert n; induction m as [|m IH]; intros [|n]; simpl; [done..|]. apply IH. Qed.

Lemma take_zeros (n m : nat) : take n (repeat 0 m) = repeat 0 (Nat.min n m).
Proof. revert n; induction m as [|m IH]; intros [|n]; simpl; [done..|]. by rewrite IH. Qed.

Lemma get_cleared (f : field) :
  (f_end f <=? UserLayout.sizeof_TelemetryEvent)%nat = true ->
  get f cleared_record = repeat 0 (f_len f).
Proof.
  intros Hf%Nat.leb_le. unfold f_end in Hf. unfold get, cleared_record.
  rewrite drop_zeros, take_zeros. f_equal. lia.
Qed.

Lemma length_strncpy (n : nat) (src : list Z) :
  length (take n src ++ repeat 0 (n - length src)) = n.
Proof. rewrite length_app, length_take, repeat_length. lia. Qed.

Lemma cstr_take_pad (n : nat) (src : list Z) :
  Forall nonzero src -> cstr ((take n src ++ repeat 0 (n - length src)) ++ [0]) = take n src.
Proof.
  intros Hs. assert (Forall nonzero (take n src)) as Ht by (by apply Forall_take).
  destruct (n - length src)%nat as [|k]; simpl repeat; rewrite <- app_assoc; by apply cstr_terminated.
Qed.

End record.

(** [solve_rec]: sizes of the stores into the record. *)
Ltac solve_rec :=
  repeat first
    [ assumption
    | apply cleared_record_ok
    | apply record_put
    | apply Nat.leb_le; reflexivity
    | reflexivity
    | rewrite length_le_enc; simpl; lia
    | rewrite length_strncpy; simpl; lia ].
