(* ===== verification/SenderLog.v ===== *)
(** What a sender may put on the wire, as a contract.

    [SenderMachine] is what the rest of the development needs to know of a sender
    whose threads interleave: which label is a call of SendEvent, which event a
    thread is in the middle of sending, which step writes, and what is on each
    connection.  [SenderMachineLaws] says that one step writes at most the event
    its thread is sending, once.  From the laws alone it follows that no run
    invents, repeats or reorders the events of a thread ([run_log]).  [LinuxIpc] and
    [WindowsIpc] are instances. *)

From S2P Require Export Prelude.

(** A write: the thread, the connection, the event and the bytes written of it. *)
Record write : Type := Write {
  w_thread : nat;
  w_conn : nat;
  w_event : list Z;
  w_bytes : nat;
}.

#[export] Instance write_eq_dec : EqDecision write.
Proof. solve_decision. Defined.

Class SenderMachine (S L : Type) : Type := {
  sm_step : L -> S -> option S;
  (** the call of SendEvent a label stands for *)
  sm_call : L -> option (nat * list Z);
  (** the event a thread has been called with and not written yet *)
  sm_pending : S -> nat -> option (list Z);
  (** what a step of this label writes *)
  sm_write : L -> S -> option write;
  (** the events, cut ones included, on a connection *)
  sm_events : S -> nat -> list (list Z * nat);
}.

(** ** Histories *)

Section log.
Context {S L : Type} {SM : SenderMachine S L}.

Fixpoint sm_run (ls : list L) (s : S) : option S :=
  match ls with
  | [] => Some s
  | l :: rest => match sm_step l s with Some s' => sm_run rest s' | None => None end
  end.

Definition call_of (t : nat) (l : L) : option (list Z) :=
  match sm_call l with
  | Some (t', ev) => if (t =? t')%nat then Some ev else None
  | None => None
  end.

(** The events thread [t] calls SendEvent with, in order. *)
Definition calls_of (t : nat) (ls : list L) : list (list Z) := omap (call_of t) ls.

Definition by_thread (t : nat) (log : list write) : list (list Z) :=
  omap (fun w => if (w_thread w =? t)%nat then Some (w_event w) else None) log.

Definition on_conn (i : nat) (log : list write) : list (list Z * nat) :=
  omap (fun w => if (w_conn w =? i)%nat then Some (w_event w, w_bytes w) else None) log.

Definition pending (s : S) (t : nat) : list (list Z) := option_list (sm_pending s t).

Class SenderMachineLaws : Prop := {
  (** a step appends what it writes, to one connection *)
  step_events : forall l s s' i, sm_step l s = Some s' ->
    sm_events s' i = sm_events s i ++ on_conn i (option_list (sm_write l s));
  (** a thread writes the event it is sending, and is then done with it; an event
      it starts to send is one it is called with *)
  step_pending : forall l s s' t, sm_step l s = Some s' ->
    by_thread t (option_list (sm_write l s)) ++ pending s' t
      `sublist_of` pending s t ++ option_list (call_of t l);
}.

Context `{!SenderMachineLaws}.

Lemma calls_of_cons (t : nat) (l : L) (ls : list L) :
  calls_of t (l :: ls) = option_list (call_of t l) ++ calls_of t ls.
Proof using. unfold calls_of. simpl. by destruct (call_of t l). Qed.

Lemma by_thread_app (t : nat) (log log' : list write) :
  by_thread t (log ++ log') = by_thread t log ++ by_thread t log'.
Proof using. apply omap_app. Qed.

Lemma on_conn_app (i : nat) (log log' : list write) :
  on_conn i (log ++ log') = on_conn i log ++ on_conn i log'.
Proof using. apply omap_app. Qed.

(** Every run has a log of writes: per connection it is what the connection carries,
    per thread it is among what the thread was called with, in order. *)
Lemma run_log (ls : list L) (s s' : S) :
  sm_run ls s = Some s' ->
  exists log,
    (forall i, sm_events s' i = sm_events s i ++ on_conn i log) /\
    (forall t, by_thread t log ++ pending s' t `sublist_of` pending s t ++ calls_of t ls).
Proof.
  revert s. induction ls as [|l ls IH]; intros s; cbn [sm_run].
  - intros [= <-]. exists []. split; [intros; by rewrite app_nil_r|].
    intros t. simpl. by rewrite app_nil_r.
  - destruct (sm_step l s) as [s1|] eqn:Hs; [|done]. intros Hrun.
    destruct (IH s1 Hrun) as (log & Hev & Hth). exists (option_list (sm_write l s) ++ log).
    split.
    + intros i. by rewrite Hev, (step_events l s s1 i Hs), on_conn_app, app_assoc.
    + intros t. rewrite calls_of_cons, by_thread_app, <- app_assoc.
      etrans; [apply sublist_app; [reflexivity | apply Hth]|].
      rewrite !app_assoc. apply sublist_app; [|reflexivity]. by apply (step_pending l s s1 t).
Qed.

(** The log of a run of a new sender. *)
Lemma fresh_log (ls : list L) (s s' : S) :
  (forall i, sm_events s i = []) -> sm_run ls s = Some s' ->
  exists log, (forall i, sm_events s' i = on_conn i log) /\
    (forall t, sm_pending s t = None -> by_thread t log `sublist_of` calls_of t ls).
Proof.
  intros He Hrun. destruct (run_log ls s s' Hrun) as (log & Hev & Hth). exists log. split.
  - intros i. by rewrite Hev, He.
  - intros t Hp. specialize (Hth t). unfold pending in Hth. rewrite Hp in Hth.
    etrans; [|exact Hth]. by apply sublist_inserts_r.
Qed.

End log.

(** What holds of every event the threads were called with holds of the events on
    the connections. *)
Lemma log_forall (P : list Z -> Prop) (calls : nat -> list (list Z)) (i : nat) (log : list write) :
  (forall t, by_thread t log `sublist_of` calls t) -> (forall t, Forall P (calls t)) ->
  Forall (fun e => P (fst e)) (on_conn i log).
Proof.
  intros Hth Hc. apply Forall_forall. intros [ev n] Hin.
  unfold on_conn in Hin. apply list_elem_of_omap in Hin as (w & Hw & Heq).
  case_match; [|done]. injection Heq as <- <-.
  specialize (Hc (w_thread w)). rewrite Forall_forall in Hc. apply Hc.
  eapply (sublist_subseteq _ _ (Hth (w_thread w))).
  apply list_elem_of_omap. exists w. by rewrite Nat.eqb_refl.
Qed.

#[global] Arguments SenderMachineLaws (S L) {SM}.
