(* ===== verification/LinuxIpc.v ===== *)
(** The agent connection on Linux: LinuxTelemetrySender (src/linux/linux_ipc.cpp)
    and LinuxTtyTelemetrySender (src/ffi.cpp, lines 14-82), which is the same
    machine without the permission check and the handshake.

    Three kinds of threads share the atomics [running_], [connected_] and
    [socket_fd_]: the connection thread, any number of threads in SendEvent, and
    the control thread in Start and Stop.  Each access to an atomic and each
    system call is one step of [step], so a run is an interleaving; the label of
    a step says which thread moves and what its system call returned. *)

From stdpp Require Import gmap.
From S2P Require Export Prelude.
From S2P Require UserLayout.

Local Open Scope Z_scope.

(** What is written to a connection: part of the handshake, or [n] bytes of an
    event record. *)
Inductive chunk : Type :=
| Hello (bs : list Z)
| Event (ev : list Z) (n : nat).

#[export] Instance chunk_eq_dec : EqDecision chunk.
Proof. solve_decision. Defined.

(** The event, or part of one, in a chunk. *)
Definition chunk_event (c : chunk) : option (list Z * nat) :=
  match c with Event ev n => Some (ev, n) | Hello _ => None end.

(** Which of the two senders, and its configuration. *)
Record sender_config : Type := SenderConfig {
  secured : bool;
  auth_token : list Z;
  record_size : nat;
}.

Definition LinuxTelemetrySender (token : list Z) : sender_config :=
  SenderConfig true token UserLayout.sizeof_TelemetryEvent.

Definition LinuxTtyTelemetrySender : sender_config :=
  SenderConfig false [] UserLayout.sizeof_TtyEvent.

(** ** Program counters *)

(** [ConnectionLoop]: where the thread is, with its local [fd]. *)
Inductive conn_pc : Type :=
| CLoop                  (* while (running_) *)
| CCheck                 (* if (connected_) *)
| CSocket                (* socket(..) *)
| CConnect (fd : Z)      (* connect(fd, ..) *)
| CStat (fd : Z)         (* stat(..) and the permission test *)
| CHandshake (fd : Z)    (* PerformHandshake(fd) *)
| CClose (fd : Z)        (* close(fd) on a failure *)
| CStore (fd : Z)        (* socket_fd_ = fd *)
| CSetConnected          (* connected_ = true *)
| CExited.

(** [SendEvent]. *)
Inductive send_pc : Type :=
| SIdle
| SWaiting (ev : list Z)            (* lock(send_mutex_) *)
| SLocked (ev : list Z)             (* fd = socket_fd_.load() *)
| SWriting (ev : list Z) (fd : Z)   (* write(fd, ..) *)
| SFailed (fd : Z)                  (* connected_ = false *)
| SClosing (fd : Z)                 (* close(fd) *)
| SReset.                           (* socket_fd_ = -1 *)

(** [Stop], step by step. *)
Inductive ctl_pc : Type :=
| KIdle
| KDisconnect            (* connected_ = false *)
| KExchange              (* fd = socket_fd_.exchange(-1) *)
| KClose (fd : Z)        (* close(fd) *)
| KJoin.                 (* connection_thread_.join() *)

(** ** State

    [fds] is the process's table of open sockets: the connection behind each
    descriptor.  Connections are numbered in the order they are created;
    [authenticated] marks those that passed the checks, [streams] is what was
    written to each. *)
Record ipc : Type := Ipc {
  running_ : bool;
  connected_ : bool;
  socket_fd_ : Z;
  conn : option conn_pc;
  senders : nat -> send_pc;
  lock : option nat;
  ctl : ctl_pc;
  fds : gmap Z nat;
  next_conn : nat;
  authenticated : nat -> bool;
  streams : nat -> list chunk;
}.

Definition new_sender : ipc :=
  Ipc false false (-1) None (fun _ => SIdle) None KIdle ∅ 0 (fun _ => false) (fun _ => []).

Definition set_running (v : bool) (s : ipc) : ipc :=
  Ipc v (connected_ s) (socket_fd_ s) (conn s) (senders s) (lock s) (ctl s) (fds s)
    (next_conn s) (authenticated s) (streams s).
Definition set_connected (v : bool) (s : ipc) : ipc :=
  Ipc (running_ s) v (socket_fd_ s) (conn s) (senders s) (lock s) (ctl s) (fds s)
    (next_conn s) (authenticated s) (streams s).
Definition set_socket_fd (v : Z) (s : ipc) : ipc :=
  Ipc (running_ s) (connected_ s) v (conn s) (senders s) (lock s) (ctl s) (fds s)
    (next_conn s) (authenticated s) (streams s).
Definition set_conn (v : option conn_pc) (s : ipc) : ipc :=
  Ipc (running_ s) (connected_ s) (socket_fd_ s) v (senders s) (lock s) (ctl s) (fds s)
    (next_conn s) (authenticated s) (streams s).
Definition upd {A : Type} (f : nat -> A) (i : nat) (v : A) : nat -> A :=
  fun j => if (j =? i)%nat then v else f j.
Lemma upd_eq {A : Type} (f : nat -> A) (i : nat) (v : A) : upd f i v i = v.
Proof. unfold upd. by rewrite Nat.eqb_refl. Qed.

Lemma upd_ne {A : Type} (f : nat -> A) (i j : nat) (v : A) : j <> i -> upd f i v j = f j.
Proof. unfold upd. by intros H%Nat.eqb_neq; rewrite H. Qed.

Definition set_sender (t : nat) (v : send_pc) (s : ipc) : ipc :=
  Ipc (running_ s) (connected_ s) (socket_fd_ s) (conn s) (upd (senders s) t v) (lock s)
    (ctl s) (fds s) (next_conn s) (authenticated s) (streams s).
Definition set_lock (v : option nat) (s : ipc) : ipc :=
  Ipc (running_ s) (connected_ s) (socket_fd_ s) (conn s) (senders s) v (ctl s) (fds s)
    (next_conn s) (authenticated s) (streams s).
Definition set_ctl (v : ctl_pc) (s : ipc) : ipc :=
  Ipc (running_ s) (connected_ s) (socket_fd_ s) (conn s) (senders s) (lock s) v (fds s)
    (next_conn s) (authenticated s) (streams s).

(** ** System calls *)

(** [socket()] returned [fd]: a new connection. *)
Definition open_fd (fd : Z) (s : ipc) : ipc :=
  Ipc (running_ s) (connected_ s) (socket_fd_ s) (conn s) (senders s) (lock s) (ctl s)
    (<[fd := next_conn s]> (fds s)) (S (next_conn s)) (authenticated s) (streams s).

(** [close(fd)]: EBADF when [fd] is not open. *)
Definition close_fd (fd : Z) (s : ipc) : ipc :=
  Ipc (running_ s) (connected_ s) (socket_fd_ s) (conn s) (senders s) (lock s) (ctl s)
    (delete fd (fds s)) (next_conn s) (authenticated s) (streams s).

(** Appends what a write put on the connection behind [fd], if there is one. *)
Definition write_fd (fd : Z) (cs : list chunk) (s : ipc) : ipc :=
  match fds s !! fd with
  | None => s
  | Some i =>
      Ipc (running_ s) (connected_ s) (socket_fd_ s) (conn s) (senders s) (lock s) (ctl s)
        (fds s) (next_conn s) (authenticated s) (upd (streams s) i (streams s i ++ cs))
  end.

Definition authenticate (fd : Z) (s : ipc) : ipc :=
  match fds s !! fd with
  | None => s
  | Some i =>
      Ipc (running_ s) (connected_ s) (socket_fd_ s) (conn s) (senders s) (lock s) (ctl s)
        (fds s) (next_conn s) (upd (authenticated s) i true) (streams s)
  end.

(** What the system calls of one connection-thread step returned. *)
Inductive conn_result : Type :=
| RNone
| RSocket (fd : option Z)
| RConnect (ok : bool)
| RStat (mode : option Z)
| RHandshake (w1 w2 : Z) (status : option Z).

(** [S_IWOTH | S_IXOTH | S_IWGRP | S_IXGRP] *)
Definition insecure_bits : Z := 27.

(** The bytes a write of [bs] that returned [w] has put on the wire. *)
Definition written (w : Z) (bs : list Z) : list Z := take (Z.to_nat w) bs.

(** [PerformHandshake]: what it writes and whether it succeeds, when its two
    writes return [w1] and [w2] and its read yields [status] ([None]: the read
    did not return one byte). *)
Definition PerformHandshake (token : list Z) (w1 w2 : Z) (status : option Z)
  : list chunk * bool :=
  if bool_decide (token = []) then ([], true) else
  let len := wrap 32 (Z.of_nat (length token)) in
  if negb (w1 =? 4) then ([Hello (written w1 (le_enc 4 len))], false) else
  if negb (w2 =? len) then ([Hello (le_enc 4 len); Hello (written w2 token)], false) else
  let sent := [Hello (le_enc 4 len); Hello (written len token)] in
  match status with
  | None => (sent, false)
  | Some status => (sent, status =? 1)
  end.

(** ** Steps *)

Section machine.
Context (cfg : sender_config).

(** One step of the connection thread. *)
Definition step_conn (pc : conn_pc) (r : conn_result) (s : ipc) : option ipc :=
  let goto pc s := Some (set_conn (Some pc) s) in
  match pc, r with
  | CLoop, RNone => goto (if running_ s then CCheck else CExited) s
  | CCheck, RNone => goto (if connected_ s then CLoop else CSocket) s
  | CSocket, RSocket None => goto CLoop s
  | CSocket, RSocket (Some fd) =>
      if (0 <=? fd) && bool_decide (fds s !! fd = None) then goto (CConnect fd) (open_fd fd s)
      else None
  | CConnect fd, RConnect ok =>
      goto (if negb ok then CClose fd else if secured cfg then CStat fd else CStore fd)
        (if ok && negb (secured cfg) then authenticate fd s else s)
  | CStat fd, RStat mode =>
      let insecure :=
        match mode with Some m => negb (Z.land m insecure_bits =? 0) | None => false end in
      goto (if insecure then CClose fd else CHandshake fd) s
  | CHandshake fd, RHandshake w1 w2 status =>
      let '(cs, ok) := PerformHandshake (auth_token cfg) w1 w2 status in
      let s := write_fd fd cs s in
      if (ok : bool) then goto (CStore fd) (authenticate fd s) else goto (CClose fd) s
  | CClose fd, RNone => goto CLoop (close_fd fd s)
  | CStore fd, RNone => goto CSetConnected (set_socket_fd fd s)
  | CSetConnected, RNone => goto CLoop (set_connected true s)
  | _, _ => None
  end.

(** One step of SendEvent in the thread [t]; [n] is what its write returned. *)
Definition step_sender (t : nat) (pc : send_pc) (n : Z) (s : ipc) : option ipc :=
  match pc with
  | SIdle => None
  | SWaiting ev =>
      match lock s with
      | None => Some (set_sender t (SLocked ev) (set_lock (Some t) s))
      | Some _ => None
      end
  | SLocked ev =>
      if socket_fd_ s =? -1 then Some (set_sender t SIdle (set_lock None s))
      else Some (set_sender t (SWriting ev (socket_fd_ s)) s)
  | SWriting ev fd =>
      if (n <? -1) || (Z.of_nat (length ev) <? n) then None else
      (* a closed descriptor: the write fails with EBADF *)
      if bool_decide (fds s !! fd = None) && negb (n =? -1) then None else
      let s := if n <=? 0 then s else write_fd fd [Event ev (Z.to_nat n)] s in
      if n =? Z.of_nat (length ev) then Some (set_sender t SIdle (set_lock None s))
      else Some (set_sender t (SFailed fd) s)
  | SFailed fd => Some (set_sender t (SClosing fd) (set_connected false s))
  | SClosing fd => Some (set_sender t SReset (close_fd fd s))
  | SReset => Some (set_sender t SIdle (set_lock None (set_socket_fd (-1) s)))
  end.

(** One step of [Stop]. *)
Definition step_ctl (s : ipc) : option ipc :=
  match ctl s with
  | KIdle => None
  | KDisconnect => Some (set_ctl KExchange (set_connected false s))
  | KExchange =>
      Some (set_ctl (if socket_fd_ s =? -1 then KJoin else KClose (socket_fd_ s))
        (set_socket_fd (-1) s))
  | KClose fd => Some (set_ctl KJoin (close_fd fd s))
  | KJoin =>
      match conn s with
      | None => Some (set_ctl KIdle s)
      | Some CExited => Some (set_ctl KIdle (set_conn None s))
      | Some _ => None
      end
  end.

Inductive label : Type :=
| LStart                          (* Start(config) *)
| LStop                           (* Stop() is called: running_ = false *)
| LCtl                            (* the next step of Stop *)
| LConn (r : conn_result)         (* the connection thread *)
| LSend (t : nat) (ev : list Z)   (* thread t calls SendEvent(ev) *)
| LSender (t : nat) (n : Z).      (* the next step of thread t in SendEvent *)

Definition step (l : label) (s : ipc) : option ipc :=
  match l with
  | LStart =>
      match ctl s, conn s with
      | KIdle, None =>
          if running_ s then Some s else Some (set_conn (Some CLoop) (set_running true s))
      | KIdle, Some _ => if running_ s then Some s else None
      | _, _ => None
      end
  | LStop =>
      match ctl s with
      | KIdle => Some (set_ctl KDisconnect (set_running false s))
      | _ => None
      end
  | LCtl => step_ctl s
  | LConn r => match conn s with Some pc => step_conn pc r s | None => None end
  | LSend t ev =>
      if negb (length ev =? record_size cfg)%nat then None else
      match senders s t with
      | SIdle => if connected_ s then Some (set_sender t (SWaiting ev) s) else Some s
      | _ => None
      end
  | LSender t n => step_sender t (senders s t) n s
  end.

Fixpoint run_labels (ls : list label) (s : ipc) : option ipc :=
  match ls with
  | [] => Some s
  | l :: rest => match step l s with Some s' => run_labels rest s' | None => None end
  end.

End machine.
