(* ===== verification/LinuxIpcTheorems.v ===== *)
(** Theorems about the Linux senders: framing of the byte stream while no Stop
    interferes, and the interleavings that lose the connection or misuse a
    descriptor. *)

From stdpp Require Import gmap.
From S2P Require Export LinuxIpc.

Local Open Scope Z_scope.

(** ** The stream a connection should carry *)

Definition is_event (c : chunk) : bool := match c with Event _ _ => true | Hello _ => false end.

(** A whole record. *)
Definition whole (c : chunk) : bool :=
  match c with Event ev n => (n =? length ev)%nat | Hello _ => false end.

(** The greeting the agent expects: the token's length, then the token. *)
Definition greeting (cfg : sender_config) : list chunk :=
  if secured cfg then fst (PerformHandshake (auth_token cfg) 4
    (wrap 32 (Z.of_nat (length (auth_token cfg)))) (Some 1)) else [].

(** The greeting, then whole records. *)
Definition clean (cfg : sender_config) (cs : list chunk) : Prop :=
  exists evs, cs = greeting cfg ++ evs /\ Forall (fun c => whole c = true) evs.

(** The greeting, whole records, and at most one cut record at the end. *)
Definition framed (cfg : sender_config) (cs : list chunk) : Prop :=
  exists evs last, cs = greeting cfg ++ evs ++ last /\
    Forall (fun c => whole c = true) evs /\
    (last = [] \/ exists ev n, last = [Event ev n]).

Lemma clean_framed (cfg : sender_config) (cs : list chunk) : clean cfg cs -> framed cfg cs.
Proof. intros (evs & -> & He). exists evs, []. rewrite app_nil_r. auto. Qed.

Lemma clean_whole (cfg : sender_config) (cs : list chunk) (ev : list Z) :
  clean cfg cs -> clean cfg (cs ++ [Event ev (length ev)]).
Proof.
  intros (evs & -> & He). exists (evs ++ [Event ev (length ev)]). rewrite app_assoc.
  split; [done|]. apply Forall_app. split; [done|]. constructor; [|done]. apply Nat.eqb_refl.
Qed.

Lemma clean_cut (cfg : sender_config) (cs : list chunk) (ev : list Z) (n : nat) :
  clean cfg cs -> framed cfg (cs ++ [Event ev n]).
Proof.
  intros (evs & -> & He). exists evs, [Event ev n]. rewrite app_assoc.
  split; [done|]. split; [done|]. right. by exists ev, n.
Qed.

(** A successful handshake writes the greeting; a failed one writes no record. *)
Lemma handshake_greeting (cfg : sender_config) (w1 w2 : Z) (st : option Z) (cs : list chunk) :
  secured cfg = true -> PerformHandshake (auth_token cfg) w1 w2 st = (cs, true) ->
  cs = greeting cfg.
Proof.
  unfold greeting. intros ->. cbv iota. unfold PerformHandshake.
  case_bool_decide; [by intros [= <-]|]. cbv zeta.
  destruct (w1 =? 4); [|done]. destruct (w2 =? _); [|done]. rewrite !Z.eqb_refl. cbn [negb].
  destruct st; [|done]. by intros [= <- _].
Qed.

Lemma handshake_no_event (token : list Z) (w1 w2 : Z) (st : option Z) :
  Forall (fun c => is_event c = false) (fst (PerformHandshake token w1 w2 st)).
Proof.
  unfold PerformHandshake. case_bool_decide; [constructor|]. cbv zeta.
  destruct (negb (w1 =? 4)); [repeat constructor|].
  destruct (negb (w2 =? _)); [repeat constructor|]. destruct st; repeat constructor.
Qed.

(** ** The invariant of runs without Stop *)

(** The descriptor the connection thread works on. *)
Definition conn_fd (pc : conn_pc) : option Z :=
  match pc with
  | CConnect fd | CStat fd | CHandshake fd | CClose fd | CStore fd => Some fd
  | _ => None
  end.

Definition send_fd (pc : send_pc) : option Z :=
  match pc with SWriting _ fd | SFailed fd | SClosing fd => Some fd | _ => None end.

(** Inside the mutex. *)
Definition critical (pc : send_pc) : bool :=
  match pc with SIdle | SWaiting _ => false | _ => true end.

(** After a failed write. *)
Definition failing (pc : send_pc) : bool :=
  match pc with SFailed _ | SClosing _ | SReset => true | _ => false end.

Section invariant.
Context (cfg : sender_config).

(** The connection behind [fd] is open, authenticated and has only seen whole
    records. *)
Definition ready (s : ipc) (fd : Z) : Prop :=
  exists i, fds s !! fd = Some i /\ authenticated s i = true /\ clean cfg (streams s i).

Definition no_failure (s : ipc) : Prop := forall t, failing (senders s t) = false.

(** What the connection thread knows about its descriptor. *)
Definition conn_ready (pc : conn_pc) (s : ipc) (fd : Z) : Prop :=
  match pc with
  | CStore _ => ready s fd
  | CConnect _ =>
      exists i, fds s !! fd = Some i /\ authenticated s i = false /\ streams s i = []
  | CStat _ | CHandshake _ =>
      secured cfg = true /\
      exists i, fds s !! fd = Some i /\ authenticated s i = false /\ streams s i = []
  | _ => exists i, fds s !! fd = Some i /\ authenticated s i = false
  end.

Record inv (s : ipc) : Prop := Inv {
  i_ids : forall fd i, fds s !! fd = Some i -> (i < next_conn s)%nat;
  i_inj : forall fd fd' i, fds s !! fd = Some i -> fds s !! fd' = Some i -> fd = fd';
  i_fresh : forall i, (next_conn s <= i)%nat -> authenticated s i = false /\ streams s i = [];
  i_unauth : forall i, authenticated s i = false ->
    Forall (fun c => is_event c = false) (streams s i);
  i_auth : forall i, authenticated s i = true -> framed cfg (streams s i);
  i_lock : forall t, critical (senders s t) = true -> lock s = Some t;
  i_writing : forall t ev fd, senders s t = SWriting ev fd -> ready s fd;
  i_failing : forall t fd, senders s t = SFailed fd \/ senders s t = SClosing fd ->
    exists i, fds s !! fd = Some i /\ authenticated s i = true;
  i_socket : socket_fd_ s <> -1 -> no_failure s -> ready s (socket_fd_ s);
  i_conn : forall pc fd, conn s = Some pc -> conn_fd pc = Some fd ->
    0 <= fd /\ conn_ready pc s fd /\
    (forall t f, send_fd (senders s t) = Some f -> f <> fd) /\
    (no_failure s -> socket_fd_ s <> fd);
  i_ctl : ctl s = KIdle;
}.

Lemma inv_new : inv new_sender.
Proof using. split; simpl; intros; try done; by destruct_or?. Qed.

(** ** Readiness under the steps *)

(** Only the table, the marks and the streams matter. *)
Lemma ready_ext (s s' : ipc) (fd : Z) :
  fds s' = fds s -> authenticated s' = authenticated s -> streams s' = streams s ->
  ready s fd -> ready s' fd.
Proof using. unfold ready. by intros -> -> ->. Qed.

Lemma conn_ready_ext (pc : conn_pc) (s s' : ipc) (fd : Z) :
  fds s' = fds s -> authenticated s' = authenticated s -> streams s' = streams s ->
  conn_ready pc s fd -> conn_ready pc s' fd.
Proof using. intros H1 H2 H3. destruct pc; simpl; unfold ready; by rewrite H1, H2, ?H3. Qed.

Lemma ready_open (s : ipc) (fd f : Z) :
  fds s !! fd = None -> ready s f -> ready (open_fd fd s) f.
Proof using.
  intros Hn (i & Hi & Ha & Hc). exists i. simpl. rewrite lookup_insert_ne; [done|congruence].
Qed.

Lemma ready_close (s : ipc) (fd f : Z) : f <> fd -> ready s f -> ready (close_fd fd s) f.
Proof using. intros Hn (i & Hi & Ha & Hc). exists i. simpl. by rewrite lookup_delete_ne. Qed.

(** Two threads are never both inside the mutex. *)
Lemma holder_unique (s : ipc) (t t' : nat) :
  inv s -> critical (senders s t) = true -> critical (senders s t') = true -> t = t'.
Proof using.
  intros Hi Ht Ht'. pose proof (i_lock s Hi t Ht). pose proof (i_lock s Hi t' Ht'). congruence.
Qed.

Lemma failing_critical (pc : send_pc) : failing pc = true -> critical pc = true.
Proof using. by destruct pc. Qed.

(** The holder is not failing, so nobody is. *)
Lemma holder_no_failure (s : ipc) (t : nat) :
  inv s -> critical (senders s t) = true -> failing (senders s t) = false -> no_failure s.
Proof using.
  intros Hi Hc Hf t'. destruct (failing (senders s t')) eqn:Ht'; [|done].
  rewrite <- (holder_unique s t t' Hi Hc) in Ht' by (by apply failing_critical). congruence.
Qed.

(** ** The connection thread *)

(** Moving the connection thread to a point without a descriptor. *)
Lemma inv_goto (s : ipc) (pc : conn_pc) (b : bool) :
  inv s -> conn_fd pc = None -> inv (set_conn (Some pc) (set_connected b s)).
Proof using.
  intros [] Hpc. split; simpl; try done. by intros pc' fd [= <-]; rewrite Hpc.
Qed.

Lemma inv_socket (s : ipc) (fd : Z) :
  inv s -> 0 <= fd -> fds s !! fd = None -> conn s = Some CSocket ->
  inv (set_conn (Some (CConnect fd)) (open_fd fd s)).
Proof using.
  intros Hi Hfd Hn Hpc. pose proof Hi as []. split; simpl; try done.
  - intros f i. rewrite lookup_insert_Some. intros [[<- <-]|[Hne Hf]]; [lia|].
    apply i_ids0 in Hf. lia.
  - intros f f' i. rewrite !lookup_insert_Some.
    intros [[<- <-]|[Hne Hf]] [[<- Hq]|[Hne' Hf']]; try done.
    + apply i_ids0 in Hf'. lia.
    + apply i_ids0 in Hf. lia.
    + by eapply i_inj0.
  - intros i Hlt. apply i_fresh0. lia.
  - intros t ev f Hs. apply ready_open; [done | by eapply i_writing0].
  - intros t f Hs. destruct (i_failing0 t f Hs) as (i & Hf & Ha). exists i.
    rewrite lookup_insert_ne; [done|congruence].
  - intros Hs Hnf. apply ready_open; [done | by apply i_socket0].
  - intros pc f [= <-] [= <-]. split; [done|]. split.
    + simpl. exists (next_conn s). rewrite lookup_insert_eq. split; [done|]. by apply i_fresh0.
    + split.
      * intros t f' Hs ->. destruct (senders s t) eqn:Ht; try done; injection Hs as ->.
        -- destruct (i_writing0 t _ _ Ht) as (i & Hf & _). congruence.
        -- destruct (i_failing0 t fd ltac:(by left)) as (i & Hf & _). congruence.
        -- destruct (i_failing0 t fd ltac:(by right)) as (i & Hf & _). congruence.
      * intros Hnf Heq. destruct i_socket0 as (i & Hf & _); [lia | done|]. congruence.
Qed.

(** Moving on with the same descriptor. *)
Lemma inv_keep_fd (s : ipc) (pc pc' : conn_pc) (fd : Z) :
  inv s -> conn s = Some pc -> conn_fd pc = Some fd -> conn_fd pc' = Some fd ->
  conn_ready pc' s fd -> inv (set_conn (Some pc') s).
Proof using.
  intros Hi Hpc Hfd Hfd' Hr. pose proof Hi as []. split; simpl; try done.
  intros pc1 f [= <-] Hf. assert (f = fd) as -> by congruence.
  destruct (i_conn0 pc fd Hpc Hfd) as (H1 & _ & H3 & H4).
  split; [done|]. split; [|done]. by eapply conn_ready_ext; [..|exact Hr].
Qed.

(** The connection thread marks and writes its own connection [i]. *)
Definition marked (au : nat -> bool) (st : nat -> list chunk) (s : ipc) : ipc :=
  Ipc (running_ s) (connected_ s) (socket_fd_ s) (conn s) (senders s) (lock s) (ctl s) (fds s)
    (next_conn s) au st.

Lemma ready_marked (s : ipc) (au : nat -> bool) (st : nat -> list chunk) (i : nat) (f : Z) :
  (forall j, j <> i -> au j = authenticated s j /\ st j = streams s j) ->
  authenticated s i = false -> ready s f -> ready (marked au st s) f.
Proof using.
  intros Hne Hi (j & Hj & Ha & Hc). assert (j <> i) as Hji by congruence.
  destruct (Hne j Hji) as [H1 H2]. exists j. simpl. by rewrite H1, H2.
Qed.

Lemma inv_marked (s : ipc) (pc pc' : conn_pc) (fd : Z) (i : nat) (au : nat -> bool)
    (st : nat -> list chunk) :
  inv s -> conn s = Some pc -> conn_fd pc = Some fd -> conn_fd pc' = Some fd ->
  fds s !! fd = Some i -> authenticated s i = false ->
  (forall j, j <> i -> au j = authenticated s j /\ st j = streams s j) ->
  (if au i then clean cfg (st i) else Forall (fun c => is_event c = false) (st i)) ->
  conn_ready pc' (marked au st s) fd ->
  inv (set_conn (Some pc') (marked au st s)).
Proof using.
  intros Hi Hpc Hfd Hfd' Hl Ha Hne Hst Hr. pose proof Hi as []. split; simpl; try done.
  - intros j Hj. assert (j <> i) as Hji by (intros ->; apply i_ids0 in Hl; lia).
    destruct (Hne j Hji) as [-> ->]. by apply i_fresh0.
  - intros j Hj. destruct (decide (j = i)) as [->|Hji]; [by rewrite Hj in Hst|].
    destruct (Hne j Hji) as [H1 ->]. apply i_unauth0. congruence.
  - intros j Hj. destruct (decide (j = i)) as [->|Hji];
      [rewrite Hj in Hst; by apply clean_framed|].
    destruct (Hne j Hji) as [H1 ->]. apply i_auth0. congruence.
  - intros t ev f Hs. apply (ready_marked s au st i); [done..|]. by eapply i_writing0.
  - intros t f Hs. destruct (i_failing0 t f Hs) as (j & Hf & Hj). exists j. split; [done|].
    assert (j <> i) as Hji by congruence. by destruct (Hne j Hji) as [-> _].
  - intros Hs Hnf. apply (ready_marked s au st i); [done..|]. by apply i_socket0.
  - intros pc1 f [= <-] Hf. assert (f = fd) as -> by congruence.
    destruct (i_conn0 pc fd Hpc Hfd) as (H1 & _ & H3 & H4). done.
Qed.

(** The connection thread closes its own unauthenticated connection. *)
Lemma inv_close (s : ipc) (fd : Z) :
  inv s -> conn s = Some (CClose fd) -> inv (set_conn (Some CLoop) (close_fd fd s)).
Proof using.
  intros Hi Hpc. pose proof Hi as [].
  destruct (i_conn0 _ fd Hpc eq_refl) as (H1 & (i & Hl & Ha) & H3 & H4).
  split; simpl; try done.
  - intros f j. rewrite lookup_delete_Some. intros [_ Hf]. by eapply i_ids0.
  - intros f f' j. rewrite !lookup_delete_Some. intros [_ Hf] [_ Hf']. by eapply i_inj0.
  - intros t ev f Hs. apply ready_close; [|by eapply i_writing0].
    apply (H3 t). by rewrite Hs.
  - intros t f Hs. destruct (i_failing0 t f Hs) as (j & Hf & Hj). exists j.
    rewrite lookup_delete_ne; [done|]. intros ->. congruence.
  - intros Hs Hnf. apply ready_close; [by apply H4 | by apply i_socket0].
  - by intros pc f [= <-].
Qed.

(** The connection thread publishes its descriptor. *)
Lemma inv_store (s : ipc) (fd : Z) :
  inv s -> conn s = Some (CStore fd) -> inv (set_conn (Some CSetConnected) (set_socket_fd fd s)).
Proof using.
  intros Hi Hpc. pose proof Hi as [].
  destruct (i_conn0 _ fd Hpc eq_refl) as (H1 & Hr & H3 & H4).
  split; simpl; try done. by intros pc f [= <-].
Qed.

Lemma set_connected_eta (s : ipc) : set_connected (connected_ s) s = s.
Proof using. by destruct s. Qed.

Lemma write_fd_marked (s : ipc) (fd : Z) (i : nat) (cs : list chunk) :
  fds s !! fd = Some i ->
  write_fd fd cs s = marked (authenticated s) (upd (streams s) i (streams s i ++ cs)) s.
Proof using. unfold write_fd. by intros ->. Qed.

Lemma inv_handshake (s s' : ipc) (fd w1 w2 : Z) (st : option Z) :
  inv s -> conn s = Some (CHandshake fd) ->
  step_conn cfg (CHandshake fd) (RHandshake w1 w2 st) s = Some s' -> inv s'.
Proof using.
  intros Hi Hpc Hstep.
  destruct (i_conn s Hi _ fd Hpc eq_refl) as (_ & (Hsec & i & Hl & Ha & Hs) & _).
  cbn [step_conn] in Hstep.
  pose proof (handshake_no_event (auth_token cfg) w1 w2 st) as Hno.
  pose proof (handshake_greeting cfg w1 w2 st) as Hgr.
  destruct (PerformHandshake (auth_token cfg) w1 w2 st) as [cs ok]; cbn [fst] in Hno.
  rewrite (write_fd_marked s fd i) in Hstep by done. destruct ok; injection Hstep as <-.
  - specialize (Hgr cs Hsec eq_refl).
    assert (clean cfg (streams s i ++ cs)) as Hclean.
    { rewrite Hs, Hgr. exists []. by rewrite app_nil_r. }
    unfold authenticate. cbn [marked fds]. rewrite Hl.
    apply (inv_marked s (CHandshake fd) (CStore fd) fd i); try done.
    + intros j Hj. simpl. by rewrite !upd_ne.
    + simpl. by rewrite !upd_eq.
    + exists i. simpl. by rewrite !upd_eq.
  - apply (inv_marked s (CHandshake fd) (CClose fd) fd i); try done.
    + intros j Hj. by rewrite upd_ne.
    + rewrite Ha, upd_eq, Hs. done.
    + by exists i.
Qed.

Lemma inv_step_conn (s s' : ipc) (pc : conn_pc) (r : conn_result) :
  inv s -> conn s = Some pc -> step_conn cfg pc r s = Some s' -> inv s'.
Proof using.
  intros Hi Hpc Hstep. pose proof (i_conn s Hi pc) as Hconn.
  assert (forall pc', conn_fd pc' = None -> inv (set_conn (Some pc') s)) as Hgoto.
  { intros pc' Hf. rewrite <- (set_connected_eta s). by apply inv_goto. }
  destruct pc as [| | |fd|fd|fd|fd|fd| |], r as [|[f|]|ok|mode|w1 w2 st];
    cbn [step_conn] in Hstep; try discriminate Hstep.
  - injection Hstep as <-. apply Hgoto. by destruct (running_ s).
  - injection Hstep as <-. apply Hgoto. by destruct (connected_ s).
  - destruct ((0 <=? f) && _) eqn:Hb; [|done]. injection Hstep as <-.
    apply andb_true_iff in Hb as [Hf%Z.leb_le Hn%bool_decide_eq_true]. by apply inv_socket.
  - injection Hstep as <-. by apply Hgoto.
  - injection Hstep as <-. destruct (Hconn fd Hpc eq_refl) as (H1 & (i & Hl & Ha & Hs) & _).
    destruct ok; cbn [negb andb]; [|apply (inv_keep_fd s (CConnect fd) _ fd); eauto; by exists i].
    destruct (secured cfg) eqn:Hsec; cbn [negb].
    + apply (inv_keep_fd s (CConnect fd) _ fd); eauto. split; [done | by exists i].
    + unfold authenticate. rewrite Hl.
      apply (inv_marked s (CConnect fd) (CStore fd) fd i); try done.
      * intros j Hj. by rewrite upd_ne.
      * rewrite upd_eq, Hs. exists []. unfold greeting. by rewrite Hsec.
      * exists i. simpl. rewrite upd_eq, Hs. split; [done|]. split; [done|].
        exists []. unfold greeting. by rewrite Hsec.
  - injection Hstep as <-. destruct (Hconn fd Hpc eq_refl) as (H1 & (Hsec & i & Hl & Ha & Hs) & _).
    destruct (match mode with Some m => _ | None => _ end);
      apply (inv_keep_fd s (CStat fd) _ fd); eauto; simpl; eauto.
  - by eapply inv_handshake.
  - injection Hstep as <-. by apply inv_close.
  - injection Hstep as <-. by apply inv_store.
  - injection Hstep as <-. by apply inv_goto.
Qed.

(** ** Senders *)

(** A sender changes its own program counter and nothing a connection depends on. *)
Lemma inv_sender (s : ipc) (t : nat) (pc : send_pc) (lk : option nat) (c : bool) (fd : Z) :
  inv s ->
  (forall t', t' <> t -> critical (senders s t') = true -> lk = Some t') ->
  (critical pc = true -> lk = Some t) ->
  (forall ev f, pc = SWriting ev f -> ready s f) ->
  (forall f, pc = SFailed f \/ pc = SClosing f ->
     exists i, fds s !! f = Some i /\ authenticated s i = true) ->
  (fd <> -1 -> failing pc = false -> (forall t', t' <> t -> failing (senders s t') = false) ->
     ready s fd) ->
  (forall pcc f, conn s = Some pcc -> conn_fd pcc = Some f ->
     (forall x, send_fd pc = Some x -> x <> f) /\
     (failing pc = false -> (forall t', t' <> t -> failing (senders s t') = false) -> fd <> f)) ->
  inv (set_sender t pc (set_lock lk (set_connected c (set_socket_fd fd s)))).
Proof using.
  intros Hi Hlk Hpc Hw Hf Hsock Hcn. pose proof Hi as [].
  assert (forall t', senders (set_sender t pc s) t' = pc /\ t' = t \/
    senders (set_sender t pc s) t' = senders s t' /\ t' <> t) as Hs.
  { intros t'. simpl. destruct (decide (t' = t)) as [->|Hne].
    - left. by rewrite upd_eq.
    - right. by rewrite upd_ne. }
  assert (no_failure (set_sender t pc s) -> failing pc = false /\
    (forall t', t' <> t -> failing (senders s t') = false)) as Hnf.
  { intros Hn. split; [specialize (Hn t); simpl in Hn; by rewrite upd_eq in Hn|].
    intros t' Hne. specialize (Hn t'). simpl in Hn. by rewrite upd_ne in Hn. }
  simpl in Hs. split; simpl; try done.
  - intros t' Hc. destruct (Hs t') as [[Heq ->]|[Heq Hne]]; rewrite Heq in Hc; auto.
  - intros t' ev f Hwr. destruct (Hs t') as [[Heq ->]|[Heq Hne]]; rewrite Heq in Hwr;
      [by eapply Hw | by eapply i_writing0].
  - intros t' f Hwr. destruct (Hs t') as [[Heq ->]|[Heq Hne]]; rewrite Heq in Hwr;
      [by apply Hf | by eapply i_failing0].
  - intros Hne Hn. destruct (Hnf Hn). by apply Hsock.
  - intros pcc f Hcc Hfd. destruct (i_conn0 pcc f Hcc Hfd) as (H1 & H2 & H3 & H4).
    destruct (Hcn pcc f Hcc Hfd) as [H5 H6]. split; [done|]. split.
    { by eapply conn_ready_ext; [..|exact H2]. }
    split; [|intros Hn; destruct (Hnf Hn); by apply H6].
    intros t' x Hx. destruct (Hs t') as [[Heq ->]|[Heq Hne]]; rewrite Heq in Hx;
      [by apply H5 | by eapply H3].
Qed.

Lemma shared_eta (s : ipc) : set_connected (connected_ s) (set_socket_fd (socket_fd_ s) s) = s.
Proof using. by destruct s. Qed.

(** A whole record on a ready connection. *)
Lemma inv_append_whole (s : ipc) (fd : Z) (ev : list Z) :
  inv s -> ready s fd -> inv (write_fd fd [Event ev (length ev)] s).
Proof using.
  intros Hi (i & Hl & Ha & Hc). rewrite (write_fd_marked s fd i) by done. pose proof Hi as [].
  set (st := upd (streams s) i (streams s i ++ [Event ev (length ev)])).
  assert (forall j, clean cfg (streams s j) -> clean cfg (st j)) as Hst.
  { intros j Hj. unfold st, upd. destruct (Nat.eqb_spec j i) as [->|]; [by apply clean_whole | done]. }
  assert (forall j, authenticated s j = false -> st j = streams s j) as Hun.
  { intros j Hj. unfold st. rewrite upd_ne; [done|]. intros ->. congruence. }
  assert (forall f, ready s f -> ready (marked (authenticated s) st s) f) as Hready.
  { intros f (j & Hj & Haj & Hcj). exists j. simpl. auto. }
  split; simpl; try done.
  - intros j Hj. destruct (i_fresh0 j Hj) as [H1 H2]. by rewrite Hun.
  - intros j Hj. rewrite Hun by done. by apply i_unauth0.
  - intros j Hj. unfold st, upd. destruct (Nat.eqb_spec j i) as [->|]; [|by apply i_auth0].
    by apply clean_framed, clean_whole.
  - intros t ev' f Hs. by eapply Hready, i_writing0.
  - intros Hs Hnf. by apply Hready, i_socket0.
  - intros pc f Hpc Hf. destruct (i_conn0 pc f Hpc Hf) as (H1 & H2 & H3 & H4).
    split; [done|]. split; [|done].
    destruct pc; simpl in *; try done; try (by apply Hready); 
      first [ destruct H2 as (j & Hj & Haj & Hsj); exists j; by rewrite Hun
            | destruct H2 as (Hsec & j & Hj & Haj & Hsj); split; [done|]; exists j; by rewrite Hun ].
Qed.

(** A cut record, by the thread that has just failed. *)
Lemma inv_append_cut (s : ipc) (t : nat) (fd : Z) (ev : list Z) (n : nat) :
  inv s -> senders s t = SFailed fd -> ready s fd -> inv (write_fd fd [Event ev n] s).
Proof using.
  intros Hi Ht (i & Hl & Ha & Hc). rewrite (write_fd_marked s fd i) by done. pose proof Hi as [].
  set (st := upd (streams s) i (streams s i ++ [Event ev n])).
  assert (forall j, j <> i -> st j = streams s j) as Hne by (intros j Hj; by apply upd_ne).
  assert (forall j, authenticated s j = false -> st j = streams s j) as Hun.
  { intros j Hj. apply Hne. congruence. }
  assert (critical (senders s t) = true) as Hcrit by (by rewrite Ht).
  split; simpl; try done.
  - intros j Hj. destruct (i_fresh0 j Hj) as [H1 H2]. by rewrite Hun.
  - intros j Hj. rewrite Hun by done. by apply i_unauth0.
  - intros j Hj. destruct (decide (j = i)) as [->|Hji]; [|rewrite Hne by done; by apply i_auth0].
    unfold st. rewrite upd_eq. by apply clean_cut.
  - intros t' ev' f Hs. assert (t' = t) as ->; [|congruence].
    apply (holder_unique s); [done | by rewrite Hs | done].
  - intros Hs Hnf. specialize (Hnf t). simpl in Hnf. by rewrite Ht in Hnf.
  - intros pc f Hpc Hf. destruct (i_conn0 pc f Hpc Hf) as (H1 & H2 & H3 & H4).
    split; [done|]. split; [|done].
    assert (fd <> f) as Hfd by (apply (H3 t); by rewrite Ht).
    destruct pc; simpl in *; try done;
      first [ destruct H2 as (j & Hj & Haj & Hsj); exists j; rewrite Hne by congruence; done
            | destruct H2 as (Hsec & j & Hj & Haj & Hsj); split; [done|]; exists j;
              rewrite Hne by congruence; done
            | done
            | destruct H2 as (j & Hj & Haj & Hsj); exists j; simpl; rewrite Hne;
              [done | intros ->; apply Hfd; by eapply i_inj0] ].
Qed.

(** The failed thread closes the descriptor. *)
Lemma inv_close_failed (s : ipc) (t : nat) (fd : Z) :
  inv s -> senders s t = SReset ->
  (exists i, fds s !! fd = Some i /\ authenticated s i = true) ->
  (forall pc f, conn s = Some pc -> conn_fd pc = Some f -> fd <> f) ->
  inv (close_fd fd s).
Proof using.
  intros Hi Ht (i & Hl & Ha) Hcn. pose proof Hi as [].
  assert (critical (senders s t) = true) as Hcrit by (by rewrite Ht).
  split; simpl; try done.
  - intros f j. rewrite lookup_delete_Some. intros [_ Hf]. by eapply i_ids0.
  - intros f f' j. rewrite !lookup_delete_Some. intros [_ Hf] [_ Hf']. by eapply i_inj0.
  - intros t' ev f Hs. assert (t' = t) as ->; [|congruence].
    apply (holder_unique s); [done | by rewrite Hs | done].
  - intros t' f Hs. assert (t' = t) as ->; [|destruct Hs; congruence].
    apply (holder_unique s); [done | by destruct Hs as [-> | ->] | done].
  - intros Hs Hnf. specialize (Hnf t). simpl in Hnf. by rewrite Ht in Hnf.
  - intros pc f Hpc Hf. destruct (i_conn0 pc f Hpc Hf) as (H1 & H2 & H3 & H4).
    specialize (Hcn pc f Hpc Hf). split; [done|]. split; [|done].
    destruct pc; simpl in *; try done; try (by apply ready_close); by rewrite lookup_delete_ne.
Qed.

(** The instances of [inv_sender] in which the shared fields stay. *)
Lemma inv_sender_local (s : ipc) (t : nat) (pc : send_pc) (lk : option nat) :
  inv s -> failing pc = failing (senders s t) ->
  (forall t', t' <> t -> critical (senders s t') = true -> lk = Some t') ->
  (critical pc = true -> lk = Some t) ->
  (forall ev f, pc = SWriting ev f -> ready s f) ->
  (forall f, pc = SFailed f \/ pc = SClosing f ->
     exists i, fds s !! f = Some i /\ authenticated s i = true) ->
  (forall pcc f, conn s = Some pcc -> conn_fd pcc = Some f ->
     forall x, send_fd pc = Some x -> x <> f) ->
  inv (set_sender t pc (set_lock lk s)).
Proof using.
  intros Hi Hfl Hlk Hpc Hw Hf Hcn. rewrite <- (shared_eta s) at 1.
  assert ((forall t', t' <> t -> failing (senders s t') = false) -> failing pc = false ->
    no_failure s) as Hnf.
  { intros Ho Hp t'. destruct (decide (t' = t)) as [->|Hne]; [congruence | by apply Ho]. }
  apply inv_sender; try done.
  - intros Hs Hp Ho. apply i_socket; auto.
  - intros pcc f Hcc Hfd. split; [by apply (Hcn pcc)|]. intros Hp Ho.
    destruct (i_conn s Hi pcc f Hcc Hfd) as (_ & _ & _ & H4). auto.
Qed.

(** The other threads are outside the mutex while [t] is inside. *)
Lemma others_outside (s : ipc) (t : nat) (lk : option nat) :
  inv s -> critical (senders s t) = true ->
  forall t', t' <> t -> critical (senders s t') = true -> lk = Some t'.
Proof using. intros Hi Ht t' Hne Hc. destruct Hne. by apply (holder_unique s). Qed.

Lemma set_lock_eta (s : ipc) (t : nat) :
  inv s -> critical (senders s t) = true -> set_lock (Some t) s = s.
Proof using.
  intros Hi Ht. pose proof (i_lock s Hi t Ht) as Hl. destruct s. simpl in *. by rewrite Hl.
Qed.

(** A failing thread moves on; the socket field keeps its value or is cleared. *)
Lemma inv_sender_failing (s : ipc) (t : nat) (pc : send_pc) (c : bool) :
  inv s -> critical (senders s t) = true -> critical pc = true -> failing pc = true ->
  (forall f, pc = SFailed f \/ pc = SClosing f ->
     exists i, fds s !! f = Some i /\ authenticated s i = true) ->
  (forall x, send_fd pc = Some x -> send_fd (senders s t) = Some x) ->
  inv (set_sender t pc (set_connected c s)).
Proof using.
  intros Hi Hc Hpc Hfl Hf Hx.
  assert (set_sender t pc (set_connected c s) = set_sender t pc (set_lock (Some t)
    (set_connected c (set_socket_fd (socket_fd_ s) s)))) as ->.
  { pose proof (i_lock s Hi t Hc) as Hl. destruct s. simpl in *. by rewrite Hl. }
  apply inv_sender; try done.
  - by apply others_outside.
  - intros ev f ->. done.
  - intros _ Hp. congruence.
  - intros pcc f Hcc Hfd. split; [|congruence]. intros x Hpx.
    destruct (i_conn s Hi pcc f Hcc Hfd) as (_ & _ & H3 & _). by apply (H3 t), Hx.
Qed.

Lemma write_fd_sender (s : ipc) (t : nat) (pc : send_pc) (fd : Z) (cs : list chunk) :
  set_sender t pc (write_fd fd cs s) = write_fd fd cs (set_sender t pc s).
Proof using. unfold write_fd. simpl. by destruct (fds s !! fd). Qed.

Lemma write_fd_senders (s : ipc) (fd : Z) (cs : list chunk) :
  senders (write_fd fd cs s) = senders s.
Proof using. unfold write_fd. by destruct (fds s !! fd). Qed.

(** The result of the write. *)
Lemma inv_write (s : ipc) (t : nat) (ev : list Z) (fd n : Z) :
  inv s -> senders s t = SWriting ev fd -> n <= Z.of_nat (length ev) ->
  let s1 := if n <=? 0 then s else write_fd fd [Event ev (Z.to_nat n)] s in
  inv (if n =? Z.of_nat (length ev) then set_sender t SIdle (set_lock None s1)
       else set_sender t (SFailed fd) s1).
Proof using.
  intros Hi Ht Hn s1. pose proof (i_writing s Hi t ev fd Ht) as Hr.
  assert (critical (senders s t) = true) as Hc by (by rewrite Ht).
  destruct (Z.eqb_spec n (Z.of_nat (length ev))) as [Heq|Hne].
  - assert (inv s1) as Hi1.
    { unfold s1. destruct (n <=? 0); [done|]. rewrite Heq, Nat2Z.id. by apply inv_append_whole. }
    assert (senders s1 = senders s) as Hs1.
    { unfold s1. destruct (n <=? 0); [done | apply write_fd_senders]. }
    apply inv_sender_local; try done; rewrite ?Hs1; [by rewrite Ht | | by intros f [?|?]].
    by apply others_outside.
  - assert (inv (set_sender t (SFailed fd) s)) as Hi1.
    { rewrite <- (set_connected_eta s) at 1. apply inv_sender_failing; try done.
      - intros f [[= <-]|]; [|done]. destruct Hr as (i & Hl & Ha & _). by exists i.
      - intros x. by rewrite Ht. }
    unfold s1. destruct (n <=? 0); [done|]. rewrite write_fd_sender.
    apply (inv_append_cut _ t); [done | simpl; by rewrite upd_eq | done].
Qed.

Lemma inv_step_sender (s s' : ipc) (t : nat) (n : Z) :
  inv s -> step_sender t (senders s t) n s = Some s' -> inv s'.
Proof using.
  intros Hi Hstep. destruct (senders s t) as [|ev|ev|ev fd|fd|fd|] eqn:Ht; simpl in Hstep.
  - done.
  - destruct (lock s) eqn:Hl; [done|]. injection Hstep as <-.
    apply inv_sender_local; try done; try (by rewrite Ht); [|by intros f [?|?]].
    intros t' _ Hc. pose proof (i_lock s Hi t' Hc). congruence.
  - assert (critical (senders s t) = true) as Hc by (by rewrite Ht).
    assert (no_failure s) as Hnf by (apply (holder_no_failure s t); [done | done | by rewrite Ht]).
    destruct (Z.eqb_spec (socket_fd_ s) (-1)) as [Hs|Hs]; injection Hstep as <-.
    + apply inv_sender_local; try done; try (by rewrite Ht); [|by intros f [?|?]].
      by apply others_outside.
    + pose proof (inv_sender_local s t (SWriting ev (socket_fd_ s)) (Some t)) as H.
      rewrite (set_lock_eta s t Hi Hc) in H. apply H; clear H; try done; try (by rewrite Ht).
      * by apply others_outside.
      * intros ev' f [= _ <-]. by apply i_socket.
      * by intros f [?|?].
      * intros pcc f Hcc Hfd x [= <-].
        destruct (i_conn s Hi pcc f Hcc Hfd) as (_ & _ & _ & H). by apply H.
  - pose proof (inv_write s t ev fd n Hi Ht) as Hw.
    destruct ((n <? -1) || _) eqn:Hn; [done|]. split_bools.
    destruct (bool_decide (fds s !! fd = None) && _); [done|]. cbv zeta in Hw.
    destruct (n =? Z.of_nat (length ev)); injection Hstep as <-; apply Hw; lia.
  - injection Hstep as <-. apply inv_sender_failing; try done; try (by rewrite Ht).
    intros f [|[= <-]]; [done|]. apply (i_failing s Hi t). by left.
  - injection Hstep as <-.
    change (inv (close_fd fd (set_sender t SReset s))).
    destruct (i_failing s Hi t fd ltac:(by right)) as (i & Hl & Ha).
    apply (inv_close_failed _ t).
    + rewrite <- (set_connected_eta s) at 1. apply inv_sender_failing; try done;
        [by rewrite Ht | by intros f [?|?]].
    + simpl. by rewrite upd_eq.
    + by exists i.
    + intros pc f Hpc Hf. destruct (i_conn s Hi pc f Hpc Hf) as (_ & _ & H3 & _).
      apply (H3 t). by rewrite Ht.
  - injection Hstep as <-.
    assert (critical (senders s t) = true) as Hc by (by rewrite Ht).
    assert (set_sender t SIdle (set_lock None (set_socket_fd (-1) s)) = set_sender t SIdle
      (set_lock None (set_connected (connected_ s) (set_socket_fd (-1) s)))) as -> by (by destruct s).
    apply inv_sender; try done; [by apply others_outside | by intros f [?|?] |].
    intros pcc f Hcc Hfd. destruct (i_conn s Hi pcc f Hcc Hfd) as (H1 & _). split; [done | lia].
Qed.

(** Every step but Stop keeps the invariant. *)
Definition is_stop (l : label) : bool := match l with LStop | LCtl => true | _ => false end.

Lemma inv_step (l : label) (s s' : ipc) :
  is_stop l = false -> inv s -> step cfg l s = Some s' -> inv s'.
Proof using.
  intros Hl Hi Hstep. destruct l as [| | |r|t ev|t n]; try done; simpl in Hstep.
  - rewrite (i_ctl s Hi) in Hstep. destruct (conn s); destruct (running_ s); simplify_eq; try done.
    destruct Hi. split; simpl; try done. by intros pc fd [= <-].
  - destruct (conn s) as [pc|] eqn:Hpc; [|done]. by eapply inv_step_conn.
  - destruct (negb _); [done|]. destruct (senders s t) eqn:Ht; try done.
    destruct (connected_ s); injection Hstep as <-; [|done].
    pose proof (inv_sender_local s t (SWaiting ev) (lock s)) as H.
    assert (set_lock (lock s) s = s) as Heta by (by destruct s). rewrite Heta in H.
    apply H; try done; [by rewrite Ht | intros t' _; by apply i_lock | by intros f [?|?]].
  - by eapply inv_step_sender.
Qed.

Lemma inv_run (ls : list label) (s s' : ipc) :
  Forall (fun l => is_stop l = false) ls -> inv s -> run_labels cfg ls s = Some s' -> inv s'.
Proof using.
  intros Hls. revert s. induction Hls as [|l ls Hl Hls IH]; intros s Hi; simpl; [by intros [= <-]|].
  destruct (step cfg l s) as [s1|] eqn:Hs; [|done]. apply IH. by eapply inv_step.
Qed.

(** While Stop is not called, every connection carries what the agent can
    parse, whatever the interleaving of the connection thread with any number of
    sending threads and whatever the system calls return: on a connection that
    has passed the checks, first the greeting (token length and token), then
    whole event records, of which only the last may be cut short; on any other
    connection, no event byte at all. *)
Lemma stream_framed (ls : list label) (s : ipc) (i : nat) :
  Forall (fun l => is_stop l = false) ls -> run_labels cfg ls new_sender = Some s ->
  if authenticated s i then framed cfg (streams s i)
  else Forall (fun c => is_event c = false) (streams s i).
Proof using.
  intros Hls Hrun. pose proof (inv_run ls new_sender s Hls inv_new Hrun) as Hi.
  destruct (authenticated s i) eqn:Ha; [by apply i_auth | by apply i_unauth].
Qed.

End invariant.

(** ** Interleavings that go wrong *)

(** The sender with the token [1; 2; 3], and one event. *)
Definition demo_sender : sender_config := LinuxTelemetrySender [1; 2; 3].
Definition demo_event : list Z := repeat 7 UserLayout.sizeof_TelemetryEvent.

(** The connection thread connects with the descriptor 3, up to the store. *)
Definition reach_store : list label :=
  map LConn [RNone; RNone; RSocket (Some 3); RConnect true; RStat None; RHandshake 4 3 (Some 1)].

Definition connect : list label := reach_store ++ map LConn [RNone; RNone].

(** The thread [t] takes the lock and loads the descriptor. *)
Definition load_fd (t : nat) : list label := [LSend t demo_event; LSender t 0; LSender t 0].

(** A sender that says it is connected and has no descriptor. *)
Record stuck (s : ipc) : Prop := Stuck {
  sk_running : running_ s = true;
  sk_connected : connected_ s = true;
  sk_fd : socket_fd_ s = -1;
  sk_conn : conn s = Some CLoop \/ conn s = Some CCheck;
  sk_senders : forall t, match senders s t with SIdle | SWaiting _ | SLocked _ => true | _ => false end
    = true;
}.

Lemma stuck_sender (s : ipc) (t : nat) (pc : send_pc) :
  match pc with SIdle | SWaiting _ | SLocked _ => true | _ => false end = true ->
  stuck s -> stuck (set_sender t pc s).
Proof.
  intros Hpc []. split; try done. intros t'. simpl. unfold upd. by destruct (_ =? _)%nat.
Qed.

Lemma stuck_step (cfg : sender_config) (l : label) (s s' : ipc) :
  is_stop l = false -> stuck s -> step cfg l s = Some s' -> stuck s' /\ streams s' = streams s.
Proof.
  intros Hl Hs Hstep. pose proof Hs as []. destruct l as [| | |r|t ev|t n]; try done; simpl in Hstep.
  - rewrite sk_running0 in Hstep. destruct (ctl s); try done.
    by destruct sk_conn0 as [Hc|Hc]; rewrite Hc in Hstep; injection Hstep as <-.
  - destruct sk_conn0 as [Hc|Hc]; rewrite Hc in Hstep; destruct r; try done; simpl in Hstep;
      injection Hstep as <-; rewrite ?sk_running0, ?sk_connected0; (split; [|done]); split; simpl; auto.
  - destruct (negb _); [done|]. destruct (senders s t); try done. rewrite sk_connected0 in Hstep.
    injection Hstep as <-. split; [by apply stuck_sender | done].
  - specialize (sk_senders0 t). destruct (senders s t) as [|ev|ev|ev fd|fd|fd|]; try done; simpl in Hstep.
    + destruct (lock s); [done|]. injection Hstep as <-.
      split; [|done]. apply stuck_sender; [done|]. by destruct Hs.
    + rewrite sk_fd0 in Hstep. injection Hstep as <-.
      split; [|done]. apply stuck_sender; [done|]. by destruct Hs.
Qed.

Lemma stuck_run (cfg : sender_config) (ls : list label) (s s' : ipc) :
  Forall (fun l => is_stop l = false) ls -> stuck s -> run_labels cfg ls s = Some s' ->
  stuck s' /\ streams s' = streams s.
Proof.
  intros Hls. revert s. induction Hls as [|l ls Hl Hls IH]; intros s Hs; simpl; [by intros [= <-]|].
  destruct (step cfg l s) as [s1|] eqn:Hstep; [|done]. intros Hrun.
  destruct (stuck_step cfg l s s1 Hl Hs Hstep) as [Hs1 Heq]. rewrite <- Heq. by apply IH.
Qed.

(** One write fails; while the failing thread has cleared connected_ but not yet
    the descriptor, the connection thread reconnects; then the failing thread
    clears the new descriptor. *)
Definition stuck_run_labels : list label :=
  LStart :: connect ++ load_fd 0 ++ [LSender 0 (-1); LSender 0 0] ++
  map LConn [RNone; RNone] ++ [LSender 0 0] ++
  map LConn [RSocket (Some 3); RConnect true; RStat None; RHandshake 4 3 (Some 1); RNone; RNone] ++
  [LSender 0 0].

(** C35: a single failed write can silence telemetry for good.  There is a run
    without Stop, in which one write fails while the connection thread
    reconnects, that ends with connected_ set and no descriptor; from there, no
    interleaving without a Stop ever writes another byte or reconnects. *)
Theorem failed_write_can_silence :
  exists ls s, Forall (fun l => is_stop l = false) ls /\
    run_labels demo_sender ls new_sender = Some s /\ stuck s /\
    forall ls' s', Forall (fun l => is_stop l = false) ls' ->
      run_labels demo_sender ls' s = Some s' -> stuck s' /\ streams s' = streams s.
Proof.
  exists stuck_run_labels.
  destruct (run_labels demo_sender stuck_run_labels new_sender) as [s|] eqn:Hrun;
    [|vm_compute in Hrun; discriminate Hrun].
  assert (stuck s) as Hs.
  { vm_compute in Hrun. injection Hrun as <-. split; try reflexivity; [by left|].
    intros [|t]; reflexivity. }
  exists s. split; [repeat constructor|]. split; [done|]. split; [done|].
  intros ls' s' Hls' Hrun'. by apply (stuck_run demo_sender ls').
Qed.




(** One event sent on the authenticated connection. *)
Definition one_event_labels : list label :=
  LStart :: connect ++ load_fd 0 ++ [LSender 0 (Z.of_nat UserLayout.sizeof_TelemetryEvent)].
