(* ===== verification/LinuxSends.v ===== *)
(** The Linux senders meet the contract of [SenderLog]: the log of every run, with
    or without Stop, explains what is on the connections. *)

From stdpp Require Import gmap.
From S2P Require Export SenderLog LinuxIpc.

Local Open Scope Z_scope.

Definition sending (pc : send_pc) : option (list Z) :=
  match pc with SWaiting ev | SLocked ev | SWriting ev _ => Some ev | _ => None end.

Section linux.
Context (cfg : sender_config).

(** What the step of a label writes. *)
Definition linux_write (l : label) (s : ipc) : option write :=
  match l with
  | LSender t n =>
      match senders s t with
      | SWriting ev fd =>
          if n <=? 0 then None else
          match fds s !! fd with
          | Some i => Some (Write t i ev (Z.to_nat n))
          | None => None
          end
      | _ => None
      end
  | _ => None
  end.

#[export] Instance linux_machine : SenderMachine ipc label := {|
  sm_step := step cfg;
  sm_call l := match l with LSend t ev => Some (t, ev) | _ => None end;
  sm_pending s t := sending (senders s t);
  sm_write := linux_write;
  sm_events s i := omap chunk_event (streams s i);
|}.

Lemma linux_run (ls : list label) (s : ipc) : sm_run ls s = run_labels cfg ls s.
Proof using. revert s; induction ls as [|l ls IH]; intros s; simpl; [done|]. by destruct (step cfg l s). Qed.

Lemma write_fd_events (fd : Z) (cs : list chunk) (s : ipc) (i : nat) :
  omap chunk_event (streams (write_fd fd cs s) i) =
    omap chunk_event (streams s i) ++
    (if decide (fds s !! fd = Some i) then omap chunk_event cs else []).
Proof using.
  unfold write_fd. destruct (fds s !! fd) as [j|].
  - simpl. unfold upd. destruct (Nat.eqb_spec i j) as [->|Hne].
    + rewrite decide_True by done. apply omap_app.
    + rewrite decide_False by congruence. by rewrite app_nil_r.
  - rewrite decide_False by done. by rewrite app_nil_r.
Qed.

Lemma handshake_no_events (token : list Z) (w1 w2 : Z) (st : option Z) :
  omap chunk_event (fst (PerformHandshake token w1 w2 st)) = [].
Proof using.
  unfold PerformHandshake. cbv zeta. case_bool_decide; [done|].
  destruct (negb _); [done|]. destruct (negb _); [done|]. by destruct st.
Qed.

Lemma authenticate_streams (fd : Z) (s : ipc) : streams (authenticate fd s) = streams s.
Proof using. unfold authenticate. by destruct (fds s !! fd). Qed.

(** Connection thread: no event, and no sender moves. *)
Lemma conn_step_silent (pc : conn_pc) (r : conn_result) (s s' : ipc) :
  step_conn cfg pc r s = Some s' ->
  senders s' = senders s /\
  forall i, omap chunk_event (streams s' i) = omap chunk_event (streams s i).
Proof using.
  destruct pc, r; simpl; try done;
    try (intros [= <-]; simpl; done);
    try (repeat case_match; intros [= <-]; simpl; done).
  - intros [= <-]. simpl. destruct (_ && _); [|done]. rewrite authenticate_streams.
    split; [|done]. unfold authenticate. by destruct (fds s !! fd).
  - pose proof (handshake_no_events (auth_token cfg) w1 w2 status) as Hh.
    destruct (PerformHandshake _ _ _ _) as [cs ok]. simpl in Hh.
    assert (forall i, omap chunk_event (streams (write_fd fd cs s) i) = omap chunk_event (streams s i))
      as He by (intros i; rewrite write_fd_events, Hh; case_decide; apply app_nil_r).
    assert (senders (write_fd fd cs s) = senders s) as Hs
      by (unfold write_fd; by destruct (fds s !! fd)).
    destruct ok; intros [= <-]; simpl; [|by split].
    rewrite authenticate_streams. split; [|done]. unfold authenticate.
    by destruct (fds _ !! fd).
Qed.

(** A step of a sender touches its own state only, and streams by its write. *)
Lemma sender_step_frame (t : nat) (n : Z) (s s' : ipc) :
  step_sender t (senders s t) n s = Some s' ->
  (forall t', t' <> t -> senders s' t' = senders s t') /\
  forall i, omap chunk_event (streams s' i) =
    omap chunk_event (streams s i) ++ on_conn i (option_list (linux_write (LSender t n) s)).
Proof using.
  unfold linux_write. destruct (senders s t) as [|ev|ev|ev fd|fd|fd|] eqn:Hpc; cbn [step_sender]; try done;
    try (intros [= <-]; simpl; split; intros; rewrite ?app_nil_r; by rewrite ?upd_ne).
  - destruct (lock s); [done|]. intros [= <-].
    simpl; split; intros; rewrite ?app_nil_r; by rewrite ?upd_ne.
  - destruct (socket_fd_ s =? -1); intros [= <-];
      simpl; split; intros; rewrite ?app_nil_r; by rewrite ?upd_ne.
  - destruct (_ || _); [done|]. destruct (_ && _); [done|]. cbv zeta.
    set (s1 := if n <=? 0 then s else _).
    assert (senders s1 = senders s) as Hs.
    { subst s1. unfold write_fd. destruct (n <=? 0); [done|]. by destruct (fds s !! fd). }
    assert (forall i, omap chunk_event (streams s1 i) = omap chunk_event (streams s i) ++
      on_conn i (option_list (if n <=? 0 then None else
        match fds s !! fd with Some i => Some (Write t i ev (Z.to_nat n)) | None => None end))) as He.
    { intros i. subst s1. destruct (n <=? 0); [simpl; by rewrite app_nil_r|]. rewrite write_fd_events.
      destruct (fds s !! fd) as [j|]; case_decide; simplify_eq; simpl; [by rewrite Nat.eqb_refl | |done].
      by destruct (Nat.eqb_spec j i); [congruence|]. }
    destruct (n =? _); intros [= <-]; simpl; (split; [|exact He]); intros; by rewrite upd_ne, Hs.
Qed.

(** The event the moving thread holds is written, kept or dropped. *)
Lemma sender_step_pending (t : nat) (n : Z) (s s' : ipc) :
  step_sender t (senders s t) n s = Some s' ->
  by_thread t (option_list (linux_write (LSender t n) s)) ++ option_list (sending (senders s' t))
    `sublist_of` option_list (sending (senders s t)).
Proof using.
  unfold linux_write. destruct (senders s t) as [|ev|ev|ev fd|fd|fd|] eqn:Hpc; cbn [step_sender]; try done;
    try (intros [= <-]; simpl; by rewrite upd_eq).
  - destruct (lock s); [done|]. intros [= <-]. simpl. by rewrite upd_eq.
  - destruct (socket_fd_ s =? -1); intros [= <-]; simpl; rewrite upd_eq; simpl; [|done].
    apply sublist_nil_l.
  - destruct (_ || _); [done|]. destruct (_ && _); [done|]. cbv zeta.
    assert (by_thread t (option_list (if n <=? 0 then None else
      match fds s !! fd with Some i => Some (Write t i ev (Z.to_nat n)) | None => None end)) ++ []
        `sublist_of` [ev]) as Hw.
    { rewrite app_nil_r. destruct (n <=? 0); [apply sublist_nil_l|].
      destruct (fds s !! fd); simpl; [by rewrite Nat.eqb_refl | apply sublist_nil_l]. }
    destruct (n =? _); intros [= <-]; simpl; by rewrite upd_eq.
Qed.

#[export] Instance linux_laws : SenderMachineLaws ipc label.
Proof using.
  split.
  - intros l s s' i Hs. destruct l as [| | |r|t ev|t n]; cbn [sm_step sm_events sm_write linux_machine linux_write] in *.
    6:{ by apply sender_step_frame. }
    all: cbn [option_list]; cbn [on_conn]; rewrite app_nil_r; simpl in Hs.
    + repeat case_match; simplify_eq; done.
    + repeat case_match; simplify_eq; done.
    + unfold step_ctl in Hs. repeat case_match; simplify_eq; done.
    + destruct (conn s) as [pc|]; [|done]. by apply (conn_step_silent pc r).
    + repeat case_match; simplify_eq; done.
  - intros l s s' t Hs. unfold pending. cbn [sm_pending sm_write linux_machine] in *.
    destruct l as [| | |r|t' ev|t' n]; cbn [linux_write option_list call_of sm_call by_thread omap list_omap app] in *;
      rewrite ?app_nil_r.
    + simpl in Hs. repeat case_match; simplify_eq; done.
    + simpl in Hs. repeat case_match; simplify_eq; done.
    + simpl in Hs. unfold step_ctl in Hs. repeat case_match; simplify_eq; done.
    + simpl in Hs. destruct (conn s) as [pc|]; [|done].
      destruct (conn_step_silent pc r s s' Hs) as [-> _]. done.
    + unfold call_of. simpl. simpl in Hs. destruct (negb _); [done|].
      destruct (senders s t') eqn:Hpc; try done. destruct (connected_ s); simplify_eq.
      * simpl. destruct (Nat.eqb_spec t t') as [->|Hne]; [by rewrite upd_eq, Hpc|].
        rewrite upd_ne by done. by rewrite app_nil_r.
      * apply sublist_inserts_r. done.
    + simpl in Hs. destruct (sender_step_frame t' n s s' Hs) as [Hfr _].
      destruct (decide (t = t')) as [->|Hne]; [by apply sender_step_pending|].
      rewrite Hfr by done. unfold linux_write. repeat case_match; simpl; try done.
      by destruct (Nat.eqb_spec t' t); [congruence|].
Qed.

Lemma linux_log (ls : list label) (s : ipc) :
  run_labels cfg ls new_sender = Some s ->
  exists log, (forall i, omap chunk_event (streams s i) = on_conn i log) /\
    (forall t, by_thread t log `sublist_of` calls_of t ls).
Proof using.
  intros Hrun. rewrite <- linux_run in Hrun.
  destruct (fresh_log ls new_sender s ltac:(done) Hrun) as (log & Hev & Hth).
  exists log. split; [exact Hev|]. intros t. by apply Hth.
Qed.

End linux.
