(* ===== verification/Fanotify.v ===== *)
(** The file integrity monitor (src/linux/fanotify.cpp): its life cycle, the path
    filter, the record it builds and the loop over the events of one read.

    The kernel's side is a parameter: what read and readlink return, and the
    events the macros FAN_EVENT_OK and FAN_EVENT_NEXT step through. *)

From S2P Require Export UserRecords.

Local Open Scope Z_scope.

(** ** The path filter *)

Definition should_filter (path : list Z) : bool :=
  bool_decide (path = []) ||
  is_prefix (str "/proc/") path || is_prefix (str "/sys/") path || is_prefix (str "/dev/") path ||
  contains (str "/run/") path || contains (str "/var/run/") path ||
  contains (str "/var/log/") path || is_prefix (str "/tmp/") path ||
  contains (str ".gemini") path || contains (str "kinnector.bpf.o") path.

(** ** Events *)

(** One [fanotify_event_metadata], with the fields the loop reads. *)
Record metadata : Type := Metadata { metadata_len : Z; md_fd : Z; md_pid : Z }.

Definition FAN_EVENT_METADATA_LEN : Z := 24.
Definition PATH_MAX : nat := 4096.

Definition user_hdr (name : string) : field := UserLayout.hdr name.
Definition file_write_field (name : string) : field :=
  UserLayout.det UserLayout.FileWriteDetails name.

(** [strncpy(dst, src, n - 1)] into a cleared array of [n] bytes. *)
Definition strncpy (f : field) (src ev : list Z) : list Z :=
  put f (take (f_len f - 1) src ++ repeat 0 (f_len f - 1 - length src)) ev.

(** [TelemetryEvent event{}] and the assignments to it. *)
Definition file_write_record (seq now pid : Z) (path : list Z) : list Z :=
  let ev := cleared_record in
  let ev := put_uint (user_hdr "sequence_number") seq ev in
  let ev := put_uint (user_hdr "timestamp_ns") now ev in
  let ev := put_uint (user_hdr "pid") pid ev in
  let ev := put_uint (user_hdr "event_type") (UserLayout.event_type_code UserLayout.FileWrite) ev in
  let ev := put_uint (user_hdr "source") (UserLayout.source_code UserLayout.fanotify) ev in
  let ev := strncpy (file_write_field "file_path") path ev in
  put_uint (file_write_field "bytes_written") 0 ev.

(** What one pass over a buffer does: the counter, the records given to the
    callback, and the descriptors closed, in order. *)
Record batch : Type := Batch {
  b_seq : Z;
  b_events : list (list Z);
  b_closed : list Z;
}.

Section loop.
Context (readlink : Z -> option (list Z)).   (* of /proc/self/fd/<fd> *)
Context (now : nat -> Z).                     (* the clock, per record *)
Context (callback : bool).                    (* event_callback_ is set *)

(** The path the loop works on: a C string of what readlink wrote. *)
Definition resolve (fd : Z) : option (list Z) :=
  match readlink fd with
  | Some p => if (0 <? length p)%nat then Some (cstr (take (PATH_MAX - 1) p)) else None
  | None => None
  end.

Definition handle_path (md : metadata) (path : list Z) (b : batch) : batch :=
  if negb (should_filter path) && callback then
    let seq := wrap 64 (b_seq b + 1) in
    Batch seq (b_events b ++ [file_write_record seq (now (length (b_events b))) (md_pid md) path])
      (b_closed b)
  else b.

Definition handle_one (md : metadata) (b : batch) : batch :=
  if 0 <=? md_fd md then
    let b := match resolve (md_fd md) with Some path => handle_path md path b | None => b end in
    Batch (b_seq b) (b_events b) (b_closed b ++ [md_fd md])
  else b.

(** The inner [while]: a short metadata record ends the pass. *)
Fixpoint handle_events (l : list metadata) (b : batch) : batch :=
  match l with
  | [] => b
  | md :: rest =>
      if metadata_len md <? FAN_EVENT_METADATA_LEN then b
      else handle_events rest (handle_one md b)
  end.

(** ** The loop *)

Definition EINTR : Z := 4.
Definition EBADF : Z := 9.

(** One iteration: [running_] at the loop test, what read gave (an errno or the
    events), and [running_] when an error is examined. *)
Record iteration : Type := Iteration {
  it_running : bool;
  it_read : Z + list metadata;
  it_running_then : bool;
}.

(** The result: the batch and whether the loop has ended. *)
Fixpoint MonitorLoop (its : list iteration) (b : batch) : batch * bool :=
  match its with
  | [] => (b, false)
  | it :: rest =>
      if negb (it_running it) then (b, true) else
      match it_read it with
      | inl errno =>
          if errno =? EINTR then MonitorLoop rest b
          else if (errno =? EBADF) || negb (it_running_then it) then (b, true)
          else MonitorLoop rest b
      | inr l => MonitorLoop rest (handle_events l b)
      end
  end.

End loop.

(** ** Life cycle *)

Record monitor : Type := Monitor {
  m_initialized : bool;
  m_running : bool;
  m_fd : Z;
  m_thread : bool;
  m_open : list Z;       (* the descriptors this monitor has open *)
}.

Definition new_monitor : monitor := Monitor false false (-1) false [].

(** [fd] and [ret]: what fanotify_init and fanotify_mark return. *)
Definition Initialize (fd ret : Z) : prog monitor bool := act (fun s =>
  if m_initialized s then (false, s) else
  if fd <? 0 then (false, Monitor false (m_running s) fd (m_thread s) (m_open s)) else
  if ret <? 0 then (false, Monitor false (m_running s) (-1) (m_thread s) (m_open s)) else
  (true, Monitor true (m_running s) fd (m_thread s) (fd :: m_open s))).

Definition Start : prog monitor bool := act (fun s =>
  if negb (m_initialized s) || m_running s then (false, s) else
  (true, Monitor (m_initialized s) true (m_fd s) true (m_open s))).

(** The state after the join: that the thread ends when the descriptor it reads is
    closed is the kernel's part. *)
Definition Stop : prog monitor unit := act (fun s =>
  if negb (m_running s) then (tt, s) else
  let open := if m_fd s =? -1 then m_open s else filter (fun x => x <> m_fd s) (m_open s) in
  (tt, Monitor false false (-1) false open)).
