(* ===== verification/FanotifyTheorems.v ===== *)
(** Theorems about the file integrity monitor: what one pass over a read buffer
    reports and closes, and the descriptor an unstarted monitor keeps. *)

From S2P Require Export Fanotify.

Local Open Scope Z_scope.

(** ** The record *)

(** What a consumer reads from the record. *)
Lemma file_write_record_read (seq now pid : Z) (path : list Z) :
  Forall nonzero path ->
  let ev := file_write_record seq now pid path in
  length ev = UserLayout.sizeof_TelemetryEvent /\
  UserLayout.read_header ev =
    UserLayout.HeaderView (wrap 64 seq) (wrap 64 now) (wrap 32 pid) 5 5 /\
  cstr (get (file_write_field "file_path") ev) = take 511 path.
Proof.
  intros Hp ev. unfold ev, file_write_record, strncpy, put_uint.
  change (user_hdr "sequence_number") with (Field 0 8).
  change (user_hdr "timestamp_ns") with (Field 8 8). change (user_hdr "pid") with (Field 16 4).
  change (user_hdr "event_type") with (Field 20 1). change (user_hdr "source") with (Field 21 1).
  change (file_write_field "file_path") with (Field 26 512).
  change (file_write_field "bytes_written") with (Field 22 4). cbn [f_len].
  split; [by solve_rec|]. split.
  - unfold UserLayout.read_header, get_uint.
    change (UserLayout.hdr "sequence_number") with (Field 0 8).
    change (UserLayout.hdr "timestamp_ns") with (Field 8 8).
    change (UserLayout.hdr "pid") with (Field 16 4).
    change (UserLayout.hdr "event_type") with (Field 20 1).
    change (UserLayout.hdr "source") with (Field 21 1).
    f_equal; repeat (rewrite record_get_ne by solve_rec); rewrite record_get_put by solve_rec;
      apply le_dec_enc.
  - rewrite record_get_ne by solve_rec.
    rewrite get_put_prefix; [|unfold within; apply Nat.leb_le | rewrite length_strncpy; simpl; lia].
    + rewrite length_strncpy.
      repeat (rewrite record_get_ne by solve_rec).
      change (drop (512 - 1) (get (Field 26 512) cleared_record)) with [0].
      by apply cstr_take_pad.
    + match goal with |- (_ <= length ?e)%nat => assert (record_ok e) as He by solve_rec end.
      rewrite He. apply Nat.leb_le. reflexivity.
Qed.

(** ** One pass *)

Section pass.
Context (readlink : Z -> option (list Z)) (now : nat -> Z).

(** The modifications to report: the process and the path. *)
Definition reported (l : list metadata) : list (Z * list Z) :=
  omap (fun md =>
    if 0 <=? md_fd md then
      match resolve readlink (md_fd md) with
      | Some path => if should_filter path then None else Some (md_pid md, path)
      | None => None
      end
    else None) l.

Definition has_fd (md : metadata) : bool := 0 <=? md_fd md.

(** The records of [l], the first with number [seq + 1]. *)
Definition records_of (seq : Z) (base : nat) (l : list (Z * list Z)) : list (list Z) :=
  imap (fun i e => file_write_record (wrap 64 (seq + 1 + Z.of_nat i)) (now (base + i)) (fst e) (snd e)) l.

Lemma handle_one_run (md : metadata) (b : batch) :
  handle_one readlink now true md b =
    Batch (wrap 64 (b_seq b + Z.of_nat (length (reported [md])))) 
      (b_events b ++ records_of (b_seq b) (length (b_events b)) (reported [md]))
      (b_closed b ++ (if has_fd md then [md_fd md] else [])) \/
  reported [md] = [] /\
  handle_one readlink now true md b =
    Batch (b_seq b) (b_events b) (b_closed b ++ (if has_fd md then [md_fd md] else [])).
Proof.
  unfold handle_one, reported, has_fd. simpl. destruct (0 <=? md_fd md).
  2:{ right. split; [done|]. rewrite app_nil_r. by destruct b. }
  destruct (resolve readlink (md_fd md)) as [path|]; [|by right].
  unfold handle_path. destruct (should_filter path); [by right | left].
  simpl. unfold records_of. simpl. by rewrite Nat.add_0_r, Z.add_0_r.
Qed.

Lemma wrap_next (w a i : Z) : wrap w (wrap w a + 1 + i) = wrap w (a + 1 + i).
Proof. unfold wrap. by rewrite <- !Z.add_assoc, Zplus_mod_idemp_l. Qed.

Lemma reported_cons (md : metadata) (l : list metadata) :
  reported (md :: l) = reported [md] ++ reported l.
Proof. unfold reported. simpl. by destruct (if 0 <=? md_fd md then _ else _). Qed.

Lemma records_of_app (seq : Z) (base : nat) (l1 l2 : list (Z * list Z)) :
  records_of seq base (l1 ++ l2) =
    records_of seq base l1 ++ records_of (wrap 64 (seq + Z.of_nat (length l1)))
      (base + length l1) l2.
Proof.
  unfold records_of. rewrite imap_app. f_equal. apply imap_ext. intros i [p path] _. simpl.
  f_equal; [|f_equal; lia]. rewrite wrap_next. f_equal. lia.
Qed.

Lemma length_records_of (seq : Z) (base : nat) (l : list (Z * list Z)) :
  length (records_of seq base l) = length l.
Proof. apply length_imap. Qed.

Lemma handle_events_run (l : list metadata) (b : batch) :
  Forall (fun md => FAN_EVENT_METADATA_LEN <= metadata_len md) l ->
  b_events (handle_events readlink now true l b) =
    b_events b ++ records_of (b_seq b) (length (b_events b)) (reported l) /\
  b_closed (handle_events readlink now true l b) =
    b_closed b ++ map md_fd (filter (fun md => has_fd md = true) l).
Proof.
  intros Hl. revert b. induction Hl as [|md l Hmd Hl IH]; intros b.
  { simpl. by rewrite !app_nil_r. }
  cbn [handle_events]. destruct (Z.ltb_spec (metadata_len md) FAN_EVENT_METADATA_LEN); [lia|].
  destruct (IH (handle_one readlink now true md b)) as [-> ->].
  rewrite reported_cons, records_of_app, filter_cons.
  assert (map md_fd (if decide (has_fd md = true) then md :: filter (fun md => has_fd md = true) l
      else filter (fun md => has_fd md = true) l) =
    (if has_fd md then [md_fd md] else []) ++ map md_fd (filter (fun md => has_fd md = true) l)) as ->
    by (by destruct (has_fd md)).
  destruct (handle_one_run md b) as [-> | [Hr ->]]; cbn [b_events b_closed b_seq].
  - by rewrite <- !app_assoc, length_app, length_records_of.
  - rewrite Hr. simpl. rewrite Nat.add_0_r, Z.add_0_r, <- app_assoc. split; [|done].
    unfold records_of. f_equal. apply imap_ext. intros i [p path] _. simpl. f_equal.
    symmetry. apply wrap_next.
Qed.

(** C27: one pass over a buffer reports every modification and leaks no
    descriptor.  Each event with a descriptor whose path resolves and is not
    filtered yields exactly one record, in order, numbered consecutively, which
    a consumer reads as a FileWrite from fanotify by the event's process on the
    first 511 bytes of the path; and the descriptors of all events, reported or
    not, are closed once each, in order. *)
Theorem fanotify_pass_reports (l : list metadata) (seq : Z) :
  Forall (fun md => FAN_EVENT_METADATA_LEN <= metadata_len md) l ->
  let b := handle_events readlink now true l (Batch seq [] []) in
  length (b_events b) = length (reported l) /\
  (forall i pid path, reported l !! i = Some (pid, path) ->
     exists ev, b_events b !! i = Some ev /\
       length ev = UserLayout.sizeof_TelemetryEvent /\
       UserLayout.read_header ev = UserLayout.HeaderView (wrap 64 (seq + 1 + Z.of_nat i))
         (wrap 64 (now i)) (wrap 32 pid) 5 5 /\
       cstr (get (file_write_field "file_path") ev) = take 511 path) /\
  b_closed b = map md_fd (filter (fun md => has_fd md = true) l).
Proof.
  intros Hl b. destruct (handle_events_run l (Batch seq [] []) Hl) as [He Hc].
  fold b in He, Hc. simpl in He, Hc. rewrite He, Hc. split; [apply length_records_of|].
  split; [|done]. intros i pid path Hi.
  assert (Forall nonzero path) as Hp.
  { apply list_elem_of_lookup_2, list_elem_of_omap in Hi as (md & _ & Hmd).
    unfold resolve in Hmd. repeat case_match; simplify_eq. apply cstr_nonzero. }
  eexists. split.
  - unfold records_of. rewrite list_lookup_imap, Hi. reflexivity.
  - destruct (file_write_record_read (wrap 64 (seq + 1 + Z.of_nat i)) (now (0 + i)%nat) pid path Hp)
      as (H1 & H2 & H3).
    split; [done|]. split; [|done]. simpl in H2 |- *. by rewrite H2, wrap_wrap.
Qed.

End pass.

(** ** Life cycle *)

(** A monitor that was initialised but never started keeps its descriptor: [Stop],
    and so the destructor, returns at once. *)
Lemma unstarted_monitor_leaks (fd ret : Z) :
  0 <= fd -> 0 <= ret ->
  let s := snd (Stop (snd (Initialize fd ret new_monitor))) in
  fd ∈ m_open s /\ m_initialized s = true.
Proof.
  intros Hfd Hret. unfold Initialize, Stop. simpl.
  destruct (Z.ltb_spec fd 0); [lia|]. destruct (Z.ltb_spec ret 0); [lia|]. simpl.
  split; [by left | done].
Qed.

(** Two events: a log file (filtered) and a document. *)
Lemma fanotify_pass_reports_witness :
  let readlink := fun fd => if fd =? 7 then Some (str "/var/log/syslog")
    else Some (str "/home/u/report") in
  let l := [Metadata 24 7 100; Metadata 24 8 101] in
  let b := handle_events readlink (fun _ => 5) true l (Batch 9 [] []) in
  length (b_events b) = 1%nat /\ b_closed b = [7; 8] /\
  exists ev, b_events b !! 0%nat = Some ev /\
    UserLayout.read_header ev = UserLayout.HeaderView 10 5 101 5 5 /\
    cstr (get (file_write_field "file_path") ev) = str "/home/u/report".
Proof.
  intros readlink l b.
  destruct (fanotify_pass_reports readlink (fun _ => 5) l 9) as (H1 & H2 & H3).
  { unfold l. repeat constructor; reflexivity || discriminate. }
  split; [exact H1|]. split; [exact H3|].
  destruct (H2 0%nat 101 (str "/home/u/report") eq_refl) as (ev & Hev & _ & Hh & Hp).
  exists ev. split; [exact Hev|]. split; [exact Hh | exact Hp].
Defined.
