(* ===== verification/Ffi.v ===== *)
(** The exported engine interface on Linux (src/ffi.cpp, lines 84-330): the global
    state behind [g_ffi_mutex] and the calls on it, and the path of a record from
    the ring buffer to the sender.

    Every exported function holds [g_ffi_mutex] for its whole body, so each is one
    step.  Of the two senders the engine's control flow depends on [running_]
    only; [LinuxIpc] models what they do. *)

From S2P Require Export MapApi Records Tty.
From S2P Require Fanotify.
From S2P Require Import LoaderTheorems.

Local Open Scope Z_scope.

Record engine : Type := Engine {
  g_initialized : bool;
  g_running : bool;
  g_sender : option bool;                    (* its running_, when created *)
  g_tty_sender : bool;                       (* its running_ *)
  g_loader : option loader;
  g_fanotify : option Fanotify.monitor;
}.

Definition new_engine : engine := Engine false false None false None None.

Section engine.
Context (lib : libbpf).

(** [ITelemetrySender::Start]: refused when it runs already. *)
Definition sender_start (running : bool) : bool * bool := (negb running, true).

(** [fan_fd] and [fan_ret]: what fanotify_init and fanotify_mark return. *)
Definition initialize_telemetry_engine (bpf_obj_path : string) (fan_fd fan_ret : Z)
  : prog engine bool := act (fun e =>
  if g_initialized e then (false, e) else
  let '(ok, ld) := EbpfLoader.Initialize lib bpf_obj_path false new_loader in
  if negb ok then (false, Engine false (g_running e) None (g_tty_sender e) None (g_fanotify e))
  else
    let '(fan_ok, fan) := Fanotify.Initialize fan_fd fan_ret Fanotify.new_monitor in
    (true, Engine true (g_running e) (Some false) (g_tty_sender e) (Some ld)
      (if fan_ok then Some fan else None))).

Definition start_telemetry_engine : prog engine bool := act (fun e =>
  if negb (g_initialized e) || g_running e then (false, e) else
  match g_sender e, g_loader e with
  | Some snd_running, Some ld =>
      let '(ok, snd_running) := sender_start snd_running in
      if negb ok then (false, e) else
      let '(ok, ld) := EbpfLoader.Start lib ld in
      if negb ok then
        (* g_tty_sender.Stop(); g_sender->Stop(); *)
        (false, Engine (g_initialized e) (g_running e) (Some false) false (Some ld) (g_fanotify e))
      else
        let fan := match g_fanotify e with
                   | Some fan => Some (snd (Fanotify.Start fan))
                   | None => None
                   end in
        (true, Engine (g_initialized e) true (Some snd_running) true (Some ld) fan)
  | _, _ => (false, e)
  end).

Definition stop_telemetry_engine : prog engine unit := act (fun e =>
  if negb (g_running e) then (tt, e) else
  (tt, Engine (g_initialized e) false
    (match g_sender e with Some _ => Some false | None => None end) false
    (match g_loader e with Some ld => Some (snd (EbpfLoader.Stop lib ld)) | None => None end)
    (match g_fanotify e with Some fan => Some (snd (Fanotify.Stop fan)) | None => None end))).

Definition is_lsm_active (e : engine) : bool :=
  match g_loader e with Some ld => lsm_active_ ld | None => false end.

(** What SendEvent is called with, when it is called. *)
Definition send_telemetry_event (event : option (list Z)) (e : engine) : option (list Z) :=
  match g_sender e, event with
  | Some _, Some ev => if g_running e then Some ev else None
  | _, _ => None
  end.

(** ** Map calls *)

Section maps.
Context {BM : BpfMaps} {RB : BpfRingbuf} (find_map : string -> bool) (e : engine).

(** [if (g_loader && g_running) return g_loader->..; return false;] *)
Definition when_running (op : loader -> prog bst bool) : prog bst bool :=
  match g_loader e with
  | Some ld => if g_running e then op ld else mret false
  | None => mret false
  end.

Definition add_sensitive_inode (inode category : Z) : prog bst bool :=
  when_running (fun ld => AddSensitiveInode find_map ld inode category).
Definition add_trusted_exec_inode (inode trust_level : Z) : prog bst bool :=
  when_running (fun ld => AddTrustedExecInode find_map ld inode trust_level).
Definition is_trusted_exec_inode (inode : Z) : prog bst bool :=
  when_running (fun ld => LookupTrustedExecInode find_map ld inode).
Definition set_config_value (index value : Z) : prog bst bool :=
  when_running (fun ld => SetConfigValue find_map ld index value).
Definition update_process_threshold (pid start_time threshold : Z) : prog bst bool :=
  when_running (fun ld => UpdateMapEntry find_map ld ProcessThreshold pid start_time threshold).

End maps.

(** ** Sessions *)

Inductive engine_op : Type :=
| EInitialize (bpf_obj_path : string) (fan_fd fan_ret : Z)
| EStart
| EStop.

Definition run_engine_op (o : engine_op) (e : engine) : engine :=
  match o with
  | EInitialize path fd ret => snd (initialize_telemetry_engine path fd ret e)
  | EStart => snd (start_telemetry_engine e)
  | EStop => snd (stop_telemetry_engine e)
  end.

Definition run_engine (l : list engine_op) (e : engine) : engine :=
  fold_left (fun e o => run_engine_op o e) l e.

(** The engine after a stop: initialised, with a loader that is not. *)
Record spent (e : engine) : Prop := Spent {
  sp_initialized : g_initialized e = true;
  sp_running : g_running e = false;
  sp_loader : match g_loader e with Some ld => initialized_ ld = false | None => True end;
}.

Lemma Stop_uninitialized (s : loader) : initialized_ (snd (EbpfLoader.Stop lib s)) = false.
Proof using.
  unfold EbpfLoader.Stop. repeat rewrite run_bind. done.
Qed.

Lemma Start_uninitialized (s : loader) :
  initialized_ s = false -> EbpfLoader.Start lib s = (false, s).
Proof using. intros Hi. unfold EbpfLoader.Start. rewrite run_bind, run_gets. simpl. by rewrite Hi. Qed.

Lemma spent_start (e : engine) :
  spent e -> fst (start_telemetry_engine e) = false /\ spent (snd (start_telemetry_engine e)).
Proof using.
  intros He. pose proof He as [Hi Hr Hl]. unfold start_telemetry_engine. rewrite run_act, Hi, Hr. cbn [negb orb].
  destruct (g_sender e) as [sr|]; [|done]. destruct (g_loader e) as [ld|] eqn:Hld; [|done].
  unfold sender_start. destruct sr; cbn [negb].
  - done.
  - rewrite Start_uninitialized by done. cbn [negb]. split; [done|]. by split.
Qed.

Lemma spent_op (o : engine_op) (e : engine) : spent e -> spent (run_engine_op o e).
Proof using.
  intros He. destruct o as [path fd ret| |]; simpl.
  - unfold initialize_telemetry_engine. by rewrite run_act, (sp_initialized e He).
  - by apply spent_start.
  - unfold stop_telemetry_engine. by rewrite run_act, (sp_running e He).
Qed.

(** C39: a stopped engine never runs again.  After stop_telemetry_engine on a
    running engine, whatever initialize, start and stop calls follow, every
    initialize is refused (the engine still counts as initialised), every start
    is refused (its loader no longer does), no event is sent, and every map call
    is refused and changes nothing. *)
Theorem stopped_engine_stays_down (e : engine) (l : list engine_op) (path : string)
    (fan_fd fan_ret : Z) :
  g_initialized e = true -> g_running e = true ->
  let e' := run_engine (EStop :: l) e in
  fst (initialize_telemetry_engine path fan_fd fan_ret e') = false /\
  fst (start_telemetry_engine e') = false /\
  (forall event, send_telemetry_event event e' = None) /\
  (forall (BM : BpfMaps) (RB : BpfRingbuf) (op : loader -> prog bst bool) (s : bst),
     when_running e' op s = (false, s)).
Proof using.
  intros Hi Hr e'. assert (spent e') as He'.
  { unfold e', run_engine. simpl fold_left.
    assert (spent (snd (stop_telemetry_engine e))) as Hs.
    { unfold stop_telemetry_engine. rewrite run_act, Hr. split; [done | done |]. simpl.
      destruct (g_loader e); [apply Stop_uninitialized | done]. }
    revert Hs. generalize (snd (stop_telemetry_engine e)). induction l as [|o l IH]; intros e1 H1;
      simpl; [done | by apply IH, spent_op]. }
  pose proof (sp_running e' He') as Hnr. split; [|split; [|split]].
  - unfold initialize_telemetry_engine. by rewrite run_act, (sp_initialized e' He').
  - by apply spent_start.
  - intros event. unfold send_telemetry_event. rewrite Hnr. by destruct (g_sender e'), event.
  - intros BM RB op s. unfold when_running. rewrite Hnr. by destruct (g_loader e').
Qed.

End engine.

(** ** Delivery *)

Section delivery.

(** The ring buffer callback of a running engine: what SendEvent is called with. *)
Definition on_ring_record (e : engine) (data : option (list Z)) : option (list Z) :=
  match HandleRingBufferEvent true data, g_sender e with
  | Some ev, Some _ => Some ev
  | _, _ => None
  end.

Definition on_tty_record (data : option (list Z)) : option (list Z) :=
  HandleTtyRingBufferEvent true data.

Context {BM : BpfMaps} {RB : BpfRingbuf} `{!BpfMapsLaws, !BpfRingbufLaws}.

(** What the programs commit is what the engine sends.  Every record a
    program adds to the telemetry ring buffer passes the loader's size check and
    reaches SendEvent byte for byte; so does every captured terminal record. *)
Theorem committed_records_sent (e : engine) (c : ctx) (h : hook_call) (s : bst) (ev : list Z) :
  ctx_ok c -> g_sender e <> None ->
  (records (snd (run_hook c h s)) = records s ++ [ev] -> on_ring_record e (Some ev) = Some ev) /\
  (forall w data, tty_record c w data ev -> on_tty_record (Some ev) = Some ev).
Proof using All.
  intros Hc Hg. split.
  - intros Hev. unfold on_ring_record, HandleRingBufferEvent, deliver.
    destruct (run_hook_one_event c h Hc s) as [[Hr _]|(ev' & [Hr Hl _ _])].
    + rewrite Hr in Hev. apply (f_equal length) in Hev. rewrite length_app in Hev. simpl in Hev. lia.
    + rewrite Hr in Hev. apply app_inv_head in Hev as [= ->].
      change UserLayout.sizeof_TelemetryEvent with sizeof_TelemetryEvent.
      rewrite Hl, Nat.eqb_refl. cbn [andb]. by destruct (g_sender e).
  - intros w data [Hl _ _ _ _ _ _]. unfold on_tty_record, HandleTtyRingBufferEvent, deliver.
    by rewrite Hl, Nat.eqb_refl.
Qed.

End delivery.

Definition demo_engine_lib : libbpf := demo_lib (fun _ => false) "bpf".

(** A running engine. *)
Definition running_engine : engine :=
  run_engine demo_engine_lib [EInitialize "kinnector.bpf.o" 5 0; EStart] new_engine.

Lemma stopped_engine_stays_down_witness :
  let e' := run_engine demo_engine_lib [EStop; EStart] running_engine in
  fst (start_telemetry_engine demo_engine_lib e') = false /\
  add_sensitive_inode all_maps e' 77 1 loaded = (false, loaded).
Proof.
  assert (g_initialized running_engine = true) as Hi by (vm_compute; reflexivity).
  assert (g_running running_engine = true) as Hr by (vm_compute; reflexivity).
  destruct (stopped_engine_stays_down demo_engine_lib running_engine [EStart] "kinnector.bpf.o" 6 0
    Hi Hr) as (_ & H1 & _ & H2).
  split; [exact H1 | apply H2].
Defined.

Lemma committed_records_sent_witness :
  exists ev, records (snd (run_hook (demo_ctx 0 42 1) SysEnterListen loaded)) = records loaded ++ [ev]
    /\ on_ring_record running_engine (Some ev) = Some ev.
Proof.
  exists (nth 0 (records (snd (run_hook (demo_ctx 0 42 1) SysEnterListen loaded))) []).
  assert (records (snd (run_hook (demo_ctx 0 42 1) SysEnterListen loaded)) = records loaded ++
    [nth 0 (records (snd (run_hook (demo_ctx 0 42 1) SysEnterListen loaded))) []]) as Hev
    by (vm_compute; reflexivity).
  assert (g_sender running_engine <> None) as Hg by (vm_compute; discriminate).
  split; [exact Hev|].
  exact (proj1 (committed_records_sent running_engine (demo_ctx 0 42 1) SysEnterListen loaded _
    (demo_ctx_ok 0 42 1) Hg) Hev).
Defined.
