(* ===== verification/EngineFacts.v ===== *)
(** The engine on Linux between calls: its loader, senders and monitor run exactly when
    it does, whatever libbpf and fanotify answer. *)

From S2P Require Export Ffi.
From S2P Require Import LoaderFacts LoaderTheorems.

Local Open Scope Z_scope.

Section loader.
Context (lib : libbpf).

(** A loader between calls, with [running_]. *)
Definition settled (running : bool) (s : loader) : Prop := thread_inv s /\ running_ s = running.

Lemma quiescent_settled (running : bool) (s : loader) :
  quiescent running nullptr s -> settled running s.
Proof using. intros []. split; [split; congruence | done]. Qed.

(** Setting up the ring buffer: the result is what [running_] ends as. *)
Lemma start_ring_buffer_result :
  triple (quiescent true nullptr) (start_ring_buffer lib) settled.
Proof using.
  intros s Hs. split; [by apply start_ring_buffer_inv|]. revert s Hs.
  change (triple (quiescent true nullptr) (start_ring_buffer lib) (fun ok s => running_ s = ok)).
  unfold start_ring_buffer.
  eapply triple_bind; [apply keeps_gets|]. intros s0.
  eapply triple_bind; [by apply quiescent_calls|]. intros m.
  eapply triple_bind; [by apply quiescent_calls|]. intros fd.
  apply (triple_bind _ (fun _ => quiescent true nullptr)); [intros s Hs; by apply quiescent_call|].
  intros rb.
  eapply (triple_bind _ (fun _ => quiescent true rb)); [intros s []; by split|]. intros _.
  destruct (Z.eqb_spec rb nullptr) as [->|Hrb].
  { eapply triple_bind.
    - eapply triple_conseq; [apply Stop_quiescent | | done]. intros s []. split; [done | congruence].
    - by intros _ s []. }
  eapply triple_bind; [by apply quiescent_calls|]. intros tm.
  eapply (triple_bind _ (fun _ => quiescent true rb)).
  { apply keeps_if; [apply keeps_ret|].
    do 2 (apply keeps_bind; [by apply quiescent_calls|]; intros ?). apply keeps_ret. }
  intros _. eapply (triple_bind _ (fun _ => quiescent true rb)).
  { apply keeps_for_each, quiescent_attach. }
  by intros _ s [].
Qed.

(** Start on a loader that is not running: its result is what [running_] ends as. *)
Lemma Start_settled (s : loader) :
  settled false s -> settled (fst (EbpfLoader.Start lib s)) (snd (EbpfLoader.Start lib s)).
Proof using.
  intros [Hi Hr]. split; [by apply (thread_inv_op lib OpStart)|].
  assert (thread_joinable s = false) as Hj.
  { destruct (thread_joinable s) eqn:Hj; [|done]. destruct (ti_polls s Hi Hj). congruence. }
  unfold EbpfLoader.Start. steps. rewrite Hr. destruct (initialized_ s); [|done]. cbn [negb orb].
  destruct (mock_mode_ s); [by steps|]. steps.
  match goal with |- context [?m ?s0] =>
    assert (quiescent true nullptr s0) as Hq
      by (destruct Hi; split; simpl; [done | congruence | done | done | by auto]);
    revert Hq; generalize s0 end.
  intros s1 Hq. rewrite run_bind.
  match goal with |- context [snd (?att s1)] =>
    assert (quiescent true nullptr (snd (att s1))) as Hq2
      by (apply (keeps_attach lib (quiescent true nullptr) (quiescent_loading lib true nullptr)
            (lsm_active_ s)); exact Hq);
    destruct (att s1) as [attached s2] end.
  cbn [fst snd] in *. destruct attached; cbn [negb]; [|done].
  steps. destruct (bpf_obj_ s2 =? nullptr); [by destruct Hq2|].
  by apply start_ring_buffer_result.
Qed.

Lemma Stop_settled (running : bool) (s : loader) :
  settled running s -> settled false (snd (EbpfLoader.Stop lib s)).
Proof using. intros [[] _]. apply quiescent_settled, Stop_quiescent. by split. Qed.

End loader.

(** ** The monitor *)

(** A monitor between calls: its thread and its descriptor. *)
Record monitor_ok (running : bool) (m : Fanotify.monitor) : Prop := MonitorOk {
  mo_running : Fanotify.m_running m = true -> running = true;
  mo_thread : Fanotify.m_thread m = Fanotify.m_running m;
  mo_initialized : Fanotify.m_running m = true -> Fanotify.m_initialized m = true;
  mo_fd : Fanotify.m_initialized m = true -> 0 <= Fanotify.m_fd m;
  mo_open : Fanotify.m_open m = if Fanotify.m_initialized m then [Fanotify.m_fd m] else [];
}.

Lemma monitor_initialized (fd ret : Z) :
  let r := Fanotify.Initialize fd ret Fanotify.new_monitor in
  fst r = true -> monitor_ok false (snd r).
Proof.
  unfold Fanotify.Initialize. cbv zeta. simpl.
  rewrite ?run_act. destruct (Z.ltb_spec fd 0); [done|].
  destruct (ret <? 0); [done|]. intros _. by split.
Qed.

Lemma monitor_started (m : Fanotify.monitor) :
  monitor_ok false m -> monitor_ok true (snd (Fanotify.Start m)).
Proof.
  intros [Hr Ht Hi Hf Ho]. unfold Fanotify.Start.
  rewrite ?run_act.
  destruct (Fanotify.m_initialized m) eqn:Hini, (Fanotify.m_running m) eqn:Hrun; cbn [negb orb snd];
    try (by specialize (Hr eq_refl)); split; simpl; rewrite ?Hini, ?Hrun; done.
Qed.

Lemma monitor_stopped (running : bool) (m : Fanotify.monitor) :
  monitor_ok running m -> monitor_ok false (snd (Fanotify.Stop m)).
Proof.
  intros [Hr Ht Hi Hf Ho]. unfold Fanotify.Stop.
  rewrite ?run_act.
  destruct (Fanotify.m_running m) eqn:Hrun; cbn [negb snd].
  - rewrite (Hi eq_refl) in *. specialize (Hf eq_refl). split; simpl; try done.
    rewrite Ho. destruct (Z.eqb_spec (Fanotify.m_fd m) (-1)); [lia|].
    rewrite filter_cons. by rewrite decide_False by naive_solver.
  - by split; rewrite ?Hrun.
Qed.

(** ** The engine *)

Record engine_ok (e : engine) : Prop := EngineOk {
  eo_parts : if g_initialized e then is_Some (g_sender e) /\ is_Some (g_loader e)
             else g_sender e = None /\ g_loader e = None;
  eo_running : g_running e = true -> g_initialized e = true;
  eo_sender : forall b, g_sender e = Some b -> b = g_running e;
  eo_tty : g_tty_sender e = g_running e;
  eo_loader : forall ld, g_loader e = Some ld -> settled (g_running e) ld;
  eo_monitor : forall m, g_fanotify e = Some m -> monitor_ok (g_running e) m;
}.

(** The fields of the invariant that the new state shows at once. *)
Ltac engine_fields :=
  split; simpl; known_bools; try done; try (intros ? [= <-]; simpl; done); try (split; by eexists);
  try congruence.

Lemma linux_new_engine_ok : engine_ok new_engine.
Proof. by split. Qed.

Lemma new_loader_settled : settled false new_loader.
Proof. split; [by split | done]. Qed.

(** A new loader is always accepted; a missing object file puts it in mock mode. *)
Lemma Initialize_new_loader (lib : libbpf) (path : string) :
  let r := EbpfLoader.Initialize lib path false new_loader in
  fst r = true /\ settled false (snd r).
Proof.
  cbv zeta. split; [unfold EbpfLoader.Initialize; steps; by destruct (file_exists lib path)|].
  split; [apply (thread_inv_op lib (OpInitialize path false)); by split|].
  unfold EbpfLoader.Initialize. steps. by destruct (file_exists lib path).
Qed.

Section ops.
Context (lib : libbpf).

Lemma linux_initialize_ok (path : string) (fd ret : Z) (e : engine) :
  engine_ok e -> engine_ok (snd (initialize_telemetry_engine lib path fd ret e)).
Proof using.
  intros He. pose proof He as [Hp Hr Hs Ht Hl Hm]. unfold initialize_telemetry_engine.
  rewrite ?run_act.
  destruct (g_initialized e) eqn:Hi; [exact He|].
  assert (g_running e = false) as Hnr by (by destruct (g_running e); [specialize (Hr eq_refl)|]).
  destruct (Initialize_new_loader lib path) as [Hok Hset].
  destruct (EbpfLoader.Initialize lib path false new_loader) as [ok ld]. cbn [fst snd] in *. subst ok.
  cbn [negb]. pose proof (monitor_initialized fd ret) as Hmon. cbv zeta in Hmon.
  destruct (Fanotify.Initialize fd ret Fanotify.new_monitor) as [fok fan]. cbn [fst snd] in *.
  engine_fields. destruct fok; [|done]. intros ? [= <-]. by apply Hmon.
Qed.

Lemma linux_start_ok (e : engine) : engine_ok e -> engine_ok (snd (start_telemetry_engine lib e)).
Proof using.
  intros He. pose proof He as [Hp Hr Hs Ht Hl Hm]. unfold start_telemetry_engine.
  rewrite ?run_act.
  destruct (g_initialized e) eqn:Hi; [|exact He]. destruct (g_running e) eqn:Hrun; [exact He|].
  cbn [negb orb]. destruct Hp as [[b Hsn] [ld Hld]]. rewrite Hsn, Hld in *.
  rewrite (Hs b eq_refl). cbn [sender_start negb].
  pose proof (Start_settled lib ld (Hl ld eq_refl)) as Hst.
  destruct (EbpfLoader.Start lib ld) as [ok ld']. cbn [fst snd] in Hst. destruct ok; cbn [negb snd].
  - engine_fields. intros m. destruct (g_fanotify e) as [fan|]; [|done]. intros [= <-].
    by apply monitor_started, Hm.
  - engine_fields.
Qed.

Lemma linux_stop_ok (e : engine) : engine_ok e -> engine_ok (snd (stop_telemetry_engine lib e)).
Proof using.
  intros He. pose proof He as [Hp Hr Hs Ht Hl Hm]. unfold stop_telemetry_engine.
  rewrite ?run_act.
  destruct (g_running e) eqn:Hrun; [|exact He]. cbn [negb snd]. rewrite (Hr eq_refl) in *.
  destruct Hp as [[b Hsn] [ld Hld]]. rewrite Hsn, Hld in *.
  engine_fields.
  - intros ? [= <-]. by apply (Stop_settled lib true), Hl.
  - intros m. destruct (g_fanotify e) as [fan|]; [|done]. intros [= <-].
    by apply (monitor_stopped true), Hm.
Qed.

(** C12: the engine on Linux is consistent between calls.  Whatever libbpf and fanotify
    answer and in whatever order the engine is initialised, started and stopped: it
    has a sender and a loader exactly when it is initialised; both senders run and
    the loader counts as running exactly when the engine does; and while it does not
    run, no thread polls a ring buffer, none is left, and the monitor has no thread
    (its one descriptor is open as long as it is initialised). *)
Theorem linux_engine_consistent (l : list engine_op) :
  let e := run_engine lib l new_engine in
  engine_ok e /\
  (g_running e = false ->
     (forall ld, g_loader e = Some ld -> thread_live (calls ld) = false /\ ring_buf_ ld = nullptr) /\
     (forall m, g_fanotify e = Some m -> Fanotify.m_thread m = false)).
Proof using.
  intros e. assert (engine_ok e) as He.
  { assert (forall e0, engine_ok e0 -> engine_ok (run_engine lib l e0)) as Hrun.
    { clear e. induction l as [|o l IH]; intros e0 He0; [done|]. apply IH.
      destruct o; [by apply linux_initialize_ok | by apply linux_start_ok | by apply linux_stop_ok]. }
    by apply Hrun, linux_new_engine_ok. }
  split; [exact He|]. intros Hr. split.
  - intros ld Hld. destruct (eo_loader e He ld Hld) as [Hi Hrun]. rewrite Hr in Hrun.
    assert (thread_joinable ld = false) as Hj.
    { destruct (thread_joinable ld) eqn:Hj; [|done]. destruct (ti_polls ld Hi Hj). congruence. }
    split; [by rewrite (ti_live ld Hi) | by apply (ti_ring ld Hi)].
  - intros m Hm. destruct (eo_monitor e He m Hm) as [Hmr Hmt _ _ _]. rewrite Hmt.
    destruct (Fanotify.m_running m); [|done]. rewrite Hr in Hmr. by specialize (Hmr eq_refl).
Qed.

End ops.

(** A start that fails may be the last: when the ring buffer cannot be created, the
    loader stops itself and the engine, still initialised, can neither be started
    nor initialised again. *)
Lemma failed_ring_buffer_bricks (l : list engine_op) (path : string) (fd ret : Z) :
  let lib := demo_lib is_new_ring "bpf" in
  let e := run_engine lib ([EInitialize "kinnector.bpf.o" 5 0; EStart] ++ l) new_engine in
  fst (start_telemetry_engine lib e) = false /\
  fst (initialize_telemetry_engine lib path fd ret e) = false.
Proof.
  intros lib e.
  assert (spent (run_engine lib [EInitialize "kinnector.bpf.o" 5 0; EStart] new_engine)) as Hs
    by (split; vm_compute; reflexivity).
  assert (spent e) as He.
  { unfold e, run_engine. rewrite fold_left_app. revert Hs. unfold run_engine.
    generalize (fold_left (fun e o => run_engine_op lib o e)
      [EInitialize "kinnector.bpf.o" 5 0; EStart] new_engine).
    clear e. induction l as [|o l IH]; intros e He; [done|]. by apply IH, spent_op. }
  split; [by apply spent_start|]. unfold initialize_telemetry_engine.
  rewrite ?run_act. by rewrite (sp_initialized e He).
Qed.

(** The engine of [Ffi], started and stopped. *)
Lemma linux_engine_consistent_witness :
  let e := run_engine demo_engine_lib [EInitialize "kinnector.bpf.o" 5 0; EStart; EStop] new_engine in
  g_initialized e = true /\
  (forall ld, g_loader e = Some ld -> thread_live (calls ld) = false /\ ring_buf_ ld = nullptr).
Proof.
  intros e. split; [vm_compute; reflexivity|].
  assert (g_running e = false) as Hr by (vm_compute; reflexivity).
  exact (proj1 (proj2 (linux_engine_consistent demo_engine_lib
    [EInitialize "kinnector.bpf.o" 5 0; EStart; EStop]) Hr)).
Defined.
