(* ===== verification/EtwConsumer.v ===== *)
(** The Windows event consumer (src/windows/etw_consumer.cpp): the records it builds
    from kernel ETW events, the Mark-of-the-Web reader, and the life of the
    tracing session.

    The Windows interfaces are parameters ([windows]): what TDH returns for an
    event, the text conversions, the signature check and the file system. *)

From S2P Require Export UserRecords.

Local Open Scope Z_scope.

(** ** Providers and event ids *)

Record guid : Type := Guid { Data1 : Z; Data2 : Z; Data3 : Z; Data4 : list Z }.

#[export] Instance guid_eq_dec : EqDecision guid.
Proof. solve_decision. Defined.

Definition KernelProcessGuid : guid :=
  Guid 0x22fb2cd6 0x0e7b 0x422b [0xa0; 0xc7; 0x2f; 0xad; 0x1f; 0xd0; 0xe7; 0x16].
Definition KernelFileGuid : guid :=
  Guid 0xedd08927 0x9cc4 0x4e65 [0xb9; 0x70; 0xc2; 0x56; 0x0f; 0xb5; 0xc2; 0x89].
Definition KernelNetworkGuid : guid :=
  Guid 0x7dd42a49 0x5329 0x4832 [0x8d; 0xfd; 0x43; 0xd9; 0x79; 0x15; 0x3a; 0x88].

Definition KERNEL_PROCESS_CREATE : Z := 1.
Definition KERNEL_PROCESS_STOP : Z := 2.
Definition KERNEL_IMAGE_LOAD : Z := 5.
Definition KERNEL_FILE_CREATE : Z := 12.
Definition KERNEL_FILE_IO_READ : Z := 15.
Definition KERNEL_NETWORK_TCP_CONNECT : Z := 12.

Definition ERROR_SUCCESS : Z := 0.
Definition AF_INET : Z := 2.
Definition AF_INET6 : Z := 23.

(** The parts of an [EVENT_RECORD] the consumer reads itself; the payload is for TDH. *)
Record EVENT_RECORD : Type := EventRecord {
  ProviderId : guid;
  Id : Z;
  TimeStamp : Z;       (* QuadPart, signed *)
  ProcessId : Z;
  UserData : list Z;
}.

(** What the operating system's calls return. *)
Record windows : Type := Windows {
  (* TdhGetEventInformation: the size it asks for, and the property names *)
  info_size : EVENT_RECORD -> Z;
  event_information : EVENT_RECORD -> option (list string);
  TdhGetPropertySize : EVENT_RECORD -> string -> Z;
  (* with a buffer of the given size: the bytes stored *)
  TdhGetProperty : EVENT_RECORD -> string -> Z -> option (list Z);
  (* what lies in memory behind a property buffer *)
  heap_behind : EVENT_RECORD -> string -> list Z;
  WideCharToMultiByte : list Z -> option (list Z);
  inet_ntop : Z -> list Z -> option (list Z);
  (* the result for a file, and the leaf certificate's display name *)
  WinVerifyTrust : list Z -> Z;
  CertGetNameStringA : list Z -> option (list Z);
  (* the characters an ifstream on the path yields, when it opens *)
  open_stream : list Z -> option (list Z);
}.

(** ** Zone identifiers *)

(** [std::getline] until the stream ends. *)
Fixpoint getlines (cur l : list Z) : list (list Z) :=
  match l with
  | [] => if bool_decide (cur = []) then [] else [cur]
  | c :: l => if c =? 10 then cur :: getlines [] l else getlines (cur ++ [c]) l
  end.

Definition isspace (c : Z) : bool := (c =? 32) || ((9 <=? c) && (c <=? 13)).
Definition isdigit (c : Z) : bool := (48 <=? c) && (c <=? 57).

Fixpoint skip_spaces (l : list Z) : list Z :=
  match l with
  | c :: l' => if isspace c then skip_spaces l' else l
  | [] => []
  end.

Fixpoint digits_value (acc : Z) (l : list Z) : Z :=
  match l with
  | c :: l => if isdigit c then digits_value (10 * acc + (c - 48)) l else acc
  | [] => acc
  end.

(** [std::stoi], with [None] for the exceptions it throws. *)
Definition stoi (l : list Z) : option Z :=
  let l := skip_spaces l in
  let '(sign, l) :=
    match l with
    | c :: l' => if c =? 45 then (-1, l') else if c =? 43 then (1, l') else (1, l)
    | [] => (1, l)
    end in
  match l with
  | c :: _ =>
      if isdigit c then
        let v := sign * digits_value 0 l in
        if (- 2 ^ 31 <=? v) && (v <? 2 ^ 31) then Some v else None
      else None
  | [] => None
  end.

Fixpoint zone_of_lines (ls : list (list Z)) : Z :=
  match ls with
  | [] => -1
  | line :: ls =>
      if contains (str "ZoneId=") line then default (-1) (stoi (drop 7 line))
      else zone_of_lines ls
  end.

Section consumer.
Context (os : windows).

Definition GetZoneIdentifier (file_path : list Z) : Z :=
  match open_stream os (file_path ++ str ":Zone.Identifier") with
  | None => -1
  | Some content => zone_of_lines (getlines [] content)
  end.

(** ** Signatures *)

(** The result and what is stored at the start of [out_signer], of [max_len] bytes. *)
Definition VerifyAuthenticodeSignature (wpath : list Z) (max_len : nat) : bool * list Z :=
  let result := WinVerifyTrust os wpath in
  (result =? ERROR_SUCCESS,
   if result =? ERROR_SUCCESS then
     match CertGetNameStringA os wpath with
     | Some name => take (max_len - 1) (cstr name) ++ [0]
     | None => [0]
     end
   else [0]).

(** ** Properties of an event *)

(** A store of [bs] at the start of a buffer. *)
Definition overlay (bs buf : list Z) : list Z := take (length buf) (bs ++ drop (length bs) buf).

(** Little-endian 16-bit units. *)
Fixpoint units (l : list Z) : list Z :=
  match l with
  | a :: b :: l => a + 256 * b :: units l
  | _ => []
  end.

(** The loop over the schema's properties. *)
Fixpoint TdhGetWStringProperty (event : EVENT_RECORD) (names : list string) (prop_name : string)
  : list Z :=
  match names with
  | [] => []
  | name :: names =>
      if String.eqb name prop_name then
        let buf_size := TdhGetPropertySize os event prop_name in
        if buf_size =? 0 then [] else
        match TdhGetProperty os event prop_name buf_size with
        | Some bs =>
            cstr (units (overlay bs (repeat 0 (Z.to_nat buf_size)) ++ heap_behind os event prop_name))
        | None => TdhGetWStringProperty event names prop_name
        end
      else TdhGetWStringProperty event names prop_name
  end.

Definition TdhGetULongProperty (event : EVENT_RECORD) (prop_name : string) (default_val : Z) : Z :=
  match TdhGetProperty os event prop_name 4 with
  | Some bs => le_dec (overlay bs (le_enc 4 default_val))
  | None => wrap 32 default_val
  end.

Definition WstrToUtf8 (ws : list Z) : list Z :=
  if bool_decide (ws = []) then [] else default [] (WideCharToMultiByte os ws).

Definition ntohs (v : Z) : Z := 256 * (v mod 256) + v / 256 mod 256.

(** ** Records *)

Definition hdr (name : string) : field := UserLayout.hdr name.
Definition det (s : Layout.struct) (name : string) : field := UserLayout.det s name.

(** [strncpy_s(dst, src.c_str(), _TRUNCATE)] *)
Definition strncpy_s (f : field) (src out : list Z) : list Z :=
  put f (take (f_len f - 1) (cstr src) ++ [0]) out.

Definition start_record (seq : Z) (event : EVENT_RECORD) : list Z :=
  let out := cleared_record in
  let out := put_uint (hdr "sequence_number") seq out in
  let out := put_uint (hdr "timestamp_ns") (TimeStamp event * 100) out in
  let out := put_uint (hdr "pid") (ProcessId event) out in
  put_uint (hdr "source") (UserLayout.source_code UserLayout.ETW) out.

Definition set_event_type (t : UserLayout.EventType) (out : list Z) : list Z :=
  put_uint (hdr "event_type") (UserLayout.event_type_code t) out.

Section event.
Context (event : EVENT_RECORD) (names : list string).

Definition process_create (out : list Z) : list Z :=
  let s := UserLayout.ProcessCreateDetails in
  let out := set_event_type UserLayout.ProcessCreate out in
  let image_path := TdhGetWStringProperty event names "ImageName" in
  let cmd_line := TdhGetWStringProperty event names "CommandLine" in
  let child_pid := TdhGetULongProperty event "ProcessId" 0 in
  let parent_pid := TdhGetULongProperty event "ParentProcessId" 0 in
  let out := strncpy_s (det s "child_image_path") (WstrToUtf8 image_path) out in
  let out := strncpy_s (det s "child_command_line") (WstrToUtf8 cmd_line) out in
  let out := put_uint (det s "child_pid") child_pid out in
  put_uint (det s "real_parent_pid") parent_pid out.

Definition process_stop (out : list Z) : list Z :=
  let out := set_event_type UserLayout.ProcessStop out in
  put_uint (det UserLayout.ProcessStopDetails "exit_code")
    (TdhGetULongProperty event "ExitCode" 0) out.

Definition image_load (out : list Z) : list Z :=
  let s := UserLayout.ImageLoadDetails in
  let out := set_event_type UserLayout.ImageLoad out in
  let image_path := TdhGetWStringProperty event names "ImageName" in
  let out := strncpy_s (det s "module_path") (WstrToUtf8 image_path) out in
  let '(ok, signer) :=
    VerifyAuthenticodeSignature image_path (f_len (det s "signer_subject")) in
  let out := put (det s "signer_subject") signer out in
  put_uint (det s "is_signed") (Z.b2z ok) out.

Definition file_create (out : list Z) : list Z :=
  let s := UserLayout.FileCreateDetails in
  let out := set_event_type UserLayout.FileCreate out in
  let path_utf8 := WstrToUtf8 (TdhGetWStringProperty event names "FileName") in
  let out := strncpy_s (det s "file_path") path_utf8 out in
  put_uint (det s "zone_id") (GetZoneIdentifier path_utf8) out.

Definition file_read (out : list Z) : list Z :=
  let s := UserLayout.FileReadDetails in
  let out := set_event_type UserLayout.FileRead out in
  let path_utf8 := WstrToUtf8 (TdhGetWStringProperty event names "FileName") in
  let out := strncpy_s (det s "file_path") path_utf8 out in
  let out := put_uint (det s "zone_id") (GetZoneIdentifier path_utf8) out in
  put_uint (det s "bytes_requested") (TdhGetULongProperty event "IoSize" 0) out.

(** The text [inet_ntop] stores for the remote address, when it stores one. *)
Definition daddr_text : option (list Z) :=
  let addr_size := TdhGetPropertySize os event "daddr" in
  if 4 <=? addr_size then
    match TdhGetProperty os event "daddr" addr_size with
    | Some bs =>
        let addr_buf := overlay bs (repeat 0 (Z.to_nat addr_size)) in
        if addr_size =? 4 then inet_ntop os AF_INET addr_buf
        else if addr_size =? 16 then inet_ntop os AF_INET6 addr_buf
        else None
    | None => None
    end
  else None.

(** [inet_ntop] stores nothing when the text and its NUL do not fit. *)
Definition store_daddr (out : list Z) : list Z :=
  let f := det UserLayout.NetworkConnectDetails "destination_ip" in
  match daddr_text with
  | Some text => if (length text <? f_len f)%nat then put f (text ++ [0]) out else out
  | None => out
  end.

Definition tcp_connect (out : list Z) : list Z :=
  let s := UserLayout.NetworkConnectDetails in
  let out := set_event_type UserLayout.NetworkConnect out in
  let out := store_daddr out in
  let out := put_uint (det s "destination_port")
    (ntohs (wrap 16 (TdhGetULongProperty event "dport" 0))) out in
  strncpy_s (det s "protocol") (str "TCP") out.

(** The three provider branches; [None]: [should_emit] stays false. *)
Definition dispatch (out : list Z) : option (list Z) :=
  if bool_decide (ProviderId event = KernelProcessGuid) then
    if Id event =? KERNEL_PROCESS_CREATE then Some (process_create out)
    else if Id event =? KERNEL_PROCESS_STOP then Some (process_stop out)
    else if Id event =? KERNEL_IMAGE_LOAD then Some (image_load out)
    else None
  else if bool_decide (ProviderId event = KernelFileGuid) then
    if Id event =? KERNEL_FILE_CREATE then Some (file_create out)
    else if Id event =? KERNEL_FILE_IO_READ then Some (file_read out)
    else None
  else if bool_decide (ProviderId event = KernelNetworkGuid) then
    if Id event =? KERNEL_NETWORK_TCP_CONNECT then Some (tcp_connect out)
    else None
  else None.

End event.

(** The counter [s_sequence] (a ULONG) and the records given to the callback. *)
Record stream : Type := Stream { s_sequence : Z; emitted : list (list Z) }.

Definition ProcessEvent (callback : bool) (event : EVENT_RECORD) (s : stream) : stream :=
  if negb callback then s else
  if info_size os event =? 0 then s else
  match event_information os event with
  | None => s
  | Some names =>
      let seq := wrap 32 (s_sequence s + 1) in
      Stream seq
        (match dispatch event names (start_record seq event) with
         | Some out => emitted s ++ [out]
         | None => emitted s
         end)
  end.

End consumer.
