(* ===== verification/EtwTheorems.v ===== *)
(** Theorems about the Windows event consumer: which events become records and
    what a consumer of the records reads, and what the Mark-of-the-Web reader
    makes of a stream. *)

From S2P Require Export EtwConsumer.

Local Open Scope Z_scope.

Lemma cstr_cut (t rest : list Z) : cstr (t ++ 0 :: rest) = cstr t.
Proof.
  induction t as [|b t IH]; simpl; [done|]. destruct (b =? 0); [done | by rewrite IH].
Qed.

Lemma cstr_id (t : list Z) : Forall nonzero t -> cstr t = t.
Proof. intros Ht. rewrite <- (cstr_cut t []). by apply cstr_terminated. Qed.

Lemma cstr_take_cstr (n : nat) (l : list Z) : cstr (take n (cstr l)) = take n (cstr l).
Proof. apply cstr_id, Forall_take, cstr_nonzero. Qed.

(** ** What a consumer reads *)

Inductive view : Type :=
| VProcessCreate (child_pid real_parent_pid : Z) (image command : list Z)
| VProcessStop (exit_code : Z)
| VImageLoad (is_signed : Z) (module signer : list Z)
| VFileCreate (zone_id : Z) (path : list Z)
| VFileRead (bytes_requested zone_id : Z) (path : list Z)
| VNetworkConnect (ip : list Z) (port : Z) (protocol : list Z)
| VOther.

Definition text (s : Layout.struct) (name : string) (ev : list Z) : list Z :=
  cstr (get (det s name) ev).
Definition uint (s : Layout.struct) (name : string) (ev : list Z) : Z :=
  get_uint (det s name) ev.

(** The details of a record of type [t], through the user-space structures. *)
Definition read_view (t : UserLayout.EventType) (ev : list Z) : view :=
  match t with
  | UserLayout.ProcessCreate =>
      let s := UserLayout.ProcessCreateDetails in
      VProcessCreate (uint s "child_pid" ev) (uint s "real_parent_pid" ev)
        (text s "child_image_path" ev) (text s "child_command_line" ev)
  | UserLayout.ProcessStop =>
      VProcessStop (sint 32 (uint UserLayout.ProcessStopDetails "exit_code" ev))
  | UserLayout.ImageLoad =>
      let s := UserLayout.ImageLoadDetails in
      VImageLoad (uint s "is_signed" ev) (text s "module_path" ev) (text s "signer_subject" ev)
  | UserLayout.FileCreate =>
      let s := UserLayout.FileCreateDetails in
      VFileCreate (sint 32 (uint s "zone_id" ev)) (text s "file_path" ev)
  | UserLayout.FileRead =>
      let s := UserLayout.FileReadDetails in
      VFileRead (uint s "bytes_requested" ev) (sint 32 (uint s "zone_id" ev))
        (text s "file_path" ev)
  | UserLayout.NetworkConnect =>
      let s := UserLayout.NetworkConnectDetails in
      VNetworkConnect (text s "destination_ip" ev) (uint s "destination_port" ev)
        (text s "protocol" ev)
  | _ => VOther
  end.

(** ** What it should read *)

(** The subscriptions: provider, event id and the type they are reported as. *)
Definition subscriptions : list (guid * Z * UserLayout.EventType) :=
  [(KernelProcessGuid, 1, UserLayout.ProcessCreate);
   (KernelProcessGuid, 2, UserLayout.ProcessStop);
   (KernelProcessGuid, 5, UserLayout.ImageLoad);
   (KernelFileGuid, 12, UserLayout.FileCreate);
   (KernelFileGuid, 15, UserLayout.FileRead);
   (KernelNetworkGuid, 12, UserLayout.NetworkConnect)].

Definition subscribed (event : EVENT_RECORD) : option UserLayout.EventType :=
  option_map snd (find (fun x => bool_decide (fst x = (ProviderId event, Id event))) subscriptions).

Section spec.
Context (os : windows) (event : EVENT_RECORD) (names : list string).

Definition wide (prop : string) : list Z := TdhGetWStringProperty os event names prop.
Definition utf8 (prop : string) : list Z := WstrToUtf8 os (wide prop).
Definition ulong (prop : string) : Z := TdhGetULongProperty os event prop 0.

Definition remote_address : list Z :=
  match daddr_text os event with
  | Some t => if (length t <? 46)%nat then cstr t else []
  | None => []
  end.

Definition expected_view (t : UserLayout.EventType) : view :=
  match t with
  | UserLayout.ProcessCreate =>
      VProcessCreate (wrap 32 (ulong "ProcessId")) (wrap 32 (ulong "ParentProcessId"))
        (take 511 (cstr (utf8 "ImageName"))) (take 1023 (cstr (utf8 "CommandLine")))
  | UserLayout.ProcessStop => VProcessStop (sint 32 (ulong "ExitCode"))
  | UserLayout.ImageLoad =>
      let signed := WinVerifyTrust os (wide "ImageName") =? 0 in
      VImageLoad (Z.b2z signed) (take 511 (cstr (utf8 "ImageName")))
        (if signed then
           take 255 (cstr (default [] (CertGetNameStringA os (wide "ImageName")))) else [])
  | UserLayout.FileCreate =>
      VFileCreate (sint 32 (GetZoneIdentifier os (utf8 "FileName")))
        (take 511 (cstr (utf8 "FileName")))
  | UserLayout.FileRead =>
      VFileRead (wrap 32 (ulong "IoSize")) (sint 32 (GetZoneIdentifier os (utf8 "FileName")))
        (take 511 (cstr (utf8 "FileName")))
  | UserLayout.NetworkConnect =>
      VNetworkConnect remote_address (ntohs (wrap 16 (ulong "dport"))) (str "TCP")
  | _ => VOther
  end.

End spec.

(** ** Stores and reads *)

Lemma length_strncpy_s (n : nat) (src : list Z) :
  (0 < n)%nat -> (length (take (n - 1) (cstr src) ++ [0%Z]) <= n)%nat.
Proof. intros. rewrite length_app, length_take. simpl. lia. Qed.

Section reads.
Context (f : field) (ev : list Z).
Hypothesis f_in : (f_end f <=? UserLayout.sizeof_TelemetryEvent)%nat = true.
Hypothesis ev_ok : record_ok ev.

Lemma put_uint_ok (v : Z) : record_ok (put_uint f v ev).
Proof using f_in ev_ok. apply record_put; [done| |done]. by rewrite length_le_enc. Qed.

Lemma strncpy_s_ok (src : list Z) : (0 <? f_len f)%nat = true -> record_ok (strncpy_s f src ev).
Proof using f_in ev_ok.
  intros ?%Nat.ltb_lt. apply record_put; [done| |done]. by apply length_strncpy_s.
Qed.

Lemma read_uint (v : Z) : le_dec (get f (put_uint f v ev)) = wrap (8 * Z.of_nat (f_len f)) v.
Proof using f_in ev_ok. apply get_uint_put. unfold within. by rewrite ev_ok. Qed.

(** A NUL-terminated text stored at the start of the field. *)
Lemma read_text (t : list Z) :
  (length (t ++ [0%Z]) <= f_len f)%nat -> cstr (get f (put f (t ++ [0%Z]) ev)) = cstr t.
Proof using f_in ev_ok.
  intros Hl. rewrite record_get_put_prefix by done. rewrite <- app_assoc. apply cstr_cut.
Qed.

Lemma read_strncpy_s (src : list Z) :
  (0 <? f_len f)%nat = true ->
  cstr (get f (strncpy_s f src ev)) = take (f_len f - 1) (cstr src).
Proof using f_in ev_ok.
  intros Hf%Nat.ltb_lt. unfold strncpy_s. rewrite read_text by (by apply length_strncpy_s).
  apply cstr_take_cstr.
Qed.

(** Reading another field. *)
Lemma skip_uint (g : field) (v : Z) :
  disjoint_fields g f = true -> get g (put_uint f v ev) = get g ev.
Proof using f_in ev_ok. intros. apply record_get_ne; [done..| |done]. by rewrite length_le_enc. Qed.

Lemma skip_strncpy_s (g : field) (src : list Z) :
  disjoint_fields g f = true -> (0 <? f_len f)%nat = true ->
  get g (strncpy_s f src ev) = get g ev.
Proof using f_in ev_ok.
  intros ? ?%Nat.ltb_lt. apply record_get_ne; [done..| |done]. by apply length_strncpy_s.
Qed.

End reads.

Lemma cstr_zeros (n : nat) : cstr (repeat 0 n) = [].
Proof. by destruct n. Qed.

(** [fields] computes the byte ranges of the members. *)
Ltac fields :=
  repeat match goal with
    | |- context [det ?s ?n] => let f := eval vm_compute in (det s n) in change (det s n) with f
    | |- context [hdr ?n] => let f := eval vm_compute in (hdr n) in change (hdr n) with f
    end.

(** [out'] is [out] with other details. *)
Record same_header (out out' : list Z) : Prop := SameHeader {
  sh_ok : record_ok out';
  sh_header : forall f, (f_end f <= 22)%nat -> get f out' = get f out;
}.

Lemma same_header_refl (out : list Z) : record_ok out -> same_header out out.
Proof. by split. Qed.

Lemma same_header_put (f : field) (v out out' : list Z) :
  (22 <=? f_off f)%nat = true -> (f_end f <=? UserLayout.sizeof_TelemetryEvent)%nat = true ->
  (length v <= f_len f)%nat -> same_header out out' -> same_header out (put f v out').
Proof.
  intros Hoff%Nat.leb_le Hend Hl [Hok Hh]. split.
  - by apply record_put.
  - intros g Hg. rewrite <- Hh by done. apply record_get_ne; [|done..].
    unfold disjoint_fields. apply orb_true_iff. left. apply Nat.leb_le. lia.
Qed.

Lemma same_header_put_uint (f : field) (v : Z) (out out' : list Z) :
  (22 <=? f_off f)%nat = true -> (f_end f <=? UserLayout.sizeof_TelemetryEvent)%nat = true ->
  same_header out out' -> same_header out (put_uint f v out').
Proof. intros. apply same_header_put; [done..| |done]. by rewrite length_le_enc. Qed.

Lemma same_header_strncpy_s (f : field) (src out out' : list Z) :
  (22 <=? f_off f)%nat = true -> (f_end f <=? UserLayout.sizeof_TelemetryEvent)%nat = true ->
  (0 <? f_len f)%nat = true -> same_header out out' -> same_header out (strncpy_s f src out').
Proof.
  intros ? ? ?%Nat.ltb_lt ?. apply same_header_put; [done..| |done]. by apply length_strncpy_s.
Qed.

Create HintDb etw_record discriminated.
#[export] Hint Resolve same_header_refl same_header_put_uint same_header_strncpy_s
  put_uint_ok strncpy_s_ok cleared_record_ok : etw_record.
#[export] Hint Extern 0 (_ = true) => reflexivity : etw_record.

Section records.
Context (os : windows) (event : EVENT_RECORD) (names : list string).

Definition header_fields (t : UserLayout.EventType) (seq : Z) : UserLayout.header_view :=
  UserLayout.HeaderView (wrap 64 seq) (wrap 64 (TimeStamp event * 100))
    (wrap 32 (ProcessId event)) (UserLayout.event_type_code t) 1.

Lemma start_record_ok (seq : Z) : record_ok (start_record seq event).
Proof using. unfold start_record, put_uint. fields. cbn [f_len]. solve_rec. Qed.

Lemma start_record_header (seq : Z) (t : UserLayout.EventType) (out' : list Z) :
  same_header (set_event_type t (start_record seq event)) out' ->
  UserLayout.read_header out' = header_fields t seq.
Proof using.
  intros [Hok Hh]. unfold UserLayout.read_header, get_uint. rewrite !Hh by (apply Nat.leb_le; reflexivity).
  unfold set_event_type, start_record, put_uint. fields. cbn [f_len].
  change (UserLayout.hdr "sequence_number") with (Field 0 8).
  change (UserLayout.hdr "timestamp_ns") with (Field 8 8).
  change (UserLayout.hdr "pid") with (Field 16 4).
  change (UserLayout.hdr "event_type") with (Field 20 1).
  change (UserLayout.hdr "source") with (Field 21 1).
  unfold header_fields. f_equal; repeat (rewrite record_get_ne by solve_rec);
    rewrite record_get_put by solve_rec; rewrite le_dec_enc; try done. by destruct t.
Qed.

Lemma set_event_type_ok (t : UserLayout.EventType) (out : list Z) :
  record_ok out -> record_ok (set_event_type t out).
Proof using. intros. unfold set_event_type, put_uint. fields. cbn [f_len]. solve_rec. Qed.

(** One branch: it fills details only, and what it fills is what is expected. *)
Definition branch_ok (t : UserLayout.EventType) (branch : list Z -> list Z) : Prop :=
  forall out, record_ok out ->
  same_header (set_event_type t out) (branch out) /\
  (get (Field 22 46) out = repeat 0 46 ->
   read_view t (branch out) = expected_view os event names t).

End records.

#[export] Hint Resolve set_event_type_ok start_record_ok : etw_record.

Ltac etw := solve [reflexivity | eauto 12 with etw_record nocore].

(** [read_field] reads a field of a record through the stores made to it. *)
Ltac read_field :=
  repeat first
    [ rewrite read_uint by etw | rewrite read_strncpy_s by etw
    | rewrite skip_uint by etw | rewrite skip_strncpy_s by etw ];
  rewrite ?wrap_wrap.

Section branches.
Context (os : windows) (event : EVENT_RECORD) (names : list string).

Lemma process_create_branch :
  branch_ok os event names UserLayout.ProcessCreate (process_create os event names).
Proof.
  intros out Hok. unfold process_create. fields. cbv zeta. split; [by etw|]. intros _.
  unfold read_view, expected_view, uint, text, get_uint. fields. f_equal; by read_field.
Qed.

Lemma process_stop_branch :
  branch_ok os event names UserLayout.ProcessStop (process_stop os event).
Proof.
  intros out Hok. unfold process_stop. fields. cbv zeta. split; [by etw|]. intros _.
  unfold read_view, expected_view, uint, get_uint. fields. f_equal. read_field.
  unfold sint. cbn [f_len]. by rewrite wrap_wrap.
Qed.

Lemma file_create_branch :
  branch_ok os event names UserLayout.FileCreate (file_create os event names).
Proof.
  intros out Hok. unfold file_create. fields. cbv zeta. split; [by etw|]. intros _.
  unfold read_view, expected_view, uint, text, get_uint. fields. f_equal; read_field; [|done].
  unfold sint. cbn [f_len]. by rewrite wrap_wrap.
Qed.

Lemma file_read_branch :
  branch_ok os event names UserLayout.FileRead (file_read os event names).
Proof.
  intros out Hok. unfold file_read. fields. cbv zeta. split; [by etw|]. intros _.
  unfold read_view, expected_view, uint, text, get_uint. fields. f_equal; read_field; [done| |done].
  unfold sint. cbn [f_len]. by rewrite wrap_wrap.
Qed.

(** What the signature check stores is a text that fits. *)
Lemma signer_text (wpath : list Z) :
  exists s, snd (VerifyAuthenticodeSignature os wpath 256) = s ++ [0] /\ (length (s ++ [0%Z]) <= 256)%nat /\
    cstr s = if WinVerifyTrust os wpath =? 0
             then take 255 (cstr (default [] (CertGetNameStringA os wpath))) else [].
Proof.
  unfold VerifyAuthenticodeSignature, ERROR_SUCCESS. cbn [snd].
  destruct (WinVerifyTrust os wpath =? 0); [|by exists []; split; [|simpl; split; [lia|]]].
  destruct (CertGetNameStringA os wpath) as [name|];
    [|by exists []; split; [|simpl; split; [lia|]]].
  exists (take 255 (cstr name)). split; [done|]. split; [by apply (length_strncpy_s 256); lia|].
  apply cstr_take_cstr.
Qed.

Lemma image_load_branch :
  branch_ok os event names UserLayout.ImageLoad (image_load os event names).
Proof.
  intros out Hok. unfold image_load. fields. cbv zeta. cbn [f_len].
  destruct (signer_text (TdhGetWStringProperty os event names "ImageName")) as (s & Hs & Hl & Hc).
  destruct (VerifyAuthenticodeSignature _ _ _) as [ok signer] eqn:Hv. cbn [snd] in Hs. subst signer.
  apply (f_equal fst) in Hv. simpl in Hv. subst ok.
  match goal with |- context [put _ (s ++ [0]) ?o] =>
    assert (same_header (set_event_type UserLayout.ImageLoad out) o) as Ho by etw;
    assert (same_header (set_event_type UserLayout.ImageLoad out) (put (Field 535 256) (s ++ [0]) o))
      as Hp by (by apply same_header_put)
  end.
  pose proof (sh_ok _ _ Ho) as Hoo. pose proof (sh_ok _ _ Hp) as Hpo.
  split; [by apply same_header_put_uint|]. intros _.
  unfold read_view, expected_view, uint, text, get_uint, wide. fields. rewrite <- Hc. f_equal.
  - rewrite read_uint by done. unfold ERROR_SUCCESS. by destruct (_ =? 0).
  - rewrite skip_uint by done. rewrite record_get_ne by done. by read_field.
  - rewrite skip_uint by done. by apply read_text.
Qed.

Lemma tcp_connect_branch :
  branch_ok os event names UserLayout.NetworkConnect (tcp_connect os event).
Proof.
  intros out Hok. unfold tcp_connect, store_daddr, expected_view, remote_address. fields. cbv zeta. cbn [f_len].
  set (o := match daddr_text os event with Some _ => _ | None => _ end).
  assert (same_header (set_event_type UserLayout.NetworkConnect out) o) as Ho.
  { subst o. destruct (daddr_text os event) as [t|]; [|by etw].
    destruct (Nat.ltb_spec (length t) 46); [|by etw].
    apply same_header_put; [done..| |by etw]. rewrite length_app. simpl. lia. }
  pose proof (sh_ok _ _ Ho) as Hoo. split; [by etw|]. intros Hz.
  unfold read_view, uint, text, get_uint. fields. f_equal.
  - read_field. assert (cstr (get (Field 22 46) (set_event_type UserLayout.NetworkConnect out)) = []) as H0.
    { unfold set_event_type. fields. rewrite skip_uint by done. by rewrite Hz. }
    subst o. destruct (daddr_text os event) as [t|]; [|done].
    destruct (Nat.ltb_spec (length t) 46); [|done].
    apply read_text; [done | by etw |]. rewrite length_app. simpl. lia.
  - read_field. cbn [f_len]. apply wrap_small. unfold ntohs, in_range.
    change (8 * Z.of_nat 2) with 16. generalize (wrap 16 (ulong os event "dport")). intros v.
    pose proof (Z.mod_pos_bound v 256). pose proof (Z.mod_pos_bound (v / 256) 256). lia.
  - by read_field.
Qed.

End branches.

(** ** Dispatch *)

Section dispatch.
Context (os : windows) (event : EVENT_RECORD) (names : list string).

(** The branch taken is the one of the subscription. *)
Lemma dispatch_branch (out : list Z) :
  match subscribed event with
  | None => dispatch os event names out = None
  | Some t => exists branch, branch_ok os event names t branch /\
      dispatch os event names out = Some (branch out)
  end.
Proof.
  unfold subscribed, dispatch, KERNEL_PROCESS_CREATE, KERNEL_PROCESS_STOP, KERNEL_IMAGE_LOAD,
    KERNEL_FILE_CREATE, KERNEL_FILE_IO_READ, KERNEL_NETWORK_TCP_CONNECT.
  destruct event as [g i ts pid data] eqn:He. unfold subscriptions, find. cbn [ProviderId Id fst].
  assert (forall g' i', bool_decide ((g', i') = (g, i)) = bool_decide (g = g') && (i =? i')) as Hd.
  { intros. destruct (Z.eqb_spec i i'); destruct (decide (g = g')); subst;
      repeat case_bool_decide; naive_solver. }
  rewrite !Hd. rewrite <- He.
  destruct (decide (g = KernelProcessGuid)) as [->|H1].
  { rewrite !(bool_decide_true (KernelProcessGuid = _)) by done. cbn [andb].
    destruct (i =? 1); [eexists; split; [apply process_create_branch | done]|].
    destruct (i =? 2); [eexists; split; [apply process_stop_branch | done]|].
    destruct (i =? 5); [eexists; split; [apply image_load_branch | done]|].
    done. }
  rewrite (bool_decide_false (g = KernelProcessGuid)) by done. cbn [andb].
  destruct (decide (g = KernelFileGuid)) as [->|H2].
  { rewrite !(bool_decide_true (KernelFileGuid = KernelFileGuid)) by done. cbn [andb].
    destruct (i =? 12); [eexists; split; [apply file_create_branch | done]|].
    destruct (i =? 15); [eexists; split; [apply file_read_branch | done]|].
    done. }
  rewrite (bool_decide_false (g = KernelFileGuid)) by done. cbn [andb].
  case_bool_decide; cbn [andb]; [|done].
  destruct (i =? 12); [eexists; split; [apply tcp_connect_branch | done] | done].
Qed.

Lemma start_record_details (seq : Z) : get (Field 22 46) (start_record seq event) = repeat 0 46.
Proof.
  unfold start_record. fields. repeat (rewrite skip_uint by etw). by rewrite get_cleared.
Qed.

End dispatch.

(** One event. *)
Lemma process_event_record (os : windows) (event : EVENT_RECORD) (names : list string)
    (s : stream) :
  info_size os event <> 0 -> event_information os event = Some names ->
  let s' := ProcessEvent os true event s in
  let seq := wrap 32 (s_sequence s + 1) in
  s_sequence s' = seq /\
  match subscribed event with
  | None => emitted s' = emitted s
  | Some t => exists out, emitted s' = emitted s ++ [out] /\
      length out = UserLayout.sizeof_TelemetryEvent /\
      UserLayout.read_header out = header_fields event t seq /\
      read_view t out = expected_view os event names t
  end.
Proof.
  intros Hsz%Z.eqb_neq Hn s' seq. unfold s', ProcessEvent. cbn [negb]. rewrite Hsz, Hn. split; [done|].
  cbn [emitted]. fold seq. pose proof (dispatch_branch os event names (start_record seq event)) as Hb.
  destruct (subscribed event) as [t|]; [|by rewrite Hb].
  destruct Hb as (branch & Hb & ->). exists (branch (start_record seq event)). split; [done|].
  destruct (Hb _ (start_record_ok event seq)) as [Hh Hv]. split; [apply Hh|].
  split; [by apply start_record_header|]. apply Hv, start_record_details.
Qed.

(** C28: an event becomes the record it should.  With a callback and a schema, an
    event of a subscribed provider and id yields exactly one record, any other
    event none, and either way one sequence number (32 bits) is used up; the
    record has the right size, type, source, process and time, and its details
    read as the event's properties say: integers truncated to their fields,
    texts cut to the array, the signer only of a file that verifies, the remote
    address and the port in host order. *)
Theorem etw_event_reported (os : windows) (event : EVENT_RECORD) (names : list string)
    (s : stream) :
  info_size os event <> 0 -> event_information os event = Some names ->
  let s' := ProcessEvent os true event s in
  let seq := wrap 32 (s_sequence s + 1) in
  s_sequence s' = seq /\
  match subscribed event with
  | None => emitted s' = emitted s
  | Some t => exists out, emitted s' = emitted s ++ [out] /\
      length out = UserLayout.sizeof_TelemetryEvent /\
      UserLayout.read_header out = header_fields event t seq /\
      read_view t out = expected_view os event names t
  end.
Proof. apply process_event_record. Qed.

(** ** Zone identifiers *)

Definition marker : list Z := str "ZoneId=".

(** The number a string of decimal digits denotes. *)
Definition decimal (ds : list Z) : Z := fold_left (fun v c => 10 * v + (c - 48)) ds 0.

Definition one_line (l : list Z) : Prop := Forall (fun c => c <> 10) l.

(** Lines as a file holds them. *)
Definition file_lines (ls : list (list Z)) : list Z := concat (map (fun l => l ++ [10]) ls).

Lemma getlines_line (cur line rest : list Z) :
  one_line line -> getlines cur (line ++ 10 :: rest) = (cur ++ line) :: getlines [] rest.
Proof.
  intros Hl. revert cur. induction Hl as [|c line Hc Hl IH]; intros cur; simpl.
  - by rewrite app_nil_r.
  - apply Z.eqb_neq in Hc. rewrite Hc, IH. by rewrite <- app_assoc.
Qed.

Lemma getlines_last (cur line : list Z) :
  one_line line -> cur ++ line <> [] -> getlines cur line = [cur ++ line].
Proof.
  intros Hl. revert cur. induction Hl as [|c line Hc Hl IH]; intros cur Hne; simpl.
  - rewrite app_nil_r in *. by rewrite bool_decide_false.
  - apply Z.eqb_neq in Hc. rewrite Hc, IH; rewrite <- app_assoc; [done|]. by destruct cur.
Qed.

Lemma getlines_file (ls : list (list Z)) (rest : list Z) :
  Forall one_line ls -> getlines [] (file_lines ls ++ rest) = ls ++ getlines [] rest.
Proof.
  induction 1 as [|l ls Hl Hls IH]; [done|]. unfold file_lines in *. simpl.
  rewrite <- !app_assoc. simpl. rewrite getlines_line by done. by rewrite IH.
Qed.

Lemma zone_of_lines_skip (ls rest : list (list Z)) :
  Forall (fun l => contains marker l = false) ls -> zone_of_lines (ls ++ rest) = zone_of_lines rest.
Proof. induction 1 as [|l ls Hl Hls IH]; [done|]. cbn [app zone_of_lines]. fold marker. by rewrite Hl. Qed.

Lemma is_prefix_app (pat l : list Z) : is_prefix pat (pat ++ l) = true.
Proof. induction pat as [|p pat IH]; simpl; [done|]. by rewrite Z.eqb_refl. Qed.

Lemma contains_middle (pre pat l : list Z) : contains pat (pre ++ pat ++ l) = true.
Proof.
  induction pre as [|c pre IH]; simpl app.
  - destruct (pat ++ l) eqn:He; simpl; rewrite <- He, is_prefix_app; done.
  - simpl. rewrite IH. apply orb_true_r.
Qed.

Lemma digits_value_decimal (ds : list Z) (acc : Z) :
  Forall (fun c => isdigit c = true) ds ->
  digits_value acc ds = fold_left (fun v c => 10 * v + (c - 48)) ds acc.
Proof. intros Hd. revert acc. induction Hd as [|c ds Hc Hd IH]; intros acc; simpl; [done|].
  by rewrite Hc, IH.
Qed.

Lemma decimal_nonneg (ds : list Z) : Forall (fun c => isdigit c = true) ds -> 0 <= decimal ds.
Proof.
  unfold decimal. intros Hd. assert (forall v, 0 <= v -> 0 <= fold_left (fun v c => 10 * v + (c - 48)) ds v)
    as Hv; [|by apply Hv].
  induction Hd as [|c ds Hc Hd IH]; intros v Hv; simpl; [done|]. apply IH.
  unfold isdigit in Hc. split_bools. lia.
Qed.

Lemma stoi_digits (ds : list Z) :
  ds <> [] -> Forall (fun c => isdigit c = true) ds ->
  stoi ds = if decimal ds <? 2 ^ 31 then Some (decimal ds) else None.
Proof.
  intros Hne Hd. pose proof (decimal_nonneg ds Hd) as Hn. pose proof (digits_value_decimal ds 0 Hd) as Hv.
  destruct ds as [|c ds]; [done|]. pose proof (Forall_inv Hd) as Hc. unfold stoi.
  assert (isspace c = false /\ (c =? 45) = false /\ (c =? 43) = false) as (Hs & H1 & H2)
    by (unfold isdigit, isspace in *; split_bools; lia).
  unfold skip_spaces. rewrite Hs, H1, H2, Hc, Hv. cbv zeta. fold (decimal (c :: ds)).
  rewrite Z.mul_1_l. destruct (Z.leb_spec (- 2 ^ 31) (decimal (c :: ds))); [done | lia].
Qed.

(** Leading characters shift the text stoi is given into the marker. *)
Lemma stoi_shifted (pre ds : list Z) :
  (0 < length pre <= 7)%nat -> stoi (drop 7 (pre ++ marker ++ ds)) = None.
Proof.
  intros Hl. rewrite drop_app_ge by lia.
  assert (exists k, 7 - length pre = k /\ k < 7)%nat as (k & -> & Hk) by (eexists; split; [done | lia]).
  do 7 (destruct k as [|k]; [done|]). lia.
Qed.

(** C31: the zone identifier of a file is read when its line starts with the key.
    In a stream whose first line with [ZoneId=] has the digits [ds] behind the
    key: at the start of the line the result is their value (or -1 beyond
    [int]); with up to seven characters before the key - an indented or commented
    line, which the search accepts - it is -1, because the value is always taken
    from column 7. *)
Theorem zone_identifier_read (os : windows) (path pre ds tail : list Z)
    (before : list (list Z)) :
  open_stream os (path ++ str ":Zone.Identifier") =
    Some (file_lines before ++ pre ++ marker ++ ds ++ tail) ->
  Forall one_line before -> Forall (fun l => contains marker l = false) before ->
  one_line pre -> (length pre <= 7)%nat ->
  ds <> [] -> Forall (fun c => isdigit c = true) ds ->
  tail = [] \/ (exists r, tail = 10 :: r) ->
  GetZoneIdentifier os path =
    if bool_decide (pre = []) then (if decimal ds <? 2 ^ 31 then decimal ds else -1) else -1.
Proof.
  intros Ho Hb Hbm Hp Hl Hne Hd Ht. unfold GetZoneIdentifier. rewrite Ho, getlines_file by done.
  rewrite zone_of_lines_skip by done.
  assert (one_line (pre ++ marker ++ ds)) as Hline.
  { unfold one_line. rewrite !Forall_app. split; [done|]. split.
    - repeat constructor; discriminate.
    - eapply Forall_impl; [exact Hd|]. intros c Hc ->. done. }
  assert (exists ls, getlines [] (pre ++ marker ++ ds ++ tail) = (pre ++ marker ++ ds) :: ls)
    as (ls & ->).
  { replace (pre ++ marker ++ ds ++ tail) with ((pre ++ marker ++ ds) ++ tail)
      by (by rewrite <- !app_assoc).
    destruct Ht as [->|[r ->]].
    - exists []. rewrite app_nil_r. apply (getlines_last []); [done|]. by destruct pre.
    - eexists. by apply (getlines_line []). }
  cbn [zone_of_lines]. fold marker. rewrite contains_middle. case_bool_decide as Hpre.
  - subst pre. change (drop 7 ([] ++ marker ++ ds)) with ds.
    rewrite stoi_digits by done. by destruct (decimal ds <? 2 ^ 31).
  - rewrite stoi_shifted; [done|]. destruct pre as [|p pre]; [done|]. simpl in Hl |- *. lia.
Qed.

(** ** Witnesses *)

(** A machine: one process creation event with its properties, and a file that
    came from the internet. *)
Definition demo_text (s : string) : list Z := flat_map (fun c => [c; 0]) (str s) ++ [0; 0].

Definition demo_property (name : string) : option (list Z) :=
  if String.eqb name "ImageName" then Some (demo_text "C:\a.exe")
  else if String.eqb name "CommandLine" then Some (demo_text "a.exe -v")
  else if String.eqb name "ProcessId" then Some [57; 5; 0; 0]
  else None.

Definition demo_windows : windows := Windows
  (fun _ => 512) (fun _ => Some ["ProcessId"; "ImageName"; "CommandLine"]%string)
  (fun _ name => match demo_property name with Some bs => Z.of_nat (length bs) | None => 0 end)
  (fun _ name _ => demo_property name) (fun _ _ => []) Some (fun _ _ => None)
  (fun _ => 1) (fun _ => None)
  (fun path => if bool_decide (path = str "a:Zone.Identifier")
               then Some (file_lines [str "[ZoneTransfer]"] ++ [] ++ marker ++ str "3" ++ [10])
               else None).

Definition demo_event : EVENT_RECORD := EventRecord KernelProcessGuid 1 7 4242 [].

(** Event 4294967296 of the stream: the counter wraps to 0. *)
Lemma etw_event_reported_witness :
  exists out, emitted (ProcessEvent demo_windows true demo_event (Stream (2 ^ 32 - 1) [])) = [out] /\
    UserLayout.read_header out = UserLayout.HeaderView 0 700 4242 1 1 /\
    read_view UserLayout.ProcessCreate out =
      VProcessCreate 1337 0 (str "C:\a.exe") (str "a.exe -v").
Proof.
  destruct (etw_event_reported demo_windows demo_event ["ProcessId"; "ImageName"; "CommandLine"]%string
    (Stream (2 ^ 32 - 1) []) ltac:(discriminate) eq_refl) as [_ (out & He & _ & Hh & Hv)].
  exists out. split; [exact He|]. split; (etransitivity; [first [exact Hh | exact Hv] |]; vm_compute; reflexivity).
Defined.

Lemma zone_identifier_read_witness : GetZoneIdentifier demo_windows (str "a") = 3.
Proof.
  apply (zone_identifier_read demo_windows (str "a") [] (str "3") [10] [str "[ZoneTransfer]"]).
  - vm_compute. reflexivity.
  - repeat constructor; discriminate.
  - repeat constructor.
  - constructor.
  - simpl. lia.
  - discriminate.
  - repeat constructor.
  - right. exists []. reflexivity.
Defined.
