(* ===== verification/EtwSession.v ===== *)
(** The life of the ETW session (src/windows/etw_consumer.cpp, lines 204-306 and
    450-509): EtwConsumer's construction, Initialize, Start, Stop and the trace thread.

    Win32 is not in the repository: what each call returns is a parameter, a
    function of the calls made before it ([win32]), and the calls are recorded with
    their results, as in [EbpfLoader].  The trace thread makes its calls on its own
    and touches no member. *)

From S2P Require Export EtwConsumer.

Local Open Scope Z_scope.

Definition SESSION_NAME : string := "KinnectorEtwSession".

Definition WNODE_FLAG_TRACED_GUID : Z := 0x20000.
Definition EVENT_TRACE_REAL_TIME_MODE : Z := 0x100.
Definition EVENT_TRACE_CONTROL_STOP : Z := 1.
Definition EVENT_CONTROL_CODE_ENABLE_PROVIDER : Z := 1.
Definition TRACE_LEVEL_INFORMATION : Z := 4.
Definition ENABLE_TRACE_PARAMETERS_VERSION_2 : Z := 2.
Definition PROCESS_TRACE_MODE_REAL_TIME : Z := 0x100.
Definition PROCESS_TRACE_MODE_EVENT_RECORD : Z := 0x10000000.
Definition INVALID_PROCESSTRACE_HANDLE : Z := 2 ^ 64 - 1.

(** The members of an [EVENT_TRACE_PROPERTIES] buffer the code sets; the others are 0. *)
Record properties : Type := Properties {
  BufferSize : Z;
  Flags : Z;
  LogFileMode : Z;
  FlushTimer : Z;
  LoggerNameOffset : Z;
}.

#[export] Instance properties_eq_dec : EqDecision properties.
Proof. solve_decision. Defined.

(** ** Calls to the outside *)

Inductive win32_call : Type :=
| ControlTrace (handle : Z) (name : option string) (props : properties) (code : Z)
| StartTrace (name : string) (props : properties)
| EnableTraceEx2 (handle : Z) (provider : guid) (code level keywords version : Z)
| CreateThread
| WaitForSingleObject (handle ms : Z)
| CloseHandle (handle : Z)
| OpenTrace (name : string) (mode : Z)
| ProcessTrace (handle : Z)
| CloseTrace (handle : Z).

#[export] Instance win32_call_eq_dec : EqDecision win32_call.
Proof. solve_decision. Defined.

(** The calls made so far with their results, the latest first. *)
Definition history : Type := list (win32_call * Z).

Record win32 : Type := Win32 {
  result : history -> win32_call -> Z;
  (* what StartTrace stores into the handle *)
  started_handle : history -> Z;
  sizeof_EVENT_TRACE_PROPERTIES : Z;
}.

(** ** State *)

Record consumer : Type := Consumer {
  session_handle_ : Z;
  trace_handle_ : Z;
  thread_handle_ : Z;
  running_ : bool;
  callback_ : bool;            (* whether a callback is set *)
}.

(** [EtwConsumer::EtwConsumer()] *)
Definition new_consumer : consumer := Consumer 0 0 0 false false.

Definition session : Type := consumer * history.

Definition set_session (v : Z) (x : session) : session :=
  let '(s, h) := x in
  (Consumer v (trace_handle_ s) (thread_handle_ s) (running_ s) (callback_ s), h).
Definition set_thread (v : Z) (x : session) : session :=
  let '(s, h) := x in
  (Consumer (session_handle_ s) (trace_handle_ s) v (running_ s) (callback_ s), h).
Definition set_running (v : bool) (x : session) : session :=
  let '(s, h) := x in
  (Consumer (session_handle_ s) (trace_handle_ s) (thread_handle_ s) v (callback_ s), h).
Definition SetEventCallback (x : session) : session :=
  let '(s, h) := x in
  (Consumer (session_handle_ s) (trace_handle_ s) (thread_handle_ s) (running_ s) true, h).

Section operations.
Context (w : win32).

Definition make_call (c : win32_call) (x : session) : Z * session :=
  let '(s, h) := x in let r := result w h c in (r, (s, (c, r) :: h)).

Definition call (c : win32_call) : prog session Z := act (make_call c).

(** [StartTrace(&session_handle_, ..)] stores a handle as well. *)
Definition start_trace (props : properties) : prog session Z :=
  act (fun x => let '(status, x1) := make_call (StartTrace SESSION_NAME props) x in
                (status, set_session (started_handle w (snd x)) x1)).

(** Wide characters of two bytes each, with the terminator. *)
Definition name_len : Z := (Z.of_nat (String.length SESSION_NAME) + 1) * 2.

Definition initialize_props : properties :=
  Properties (wrap 32 (sizeof_EVENT_TRACE_PROPERTIES w + name_len)) WNODE_FLAG_TRACED_GUID
    EVENT_TRACE_REAL_TIME_MODE 1 (sizeof_EVENT_TRACE_PROPERTIES w).

Definition stop_props : properties :=
  Properties (wrap 32 (sizeof_EVENT_TRACE_PROPERTIES w + 256 * 2)) 0 0 0 (sizeof_EVENT_TRACE_PROPERTIES w).

(** One provider: a failure is logged, nothing more. *)
Definition enable_provider (provider : guid) (keywords : Z) : prog session unit :=
  handle ← gets (fun x => session_handle_ (fst x));
  call (EnableTraceEx2 handle provider EVENT_CONTROL_CODE_ENABLE_PROVIDER
    TRACE_LEVEL_INFORMATION keywords ENABLE_TRACE_PARAMETERS_VERSION_2);;
  mret tt.

Definition Initialize : prog session bool :=
  call (ControlTrace 0 (Some SESSION_NAME) initialize_props EVENT_TRACE_CONTROL_STOP);;
  status ← start_trace initialize_props;
  if negb (status =? ERROR_SUCCESS) then mret false else
  enable_provider KernelProcessGuid (Z.lor 0x10 0x20);;
  enable_provider KernelFileGuid (Z.lor 0x80 0x10);;
  enable_provider KernelNetworkGuid 0x01;;
  mret true.

Definition Start : prog session bool :=
  modify (set_running true);;
  thread ← call CreateThread;
  modify (set_thread thread);;
  mret (negb (thread =? 0)).

Definition Stop : prog session unit :=
  modify (set_running false);;
  x ← gets fst;
  (if session_handle_ x =? 0 then mret tt else
     call (ControlTrace (session_handle_ x) None stop_props EVENT_TRACE_CONTROL_STOP);;
     modify (set_session 0));;
  (if thread_handle_ x =? 0 then mret tt else
     call (WaitForSingleObject (thread_handle_ x) 5000);;
     call (CloseHandle (thread_handle_ x));;
     modify (set_thread 0)).

(** The trace thread: its exit code. *)
Definition TraceThread : prog session Z :=
  th ← call (OpenTrace SESSION_NAME
    (Z.lor PROCESS_TRACE_MODE_REAL_TIME PROCESS_TRACE_MODE_EVENT_RECORD));
  if th =? INVALID_PROCESSTRACE_HANDLE then mret 1 else
  call (ProcessTrace th);;
  call (CloseTrace th);;
  mret 0.

(** ** Sessions *)

Inductive etw_op : Type := OpInitialize | OpStart | OpStop | OpThread | OpSetCallback.

Definition run_op (o : etw_op) (x : session) : session :=
  match o with
  | OpInitialize => snd (Initialize x)
  | OpStart => snd (Start x)
  | OpStop => snd (Stop x)
  | OpThread => snd (TraceThread x)
  | OpSetCallback => SetEventCallback x
  end.

Definition run_ops (l : list etw_op) (x : session) : session :=
  fold_left (fun x o => run_op o x) l x.

End operations.

(** [EventRecordCallback]: events that arrive without an instance are dropped. *)
Definition EventRecordCallback (os : windows) (instance_ : option consumer) (event : EVENT_RECORD)
    (s : stream) : stream :=
  match instance_ with
  | Some x => ProcessEvent os (callback_ x) event s
  | None => s
  end.

(** ** What the calls amount to *)

(** A request to stop the trace session [s]: by its handle, or by its name. *)
Definition stops_session (c : win32_call) (s : Z) : bool :=
  match c with
  | ControlTrace handle name _ code =>
      (code =? EVENT_TRACE_CONTROL_STOP) &&
      ((handle =? s) || (handle =? 0) && bool_decide (name = Some SESSION_NAME))
  | _ => false
  end.

Definition closes_handle (c : win32_call) (t : Z) : bool :=
  match c with CloseHandle handle => handle =? t | _ => false end.

(** Whether a request was carried out. *)
Definition succeeded (c : win32_call) (r : Z) : bool :=
  match c with
  | ControlTrace _ _ _ _ => r =? ERROR_SUCCESS
  | _ => negb (r =? 0)
  end.

(** Whether it was made. *)
Definition requested (c : win32_call) (r : Z) : bool := true.

Section ledgers.
Context (w : win32) (counts : win32_call -> Z -> bool).

(** The trace sessions started, the latest first, less those a request that [counts] has
    stopped; and the same for the handles of threads.  With [succeeded] these are the
    sessions and handles that exist, with [requested] those nobody has tried to end. *)
Fixpoint sessions (h : history) : list Z :=
  match h with
  | [] => []
  | (StartTrace _ _, r) :: h =>
      if r =? ERROR_SUCCESS then started_handle w h :: sessions h else sessions h
  | (c, r) :: h =>
      if counts c r then filter (fun s => stops_session c s = false) (sessions h) else sessions h
  end.

Fixpoint threads (h : history) : list Z :=
  match h with
  | [] => []
  | (CreateThread, r) :: h => if r =? 0 then threads h else r :: threads h
  | (c, r) :: h =>
      if counts c r then filter (fun t => closes_handle c t = false) (threads h) else threads h
  end.

End ledgers.

(** Win32 has ended every session and closed every handle it was asked to, by handle.
    (The stop by name that Initialize starts with fails when there is no stale session.) *)
Definition obeyed (h : history) : Prop :=
  Forall (fun x =>
    match fst x with
    | ControlTrace _ None _ _ | CloseHandle _ => succeeded (fst x) (snd x) = true
    | _ => True
    end) h.

(** What a consumer holds. *)
Definition held (handle : Z) : list Z := if handle =? 0 then [] else [handle].

(** What the documentation of StartTrace says of the handle: 0 when it is not valid. *)
Definition handles_documented (w : win32) : Prop :=
  forall h props,
    result w h (StartTrace SESSION_NAME props) = ERROR_SUCCESS <-> started_handle w h <> 0.

Section facts.
Context (w : win32).

Lemma run_win_call (c : win32_call) (s : consumer) (h : history) :
  call w c (s, h) = (result w h c, (s, (c, result w h c) :: h)).
Proof using. done. Qed.

(** Initialize in closed form: the stale session is stopped, one is started and,
    if that works, the three providers are enabled, whatever that returns. *)
Lemma Initialize_run (s : consumer) (h : history) :
  let stale := ControlTrace 0 (Some SESSION_NAME) (initialize_props w) EVENT_TRACE_CONTROL_STOP in
  let start := StartTrace SESSION_NAME (initialize_props w) in
  let h1 := (stale, result w h stale) :: h in
  let status := result w h1 start in
  let handle := started_handle w h1 in
  let s' := Consumer handle (trace_handle_ s) (thread_handle_ s) (running_ s) (callback_ s) in
  let enable p k := EnableTraceEx2 handle p EVENT_CONTROL_CODE_ENABLE_PROVIDER
                      TRACE_LEVEL_INFORMATION k ENABLE_TRACE_PARAMETERS_VERSION_2 in
  let then_ c h := (c, result w h c) :: h in
  let h2 := (start, status) :: h1 in
  Initialize w (s, h) =
    if status =? ERROR_SUCCESS then
      (true, (s', then_ (enable KernelNetworkGuid 1)
                    (then_ (enable KernelFileGuid (Z.lor 0x80 0x10))
                      (then_ (enable KernelProcessGuid (Z.lor 0x10 0x20)) h2))))
    else (false, (s', h2)).
Proof using.
  cbv zeta. unfold Initialize. rewrite run_bind, run_win_call. cbn [fst snd]. rewrite run_bind.
  unfold start_trace. rewrite run_act. cbn [make_call fst snd set_session].
  destruct (_ =? ERROR_SUCCESS); reflexivity.
Qed.

(** Stop in closed form. *)
Lemma Stop_run (s : consumer) (h : history) :
  let stop := ControlTrace (session_handle_ s) None (stop_props w) EVENT_TRACE_CONTROL_STOP in
  let h1 := if session_handle_ s =? 0 then h else (stop, result w h stop) :: h in
  let wait := WaitForSingleObject (thread_handle_ s) 5000 in
  let h2 := (wait, result w h1 wait) :: h1 in
  let close := CloseHandle (thread_handle_ s) in
  Stop w (s, h) =
    (tt, (Consumer 0 (trace_handle_ s) 0 false (callback_ s),
          if thread_handle_ s =? 0 then h1 else (close, result w h2 close) :: h2)).
Proof using.
  cbv zeta. unfold Stop. repeat (rewrite run_bind, ?run_modify, ?run_gets; cbn [fst snd set_running]).
  cbn [session_handle_ thread_handle_].
  destruct (Z.eqb_spec (session_handle_ s) 0) as [->|Hs];
    repeat (rewrite ?run_bind, ?run_win_call, ?run_modify; cbn [fst snd set_session set_thread session_handle_
      trace_handle_ thread_handle_ running_ callback_]);
    destruct (Z.eqb_spec (thread_handle_ s) 0) as [->|Ht]; reflexivity.
Qed.

Lemma Start_run (s : consumer) (h : history) :
  let thread := result w h CreateThread in
  Start w (s, h) =
    (negb (thread =? 0),
     (Consumer (session_handle_ s) (trace_handle_ s) thread true (callback_ s),
      (CreateThread, thread) :: h)).
Proof using. reflexivity. Qed.

(** The trace thread's calls. *)
Definition thread_call (c : win32_call) : bool :=
  match c with OpenTrace _ _ | ProcessTrace _ | CloseTrace _ => true | _ => false end.

Lemma TraceThread_run (s : consumer) (h : history) :
  exists h', snd (TraceThread w (s, h)) = (s, h' ++ h) /\
    Forall (fun x => thread_call (fst x) = true) h'.
Proof using.
  unfold TraceThread. rewrite run_bind, run_win_call. cbn [fst snd].
  match goal with |- context [?r =? INVALID_PROCESSTRACE_HANDLE] => destruct (r =? INVALID_PROCESSTRACE_HANDLE) end.
  - eexists [_]. split; [reflexivity | repeat constructor].
  - eexists [_; _; _]. split; [reflexivity | repeat constructor].
Qed.

Lemma filter_none {A : Type} (f : A -> bool) (l : list A) :
  (forall x, f x = false) -> filter (fun x => f x = false) l = l.
Proof using.
  intros Hf. induction l as [|x l IH]; [done|]. rewrite filter_cons, IH. by rewrite decide_True.
Qed.

(** A call that neither starts nor ends anything. *)
Lemma ledgers_other (counts : win32_call -> Z -> bool) (c : win32_call) (r : Z) (h : history) :
  match c with
  | ControlTrace _ _ _ _ | StartTrace _ _ | CreateThread | CloseHandle _ => False
  | _ => True
  end ->
  sessions w counts ((c, r) :: h) = sessions w counts h /\ threads counts ((c, r) :: h) = threads counts h.
Proof using. destruct c; try done; intros _; simpl; rewrite !filter_none by done; by destruct (counts _ _). Qed.

Lemma thread_calls_ledgers (counts : win32_call -> Z -> bool) (h h' : history) :
  Forall (fun x => thread_call (fst x) = true) h' ->
  sessions w counts (h' ++ h) = sessions w counts h /\ threads counts (h' ++ h) = threads counts h.
Proof using.
  induction 1 as [|[c r] h' Hc Hh' [IH1 IH2]]; [done|]. rewrite <- app_comm_cons.
  destruct (ledgers_other counts c r (h' ++ h)) as [-> ->]; [by destruct c | done].
Qed.

Lemma thread_calls_obeyed (h h' : history) :
  Forall (fun x => thread_call (fst x) = true) h' -> obeyed (h' ++ h) <-> obeyed h.
Proof using.
  intros Hh'. unfold obeyed. rewrite Forall_app. split; [by intros []|]. intros Hh. split; [|done].
  eapply Forall_impl; [exact Hh'|]. by intros [[] r].
Qed.

(** Ending what is held, and nothing else. *)
Lemma filter_held (f : Z -> bool) (handle : Z) :
  f handle = true -> filter (fun x => f x = false) (held handle) = [].
Proof using.
  intros Hf. unfold held. destruct (handle =? 0); [done|]. rewrite filter_cons, decide_False; [done|]. congruence.
Qed.

(** The stop by name is a request for any session of the consumer. *)
Lemma stale_stops (props : properties) (s : Z) :
  stops_session (ControlTrace 0 (Some SESSION_NAME) props EVENT_TRACE_CONTROL_STOP) s = true.
Proof using.
  unfold stops_session. rewrite bool_decide_true by done. by rewrite orb_true_r.
Qed.

(** Every session started and not ended is held by its handle; and every thread. *)
Definition session_tracked (counts : win32_call -> Z -> bool) (x : session) : Prop :=
  sessions w counts (snd x) = held (session_handle_ (fst x)).
Definition thread_tracked (counts : win32_call -> Z -> bool) (x : session) : Prop :=
  threads counts (snd x) = held (thread_handle_ (fst x)).

Context (counts : win32_call -> Z -> bool).

Lemma sessions_other (c : win32_call) (r : Z) (h : history) :
  match c with ControlTrace _ _ _ _ | StartTrace _ _ => False | _ => True end ->
  sessions w counts ((c, r) :: h) = sessions w counts h.
Proof using. destruct c; try done; intros _; simpl; rewrite filter_none by done; by destruct (counts _ _). Qed.

Lemma threads_other (c : win32_call) (r : Z) (h : history) :
  match c with CreateThread | CloseHandle _ => False | _ => True end ->
  threads counts ((c, r) :: h) = threads counts h.
Proof using. destruct c; try done; intros _; simpl; rewrite filter_none by done; by destruct (counts _ _). Qed.

(** Initialize, when no session is left once the stale one has been asked to stop. *)
Lemma Initialize_sessions (x : session) :
  let stale := ControlTrace 0 (Some SESSION_NAME) (initialize_props w) EVENT_TRACE_CONTROL_STOP in
  handles_documented w -> sessions w counts ((stale, result w (snd x) stale) :: snd x) = [] ->
  session_tracked counts (snd (Initialize w x)).
Proof using.
  destruct x as [s h]. cbv zeta. cbn [fst snd]. intros Hw Hs. rewrite Initialize_run. cbv zeta.
  set (stale := ControlTrace 0 _ _ _) in *. set (h1 := (stale, result w h stale) :: h) in *.
  set (start := StartTrace _ _). pose proof (Hw h1 (initialize_props w)) as Hd. fold start in Hd.
  assert (forall r, sessions w counts ((start, r) :: h1) =
    if r =? ERROR_SUCCESS then started_handle w h1 :: sessions w counts h1 else sessions w counts h1)
    as Hss by done.
  assert (held (started_handle w h1) =
    if result w h1 start =? ERROR_SUCCESS then [started_handle w h1] else []) as Hheld.
  { unfold held. destruct (Z.eqb_spec (result w h1 start) ERROR_SUCCESS) as [H0|H0].
    - apply Hd in H0. by apply Z.eqb_neq in H0 as ->.
    - destruct (Z.eqb_spec (started_handle w h1) 0) as [|Hne]; [done|]. by apply Hd in Hne. }
  specialize (Hss (result w h1 start)). rewrite Hs in Hss. rewrite <- Hheld in Hss.
  destruct (result w h1 start =? ERROR_SUCCESS); [|exact Hss].
  unfold session_tracked. cbn [fst snd session_handle_]. do 3 rewrite sessions_other by exact I. exact Hss.
Qed.

Lemma Initialize_threads (x : session) :
  threads counts (snd (snd (Initialize w x))) = threads counts (snd x) /\
  thread_handle_ (fst (snd (Initialize w x))) = thread_handle_ (fst x).
Proof using.
  destruct x as [s h]. rewrite Initialize_run. cbv zeta.
  destruct (_ =? ERROR_SUCCESS); cbn [fst snd thread_handle_]; by rewrite !threads_other.
Qed.

Lemma Start_threads (x : session) :
  thread_handle_ (fst x) = 0 -> thread_tracked counts x -> thread_tracked counts (snd (Start w x)).
Proof using.
  destruct x as [s h]. unfold thread_tracked. cbn [fst snd]. intros -> Ht. rewrite Start_run. cbv zeta.
  cbn [fst snd thread_handle_ threads]. rewrite Ht. unfold held. by destruct (_ =? 0).
Qed.

(** Stop asks for the end of both, by the handles held. *)
Lemma Stop_sessions (x : session) :
  (forall s props code r, (ControlTrace s None props code, r) ∈ snd (snd (Stop w x)) ->
     counts (ControlTrace s None props code) r = true) ->
  session_tracked counts x -> sessions w counts (snd (snd (Stop w x))) = [].
Proof using.
  destruct x as [s h]. rewrite Stop_run. cbv zeta. unfold session_tracked. cbn [fst snd]. intros Hc Hs.
  destruct (Z.eqb_spec (session_handle_ s) 0) as [Hz|Hne].
  - rewrite Hz in Hs. destruct (_ =? 0); by rewrite ?sessions_other.
  - match goal with |- context [(?c, ?r) :: h] => set (h1 := (c, r) :: h) in *; set (stop := c) in * end.
    assert (sessions w counts h1 = []) as Hs1.
    { assert (counts stop (result w h stop) = true) as Hstop
        by (apply Hc; destruct (_ =? 0); [by left | by right; right; left]).
      unfold h1. change (sessions w counts ((stop, result w h stop) :: h)) with
        (if counts stop (result w h stop)
         then filter (fun s => stops_session stop s = false) (sessions w counts h) else sessions w counts h).
      rewrite Hstop, Hs. apply filter_held. unfold stops_session. simpl. by rewrite !Z.eqb_refl. }
    clearbody h1. destruct (_ =? 0); by rewrite ?sessions_other.
Qed.

Lemma Stop_threads (x : session) :
  (forall t r, (CloseHandle t, r) ∈ snd (snd (Stop w x)) -> counts (CloseHandle t) r = true) ->
  thread_tracked counts x -> threads counts (snd (snd (Stop w x))) = [].
Proof using.
  destruct x as [s h]. rewrite Stop_run. cbv zeta. unfold thread_tracked. cbn [fst snd]. intros Hc Ht.
  match goal with |- context [if session_handle_ s =? 0 then h else ?l] =>
    set (h1 := if session_handle_ s =? 0 then h else l) in * end.
  assert (threads counts h1 = held (thread_handle_ s)) as Ht1
    by (unfold h1; destruct (_ =? 0); by rewrite ?threads_other).
  clearbody h1. destruct (Z.eqb_spec (thread_handle_ s) 0) as [Hz|Hne]; [by rewrite Ht1, Hz|].
  match goal with |- context [(?c, ?r) :: h1] => set (h2 := (c, r) :: h1) in * end.
  assert (threads counts h2 = held (thread_handle_ s)) as Ht2 by (unfold h2; by rewrite threads_other).
  clearbody h2. cbn [threads]. rewrite (Hc _ _ (list_elem_of_here _ _)), Ht2.
  apply filter_held, Z.eqb_refl.
Qed.

End facts.

(** Initialize reports success exactly when the session starts.  It stops a
    stale session of the same name, starts a new one, and on success asks for the
    process, file and network providers on the session's handle, in this order;
    whether a provider is really enabled has no influence on the result, so a
    consumer that will never receive an event is reported as working. *)
Theorem initialize_reports_session (w : win32) (s : consumer) (h : history) :
  let '(ok, (s', h')) := Initialize w (s, h) in
  exists status stale enables,
    h' = enables ++ [(StartTrace SESSION_NAME (initialize_props w), status);
                     (ControlTrace 0 (Some SESSION_NAME) (initialize_props w) EVENT_TRACE_CONTROL_STOP,
                      stale)] ++ h /\
    ok = (status =? ERROR_SUCCESS) /\
    map fst enables =
      (if ok then
         map (fun '(provider, keywords) =>
           EnableTraceEx2 (session_handle_ s') provider EVENT_CONTROL_CODE_ENABLE_PROVIDER
             TRACE_LEVEL_INFORMATION keywords ENABLE_TRACE_PARAMETERS_VERSION_2)
           [(KernelNetworkGuid, 0x01); (KernelFileGuid, 0x90); (KernelProcessGuid, 0x30)]
       else []).
Proof.
  rewrite Initialize_run. cbv zeta.
  match goal with |- context [?r =? ERROR_SUCCESS] => destruct (r =? ERROR_SUCCESS) eqn:Hr end.
  - eexists _, _, [_; _; _]. split; [reflexivity|]. by rewrite Hr.
  - eexists _, _, []. split; [reflexivity|]. by rewrite Hr.
Qed.

(** No trace session is forgotten.  Whatever Win32 answers, and in whatever order a
    consumer is initialised (repeatedly, if need be), started and stopped while its
    thread runs, the one session started and not asked to stop is the one whose handle
    the consumer holds; Stop asks it to stop and leaves no handle behind. *)
Theorem etw_session_tracked (w : win32) (l : list etw_op) :
  handles_documented w ->
  let x := run_ops w l (new_consumer, []) in
  sessions w requested (snd x) = held (session_handle_ (fst x)) /\
  let y := run_op w OpStop x in
  sessions w requested (snd y) = [] /\ session_handle_ (fst y) = 0 /\ thread_handle_ (fst y) = 0.
Proof.
  intros Hw x.
  assert (forall o x, session_tracked w requested x -> session_tracked w requested (run_op w o x)) as Hop.
  { intros o y Hy. destruct o; cbn [run_op].
    - apply Initialize_sessions; [done|]. unfold session_tracked in Hy. cbn [sessions requested].
      rewrite Hy. by apply filter_held, stale_stops.
    - destruct y as [s h]. rewrite Start_run. unfold session_tracked in *. cbn [fst snd session_handle_] in *.
      by rewrite sessions_other.
    - unfold session_tracked at 1. rewrite Stop_sessions by done. by destruct y; rewrite Stop_run.
    - destruct y as [s h]. destruct (TraceThread_run w s h) as (h' & -> & Hh').
      unfold session_tracked in *. cbn [fst snd] in *. by rewrite (proj1 (thread_calls_ledgers w requested h h' Hh')).
    - by destruct y. }
  assert (session_tracked w requested x) as Hx.
  { assert (forall y, session_tracked w requested y -> session_tracked w requested (run_ops w l y)) as Hr;
      [|by apply Hr].
    clear x. induction l as [|o l IH]; intros y Hy; [done|]. by apply IH, Hop. }
  split; [exact Hx|]. cbn [run_op]. split; [by apply Stop_sessions|]. destruct x as [s h]. by rewrite Stop_run.
Qed.

(** A Win32 on which every call succeeds and handles are small numbers. *)
Definition demo_win32 : win32 := {|
  result h c := match c with CreateThread => 32 | OpenTrace _ _ => 7 | CloseHandle _ => 1 | _ => ERROR_SUCCESS end;
  started_handle h := 5;
  sizeof_EVENT_TRACE_PROPERTIES := 120;
|}.

Lemma etw_session_tracked_witness :
  let y := run_op demo_win32 OpStop
    (run_ops demo_win32 [OpInitialize; OpSetCallback; OpStart; OpThread] (new_consumer, [])) in
  length (snd y) = 12%nat /\ sessions demo_win32 requested (snd y) = [].
Proof.
  intros y. split; [reflexivity|].
  assert (handles_documented demo_win32) as Hw by (intros h props; simpl; split; [discriminate | reflexivity]).
  exact (proj1 (proj2 (etw_session_tracked demo_win32
    [OpInitialize; OpSetCallback; OpStart; OpThread] Hw))).
Defined.
