(* ===== verification/Ipc.v ===== *)
(** Configuration and choice of the telemetry sender (include/kinnector/ipc.h,
    src/ipc.cpp) and how the engine fills the configuration (src/ffi.cpp, lines
    118-125), shared by the platforms. *)

From S2P Require Export Prelude.

Record IPCConfig : Type := {
  socket_path : string;
  pipe_name : string;
  auth_token : string;
  is_fallback_tcp : bool;
  tcp_port : Z;
}.

(** [TARGET_OS_*]: what the sources are compiled for. *)
Inductive target_os : Type := TARGET_OS_LINUX | TARGET_OS_WINDOWS | TARGET_OS_MACOS | TARGET_OS_OTHER.

Inductive ITelemetrySender : Type := LinuxTelemetrySender | WindowsTelemetrySender | MacosTelemetrySender.

Definition CreateTelemetrySender (os : target_os) : option ITelemetrySender :=
  match os with
  | TARGET_OS_LINUX => Some LinuxTelemetrySender
  | TARGET_OS_WINDOWS => Some WindowsTelemetrySender
  | TARGET_OS_MACOS => Some MacosTelemetrySender
  | TARGET_OS_OTHER => None
  end.

Definition default_config : IPCConfig := {|
  socket_path := "";
  pipe_name := "";
  auth_token := "";
  is_fallback_tcp := false;
  tcp_port := 4080;
|}.

(** [g_config] after initialize_telemetry_engine: null pointers become empty strings,
    and the socket path is the pipe name too. *)
Definition fill_config (path token : option string) (config : IPCConfig) : IPCConfig := {|
  socket_path := default ""%string path;
  pipe_name := default ""%string path;
  auth_token := default ""%string token;
  is_fallback_tcp := is_fallback_tcp config;
  tcp_port := tcp_port config;
|}.
