(* ===== verification/FfiWindows.v ===== *)
(** The exported engine interface on Windows (the TARGET_OS_WINDOWS branches of
    src/ffi.cpp): the global state behind [g_ffi_mutex] and the calls on it, over the
    ETW consumer of [EtwSession] and the named-pipe sender, of which the engine's
    control flow depends on [running_] only. *)

From S2P Require Export EtwSession Ipc.

Local Open Scope Z_scope.

(** [DriverHelper] (src/windows/driver_helper.h) has no state and does nothing. *)
Definition DriverHelper_Initialize : bool := true.

(** The members of [WindowsTelemetrySender] that Start and Stop set. *)
Record pipe_sender : Type := PipeSender {
  ps_running : bool;
  ps_pipe_name : string;
  ps_auth_token : string;
}.

Definition new_pipe_sender : pipe_sender := PipeSender false "" "".

Definition DEFAULT_PIPE : string := "\\.\pipe\kinnector-ipc".

Definition sender_start (config : IPCConfig) (s : pipe_sender) : bool * pipe_sender :=
  if ps_running s then (false, s) else
  (true, PipeSender true
    (if bool_decide (pipe_name config = ""%string) then DEFAULT_PIPE else pipe_name config)
    (auth_token config)).

Definition sender_stop (s : pipe_sender) : pipe_sender :=
  PipeSender false (ps_pipe_name s) (ps_auth_token s).

(** [w_calls]: what has been asked of Win32, by every consumer there was. *)
Record engine : Type := Engine {
  g_initialized : bool;
  g_running : bool;
  g_config : IPCConfig;
  g_sender : option pipe_sender;
  g_etw : option consumer;
  g_driver : bool;
  w_calls : history;
}.

Definition new_engine : engine := Engine false false default_config None None false [].

Section engine.
Context (w : win32).

(** A failed Initialize destroys the consumer, and [~EtwConsumer] stops it. *)
Definition initialize_telemetry_engine (path token : option string) : prog engine bool := act (fun e =>
  if g_initialized e then (false, e) else
  let config := fill_config path token (g_config e) in
  match CreateTelemetrySender TARGET_OS_WINDOWS with
  | None => (false, Engine false (g_running e) config None (g_etw e) (g_driver e) (w_calls e))
  | Some _ =>
      let '(ok, (etw, calls)) := EtwSession.Initialize w (new_consumer, w_calls e) in
      if negb ok then
        let calls := snd (snd (EtwSession.Stop w (etw, calls))) in
        (false, Engine false (g_running e) config None None (g_driver e) calls)
      else
        (true, Engine true (g_running e) config (Some new_pipe_sender) (Some etw)
          DriverHelper_Initialize calls)
  end).

Definition start_telemetry_engine : prog engine bool := act (fun e =>
  if negb (g_initialized e) || g_running e then (false, e) else
  match g_sender e, g_etw e with
  | Some sender, Some etw =>
      let '(ok, sender) := sender_start (g_config e) sender in
      if negb ok then (false, e) else
      let '(ok, (etw, calls)) := EtwSession.Start w (SetEventCallback (etw, w_calls e)) in
      if negb ok then
        (false, Engine (g_initialized e) (g_running e) (g_config e) (Some (sender_stop sender))
          (Some etw) (g_driver e) calls)
      else
        (* a driver that fails to start is only reported *)
        (true, Engine (g_initialized e) true (g_config e) (Some sender) (Some etw) (g_driver e) calls)
  | _, _ => (false, e)
  end).

Definition stop_telemetry_engine : prog engine unit := act (fun e =>
  if negb (g_running e) then (tt, e) else
  let '(etw, calls) :=
    match g_etw e with
    | Some etw => let '(etw, calls) := snd (EtwSession.Stop w (etw, w_calls e)) in (Some etw, calls)
    | None => (None, w_calls e)
    end in
  (tt, Engine (g_initialized e) false (g_config e)
    (match g_sender e with Some s => Some (sender_stop s) | None => None end) etw (g_driver e) calls)).

(** No map and no LSM on Windows: each of these returns false. *)
Definition add_sensitive_inode (inode category : Z) : bool := false.
Definition add_trusted_exec_inode (inode trust_level : Z) : bool := false.
Definition is_trusted_exec_inode (inode : Z) : bool := false.
Definition set_config_value (index value : Z) : bool := false.
Definition update_process_threshold (pid start_time threshold : Z) : bool := false.
Definition is_lsm_active : bool := false.

(** What SendEvent is called with, when it is called. *)
Definition send_telemetry_event (event : option (list Z)) (e : engine) : option (list Z) :=
  match g_sender e, event with
  | Some _, Some ev => if g_running e then Some ev else None
  | _, _ => None
  end.

(** An event record arrives: the counter afterwards, and what SendEvent is called with. *)
Definition on_etw_event (os : windows) (event : EVENT_RECORD) (seq : Z) (e : engine)
  : Z * list (list Z) :=
  let s := EventRecordCallback os (g_etw e) event (Stream seq []) in
  (s_sequence s, match g_sender e with Some _ => emitted s | None => [] end).

(** ** Sessions *)

Inductive engine_op : Type :=
| EInitialize (path token : option string)
| EStart
| EStop
| EThread.              (* a trace thread runs *)

Definition run_thread (e : engine) : engine :=
  match g_etw e with
  | Some etw =>
      Engine (g_initialized e) (g_running e) (g_config e) (g_sender e) (Some etw) (g_driver e)
        (snd (snd (TraceThread w (etw, w_calls e))))
  | None => e
  end.

Definition run_engine_op (o : engine_op) (e : engine) : engine :=
  match o with
  | EInitialize path token => snd (initialize_telemetry_engine path token e)
  | EStart => snd (start_telemetry_engine e)
  | EStop => snd (stop_telemetry_engine e)
  | EThread => run_thread e
  end.

Definition run_engine (l : list engine_op) (e : engine) : engine :=
  fold_left (fun e o => run_engine_op o e) l e.

(** ** The invariant of an engine *)

(** The session and the thread whose handles the engine's consumer holds. *)
Definition held_session (e : engine) : list Z :=
  match g_etw e with Some c => held (session_handle_ c) | None => [] end.
Definition held_thread (e : engine) : list Z :=
  match g_etw e with Some c => held (thread_handle_ c) | None => [] end.

(** The sessions and threads left by the requests that count are those held. *)
Definition ledgers_match (counts : win32_call -> Z -> bool) (e : engine) : Prop :=
  sessions w counts (w_calls e) = held_session e /\ threads counts (w_calls e) = held_thread e.

(** What holds between any two calls. *)
Record engine_ok (e : engine) : Prop := EngineOk {
  eo_parts : if g_initialized e then is_Some (g_sender e) /\ is_Some (g_etw e)
             else g_sender e = None /\ g_etw e = None;
  eo_running : g_running e = true -> g_initialized e = true;
  eo_sender : forall s, g_sender e = Some s -> ps_running s = g_running e;
  eo_thread : forall c, g_etw e = Some c -> negb (thread_handle_ c =? 0) = g_running e;
  eo_requested : ledgers_match requested e;
  eo_succeeded : obeyed (w_calls e) -> ledgers_match succeeded e;
}.

(** The fields of the invariant that the new state shows at once. *)
Ltac engine_fields :=
  split; simpl; known_bools; try done; try (intros ? [= <-]; simpl; done); try (split; by eexists).

Lemma new_engine_ok : engine_ok new_engine.
Proof using. by split. Qed.

(** *** What an operation does to the ledgers *)

(** By-handle requests in [h] count. *)
Definition all_count (counts : win32_call -> Z -> bool) (h : history) : Prop :=
  forall c r, (c, r) ∈ h ->
    match c with ControlTrace _ None _ _ | CloseHandle _ => counts c r = true | _ => True end.

Lemma all_count_obeyed (h : history) : obeyed h -> all_count succeeded h.
Proof using.
  intros Hh c r Hin. unfold obeyed in Hh. rewrite Forall_forall in Hh. specialize (Hh _ Hin).
  by destruct c as [? [] ? ?| | | | | | | |].
Qed.

Context (Hw : handles_documented w).

Lemma engine_op_ledgers (counts : win32_call -> Z -> bool) (o : engine_op) (e : engine) :
  engine_ok e -> all_count counts (w_calls (run_engine_op o e)) -> ledgers_match counts e ->
  ledgers_match counts (run_engine_op o e).
Proof using Hw.
  intros He Hc [Hs Ht]. pose proof (eo_parts e He) as Hp. unfold ledgers_match, held_session, held_thread in *.
  destruct o as [path token| | |]; cbn [run_engine_op] in *.
  - revert Hc. unfold initialize_telemetry_engine. rewrite ?run_act.
    destruct (g_initialized e) eqn:Hi; [by intros _|]. destruct Hp as [_ Hen]. rewrite Hen in Hs, Ht.
    cbn [CreateTelemetrySender].
    pose proof (Initialize_sessions w counts (new_consumer, w_calls e) Hw) as His. cbn [snd] in His.
    destruct (Initialize_threads w counts (new_consumer, w_calls e)) as [Hit Hih].
    destruct (EtwSession.Initialize w (new_consumer, w_calls e)) as [ok [etw calls]]. cbn [fst snd] in *.
    assert (sessions w counts calls = held (session_handle_ etw)) as Hs1.
    { apply His. cbn [sessions]. rewrite Hs. by destruct (counts _ _). }
    rewrite Ht in Hit. destruct ok; cbn [negb fst snd g_etw w_calls]; intros Hc.
    + by rewrite Hs1, Hit, Hih.
    + assert (thread_tracked counts (etw, calls)) as Ht1
        by (unfold thread_tracked; cbn [fst snd]; by rewrite Hit, Hih).
      split; [apply Stop_sessions; [|exact Hs1] | apply Stop_threads; [|exact Ht1]].
      * intros s props code r Hin. exact (Hc _ _ Hin).
      * intros t r Hin. exact (Hc _ _ Hin).
  - revert Hc. unfold start_telemetry_engine. rewrite ?run_act.
    destruct (negb (g_initialized e) || g_running e) eqn:Hir; [by intros _|].
    destruct (g_sender e) as [s|]; [|by intros _].
    destruct (g_etw e) as [c|] eqn:Hen; [|by intros _; cbn; rewrite Hen].
    destruct (sender_start _ _) as [[] s']; [|by intros _; cbn; rewrite Hen]. cbn [negb SetEventCallback].
    assert (thread_handle_ c = 0) as Hz.
    { pose proof (eo_thread e He c Hen) as Hz. apply orb_false_iff in Hir as [_ Hr]. rewrite Hr in Hz.
      by apply negb_false_iff, Z.eqb_eq in Hz. }
    set (c1 := Consumer (session_handle_ c) (trace_handle_ c) (thread_handle_ c) (running_ c) true).
    pose proof (Start_threads w counts (c1, w_calls e) Hz Ht) as Ht1. revert Ht1. unfold thread_tracked.
    rewrite Start_run. cbv zeta. cbn [fst snd]. intros Ht1.
    destruct (_ =? 0); cbn [negb fst snd g_etw w_calls session_handle_ thread_handle_] in *; intros _;
      (split; [by rewrite sessions_other | exact Ht1]).
  - revert Hc. unfold stop_telemetry_engine. rewrite ?run_act. destruct (g_running e); [|by intros _]. cbn [negb].
    destruct (g_etw e) as [c|] eqn:Hen; [|by intros _].
    pose proof (Stop_sessions w counts (c, w_calls e)) as Hss. pose proof (Stop_threads w counts (c, w_calls e)) as Hst.
    assert (fst (snd (EtwSession.Stop w (c, w_calls e))) = Consumer 0 (trace_handle_ c) 0 false (callback_ c)) as Hz
      by (by rewrite Stop_run).
    destruct (snd (EtwSession.Stop w (c, w_calls e))) as [c' h']. cbn [fst snd g_etw w_calls] in *. intros Hc. subst c'.
    split; [apply Hss; [|exact Hs] | apply Hst; [|exact Ht]].
    + intros s props code r Hin. exact (Hc _ _ Hin).
    + intros t r Hin. exact (Hc _ _ Hin).
  - revert Hc. unfold run_thread. destruct (g_etw e) as [c|] eqn:Hen; [|by intros _; cbn; rewrite Hen].
    destruct (TraceThread_run w c (w_calls e)) as (h' & -> & Hh'). cbn [snd g_etw w_calls]. intros _.
    destruct (thread_calls_ledgers w counts (w_calls e) h' Hh') as [-> ->]. done.
Qed.

(** The calls made are never forgotten. *)
Lemma engine_op_grows (o : engine_op) (e : engine) :
  exists new, w_calls (run_engine_op o e) = new ++ w_calls e.
Proof using.
  assert (exists new, w_calls e = new ++ w_calls e) as Hsame by (by exists []).
  assert (forall c h, exists new, snd (snd (EtwSession.Stop w (c, h))) = new ++ h) as Hstop.
  { intros c h. rewrite Stop_run. cbv zeta. cbn [snd].
    destruct (session_handle_ c =? 0), (thread_handle_ c =? 0);
      [by exists [] | by eexists [_; _] | by eexists [_] | by eexists [_; _; _]]. }
  destruct o; cbn [run_engine_op].
  - unfold initialize_telemetry_engine. rewrite ?run_act. destruct (g_initialized e); [done|].
    cbn [CreateTelemetrySender]. rewrite Initialize_run. cbv zeta.
    destruct (_ =? ERROR_SUCCESS); cbn [negb snd w_calls]; [by eexists [_; _; _; _; _]|].
    edestruct Hstop as [new Hn]. eexists (new ++ [_; _]). rewrite <- app_assoc. exact Hn.
  - unfold start_telemetry_engine. rewrite ?run_act. destruct (_ || _); [done|].
    destruct (g_sender e); [|done]. destruct (g_etw e); [|done].
    destruct (sender_start _ _) as [[] s']; [|done]. cbn [negb SetEventCallback]. rewrite Start_run. cbv zeta.
    destruct (_ =? 0); by eexists [_].
  - unfold stop_telemetry_engine. rewrite ?run_act. destruct (g_running e); [|done]. cbn [negb].
    destruct (g_etw e) as [c|]; [|done]. destruct (Hstop c (w_calls e)) as [new Hn].
    destruct (snd (EtwSession.Stop w (c, w_calls e))) as [c' h']. by exists new.
  - unfold run_thread. destruct (g_etw e) as [c|]; [|done].
    destruct (TraceThread_run w c (w_calls e)) as (h' & -> & _). by exists h'.
Qed.

(** *** Its parts *)

Definition parts_ok (e : engine) : Prop :=
  (if g_initialized e then is_Some (g_sender e) /\ is_Some (g_etw e)
   else g_sender e = None /\ g_etw e = None) /\
  (g_running e = true -> g_initialized e = true) /\
  (forall s, g_sender e = Some s -> ps_running s = g_running e) /\
  (forall c, g_etw e = Some c -> negb (thread_handle_ c =? 0) = g_running e).

Lemma engine_op_parts (o : engine_op) (e : engine) : parts_ok e -> parts_ok (run_engine_op o e).
Proof using.
  intros He. pose proof He as (Hp & Hr & Hs & Ht). destruct o as [path token| | |]; cbn [run_engine_op].
  - unfold initialize_telemetry_engine. rewrite ?run_act. destruct (g_initialized e) eqn:Hi; [exact He|].
    assert (g_running e = false) as Hnr by (by destruct (g_running e); [specialize (Hr eq_refl)|]).
    cbn [CreateTelemetrySender]. rewrite Initialize_run. cbv zeta.
    destruct (_ =? ERROR_SUCCESS); unfold parts_ok; simpl; rewrite Hnr; engine_fields;
      (split; [done|]; split; intros ? [= <-]; done).
  - unfold start_telemetry_engine. rewrite ?run_act.
    destruct (g_initialized e) eqn:Hi; [|exact He]. destruct (g_running e) eqn:Hrun; [exact He|].
    cbn [negb orb]. destruct Hp as [[s Hsn] [c Hen]]. rewrite Hsn, Hen in *.
    unfold sender_start. rewrite (Hs s eq_refl). cbn [negb SetEventCallback]. rewrite Start_run. cbv zeta.
    destruct (result w (w_calls e) CreateThread =? 0) eqn:Hz; unfold parts_ok; cbn; rewrite ?Hi, ?Hrun;
      (split; [split; by eexists|]; split; [done|]; split; intros ? [= <-]; cbn; by rewrite ?Hz).
  - unfold stop_telemetry_engine. rewrite ?run_act. destruct (g_running e) eqn:Hrun; [|exact He].
    cbn [negb]. rewrite (Hr eq_refl) in *. destruct Hp as [[s Hsn] [c Hen]]. rewrite Hsn, Hen in *.
    rewrite Stop_run. unfold parts_ok. cbn.
    split; [split; by eexists|]. split; [done|]. by split; intros ? [= <-].
  - unfold run_thread. destruct (g_etw e) as [c|] eqn:Hen; [|exact He]. unfold parts_ok. cbn. done.
Qed.

Lemma engine_op_ok (o : engine_op) (e : engine) : engine_ok e -> engine_ok (run_engine_op o e).
Proof using Hw.
  intros He. pose proof He as [Hp Hr Hs Ht Hreq Hsucc].
  destruct (engine_op_parts o e (conj Hp (conj Hr (conj Hs Ht)))) as (Hp' & Hr' & Hs' & Ht').
  split; [done..| |].
  - apply engine_op_ledgers; [done | | done]. intros [? [] ? ?| | | | | | | |] r _; done.
  - intros Ho. apply engine_op_ledgers; [done | by apply all_count_obeyed |]. apply Hsucc.
    destruct (engine_op_grows o e) as [new Hn]. rewrite Hn in Ho. by apply Forall_app in Ho as [_ Ho].
Qed.

Lemma run_engine_ok (l : list engine_op) (e : engine) : engine_ok e -> engine_ok (run_engine l e).
Proof using Hw. revert e. induction l as [|o l IH]; intros e He; [done|]. by apply IH, engine_op_ok. Qed.

(** An engine that does not run has no thread, an uninitialised one no session. *)
Lemma idle_ledgers (counts : win32_call -> Z -> bool) (e : engine) :
  engine_ok e -> ledgers_match counts e ->
  (g_running e = false -> threads counts (w_calls e) = []) /\
  (g_initialized e = false -> sessions w counts (w_calls e) = []).
Proof using.
  intros He [Hs Ht]. rewrite Hs, Ht. unfold held_session, held_thread. split.
  - intros Hr. destruct (g_etw e) as [c|] eqn:Hc; [|done]. pose proof (eo_thread e He c Hc) as Hz.
    rewrite Hr in Hz. apply negb_false_iff in Hz. unfold held. by rewrite Hz.
  - intros Hi. pose proof (eo_parts e He) as Hp. rewrite Hi in Hp. by destruct Hp as [_ ->].
Qed.

(** ** A stopped engine *)

(** [e'] came from [e] without a StartTrace. *)
Definition no_new_session (e e' : engine) : Prop :=
  exists new, w_calls e' = new ++ w_calls e /\
    Forall (fun x => match fst x with StartTrace _ _ => False | _ => True end) new.

#[export] Instance no_new_session_preorder : PreOrder no_new_session.
Proof using.
  split; [by intros e; exists []|].
  intros e1 e2 e3 (n1 & H1 & F1) (n2 & H2 & F2). exists (n2 ++ n1).
  rewrite H2, H1, app_assoc. split; [done|]. by apply Forall_app.
Qed.

(** An initialised engine never asks for a session again. *)
Lemma op_no_new_session (o : engine_op) (e : engine) :
  g_initialized e = true ->
  g_initialized (run_engine_op o e) = true /\ no_new_session e (run_engine_op o e).
Proof using.
  intros Hi. assert (no_new_session e e) as Hsame by reflexivity.
  destruct o; cbn [run_engine_op].
  - unfold initialize_telemetry_engine. rewrite ?run_act. by rewrite Hi.
  - unfold start_telemetry_engine. rewrite ?run_act, Hi. cbn [negb orb]. destruct (g_running e); [done|].
    destruct (g_sender e) as [s|]; [|done]. destruct (g_etw e) as [c|]; [|done].
    unfold sender_start. destruct (ps_running s); [done|]. cbn [negb SetEventCallback].
    rewrite Start_run. cbv zeta.
    destruct (_ =? 0); (split; [done|]); eexists [_]; by repeat constructor.
  - unfold stop_telemetry_engine. rewrite ?run_act. destruct (g_running e); [|done]. cbn [negb].
    destruct (g_etw e) as [c|]; [|done]. rewrite Stop_run. cbv zeta. cbn [snd fst].
    split; [done|]. unfold no_new_session. cbn [w_calls].
    destruct (session_handle_ c =? 0), (thread_handle_ c =? 0).
    + by exists [].
    + eexists [_; _]. by repeat constructor.
    + eexists [_]. by repeat constructor.
    + eexists [_; _; _]. by repeat constructor.
  - unfold run_thread. destruct (g_etw e) as [c|]; [|done].
    destruct (TraceThread_run w c (w_calls e)) as (h' & -> & Hh'). split; [done|].
    exists h'. split; [done|]. eapply Forall_impl; [exact Hh'|]. intros [[] r]; done.
Qed.

Lemma run_no_new_session (l : list engine_op) (e : engine) :
  g_initialized e = true -> g_initialized (run_engine l e) = true /\ no_new_session e (run_engine l e).
Proof using.
  revert e. induction l as [|o l IH]; intros e Hi; [done|].
  destruct (op_no_new_session o e Hi) as [Hi' Hn]. destruct (IH _ Hi') as [Hi2 Hn2].
  split; [exact Hi2|]. by etrans.
Qed.

Lemma no_new_sessions (e e' : engine) :
  no_new_session e e' -> sessions w requested (w_calls e) = [] -> sessions w requested (w_calls e') = [].
Proof using.
  intros (new & -> & Hn) Hu. induction Hn as [|[c r] new Hc Hn IH]; [done|].
  destruct c; try done; cbn [app sessions requested]; by rewrite IH.
Qed.

(** Stopping a running engine ends its session. *)
Lemma stop_ends_session (e : engine) :
  engine_ok e -> g_running e = true -> sessions w requested (w_calls (run_engine_op EStop e)) = [].
Proof using Hw.
  intros He Hr. pose proof (eo_requested e He) as Hl. pose proof (eo_parts e He) as Hp.
  rewrite (eo_running e He Hr) in Hp. destruct Hp as [_ [c Hc]].
  destruct (engine_op_ledgers requested EStop e He) as [Hs _]; [|done|].
  { by intros [? [] ? ?| | | | | | | |] r _. }
  rewrite Hs. unfold held_session. cbn [run_engine_op]. unfold stop_telemetry_engine.
  rewrite ?run_act, Hr, Hc. cbn [negb]. by rewrite Stop_run.
Qed.

(** C13: the engine on Windows is consistent between calls.  Whatever Win32 answers
    (only that StartTrace stores a handle other than 0 exactly when it succeeds, as
    documented, is used) and in whatever order the engine is initialised, started and stopped while its
    trace threads run: it has a sender and a consumer exactly when it is
    initialised; the sender runs, and the consumer holds a thread handle, exactly when
    the engine does; and the trace session and the thread whose handles the consumer
    holds are the only ones started and not asked to end by a stop request for that
    session, a CloseHandle of that thread.  So a failed initialisation leaves no
    session unasked, a stopped engine no thread; and as long as Win32 carries out the
    requests made by handle, the sessions and handles that exist are those held. *)
Theorem windows_engine_consistent (l : list engine_op) :
  let e := run_engine l new_engine in
  engine_ok e /\
  (g_running e = false -> threads requested (w_calls e) = []) /\
  (g_initialized e = false -> sessions w requested (w_calls e) = []) /\
  (obeyed (w_calls e) ->
    (g_running e = false -> threads succeeded (w_calls e) = []) /\
    (g_initialized e = false -> sessions w succeeded (w_calls e) = [])).
Proof using Hw.
  intros e. assert (engine_ok e) as He by apply run_engine_ok, new_engine_ok.
  split; [exact He|]. destruct (idle_ledgers requested e He (eo_requested e He)) as [H1 H2].
  split; [done|]. split; [done|]. intros Ho. by apply idle_ledgers, eo_succeeded.
Qed.

(** C38: on Windows a restarted engine is deaf.  Once a running engine has been
    stopped, whatever calls follow, initialize is refused and nothing starts a
    trace session again, and no session is left that was not asked to stop; yet start reports success, and the engine
    counts as running, whenever a thread can be created. *)
Theorem restarted_engine_deaf (l l' : list engine_op) (path token : option string) :
  let e := run_engine l new_engine in
  let e' := run_engine (EStop :: l') e in
  g_running e = true ->
  fst (initialize_telemetry_engine path token e') = false /\
  no_new_session e e' /\ sessions w requested (w_calls e') = [] /\
  (g_running e' = false -> result w (w_calls e') CreateThread <> 0 ->
   let '(ok, e2) := start_telemetry_engine e' in
   ok = true /\ g_running e2 = true /\ sessions w requested (w_calls e2) = []).
Proof using Hw.
  intros e e' Hr. assert (engine_ok e) as He by apply run_engine_ok, new_engine_ok.
  pose proof (eo_running e He Hr) as Hi.
  assert (engine_ok e') as He' by (by apply run_engine_ok).
  destruct (op_no_new_session EStop e Hi) as [Hi1 Hn1].
  destruct (run_no_new_session l' _ Hi1) as [Hi2 Hn2].
  change (run_engine l' (run_engine_op EStop e)) with e' in Hi2, Hn2.
  assert (sessions w requested (w_calls e') = []) as Hu
    by (apply (no_new_sessions _ _ Hn2); by apply stop_ends_session).
  split; [by unfold initialize_telemetry_engine; rewrite run_act, Hi2|]. split; [by etrans|].
  split; [exact Hu|]. intros Hr' Hth. unfold start_telemetry_engine. rewrite ?run_act, Hi2, Hr'. cbn [negb orb].
  pose proof (eo_parts e' He') as Hp. rewrite Hi2 in Hp. destruct Hp as [[s Hs] [c Hc]]. rewrite Hs, Hc.
  unfold sender_start. rewrite (eo_sender e' He' s Hs), Hr'. cbn [negb SetEventCallback].
  rewrite Start_run. cbv zeta. apply Z.eqb_neq in Hth. rewrite Hth. split; [done|]. split; [done|].
  cbn [w_calls]. by rewrite sessions_other.
Qed.

End engine.

Lemma demo_documented : handles_documented demo_win32.
Proof. intros h props. simpl. split; [discriminate | reflexivity]. Qed.

(** An engine that has been initialised and started. *)
Definition demo_started : list engine_op :=
  [EInitialize (Some "\\.\pipe\agent") (Some "token"); EStart; EThread]%string.

Lemma windows_engine_consistent_witness :
  let e := run_engine demo_win32 (demo_started ++ [EStop]) new_engine in
  g_initialized e = true /\ length (w_calls e) = 12%nat /\
  threads requested (w_calls e) = [] /\ threads succeeded (w_calls e) = [].
Proof.
  intros e. split; [reflexivity|]. split; [reflexivity|].
  destruct (windows_engine_consistent demo_win32 demo_documented (demo_started ++ [EStop]))
    as (_ & Hr & _ & Ho).
  split; [exact (Hr eq_refl)|]. refine (proj1 (Ho _) eq_refl).
  vm_compute. repeat constructor.
Defined.

Lemma restarted_engine_deaf_witness :
  let e' := run_engine demo_win32 (demo_started ++ [EStop]) new_engine in
  let '(ok, e2) := start_telemetry_engine demo_win32 e' in
  ok = true /\ g_running e2 = true /\ sessions demo_win32 requested (w_calls e2) = [].
Proof.
  destruct (restarted_engine_deaf demo_win32 demo_documented demo_started [] None None eq_refl)
    as (_ & _ & _ & H).
  exact (H eq_refl ltac:(discriminate)).
Defined.
