(* ===== verification/Runner.v ===== *)
(** The Windows demonstration program (src/windows/runner.cpp): a client of the
    engine interface of [FfiWindows] that sends two records. *)

From S2P Require Export FfiWindows.
From S2P Require EtwTheorems.

Local Open Scope Z_scope.

(** [strncpy(dst, src, sizeof(dst))]: no terminator when [src] fills the array. *)
Definition strncpy (f : field) (src out : list Z) : list Z :=
  put f (take (f_len f) src ++ repeat 0 (f_len f - length src)) out.

Definition pc_event : list Z :=
  let s := UserLayout.ProcessCreateDetails in
  let out := cleared_record in
  let out := put_uint (hdr "sequence_number") 1 out in
  let out := put_uint (hdr "timestamp_ns") 1000000000 out in
  let out := put_uint (hdr "pid") 999 out in
  let out := set_event_type UserLayout.ProcessCreate out in
  let out := put_uint (hdr "source") (UserLayout.source_code UserLayout.ETW) out in
  let out := put_uint (det s "child_pid") 12345 out in
  let out := put_uint (det s "real_parent_pid") 999 out in
  let out := strncpy (det s "child_image_path") (str "C:\Windows\System32\cmd.exe") out in
  strncpy (det s "child_command_line") (str "cmd.exe /c echo Hello") out.

Definition fw_event : list Z :=
  let s := UserLayout.FileWriteDetails in
  let out := cleared_record in
  let out := put_uint (hdr "sequence_number") 2 out in
  let out := put_uint (hdr "timestamp_ns") 2000000000 out in
  let out := put_uint (hdr "pid") 12345 out in
  let out := set_event_type UserLayout.FileWrite out in
  let out := put_uint (hdr "source") (UserLayout.source_code UserLayout.ETW) out in
  let out := put_uint (det s "bytes_written") 100 out in
  strncpy (det s "file_path") (str "C:\Users\user\exodus\wallet.json") out.

Definition socket_path : string := "\\.\pipe\kinnector-telemetry".
Definition auth_token : string := "super-secret-agent-token-12345".

Section runner.
Context (w : win32).

(** The exit code, and what SendEvent is called with.  Whether an event was sent is
    only reported. *)
Definition main : prog engine (Z * list (list Z)) := act (fun e =>
  let '(ok, e) := initialize_telemetry_engine w (Some socket_path) (Some auth_token) e in
  if negb ok then ((1, []), e) else
  let '(ok, e) := start_telemetry_engine w e in
  if negb ok then ((1, []), e) else
  let sent := option_list (send_telemetry_event (Some pc_event) e) ++
              option_list (send_telemetry_event (Some fw_event) e) in
  ((0, sent), snd (stop_telemetry_engine w e))).

(** The runner works: when the session starts and a thread can be created, both records
    are sent in order, the exit code is 0, and the session and the thread it started are
    both asked to end; otherwise the exit code is 1, nothing is sent and no thread is
    left unasked. *)
Lemma runner_outcome :
  handles_documented w ->
  let '((code, sent), e) := main new_engine in
  g_running e = false /\ threads requested (w_calls e) = [] /\
  ((code = 0 /\ sent = [pc_event; fw_event] /\ sessions w requested (w_calls e) = []) \/
   (code = 1 /\ sent = [])).
Proof.
  intros Hw. unfold main. rewrite ?run_act.
  pose proof (engine_op_ok w Hw (EInitialize (Some socket_path) (Some auth_token)) _ (new_engine_ok w)) as H1.
  cbn [run_engine_op] in H1.
  destruct (initialize_telemetry_engine w _ _ new_engine) as [ok1 e1] eqn:Hi. cbn [snd] in H1.
  assert (g_running e1 = false) as Hr1.
  { revert Hi. unfold initialize_telemetry_engine. rewrite ?run_act. cbn [g_initialized new_engine CreateTelemetrySender].
    destruct (EtwSession.Initialize w _) as [ok [c h]]. destruct ok; by intros [= _ <-]. }
  pose proof (proj1 (idle_ledgers w requested e1 H1 (eo_requested w e1 H1)) Hr1) as Ht1.
  destruct ok1; cbn [negb]; [|by auto].
  pose proof (engine_op_ok w Hw EStart e1 H1) as H2. cbn [run_engine_op] in H2.
  destruct (start_telemetry_engine w e1) as [ok2 e2] eqn:Hs. cbn [snd] in H2.
  assert (g_running e2 = ok2) as Hr2.
  { revert Hs. unfold start_telemetry_engine. rewrite ?run_act. rewrite Hr1. destruct (negb (g_initialized e1)); cbn [orb];
      [by intros [= <- <-]|].
    destruct (g_sender e1), (g_etw e1); try by intros [= <- <-].
    destruct (sender_start _ _) as [[] s']; [|by intros [= <- <-]]. cbn [negb].
    destruct (EtwSession.Start w _) as [[] [c' h']]; by intros [= <- <-]. }
  destruct ok2; cbn [negb];
    [|pose proof (proj1 (idle_ledgers w requested e2 H2 (eo_requested w e2 H2)) Hr2) as Ht2; by auto].
  pose proof (engine_op_ok w Hw EStop e2 H2) as H3. pose proof (stop_ends_session w Hw e2 H2 Hr2) as Hu.
  cbn [run_engine_op] in H3, Hu.
  assert (g_running (snd (stop_telemetry_engine w e2)) = false) as Hr3.
  { unfold stop_telemetry_engine. rewrite ?run_act. rewrite Hr2. cbn [negb].
    destruct (g_etw e2) as [c|]; [|done]. by destruct (snd (EtwSession.Stop w _)). }
  pose proof (proj1 (idle_ledgers w requested _ H3 (eo_requested w _ H3)) Hr3) as Ht3.
  split; [done|]. split; [done|]. left. split; [done|]. split; [|done].
  pose proof (eo_parts w e2 H2) as Hp. rewrite (eo_running w e2 H2 Hr2) in Hp.
  destruct Hp as [[s Hsn] _]. unfold send_telemetry_event. by rewrite Hsn, Hr2.
Qed.

End runner.

(** What a consumer reads from the two records. *)
Lemma runner_records_read :
  UserLayout.read_header pc_event = UserLayout.HeaderView 1 1000000000 999 1 1 /\
  EtwTheorems.read_view UserLayout.ProcessCreate pc_event =
    EtwTheorems.VProcessCreate 12345 999 (str "C:\Windows\System32\cmd.exe")
      (str "cmd.exe /c echo Hello") /\
  UserLayout.read_header fw_event = UserLayout.HeaderView 2 2000000000 12345 5 1 /\
  get_uint (det UserLayout.FileWriteDetails "bytes_written") fw_event = 100 /\
  cstr (get (det UserLayout.FileWriteDetails "file_path") fw_event) =
    str "C:\Users\user\exodus\wallet.json".
Proof. repeat split; vm_compute; reflexivity. Qed.
