(* ===== verification/Helpers.v ===== *)
(** The helper processes and placeholders: the Windows clipboard helper
    (src/windows/clipboard_helper.cpp) and the Linux warden helper
    (src/linux/warden_helper.cpp). *)

From S2P Require Export Prelude.

Local Open Scope Z_scope.

(** [main] of the clipboard helper: [while (GetMessage(..)) { Translate; Dispatch }], on
    what GetMessage returns (0 on WM_QUIT, -1 on an error): the number of messages
    dispatched when the loop has ended. *)
Fixpoint main (results : list Z) (dispatched : nat) : option nat :=
  match results with
  | [] => None
  | r :: results => if r =? 0 then Some dispatched else main results (S dispatched)
  end.

Definition InitializeWardenHelper : bool := true.

(** The loop ends with WM_QUIT and with nothing else: an error is dispatched like a
    message, with whatever the message structure holds. *)
Lemma message_loop (results rest : list Z) (n : nat) :
  Forall (fun r => r <> 0) results ->
  main results n = None /\ main (results ++ 0 :: rest) n = Some (n + length results)%nat.
Proof.
  intros Hr. revert n. induction Hr as [|r results H0 Hr IH]; intros n; simpl.
  - split; [done|]. f_equal. lia.
  - apply Z.eqb_neq in H0 as ->. destruct (IH (S n)) as [-> ->]. split; [done|]. f_equal. lia.
Qed.
