(* ===== verification/WindowsIpc.v ===== *)
(** The agent connection on Windows: WindowsTelemetrySender
    (src/windows/windows_ipc.cpp), as a machine in the style of [LinuxIpc].  Unlike
    on Linux the connection thread publishes its handle under [send_mutex_], and
    the greeting is written and answered whatever the token.  The member
    [pipe_handle_] is a plain HANDLE; its accesses are taken to be atomic. *)

From stdpp Require Import gmap.
From S2P Require Export Prelude.
From S2P Require LinuxIpc UserLayout.

Local Open Scope Z_scope.

Definition INVALID_HANDLE_VALUE : Z := -1.

(** [ConnectionLoop]: where the thread is, with its local [hPipe]. *)
Inductive conn_pc : Type :=
| CLoop                       (* while (running_) *)
| CCheck                      (* if (connected_) *)
| CCreate                     (* CreateFileA(..) *)
| CWriteLen (h : Z)           (* WriteFile(hPipe, &len, ..) *)
| CWriteToken (h : Z)         (* WriteFile(hPipe, token, ..) *)
| CReadStatus (h : Z)         (* ReadFile(hPipe, &status, ..) *)
| CLock (h : Z)               (* lock(send_mutex_) *)
| CStore (h : Z)              (* pipe_handle_ = hPipe *)
| CSetConnected               (* connected_ = true, and the unlock *)
| CClose (h : Z)              (* CloseHandle(hPipe) *)
| CSleep                      (* if (!connected_) sleep *)
| CExited.

(** [SendEvent]; the handle is read again at each use. *)
Inductive send_pc : Type :=
| SIdle
| SWaiting (ev : list Z)      (* lock(send_mutex_) *)
| SLocked (ev : list Z)       (* if (pipe_handle_ == INVALID_HANDLE_VALUE) *)
| SWriting (ev : list Z)      (* WriteFile(pipe_handle_, ..) *)
| SFailed                     (* CloseHandle(pipe_handle_) *)
| SReset                      (* pipe_handle_ = INVALID_HANDLE_VALUE *)
| SDisconnect.                (* connected_ = false *)

(** [Stop]. *)
Inductive ctl_pc : Type :=
| KIdle
| KTest                       (* if (pipe_handle_ != INVALID_HANDLE_VALUE) *)
| KClose                      (* CloseHandle(pipe_handle_) *)
| KReset                      (* pipe_handle_ = INVALID_HANDLE_VALUE *)
| KDisconnect                 (* connected_ = false *)
| KJoin.

Inductive owner : Type := OConn | OSender (t : nat).

#[export] Instance owner_eq_dec : EqDecision owner.
Proof. solve_decision. Defined.

(** The threads and shared members. *)
Record pipe_state : Type := PipeState {
  running_ : bool;
  connected_ : bool;
  pipe_handle_ : Z;
  conn : option conn_pc;
  senders : nat -> send_pc;
  lock : option owner;
  ctl : ctl_pc;
}.

(** The pipes: what is behind each open handle, which were accepted by the agent,
    and what was written to each. *)
Record pipes : Type := Pipes {
  handles : gmap Z nat;
  next_pipe : nat;
  accepted : nat -> bool;
  streams : nat -> list LinuxIpc.chunk;
}.

Definition sys : Type := pipe_state * pipes.

Definition new_sender : sys :=
  (PipeState false false INVALID_HANDLE_VALUE None (fun _ => SIdle) None KIdle,
   Pipes ∅ 0 (fun _ => false) (fun _ => [])).

Definition set_conn (pc : option conn_pc) (s : pipe_state) : pipe_state :=
  PipeState (running_ s) (connected_ s) (pipe_handle_ s) pc (senders s) (lock s) (ctl s).
Definition set_sender (t : nat) (pc : send_pc) (s : pipe_state) : pipe_state :=
  PipeState (running_ s) (connected_ s) (pipe_handle_ s) (conn s)
    (LinuxIpc.upd (senders s) t pc) (lock s) (ctl s).
Definition set_ctl (pc : ctl_pc) (s : pipe_state) : pipe_state :=
  PipeState (running_ s) (connected_ s) (pipe_handle_ s) (conn s) (senders s) (lock s) pc.
Definition set_running (v : bool) (s : pipe_state) : pipe_state :=
  PipeState v (connected_ s) (pipe_handle_ s) (conn s) (senders s) (lock s) (ctl s).
Definition set_connected (v : bool) (s : pipe_state) : pipe_state :=
  PipeState (running_ s) v (pipe_handle_ s) (conn s) (senders s) (lock s) (ctl s).
Definition set_pipe (h : Z) (s : pipe_state) : pipe_state :=
  PipeState (running_ s) (connected_ s) h (conn s) (senders s) (lock s) (ctl s).
Definition set_lock (o : option owner) (s : pipe_state) : pipe_state :=
  PipeState (running_ s) (connected_ s) (pipe_handle_ s) (conn s) (senders s) o (ctl s).

(** ** System calls *)

Definition open_pipe (h : Z) (p : pipes) : pipes :=
  Pipes (<[h := next_pipe p]> (handles p)) (S (next_pipe p)) (accepted p) (streams p).

Definition CloseHandle (h : Z) (p : pipes) : pipes :=
  Pipes (delete h (handles p)) (next_pipe p) (accepted p) (streams p).

Definition WriteFile (h : Z) (c : LinuxIpc.chunk) (p : pipes) : pipes :=
  match handles p !! h with
  | None => p
  | Some i => Pipes (handles p) (next_pipe p) (accepted p)
                (LinuxIpc.upd (streams p) i (streams p i ++ [c]))
  end.

(** The agent answered with status 1. *)
Definition accept (h : Z) (p : pipes) : pipes :=
  match handles p !! h with
  | None => p
  | Some i => Pipes (handles p) (next_pipe p) (LinuxIpc.upd (accepted p) i true) (streams p)
  end.

(** What the call of a connection-thread step returned. *)
Inductive conn_result : Type :=
| RNone
| RCreate (h : Z)
| RWrite (n : Z)                  (* bytes written *)
| RRead (status : option Z).      (* [None]: ReadFile failed; 0 bytes leave the status 0 *)

Inductive label : Type :=
| LStart
| LStop
| LCtl
| LConn (r : conn_result)
| LSend (t : nat) (ev : list Z)
| LSender (t : nat) (n : option Z).   (* what WriteFile wrote; [None]: it failed *)

Section machine.
Context (auth_token : list Z).

Definition step_conn (pc : conn_pc) (r : conn_result) (sp : sys) : option sys :=
  let '(s, p) := sp in
  let goto pc := Some (set_conn (Some pc) s, p) in
  match pc, r with
  | CLoop, RNone => goto (if running_ s then CCheck else CExited)
  | CCheck, RNone => goto (if connected_ s then CLoop else CCreate)
  | CCreate, RCreate h =>
      if h =? INVALID_HANDLE_VALUE then goto CSleep
      else if bool_decide (handles p !! h = None)
      then Some (set_conn (Some (CWriteLen h)) s, open_pipe h p)
      else None
  | CWriteLen h, RWrite n =>
      let len := wrap 32 (Z.of_nat (length auth_token)) in
      Some (set_conn (Some (CWriteToken h)) s,
        WriteFile h (LinuxIpc.Hello (LinuxIpc.written n (le_enc 4 len))) p)
  | CWriteToken h, RWrite n =>
      let len := wrap 32 (Z.of_nat (length auth_token)) in
      Some (set_conn (Some (CReadStatus h)) s,
        WriteFile h (LinuxIpc.Hello (LinuxIpc.written n (take (Z.to_nat len) auth_token))) p)
  | CReadStatus h, RRead status =>
      match status with
      | Some 1 => Some (set_conn (Some (CLock h)) s, accept h p)
      | _ => goto (CClose h)
      end
  | CLock h, RNone =>
      match lock s with
      | None => Some (set_conn (Some (CStore h)) (set_lock (Some OConn) s), p)
      | Some _ => None
      end
  | CStore h, RNone => Some (set_conn (Some CSetConnected) (set_pipe h s), p)
  | CSetConnected, RNone =>
      Some (set_conn (Some CSleep) (set_lock None (set_connected true s)), p)
  | CClose h, RNone => Some (set_conn (Some CSleep) s, CloseHandle h p)
  | CSleep, RNone => goto CLoop
  | _, _ => None
  end.

Definition step_sender (t : nat) (pc : send_pc) (n : option Z) (sp : sys) : option sys :=
  let '(s, p) := sp in
  match pc with
  | SIdle => None
  | SWaiting ev =>
      match lock s with
      | None => Some (set_sender t (SLocked ev) (set_lock (Some (OSender t)) s), p)
      | Some _ => None
      end
  | SLocked ev =>
      if pipe_handle_ s =? INVALID_HANDLE_VALUE
      then Some (set_sender t SIdle (set_lock None s), p)
      else Some (set_sender t (SWriting ev) s, p)
  | SWriting ev =>
      match n with
      | None => Some (set_sender t SFailed s, p)
      | Some n =>
          if (n <? 0) || (Z.of_nat (length ev) <? n) then None else
          (* a closed handle: the call fails *)
          if bool_decide (handles p !! pipe_handle_ s = None) then None else
          let p := WriteFile (pipe_handle_ s) (LinuxIpc.Event ev (Z.to_nat n)) p in
          if n =? Z.of_nat (length ev) then Some (set_sender t SIdle (set_lock None s), p)
          else Some (set_sender t SFailed s, p)
      end
  | SFailed => Some (set_sender t SReset s, CloseHandle (pipe_handle_ s) p)
  | SReset => Some (set_sender t SDisconnect (set_pipe INVALID_HANDLE_VALUE s), p)
  | SDisconnect => Some (set_sender t SIdle (set_lock None (set_connected false s)), p)
  end.

Definition step_ctl (sp : sys) : option sys :=
  let '(s, p) := sp in
  match ctl s with
  | KIdle => None
  | KTest =>
      Some (set_ctl (if pipe_handle_ s =? INVALID_HANDLE_VALUE then KDisconnect else KClose) s, p)
  | KClose => Some (set_ctl KReset s, CloseHandle (pipe_handle_ s) p)
  | KReset => Some (set_ctl KDisconnect (set_pipe INVALID_HANDLE_VALUE s), p)
  | KDisconnect => Some (set_ctl KJoin (set_connected false s), p)
  | KJoin =>
      match conn s with
      | None => Some (set_ctl KIdle s, p)
      | Some CExited => Some (set_ctl KIdle (set_conn None s), p)
      | Some _ => None
      end
  end.

Definition step (l : label) (sp : sys) : option sys :=
  let '(s, p) := sp in
  match l with
  | LStart =>
      match ctl s, conn s with
      | KIdle, None =>
          if running_ s then Some sp else Some (set_conn (Some CLoop) (set_running true s), p)
      | KIdle, Some _ => if running_ s then Some sp else None
      | _, _ => None
      end
  | LStop =>
      match ctl s with
      | KIdle => Some (set_ctl KTest (set_running false s), p)
      | _ => None
      end
  | LCtl => step_ctl sp
  | LConn r => match conn s with Some pc => step_conn pc r sp | None => None end
  | LSend t ev =>
      if negb (length ev =? UserLayout.sizeof_TelemetryEvent)%nat then None else
      match senders s t with
      | SIdle => if connected_ s then Some (set_sender t (SWaiting ev) s, p) else Some sp
      | _ => None
      end
  | LSender t n => step_sender t (senders s t) n sp
  end.

Fixpoint run_labels (ls : list label) (sp : sys) : option sys :=
  match ls with
  | [] => Some sp
  | l :: rest => match step l sp with Some sp => run_labels rest sp | None => None end
  end.

End machine.
