(* ===== verification/WindowsIpcTheorems.v ===== *)
(** Theorems about the Windows sender: while no Stop interferes, the flag and the
    handle agree whenever the mutex is free, and pipes carry whole records. *)

From stdpp Require Import gmap.
From S2P Require Export WindowsIpc.

Local Open Scope Z_scope.

Definition is_hello (c : LinuxIpc.chunk) : bool :=
  match c with LinuxIpc.Hello _ => true | LinuxIpc.Event _ _ => false end.
Definition is_whole (c : LinuxIpc.chunk) : bool :=
  match c with LinuxIpc.Event ev n => (n =? length ev)%nat | LinuxIpc.Hello _ => false end.

(** Only the greeting. *)
Definition hellos (cs : list LinuxIpc.chunk) : Prop := Forall (fun c => is_hello c = true) cs.

(** The greeting, then whole records. *)
Definition tidy (cs : list LinuxIpc.chunk) : Prop :=
  exists hs evs, cs = hs ++ evs /\ hellos hs /\ Forall (fun c => is_whole c = true) evs.

(** The same, but the last record may be cut. *)
Definition orderly (cs : list LinuxIpc.chunk) : Prop :=
  tidy cs \/ exists cs' ev n, tidy cs' /\ cs = cs' ++ [LinuxIpc.Event ev n].

Lemma hellos_snoc (cs : list LinuxIpc.chunk) (bs : list Z) :
  hellos cs -> hellos (cs ++ [LinuxIpc.Hello bs]).
Proof. intros H. apply Forall_app. split; [done | by repeat constructor]. Qed.

Lemma hellos_tidy (cs : list LinuxIpc.chunk) : hellos cs -> tidy cs.
Proof. intros H. exists cs, []. rewrite app_nil_r. auto. Qed.

Lemma tidy_snoc (cs : list LinuxIpc.chunk) (ev : list Z) :
  tidy cs -> tidy (cs ++ [LinuxIpc.Event ev (length ev)]).
Proof.
  intros (hs & evs & -> & Hh & He). exists hs, (evs ++ [LinuxIpc.Event ev (length ev)]).
  rewrite app_assoc. split; [done|]. split; [done|]. apply Forall_app. split; [done|].
  repeat constructor. apply Nat.eqb_refl.
Qed.

(** ** The invariant of runs without Stop *)

Definition critical (pc : send_pc) : bool :=
  match pc with SIdle | SWaiting _ => false | _ => true end.

(** Using the handle. *)
Definition using_pipe (pc : send_pc) : bool :=
  match pc with SWriting _ | SFailed | SReset => true | _ => false end.

Definition failing (pc : send_pc) : bool :=
  match pc with SFailed | SReset => true | _ => false end.

Definition conn_holds (pc : conn_pc) : bool :=
  match pc with CStore _ | CSetConnected => true | _ => false end.

(** Between the test of [connected_] and the store of the handle. *)
Definition connecting (pc : conn_pc) : bool :=
  match pc with
  | CLoop | CCheck | CSetConnected | CSleep | CExited => false
  | _ => true
  end.

Definition local_handle (pc : conn_pc) : option Z :=
  match pc with
  | CWriteLen h | CWriteToken h | CReadStatus h | CLock h | CStore h | CClose h => Some h
  | _ => None
  end.

Definition past_answer (pc : conn_pc) : bool :=
  match pc with CLock _ | CStore _ => true | _ => false end.

(** An open, accepted pipe that has seen the greeting and whole records only. *)
Definition good (p : pipes) (h : Z) : Prop :=
  exists i, handles p !! h = Some i /\ accepted p i = true /\ tidy (streams p i).

Record threads_ok (s : pipe_state) : Prop := ThreadsOk {
  t_ctl : ctl s = KIdle;
  t_lock : forall t, critical (senders s t) = true -> lock s = Some (OSender t);
  t_conn_lock : forall pc, conn s = Some pc -> conn_holds pc = true -> lock s = Some OConn;
  t_down : connected_ s = false -> conn s <> Some CSetConnected ->
    pipe_handle_ s = INVALID_HANDLE_VALUE;
  t_up : connected_ s = true -> pipe_handle_ s = INVALID_HANDLE_VALUE ->
    exists t, senders s t = SDisconnect;
  t_connecting : forall pc, conn s = Some pc -> connecting pc = true -> connected_ s = false;
  t_stored : conn s = Some CSetConnected -> connected_ s = false /\
    pipe_handle_ s <> INVALID_HANDLE_VALUE;
  t_using : forall t, using_pipe (senders s t) = true -> pipe_handle_ s <> INVALID_HANDLE_VALUE;
  t_reset : forall t, senders s t = SDisconnect -> pipe_handle_ s = INVALID_HANDLE_VALUE;
}.

Record pipes_ok (p : pipes) : Prop := PipesOk {
  p_ids : forall h i, handles p !! h = Some i -> (i < next_pipe p)%nat;
  p_inj : forall h h' i, handles p !! h = Some i -> handles p !! h' = Some i -> h = h';
  p_fresh : forall i, (next_pipe p <= i)%nat -> accepted p i = false /\ streams p i = [];
  p_accepted : forall i, accepted p i = true -> orderly (streams p i);
  p_unaccepted : forall i, accepted p i = false -> hellos (streams p i);
}.

Record inv (sp : sys) : Prop := Inv {
  i_threads : threads_ok (fst sp);
  i_pipes : pipes_ok (snd sp);
  i_pipe : pipe_handle_ (fst sp) <> INVALID_HANDLE_VALUE ->
    (forall t, failing (senders (fst sp) t) = false) -> good (snd sp) (pipe_handle_ (fst sp));
  i_local : forall pc h, conn (fst sp) = Some pc -> local_handle pc = Some h ->
    h <> INVALID_HANDLE_VALUE /\
    exists i, handles (snd sp) !! h = Some i /\ accepted (snd sp) i = past_answer pc /\
      hellos (streams (snd sp) i);
}.

Lemma winv_new : inv new_sender.
Proof.
  split; simpl; [split; simpl; try done; by intros; exfalso | split; simpl; try done | done | done].
  intros i _. constructor.
Qed.

(** ** Pipes *)

Section pipes.
Context (p : pipes).
Hypothesis Hp : pipes_ok p.

Lemma open_ok (h : Z) :
  handles p !! h = None -> pipes_ok (open_pipe h p) /\
  exists i, handles (open_pipe h p) !! h = Some i /\ accepted p i = false /\ hellos (streams p i).
Proof using Hp.
  intros Hh. destruct Hp as [Hi Hj Hf Ha Hu]. split.
  - split; simpl; [| |intros i Hn; apply Hf; lia|done|done].
    + intros h' i. destruct (decide (h = h')) as [<-|Hne].
      * rewrite lookup_insert_eq. intros [= <-]. lia.
      * rewrite lookup_insert_ne by done. intros H%Hi. lia.
    + intros h1 h2 i. destruct (decide (h = h1)) as [<-|H1], (decide (h = h2)) as [<-|H2];
        rewrite ?lookup_insert_eq, ?lookup_insert_ne by done; [done| | |apply Hj];
        intros H3 H4; simplify_eq; exfalso;
        [apply Hi in H4 | apply Hi in H3]; lia.
  - exists (next_pipe p). simpl. rewrite lookup_insert_eq. split; [done|].
    destruct (Hf (next_pipe p)) as [-> ->]; [lia|]. split; [done | constructor].
Qed.

Lemma close_ok (h : Z) : pipes_ok (CloseHandle h p).
Proof using Hp.
  destruct Hp as [Hi Hj Hf Ha Hu]. split; simpl; [| |done|done|done].
  - intros h' i. rewrite lookup_delete_Some. intros [_ H]. by eapply Hi.
  - intros h1 h2 i. rewrite !lookup_delete_Some. intros [_ H1] [_ H2]. by eapply Hj.
Qed.

(** A write changes the stream behind the handle. *)
Lemma write_ok (h : Z) (i : nat) (c : LinuxIpc.chunk) :
  handles p !! h = Some i ->
  (if accepted p i then orderly (streams p i ++ [c]) else hellos (streams p i ++ [c])) ->
  pipes_ok (WriteFile h c p).
Proof using Hp.
  intros Hh Hc. destruct Hp as [Hi Hj Hf Ha Hu]. unfold WriteFile. rewrite Hh.
  assert (i < next_pipe p)%nat as Hlt by (by eapply Hi).
  split; simpl; [done|done| | |]; intros j; unfold LinuxIpc.upd; destruct (Nat.eqb_spec j i) as [->|Hne];
    auto; [lia| |]; intros Hacc; by rewrite Hacc in Hc.
Qed.

Lemma write_streams (h : Z) (i : nat) (c : LinuxIpc.chunk) :
  handles p !! h = Some i -> handles (WriteFile h c p) = handles p /\
  accepted (WriteFile h c p) = accepted p /\ streams (WriteFile h c p) i = streams p i ++ [c].
Proof using. intros Hh. unfold WriteFile. rewrite Hh. simpl. unfold LinuxIpc.upd. by rewrite Nat.eqb_refl. Qed.

Lemma accept_ok (h : Z) (i : nat) :
  handles p !! h = Some i -> hellos (streams p i) -> pipes_ok (accept h p) /\
  handles (accept h p) = handles p /\ streams (accept h p) = streams p /\ accepted (accept h p) i = true.
Proof using Hp.
  intros Hh Hs. destruct Hp as [Hi Hj Hf Ha Hu]. unfold accept. rewrite Hh. simpl.
  assert (i < next_pipe p)%nat as Hlt by (by eapply Hi).
  split; [|by unfold LinuxIpc.upd; rewrite Nat.eqb_refl].
  split; simpl; [done|done| | |]; intros j; unfold LinuxIpc.upd; destruct (Nat.eqb_spec j i) as [->|Hne];
    auto; [lia|]. intros _. left. by apply hellos_tidy.
Qed.

(** A record written to a good pipe: the pipe stays in order, and good if the
    record is whole. *)
Lemma event_ok (h : Z) (ev : list Z) (n : nat) :
  good p h -> pipes_ok (WriteFile h (LinuxIpc.Event ev n) p) /\
  (n = length ev -> good (WriteFile h (LinuxIpc.Event ev n) p) h).
Proof using Hp.
  intros (i & Hh & Ha & Ht). split.
  - apply (write_ok h i); [done|]. rewrite Ha. right. eauto.
  - intros ->. destruct (write_streams h i (LinuxIpc.Event ev (length ev)) Hh) as (H1 & H2 & H3).
    exists i. rewrite H1, H2, H3. split; [done|]. split; [done|]. by apply tidy_snoc.
Qed.

End pipes.

(** ** Steps *)

Section steps.
Context (auth_token : list Z).

Lemma local_connecting (pc : conn_pc) (h : Z) : local_handle pc = Some h -> connecting pc = true.
Proof using. by destruct pc. Qed.

(** While the connection thread connects there is no handle to use. *)
Lemma connecting_no_pipe (s : pipe_state) (pc : conn_pc) :
  threads_ok s -> conn s = Some pc -> connecting pc = true ->
  pipe_handle_ s = INVALID_HANDLE_VALUE.
Proof using.
  intros Ht Hc Hpc. apply (t_down s Ht); [by eapply t_connecting|]. rewrite Hc. by intros [= ->].
Qed.

(** Moving the connection thread outside the mutex. *)
Lemma threads_goto (s : pipe_state) (pc pc' : conn_pc) :
  threads_ok s -> conn s = Some pc -> conn_holds pc = false -> conn_holds pc' = false ->
  (connecting pc' = true -> connected_ s = false) -> threads_ok (set_conn (Some pc') s).
Proof using.
  intros [H1 H2 H3 H4 H5 H6 H7 H8 H9] Hc Hp Hp' Hd. split; simpl; try done.
  - intros pc1 [= <-] Hh. by rewrite Hh in Hp'.
  - intros Hf _. apply H4; [done|]. rewrite Hc. intros [= ->]. done.
  - intros pc1 [= <-]. done.
  - intros [= ->]. done.
Qed.

(** The three steps inside the mutex. *)
Lemma threads_lock (s : pipe_state) (h : Z) :
  threads_ok s -> conn s = Some (CLock h) -> lock s = None ->
  threads_ok (set_conn (Some (CStore h)) (set_lock (Some OConn) s)).
Proof using.
  intros Ht Hc Hl. pose proof (connecting_no_pipe s _ Ht Hc eq_refl) as Hno.
  pose proof (t_connecting s Ht _ Hc eq_refl) as Hd. destruct Ht as [H1 H2 H3 H4 H5 H6 H7 H8 H9].
  split; simpl; try done.
  - intros t Hcr. apply H2 in Hcr. congruence.
Qed.

Lemma threads_store (s : pipe_state) (h : Z) :
  threads_ok s -> conn s = Some (CStore h) -> h <> INVALID_HANDLE_VALUE ->
  threads_ok (set_conn (Some CSetConnected) (set_pipe h s)).
Proof using.
  intros Ht Hc Hh. pose proof (t_connecting s Ht _ Hc eq_refl) as Hd.
  pose proof (t_conn_lock s Ht _ Hc eq_refl) as Hl. destruct Ht as [H1 H2 H3 H4 H5 H6 H7 H8 H9].
  assert (forall t, critical (senders s t) = false) as Hn.
  { intros t. destruct (critical (senders s t)) eqn:Hcr; [|done]. apply H2 in Hcr. congruence. }
  split; simpl; try done.
  - intros t Ht. specialize (Hn t). by rewrite Ht in Hn.
Qed.

Lemma threads_set_connected (s : pipe_state) :
  threads_ok s -> conn s = Some CSetConnected ->
  threads_ok (set_conn (Some CSleep) (set_lock None (set_connected true s))).
Proof using.
  intros Ht Hc. pose proof (t_conn_lock s Ht _ Hc eq_refl) as Hl.
  destruct (t_stored s Ht Hc) as [Hd Hp]. destruct Ht as [H1 H2 H3 H4 H5 H6 H7 H8 H9].
  split; simpl; try done.
  - intros t Hcr. apply H2 in Hcr. congruence.
  - by intros pc [= <-].
  - by intros pc [= <-].
Qed.

(** A sender's step that keeps the flags and the handle. *)
Lemma threads_sender (s : pipe_state) (t : nat) (pc' : send_pc) (o : option owner) :
  threads_ok s ->
  (forall t', t' <> t -> critical (senders s t') = true -> o = Some (OSender t')) ->
  (critical pc' = true -> o = Some (OSender t)) ->
  (forall pc, conn s = Some pc -> conn_holds pc = true -> o = Some OConn) ->
  (using_pipe pc' = true -> pipe_handle_ s <> INVALID_HANDLE_VALUE) ->
  pc' <> SDisconnect -> senders s t <> SDisconnect ->
  threads_ok (set_sender t pc' (set_lock o s)).
Proof using.
  intros [H1 H2 H3 H4 H5 H6 H7 H8 H9] Ho Ho' Hc Hu Hn Hn'. split; simpl; try done.
  - intros t'. unfold LinuxIpc.upd. destruct (Nat.eqb_spec t' t) as [->|Hne]; auto.
  - intros Hup Hp. destruct (H5 Hup Hp) as [t' Ht']. exists t'. unfold LinuxIpc.upd.
    destruct (Nat.eqb_spec t' t) as [->|Hne]; [congruence | done].
  - intros t'. unfold LinuxIpc.upd. destruct (Nat.eqb_spec t' t) as [->|Hne]; [done | apply H8].
  - intros t'. unfold LinuxIpc.upd. destruct (Nat.eqb_spec t' t) as [->|Hne]; [congruence | apply H9].
Qed.

(** The last two steps of a failed send. *)
Lemma threads_reset (s : pipe_state) (t : nat) :
  threads_ok s -> senders s t = SReset ->
  threads_ok (set_sender t SDisconnect (set_pipe INVALID_HANDLE_VALUE s)).
Proof using.
  intros [H1 H2 H3 H4 H5 H6 H7 H8 H9] Ht. assert (lock s = Some (OSender t)) as Hl by (apply H2; by rewrite Ht).
  split; simpl; try done.
  - intros t'. unfold LinuxIpc.upd. destruct (Nat.eqb_spec t' t) as [->|Hne]; auto.
  - intros _ _. exists t. unfold LinuxIpc.upd. by rewrite Nat.eqb_refl.
  - intros Hc. specialize (H3 _ Hc eq_refl). congruence.
  - intros t'. unfold LinuxIpc.upd. destruct (Nat.eqb_spec t' t) as [->|Hne]; [done|]. intros Hu.
    assert (critical (senders s t') = true) as Hcr by (by destruct (senders s t')).
    apply H2 in Hcr. congruence.
Qed.

Lemma threads_disconnect (s : pipe_state) (t : nat) :
  threads_ok s -> senders s t = SDisconnect ->
  threads_ok (set_sender t SIdle (set_lock None (set_connected false s))).
Proof using.
  intros [H1 H2 H3 H4 H5 H6 H7 H8 H9] Ht. assert (lock s = Some (OSender t)) as Hl by (apply H2; by rewrite Ht).
  split; simpl; try done.
  - intros t'. unfold LinuxIpc.upd. destruct (Nat.eqb_spec t' t) as [->|Hne]; [done|].
    intros Hcr%H2. congruence.
  - intros pc Hc Hh. specialize (H3 _ Hc Hh). congruence.
  - intros _ _. by eapply H9.
  - intros Hc. specialize (H3 _ Hc eq_refl). congruence.
  - intros t'. unfold LinuxIpc.upd. destruct (Nat.eqb_spec t' t) as [->|Hne]; [done | first [apply H8 | apply H9]].
  - intros t'. unfold LinuxIpc.upd. destruct (Nat.eqb_spec t' t) as [->|Hne]; [done | first [apply H8 | apply H9]].
Qed.

(** What the connection thread knows about its handle. *)
Definition local_ok (pc : conn_pc) (p : pipes) : Prop :=
  forall h, local_handle pc = Some h ->
  h <> INVALID_HANDLE_VALUE /\
  exists i, handles p !! h = Some i /\ accepted p i = past_answer pc /\ hellos (streams p i).

Lemma winv_local (s : pipe_state) (p : pipes) (pc : conn_pc) :
  inv (s, p) -> conn s = Some pc -> local_ok pc p.
Proof using. intros Hi Hc h Hh. by apply (i_local _ Hi pc). Qed.

(** A step of the connection thread while it connects; the pipes may change. *)
Lemma winv_connecting (s : pipe_state) (p p' : pipes) (pc pc' : conn_pc) :
  inv (s, p) -> conn s = Some pc -> connecting pc = true ->
  conn_holds pc = false -> conn_holds pc' = false ->
  pipes_ok p' -> local_ok pc' p' -> inv (set_conn (Some pc') s, p').
Proof using.
  intros Hi Hc Hcon Hh Hh' Hp Hl. pose proof (i_threads _ Hi) as Ht. split; simpl; [|done| |].
  - apply (threads_goto s pc); try done. intros _. by eapply t_connecting.
  - intros Hne. exfalso. apply Hne. by apply (connecting_no_pipe s pc).
  - intros pc1 h [= <-]. apply Hl.
Qed.

(** A step of it elsewhere, which leaves the pipes alone. *)
Lemma winv_goto (s : pipe_state) (p : pipes) (pc pc' : conn_pc) :
  inv (s, p) -> conn s = Some pc -> conn_holds pc = false -> conn_holds pc' = false ->
  local_handle pc' = None -> (connecting pc' = true -> connected_ s = false) ->
  inv (set_conn (Some pc') s, p).
Proof using.
  intros Hi Hc Hh Hh' Hn Hd. split; simpl; [|apply Hi|apply Hi|].
  - apply (threads_goto s pc); try done. apply Hi.
  - intros pc1 h [= <-]. by rewrite Hn.
Qed.

(** The greeting: one more chunk on the local pipe. *)
Lemma hello_ok (p : pipes) (pc pc' : conn_pc) (h : Z) (bs : list Z) :
  pipes_ok p -> local_ok pc p -> local_handle pc = Some h -> local_handle pc' = Some h ->
  past_answer pc = false -> past_answer pc' = false ->
  pipes_ok (WriteFile h (LinuxIpc.Hello bs) p) /\ local_ok pc' (WriteFile h (LinuxIpc.Hello bs) p).
Proof using.
  intros Hp Hl Hh Hh' Ha Ha'. destruct (Hl h Hh) as (Hne & i & Hi & Hacc & Hs). rewrite Ha in Hacc.
  split.
  - apply (write_ok p Hp h i); [done|]. rewrite Hacc. by apply hellos_snoc.
  - intros h1 Hh1. assert (h1 = h) as -> by congruence. split; [done|].
    destruct (write_streams p h i (LinuxIpc.Hello bs) Hi) as (H1 & H2 & H3).
    exists i. rewrite H1, H2, H3, Ha'. split; [done|]. split; [done|]. by apply hellos_snoc.
Qed.

Lemma winv_hello (s : pipe_state) (p : pipes) (pc pc' : conn_pc) (h : Z) (bs : list Z) :
  inv (s, p) -> conn s = Some pc -> connecting pc = true ->
  conn_holds pc = false -> conn_holds pc' = false ->
  local_handle pc = Some h -> local_handle pc' = Some h ->
  past_answer pc = false -> past_answer pc' = false ->
  inv (set_conn (Some pc') s, WriteFile h (LinuxIpc.Hello bs) p).
Proof using.
  intros Hi Hc Hcon Hh Hh' Hl Hl' Ha Ha'.
  destruct (hello_ok p pc pc' h bs (i_pipes _ Hi) (winv_local s p pc Hi Hc) Hl Hl' Ha Ha') as [Hp Hlo].
  by apply (winv_connecting s p _ pc).
Qed.

Lemma winv_conn (s : pipe_state) (p : pipes) (pc : conn_pc) (r : conn_result) (sp' : sys) :
  inv (s, p) -> conn s = Some pc -> step_conn auth_token pc r (s, p) = Some sp' -> inv sp'.
Proof using.
  intros Hi Hc Hs. pose proof (winv_local s p pc Hi Hc) as Hl. pose proof (i_pipes _ Hi) as Hp.
  pose proof (i_threads _ Hi) as Ht. cbn [fst snd] in Hp, Ht.
  destruct pc as [ | | |h|h|h|h|h| |h| | ], r as [ |h'|n|st]; cbn [step_conn] in Hs; try done.
  - injection Hs as <-. apply (winv_goto s p CLoop); try done; by destruct (running_ s).
  - injection Hs as <-. destruct (connected_ s) eqn:Hcn; by apply (winv_goto s p CCheck).
  - destruct (Z.eqb_spec h' INVALID_HANDLE_VALUE) as [->|Hne].
    + injection Hs as <-. by apply (winv_goto s p CCreate).
    + case_bool_decide as Hf; [|done]. injection Hs as <-.
      destruct (open_ok p Hp h' Hf) as [Hop Ho]. apply (winv_connecting s p _ CCreate); try done.
      intros h [= <-]. by split.
  - injection Hs as <-. by apply (winv_hello s p (CWriteLen h)).
  - injection Hs as <-. by apply (winv_hello s p (CWriteToken h)).
  - assert (Some (set_conn (Some (CClose h)) s, p) = Some sp' -> inv sp') as Hclose.
    { intros [= <-]. apply (winv_connecting s p _ (CReadStatus h)); try done. }
    destruct (Hl h eq_refl) as (Hne & i & Hh & Hacc & Hst).
    destruct (accept_ok p Hp h i Hh Hst) as (Hp' & H1 & H2 & H3).
    destruct st as [[|[]|]|]; try (by apply Hclose). injection Hs as <-.
    apply (winv_connecting s p _ (CReadStatus h)); try done.
    intros h1 [= <-]. split; [done|]. exists i. by rewrite H1, H2, H3.
  - destruct (lock s) eqn:Hlk; [done|]. injection Hs as <-. split; simpl; [|done| |].
    + by apply threads_lock.
    + intros Hne. exfalso. apply Hne. by apply (connecting_no_pipe s (CLock h)).
    + intros pc1 h1 [= <-]. apply Hl.
  - injection Hs as <-. destruct (Hl h eq_refl) as (Hne & i & Hh & Hacc & Hst).
    split; simpl; [by apply threads_store|done| |by intros pc1 h1 [= <-]].
    intros _ _. exists i. split; [done|]. split; [done|]. by apply hellos_tidy.
  - injection Hs as <-. split; simpl; [by apply threads_set_connected|done|apply Hi|by intros pc1 h1 [= <-]].
  - injection Hs as <-. apply (winv_connecting s p _ (CClose h)); try done. by apply close_ok.
  - injection Hs as <-. by apply (winv_goto s p CSleep).
Qed.

Lemma set_lock_id (s : pipe_state) : set_lock (lock s) s = s.
Proof using. by destruct s. Qed.

(** At most one thread is inside the mutex. *)
Lemma alone (s : pipe_state) (t t' : nat) :
  threads_ok s -> critical (senders s t) = true -> critical (senders s t') = true -> t' = t.
Proof using. intros Ht H1%(t_lock s Ht) H2%(t_lock s Ht). congruence. Qed.

Lemma conn_outside (s : pipe_state) (t : nat) (pc : conn_pc) :
  threads_ok s -> critical (senders s t) = true -> conn s = Some pc -> conn_holds pc = false.
Proof using.
  intros Ht Hcr%(t_lock s Ht) Hc. destruct (conn_holds pc) eqn:Hh; [|done].
  pose proof (t_conn_lock s Ht pc Hc Hh). congruence.
Qed.

(** Entering, moving inside and leaving the mutex. *)
Lemma threads_inside (s : pipe_state) (t : nat) (pc' : send_pc) :
  threads_ok s -> critical (senders s t) = true -> senders s t <> SDisconnect ->
  pc' <> SDisconnect -> (using_pipe pc' = true -> pipe_handle_ s <> INVALID_HANDLE_VALUE) ->
  threads_ok (set_sender t pc' s).
Proof using.
  intros Ht Hcr Hn Hn' Hu. rewrite <- (set_lock_id s). apply threads_sender; try done.
  - intros t' _. apply (t_lock s Ht).
  - intros _. by apply (t_lock s Ht).
  - intros pc. apply (t_conn_lock s Ht).
Qed.

Lemma threads_leave (s : pipe_state) (t : nat) :
  threads_ok s -> critical (senders s t) = true -> senders s t <> SDisconnect ->
  threads_ok (set_sender t SIdle (set_lock None s)).
Proof using.
  intros Ht Hcr Hn. apply threads_sender; try done.
  - intros t' Hne Hcr'. by rewrite (alone s t t') in Hne.
  - intros pc Hc. by rewrite (conn_outside s t pc).
Qed.

Lemma threads_enter (s : pipe_state) (t : nat) (ev : list Z) :
  threads_ok s -> senders s t = SWaiting ev -> lock s = None ->
  threads_ok (set_sender t (SLocked ev) (set_lock (Some (OSender t)) s)).
Proof using.
  intros Ht Hpc Hl. apply threads_sender; try done.
  - intros t' _ Hcr%(t_lock s Ht). congruence.
  - intros pc Hc Hh. pose proof (t_conn_lock s Ht pc Hc Hh). congruence.
  - by rewrite Hpc.
Qed.

(** A thread that writes has a good pipe and the connection thread has none. *)
Lemma writing_good (s : pipe_state) (p : pipes) (t : nat) (ev : list Z) :
  inv (s, p) -> senders s t = SWriting ev -> good p (pipe_handle_ s).
Proof using.
  intros Hi Hpc. pose proof (i_threads _ Hi) as Ht. apply (i_pipe _ Hi).
  - apply (t_using s Ht t). by rewrite Hpc.
  - intros t'. destruct (failing (senders s t')) eqn:Hf; [|done]. cbn [fst] in *.
    assert (critical (senders s t') = true) as Hcr by (by destruct (senders s t')).
    rewrite (alone s t t') in Hf by (done || by rewrite Hpc). by rewrite Hpc in Hf.
Qed.

Lemma using_no_local (s : pipe_state) (t : nat) (pc : conn_pc) :
  threads_ok s -> using_pipe (senders s t) = true -> conn s = Some pc -> local_handle pc = None.
Proof using.
  intros Ht Hu Hc. destruct (local_handle pc) as [h|] eqn:Hl; [|done]. exfalso.
  apply (t_using s Ht t Hu), (connecting_no_pipe s pc Ht Hc). by eapply local_connecting.
Qed.

(** A sender's step that leaves the handle and the pipes alone and does not end a
    failure. *)
Lemma winv_sender_quiet (s s' : pipe_state) (p : pipes) (t : nat) (pc' : send_pc) :
  inv (s, p) -> threads_ok s' -> failing (senders s t) = false ->
  senders s' = LinuxIpc.upd (senders s) t pc' -> pipe_handle_ s' = pipe_handle_ s ->
  conn s' = conn s -> inv (s', p).
Proof using.
  intros Hi Ht Hf Hs Hp Hc. split; cbn [fst snd]; [done | apply Hi | |].
  - rewrite Hp. intros Hne Hnf. apply (i_pipe _ Hi); [done|]. intros t'. specialize (Hnf t').
    rewrite Hs in Hnf. unfold LinuxIpc.upd in Hnf. destruct (Nat.eqb_spec t' t) as [He|]; [by rewrite He | done].
  - rewrite Hc. apply Hi.
Qed.

(** A write of a thread in [SWriting]. *)
Lemma winv_write (s s' : pipe_state) (p : pipes) (t : nat) (ev : list Z) (n : nat) (pc' : send_pc) :
  inv (s, p) -> senders s t = SWriting ev -> threads_ok s' ->
  senders s' = LinuxIpc.upd (senders s) t pc' -> pipe_handle_ s' = pipe_handle_ s ->
  conn s' = conn s -> n = length ev \/ failing pc' = true ->
  inv (s', WriteFile (pipe_handle_ s) (LinuxIpc.Event ev n) p).
Proof using.
  intros Hi Hpc Ht Hs Hp Hc Hn. pose proof (writing_good s p t ev Hi Hpc) as Hg.
  destruct (event_ok p (i_pipes _ Hi) _ ev n Hg) as [Hp' Hg'].
  split; cbn [fst snd]; [done|done| |].
  - rewrite Hp. intros _ Hnf. destruct Hn as [Hn|Hn]; [by apply Hg'|].
    specialize (Hnf t). rewrite Hs, LinuxIpc.upd_eq in Hnf. congruence.
  - rewrite Hc. intros pc h Hcs Hl.
    rewrite (using_no_local s t pc (i_threads _ Hi)) in Hl; [done | by rewrite Hpc | done].
Qed.

Lemma winv_sender (s : pipe_state) (p : pipes) (t : nat) (n : option Z) (sp' : sys) :
  inv (s, p) -> step_sender t (senders s t) n (s, p) = Some sp' -> inv sp'.
Proof using.
  intros Hi Hs. pose proof (i_threads _ Hi) as Ht. cbn [fst] in Ht.
  destruct (senders s t) as [|ev|ev|ev| | |] eqn:Hpc; cbn [step_sender] in Hs; [done|..].
  - destruct (lock s) eqn:Hl; [done|]. injection Hs as <-.
    eapply winv_sender_quiet; [exact Hi | by apply threads_enter | by rewrite Hpc | done..].
  - destruct (Z.eqb_spec (pipe_handle_ s) INVALID_HANDLE_VALUE); injection Hs as <-.
    + eapply winv_sender_quiet; [exact Hi | apply threads_leave; by rewrite ?Hpc | by rewrite Hpc | done..].
    + eapply winv_sender_quiet; [exact Hi | apply threads_inside; by rewrite ?Hpc | by rewrite Hpc | done..].
  - assert (pipe_handle_ s <> INVALID_HANDLE_VALUE) as Hne by (apply (t_using s Ht t); by rewrite Hpc).
    destruct n as [n|].
    2:{ injection Hs as <-. eapply winv_sender_quiet;
          [exact Hi | apply threads_inside; by rewrite ?Hpc | by rewrite Hpc | done..]. }
    destruct (_ || _); [done|]. case_bool_decide; [done|].
    destruct (Z.eqb_spec n (Z.of_nat (length ev))) as [->|]; injection Hs as <-.
    + eapply winv_write; [done | exact Hpc | apply threads_leave; by rewrite ?Hpc | done..|].
      left. apply Nat2Z.id.
    + eapply winv_write; [done | exact Hpc | apply threads_inside; by rewrite ?Hpc | done..|by right].
  - injection Hs as <-.
    assert (pipe_handle_ s <> INVALID_HANDLE_VALUE) as Hne by (apply (t_using s Ht t); by rewrite Hpc).
    split; cbn [fst snd]; [apply threads_inside; by rewrite ?Hpc | by apply close_ok, Hi | |].
    + intros _ Hnf. specialize (Hnf t). simpl in Hnf. by rewrite LinuxIpc.upd_eq in Hnf.
    + simpl. intros pc h Hcs Hl. rewrite (using_no_local s t pc Ht) in Hl; [done | by rewrite Hpc | done].
  - injection Hs as <-. split; cbn [fst snd]; [by apply threads_reset | apply Hi | done | apply Hi].
  - injection Hs as <-. split; cbn [fst snd]; [by apply threads_disconnect | apply Hi | |apply Hi].
    intros Hne. simpl in Hne. by rewrite (t_reset s Ht t Hpc) in Hne.
Qed.

Definition is_stop (l : label) : bool := match l with LStop => true | _ => false end.

Lemma winv_start (s : pipe_state) (p : pipes) :
  inv (s, p) -> conn s = None -> inv (set_conn (Some CLoop) (set_running true s), p).
Proof using.
  intros Hi Hc. destruct (i_threads _ Hi) as [H1 H2 H3 H4 H5 H6 H7 H8 H9].
  cbn [fst] in *. split; cbn [fst snd]; [|apply Hi|apply Hi|by intros pc h [= <-]].
  split; simpl; try done; try (by intros pc [= <-]).
  intros Hd _. apply H4; [done|]. by rewrite Hc.
Qed.

Lemma winv_send (s : pipe_state) (p : pipes) (t : nat) (ev : list Z) :
  inv (s, p) -> senders s t = SIdle -> inv (set_sender t (SWaiting ev) s, p).
Proof using.
  intros Hi Hpc. pose proof (i_threads _ Hi) as Ht. cbn [fst] in Ht.
  eapply winv_sender_quiet; [exact Hi | | by rewrite Hpc | done..].
  rewrite <- (set_lock_id s) at 1. apply threads_sender; try done.
  - intros t' _. apply (t_lock s Ht).
  - intros pc. apply (t_conn_lock s Ht).
  - by rewrite Hpc.
Qed.

Lemma winv_step (l : label) (sp sp' : sys) :
  is_stop l = false -> inv sp -> step auth_token l sp = Some sp' -> inv sp'.
Proof using.
  intros Hl Hi Hs. destruct sp as [s p]. pose proof (t_ctl s (i_threads _ Hi)) as Hk.
  destruct l as [| | |r|t ev|t n]; cbn [step] in Hs; try done.
  - rewrite Hk in Hs. destruct (conn s) eqn:Hc, (running_ s); simplify_eq; try done.
    by apply winv_start.
  - unfold step_ctl in Hs. by rewrite Hk in Hs.
  - destruct (conn s) as [pc|] eqn:Hc; [|done]. by eapply winv_conn.
  - destruct (negb _); [done|]. destruct (senders s t) eqn:Hpc; try done.
    destruct (connected_ s); simplify_eq; [by apply winv_send | done].
  - by eapply winv_sender.
Qed.

Lemma winv_run (ls : list label) (sp sp' : sys) :
  Forall (fun l => is_stop l = false) ls -> inv sp -> run_labels auth_token ls sp = Some sp' ->
  inv sp'.
Proof using.
  intros Hls. revert sp. induction Hls as [|l ls Hl Hls IH]; intros sp Hi; cbn [run_labels].
  - by intros [= <-].
  - destruct (step auth_token l sp) as [sp1|] eqn:Hs; [|done]. apply IH. by eapply winv_step.
Qed.

End steps.

(** C11: on Windows a failed write never silences telemetry, and a pipe carries what
    the agent can parse.  In every interleaving without a Stop, whenever the mutex
    is free, [connected_] is set exactly when there is a handle, and the handle is
    open, its pipe accepted by the agent, and no record on it is cut; every
    accepted pipe carries the greeting and then whole records, of which only the
    last may be cut short, and no other pipe carries a record. *)
Theorem pipe_flag_agrees (token : list Z) (ls : list label) (s : pipe_state) (p : pipes) :
  Forall (fun l => is_stop l = false) ls -> run_labels token ls new_sender = Some (s, p) ->
  (lock s = None ->
    (connected_ s = true <-> pipe_handle_ s <> INVALID_HANDLE_VALUE) /\
    (connected_ s = true -> good p (pipe_handle_ s))) /\
  (forall i, if accepted p i then orderly (streams p i) else hellos (streams p i)).
Proof.
  intros Hls Hrun. pose proof (winv_run token ls _ _ Hls winv_new Hrun) as Hi.
  pose proof (i_threads _ Hi) as Ht. cbn [fst] in Ht. split.
  - intros Hl.
    assert (forall t, critical (senders s t) = false) as Hn.
    { intros t. destruct (critical (senders s t)) eqn:Hcr; [|done].
      apply (t_lock s Ht) in Hcr. congruence. }
    assert (conn s <> Some CSetConnected) as Hc.
    { intros Hc. pose proof (t_conn_lock s Ht _ Hc eq_refl). congruence. }
    assert (connected_ s = true -> pipe_handle_ s <> INVALID_HANDLE_VALUE) as Hup.
    { intros Hup Hp. destruct (t_up s Ht Hup Hp) as [t Hd]. specialize (Hn t). by rewrite Hd in Hn. }
    split; [split; [done|]|].
    + intros Hp. destruct (connected_ s) eqn:Hcn; [done|]. by destruct Hp; apply (t_down s Ht).
    + intros Hcn. apply (i_pipe _ Hi); [by apply Hup|]. intros t. specialize (Hn t). cbn [fst].
      by destruct (senders s t).
  - intros i. destruct (accepted p i) eqn:Ha; by apply (i_pipes _ Hi).
Qed.

(** A connection, a send that fails half-way, and the reconnection. *)
Definition demo_record : list Z := repeat 7 UserLayout.sizeof_TelemetryEvent.

Definition demo_connect (h : Z) : list label :=
  map LConn [RNone; RNone; RCreate h; RWrite 4; RWrite 2; RRead (Some 1); RNone; RNone; RNone; RNone].

Definition demo_run : list label :=
  LStart :: demo_connect 8 ++ [LSend 1 demo_record] ++
  map (LSender 1) [None; None; Some 100; None; None; None] ++ demo_connect 8.

Lemma pipe_flag_agrees_witness :
  exists s p, run_labels [1; 2] demo_run new_sender = Some (s, p) /\
    connected_ s = true /\ good p (pipe_handle_ s).
Proof.
  assert (exists s p, run_labels [1; 2] demo_run new_sender = Some (s, p) /\ lock s = None /\
    connected_ s = true) as (s & p & Hrun & Hl & Hc)
    by (eexists _, _; split; [vm_compute; reflexivity | split; reflexivity]).
  exists s, p. split; [exact Hrun|]. split; [exact Hc|].
  assert (Forall (fun l => is_stop l = false) demo_run) as Hls by (repeat constructor).
  exact (proj2 (proj1 (pipe_flag_agrees [1; 2] demo_run s p Hls Hrun) Hl) Hc).
Defined.

(** Stop runs while the connection thread waits for the mutex, and returns. *)
Definition late_publish : list label :=
  LStart :: map LConn [RNone; RNone; RCreate 8; RWrite 4; RWrite 2; RRead (Some 1)] ++
  [LStop; LCtl; LCtl] ++ map LConn [RNone; RNone; RNone; RNone; RNone] ++ [LCtl].

(** Then thread 1 sends an event. *)
Definition late_send : list label :=
  [LSend 1 demo_record; LSender 1 None; LSender 1 None;
   LSender 1 (Some (Z.of_nat UserLayout.sizeof_TelemetryEvent))].

(** A step of a call to SendEvent, from its entry on. *)
Definition sends_only (l : label) : Prop :=
  match l with LSend _ _ | LSender _ _ => True | _ => False end.

(** C37: on Windows Stop does not take [send_mutex_]: it can return while the sender is
    connected.  There is a run in which the connection thread publishes its handle
    after Stop has looked for one: Stop has then returned, no connection thread is
    left and no thread is inside SendEvent, and yet [connected_] is set, the handle is
    open and the pipe carries nothing but the greeting; and from that state on, by steps
    of SendEvent alone, an event whose call begins after Stop has returned is
    written whole to the pipe, with the engine still stopped. *)
Theorem stop_leaves_pipe_open :
  exists ls1 s1 p1 ls2 s2 p2,
    LStop ∈ ls1 /\ run_labels [1; 2] ls1 new_sender = Some (s1, p1) /\
    ctl s1 = KIdle /\ running_ s1 = false /\ conn s1 = None /\ (forall t, senders s1 t = SIdle) /\
    connected_ s1 = true /\ handles p1 !! pipe_handle_ s1 = Some 0%nat /\
    (forall ev n, LinuxIpc.Event ev n ∉ streams p1 0) /\
    Forall sends_only ls2 /\ run_labels [1; 2] ls2 (s1, p1) = Some (s2, p2) /\
    running_ s2 = false /\
    streams p2 0 = streams p1 0 ++ [LinuxIpc.Event demo_record UserLayout.sizeof_TelemetryEvent].
Proof.
  destruct (run_labels [1; 2] late_publish new_sender) as [[s1 p1]|] eqn:H1; [|by vm_compute in H1].
  assert (ctl s1 = KIdle /\ running_ s1 = false /\ conn s1 = None /\ (forall t, senders s1 t = SIdle) /\
    connected_ s1 = true /\ handles p1 !! pipe_handle_ s1 = Some 0%nat /\
    Forall (fun c => LinuxIpc.chunk_event c = None) (streams p1 0))
    as (Hk & Hr & Hn & Hi & Hc & Hh & Hf)
    by (revert H1; vm_compute; intros [= <- <-]; by repeat constructor).
  assert (exists s2 p2, run_labels [1; 2] late_send (s1, p1) = Some (s2, p2) /\ running_ s2 = false /\
    streams p2 0 = streams p1 0 ++ [LinuxIpc.Event demo_record UserLayout.sizeof_TelemetryEvent])
    as (s2 & p2 & H2 & Hr2 & Hs2)
    by (revert H1; vm_compute; intros [= <- <-]; eexists _, _; split; [reflexivity | by split]).
  exists late_publish, s1, p1, late_send, s2, p2.
  split; [apply list_elem_of_In; cbn; tauto|]. repeat (split; [done|]).
  split; [intros ev n Hin; by rewrite Forall_forall in Hf; apply Hf in Hin|].
  split; [by repeat constructor|]. done.
Qed.
