(* ===== verification/WindowsSends.v ===== *)
(** The Windows sender meets the contract of [SenderLog]. *)

From stdpp Require Import gmap.
From S2P Require Export SenderLog WindowsIpc.

Local Open Scope Z_scope.

Definition sending (pc : send_pc) : option (list Z) :=
  match pc with SWaiting ev | SLocked ev | SWriting ev => Some ev | _ => None end.

Definition pipe_events (p : pipes) (i : nat) : list (list Z * nat) := omap LinuxIpc.chunk_event (streams p i).

(** A call of WriteFile that succeeds and writes no byte still is a (cut) record. *)
Definition pipe_write (l : label) (sp : sys) : option write :=
  match l with
  | LSender t (Some n) =>
      match senders (fst sp) t with
      | SWriting ev =>
          match handles (snd sp) !! pipe_handle_ (fst sp) with
          | Some i => Some (Write t i ev (Z.to_nat n))
          | None => None
          end
      | _ => None
      end
  | _ => None
  end.

Section windows.
Context (token : list Z).

#[export] Instance windows_machine : SenderMachine sys label := {|
  sm_step := step token;
  sm_call l := match l with LSend t ev => Some (t, ev) | _ => None end;
  sm_pending sp t := sending (senders (fst sp) t);
  sm_write := pipe_write;
  sm_events sp i := pipe_events (snd sp) i;
|}.

Lemma windows_run (ls : list label) (sp : sys) : sm_run ls sp = run_labels token ls sp.
Proof using.
  revert sp; induction ls as [|l ls IH]; intros sp; [done|]. cbn [sm_run run_labels].
  change (sm_step l sp) with (step token l sp). by destruct (step token l sp).
Qed.

Lemma write_events (h : Z) (c : LinuxIpc.chunk) (p : pipes) (i : nat) :
  pipe_events (WriteFile h c p) i =
    pipe_events p i ++ (if decide (handles p !! h = Some i) then option_list (LinuxIpc.chunk_event c) else []).
Proof using.
  unfold WriteFile, pipe_events. destruct (handles p !! h) as [j|].
  - simpl. unfold LinuxIpc.upd. destruct (Nat.eqb_spec i j) as [->|Hne].
    + rewrite decide_True by done. rewrite omap_app. simpl. by destruct (LinuxIpc.chunk_event c).
    + rewrite decide_False by congruence. by rewrite app_nil_r.
  - rewrite decide_False by done. by rewrite app_nil_r.
Qed.

Lemma accept_events (h : Z) (p : pipes) : streams (accept h p) = streams p.
Proof using. unfold accept. by destruct (handles p !! h). Qed.

Lemma pipe_conn_step_silent (pc : conn_pc) (r : conn_result) (s s' : pipe_state) (p p' : pipes) :
  step_conn token pc r (s, p) = Some (s', p') ->
  senders s' = senders s /\ forall i, pipe_events p' i = pipe_events p i.
Proof using.
  assert (forall h bs i, pipe_events (WriteFile h (LinuxIpc.Hello bs) p) i = pipe_events p i) as Hw
    by (intros; rewrite write_events; simpl; case_decide; apply app_nil_r).
  destruct pc, r; cbn [step_conn]; try done; try (intros [= <- <-]; simpl; by split);
    repeat case_match; intros; simplify_eq; simpl; try (by split).
  unfold pipe_events. by rewrite accept_events.
Qed.

Lemma pipe_sender_step_frame (t : nat) (n : option Z) (s s' : pipe_state) (p p' : pipes) :
  step_sender t (senders s t) n (s, p) = Some (s', p') ->
  (forall t', t' <> t -> senders s' t' = senders s t') /\
  forall i, pipe_events p' i =
    pipe_events p i ++ on_conn i (option_list (pipe_write (LSender t n) (s, p))).
Proof using.
  unfold pipe_write. cbn [fst snd].
  destruct (senders s t) as [|ev|ev|ev| | |] eqn:Hpc; cbn [step_sender]; try done;
    try (intros [= <- <-]; simpl; split; intros; [by rewrite LinuxIpc.upd_ne|];
         destruct n; simpl; by rewrite app_nil_r).
  - destruct (lock s); [done|]. intros [= <- <-].
    simpl; split; intros; [by rewrite LinuxIpc.upd_ne | destruct n; simpl; by rewrite app_nil_r].
  - destruct (pipe_handle_ s =? _); intros [= <- <-];
      (simpl; split; intros; [by rewrite LinuxIpc.upd_ne | destruct n; simpl; by rewrite app_nil_r]).
  - destruct n as [n|]; [|intros [= <- <-]; simpl; split; intros;
      [by rewrite LinuxIpc.upd_ne | by rewrite app_nil_r]].
    destruct (_ || _); [done|]. case_bool_decide as Hh; [done|].
    destruct (handles p !! pipe_handle_ s) as [j|] eqn:Hj; [|done]. cbv zeta.
    assert (forall i, pipe_events (WriteFile (pipe_handle_ s) (LinuxIpc.Event ev (Z.to_nat n)) p) i =
      pipe_events p i ++ on_conn i [Write t j ev (Z.to_nat n)]) as He.
    { intros i. rewrite write_events, Hj. simpl. destruct (Nat.eqb_spec j i) as [->|Hne].
      - by rewrite decide_True. - by rewrite decide_False by congruence. }
    destruct (n =? _); intros [= <- <-]; simpl; (split; [|exact He]); intros;
      by rewrite LinuxIpc.upd_ne.
Qed.

Lemma pipe_sender_step_pending (t : nat) (n : option Z) (s s' : pipe_state) (p p' : pipes) :
  step_sender t (senders s t) n (s, p) = Some (s', p') ->
  by_thread t (option_list (pipe_write (LSender t n) (s, p))) ++ option_list (sending (senders s' t))
    `sublist_of` option_list (sending (senders s t)).
Proof using.
  unfold pipe_write. cbn [fst snd].
  destruct (senders s t) as [|ev|ev|ev| | |] eqn:Hpc; cbn [step_sender]; try done;
    try (intros [= <- <-]; simpl; rewrite LinuxIpc.upd_eq; by destruct n).
  - destruct (lock s); [done|]. intros [= <- <-]. simpl. rewrite LinuxIpc.upd_eq. by destruct n.
  - destruct (pipe_handle_ s =? _); intros [= <- <-]; simpl; rewrite LinuxIpc.upd_eq; destruct n;
      simpl; by try apply sublist_nil_l.
  - destruct n as [n|]; [|intros [= <- <-]; simpl; rewrite LinuxIpc.upd_eq; apply sublist_nil_l].
    destruct (_ || _); [done|]. case_bool_decide; [done|].
    destruct (handles p !! pipe_handle_ s) as [j|] eqn:Hj; [|done]. cbv zeta.
    assert (by_thread t [Write t j ev (Z.to_nat n)] ++ [] `sublist_of` [ev]) as Hw
      by (simpl; by rewrite Nat.eqb_refl).
    destruct (n =? _); intros [= <- <-]; simpl; by rewrite LinuxIpc.upd_eq.
Qed.

#[export] Instance windows_laws : SenderMachineLaws sys label.
Proof using.
  split.
  - intros l [s p] [s' p'] i Hs.
    destruct l as [| | |r|t ev|t n]; cbn [sm_step sm_events sm_write windows_machine] in *; cbn [fst snd].
    6:{ by apply (pipe_sender_step_frame t n s s' p p'). }
    all: cbn [pipe_write option_list]; cbn [on_conn]; rewrite app_nil_r; cbn [step] in Hs.
    + repeat case_match; simplify_eq; done.
    + repeat case_match; simplify_eq; done.
    + unfold step_ctl in Hs. repeat case_match; simplify_eq; done.
    + destruct (conn s) as [pc|]; [|done]. by apply (pipe_conn_step_silent pc r s s').
    + repeat case_match; simplify_eq; done.
  - intros l [s p] [s' p'] t Hs. unfold pending. cbn [sm_pending sm_write windows_machine fst] in *.
    destruct l as [| | |r|t' ev|t' n]; cbn [pipe_write option_list call_of sm_call by_thread omap list_omap app] in *;
      rewrite ?app_nil_r; cbn [sm_step windows_machine step] in Hs.
    + repeat case_match; simplify_eq; done.
    + repeat case_match; simplify_eq; done.
    + unfold step_ctl in Hs. repeat case_match; simplify_eq; done.
    + destruct (conn s) as [pc|]; [|done].
      destruct (pipe_conn_step_silent pc r s s' p p' Hs) as [-> _]. done.
    + unfold call_of. simpl. destruct (negb _); [done|].
      destruct (senders s t') eqn:Hpc; try done. destruct (connected_ s); simplify_eq.
      * simpl. destruct (Nat.eqb_spec t t') as [->|Hne]; [by rewrite LinuxIpc.upd_eq, Hpc|].
        rewrite LinuxIpc.upd_ne by done. by rewrite app_nil_r.
      * apply sublist_inserts_r. done.
    + destruct (pipe_sender_step_frame t' n s s' p p' Hs) as [Hfr _].
      destruct (decide (t = t')) as [->|Hne].
      { pose proof (pipe_sender_step_pending t' n s s' p p' Hs) as H. by destruct n. }
      rewrite Hfr by done. unfold pipe_write. repeat case_match; simpl; try done.
      by destruct (Nat.eqb_spec t' t); [congruence|].
Qed.

Lemma windows_log (ls : list label) (sp : sys) :
  run_labels token ls new_sender = Some sp ->
  exists log, (forall i, pipe_events (snd sp) i = on_conn i log) /\
    (forall t, by_thread t log `sublist_of` calls_of t ls).
Proof using.
  intros Hrun. rewrite <- windows_run in Hrun.
  destruct (fresh_log ls new_sender sp ltac:(done) Hrun) as (log & Hev & Hth).
  exists log. split; [exact Hev|]. intros t. by apply Hth.
Qed.

(** Every event has the size of a record: SendEvent takes a TelemetryEvent. *)
Lemma pipe_calls_sized (ls : list label) (sp sp' : sys) (t : nat) :
  run_labels token ls sp = Some sp' ->
  Forall (fun ev => length ev = UserLayout.sizeof_TelemetryEvent) (calls_of t ls).
Proof using.
  revert sp. induction ls as [|l ls IH]; intros sp Hrun; [constructor|]. cbn [run_labels] in Hrun.
  destruct (step token l sp) as [sp1|] eqn:Hs; [|done]. rewrite calls_of_cons. apply Forall_app.
  split; [|by eapply IH]. unfold call_of. destruct l; simpl; try constructor.
  case_match; [|constructor]. destruct sp as [s p]. cbn [step] in Hs. repeat constructor.
  destruct (length ev =? UserLayout.sizeof_TelemetryEvent)%nat eqn:Hl; [by apply Nat.eqb_eq | done].
Qed.

End windows.
