(* ===== verification/Streams.v ===== *)
(** The bytes of a connection, whichever sender wrote them: what the agent reads off
    a stream of chunks, and which thread sent each record it reads. *)

From S2P Require Export SenderLog Agent.
From S2P Require Export LinuxIpcTheorems.

Local Open Scope Z_scope.

(** ** The bytes of a connection *)

Definition chunk_bytes (c : chunk) : list Z :=
  match c with Hello bs => bs | Event ev n => take n ev end.

Definition wire (cs : list chunk) : list Z := concat (map chunk_bytes cs).

(** The records written whole. *)
Definition complete (l : list (list Z * nat)) : list (list Z) :=
  omap (fun e => if (length (fst e) <=? snd e)%nat then Some (fst e) else None) l.

Lemma wire_app (cs cs' : list chunk) : wire (cs ++ cs') = wire cs ++ wire cs'.
Proof. unfold wire. by rewrite map_app, concat_app. Qed.

Lemma complete_app (l l' : list (list Z * nat)) : complete (l ++ l') = complete l ++ complete l'.
Proof. apply omap_app. Qed.

(** Whole records are themselves on the wire. *)
Lemma wire_whole (cs : list chunk) :
  Forall (fun c => whole c = true) cs -> wire cs = concat (complete (omap chunk_event cs)).
Proof.
  induction 1 as [|[bs|ev n] cs Hc Hcs IH]; [done|done|]. simpl in Hc. apply Nat.eqb_eq in Hc as ->.
  simpl. unfold wire in *. simpl. rewrite Nat.leb_refl, firstn_all. simpl. by rewrite IH.
Qed.

(** A cut record is shorter than a record. *)
Lemma wire_last (size n : nat) (ev : list Z) :
  length ev = size -> (0 < size)%nat ->
  exists rest, wire [Event ev n] = concat (complete [(ev, n)]) ++ rest /\ (length rest < size)%nat.
Proof.
  intros Hev Hs. unfold wire, complete. simpl. rewrite app_nil_r.
  destruct (Nat.leb_spec (length ev) n).
  - exists []. rewrite take_ge by lia. simpl. by rewrite !app_nil_r.
  - exists (take n ev). split; [done|]. rewrite length_take. lia.
Qed.

Lemma size_pos : (0 < UserLayout.sizeof_TelemetryEvent)%nat.
Proof. apply Nat.ltb_lt. reflexivity. Qed.

(** The bytes of a stream: its greeting, its whole records, and less than one record. *)
Lemma stream_wire (size : nat) (greet : list Z) (hs evs last : list chunk) :
  (0 < size)%nat -> wire hs = greet -> omap chunk_event hs = [] ->
  Forall (fun c => whole c = true) evs -> (last = [] \/ exists ev n, last = [Event ev n]) ->
  Forall (fun e => length (fst e) = size) (omap chunk_event (hs ++ evs ++ last)) ->
  exists rest,
    wire (hs ++ evs ++ last) =
      greet ++ concat (complete (omap chunk_event (hs ++ evs ++ last))) ++ rest /\
    (length rest < size)%nat.
Proof.
  intros Hs Hg Hge Hw Hlast Hsz. rewrite omap_app, Hge, app_nil_l in *.
  assert (exists rest, wire last = concat (complete (omap chunk_event last)) ++ rest /\
    (length rest < size)%nat) as (rest & Hr & Hrl).
  { destruct Hlast as [->|(ev & n & ->)]; [by exists []|].
    simpl. apply wire_last; [|done]. rewrite !omap_app, !Forall_app in Hsz.
    destruct Hsz as (_ & Hsz). by apply Forall_inv in Hsz. }
  exists rest. split; [|done]. rewrite !wire_app, Hg, Hr, (wire_whole evs Hw).
  by rewrite (app_assoc (concat _)), <- concat_app, omap_app, complete_app.
Qed.

Lemma complete_sized (n : nat) (l : list (list Z * nat)) :
  Forall (fun e => length (fst e) = n) l -> Forall (fun ev => length ev = n) (complete l).
Proof.
  induction 1 as [|[ev k] l Hev Hl IH]; [constructor|]. unfold complete. simpl.
  destruct (_ <=? _)%nat; [by constructor | exact IH].
Qed.

(** A stream read back. *)
Lemma stream_read (token : list Z) (hs evs last : list chunk) :
  Z.of_nat (length token) < 2 ^ 32 ->
  wire hs = le_enc 4 (Z.of_nat (length token)) ++ token -> omap chunk_event hs = [] ->
  Forall (fun c => whole c = true) evs -> (last = [] \/ exists ev n, last = [Event ev n]) ->
  Forall (fun e => length (fst e) = UserLayout.sizeof_TelemetryEvent)
    (omap chunk_event (hs ++ evs ++ last)) ->
  exists rest,
    agent_read UserLayout.sizeof_TelemetryEvent (wire (hs ++ evs ++ last)) =
      Some (token, complete (omap chunk_event (hs ++ evs ++ last)), rest) /\
    (length rest < UserLayout.sizeof_TelemetryEvent)%nat.
Proof.
  intros Ht Hg Hge Hw Hlast Hsz.
  destruct (stream_wire _ _ hs evs last size_pos Hg Hge Hw Hlast Hsz) as (rest & -> & Hrl).
  exists rest. split; [|done]. rewrite <- app_assoc.
  apply agent_read_stream; [apply size_pos | done | by apply complete_sized | done].
Qed.

(** ** Who sent what the agent reads *)

(** Records with the thread that sent them. *)
Definition of_thread (t : nat) (tagged : list (nat * list Z)) : list (list Z) :=
  omap (fun x => if (fst x =? t)%nat then Some (snd x) else None) tagged.

(** The whole records of connection [i], from the log. *)
Definition tag (i : nat) (w : write) : option (nat * list Z) :=
  if (w_conn w =? i)%nat && (length (w_event w) <=? w_bytes w)%nat
  then Some (w_thread w, w_event w) else None.

Lemma tag_complete (i : nat) (log : list write) :
  map snd (omap (tag i) log) = complete (on_conn i log).
Proof.
  induction log as [|w log IH]; [done|]. unfold complete, on_conn, tag in *. simpl.
  destruct (w_conn w =? i)%nat; simpl; [|exact IH]. destruct (length (w_event w) <=? w_bytes w)%nat; simpl; [|exact IH].
  f_equal. exact IH.
Qed.

Lemma tag_thread (i t : nat) (log : list write) :
  of_thread t (omap (tag i) log) `sublist_of` by_thread t log.
Proof.
  induction log as [|w log IH]; [done|]. unfold of_thread, by_thread, tag in *. simpl.
  destruct (w_conn w =? i)%nat; simpl;
    [destruct (length (w_event w) <=? w_bytes w)%nat; simpl|];
    destruct (w_thread w =? t)%nat; simpl; try done; by constructor.
Qed.
