(* ===== verification/Delivery.v ===== *)
(** What the agent reads off a connection, for every interleaving of the sender's
    threads, and the order the senders keep. *)

From stdpp Require Import gmap.
From S2P Require Export LinuxSends Streams.
From S2P Require WindowsSends WindowsIpcTheorems.

Local Open Scope Z_scope.

(** ** Order *)

(** C10: neither sender invents, repeats or reorders events.  For every run of either
    sender - any number of threads in SendEvent, any results of the system calls,
    with Stop and restarts - there is a log of writes that gives exactly the events
    on every connection, and in which the events of each thread are, in order,
    among those it called SendEvent with. *)
Theorem senders_keep_order :
  (forall cfg ls s, run_labels cfg ls new_sender = Some s ->
     exists log, (forall i, omap chunk_event (streams s i) = on_conn i log) /\
       (forall t, by_thread t log `sublist_of` calls_of (SM := linux_machine cfg) t ls)) /\
  (forall token ls sp, WindowsIpc.run_labels token ls WindowsIpc.new_sender = Some sp ->
     exists log, (forall i, WindowsSends.pipe_events (snd sp) i = on_conn i log) /\
       (forall t, by_thread t log `sublist_of`
          calls_of (SM := WindowsSends.windows_machine token) t ls)).
Proof. split; [exact linux_log | exact WindowsSends.windows_log]. Qed.

(** ** What the agent reads *)

(** A sender whose reader can tell the records apart. *)
Record config_ok (cfg : sender_config) : Prop := ConfigOk {
  co_size : (0 < record_size cfg)%nat;
  co_token : if secured cfg then auth_token cfg <> [] /\ Z.of_nat (length (auth_token cfg)) < 2 ^ 32
             else auth_token cfg = [];
}.

Lemma telemetry_config_ok (token : list Z) :
  token <> [] -> Z.of_nat (length token) < 2 ^ 32 -> config_ok (LinuxTelemetrySender token).
Proof. by split; [apply size_pos|]. Qed.

Lemma tty_config_ok : config_ok LinuxTtyTelemetrySender.
Proof. split; [apply Nat.ltb_lt; reflexivity | done]. Qed.

(** The reader of a connection: the agent, or for terminal data, which has no greeting,
    records back to back. *)
Definition reads (cfg : sender_config) (bs : list Z) : option (list Z * list (list Z) * list Z) :=
  if secured cfg then agent_read (record_size cfg) bs
  else let '(evs, rest) := frames (length bs) (record_size cfg) bs in Some ([], evs, rest).

Definition greeting_bytes (cfg : sender_config) : list Z :=
  if secured cfg then le_enc 4 (Z.of_nat (length (auth_token cfg))) ++ auth_token cfg else [].

Lemma wire_greeting (cfg : sender_config) :
  config_ok cfg -> wire (greeting cfg) = greeting_bytes cfg /\ omap chunk_event (greeting cfg) = [].
Proof.
  intros [_ Ht]. unfold greeting, greeting_bytes. destruct (secured cfg); [|done]. destruct Ht as [Hne Ht].
  unfold PerformHandshake. rewrite bool_decide_false by done. cbv zeta. rewrite wrap_small by (split; lia).
  rewrite !Z.eqb_refl. cbn [negb fst]. split; [|done]. unfold wire, written.
  cbn [map chunk_bytes concat]. rewrite Nat2Z.id, firstn_all. by rewrite app_nil_r.
Qed.

Lemma reads_stream (cfg : sender_config) (evs : list (list Z)) (rest : list Z) :
  config_ok cfg -> Forall (fun ev => length ev = record_size cfg) evs ->
  (length rest < record_size cfg)%nat ->
  reads cfg (greeting_bytes cfg ++ concat evs ++ rest) = Some (auth_token cfg, evs, rest).
Proof.
  intros [Hs Ht] Hevs Hrest. unfold reads, greeting_bytes. destruct (secured cfg).
  - destruct Ht as [Hne Ht]. rewrite <- app_assoc. by apply agent_read_stream.
  - by rewrite app_nil_l, frames_records, Ht.
Qed.

Lemma framed_read (cfg : sender_config) (cs : list chunk) :
  config_ok cfg -> framed cfg cs ->
  Forall (fun e => length (fst e) = record_size cfg) (omap chunk_event cs) ->
  exists rest, reads cfg (wire cs) = Some (auth_token cfg, complete (omap chunk_event cs), rest) /\
    (length rest < record_size cfg)%nat.
Proof.
  intros Hc (evs & last & -> & Hw & Hlast) Hsz. destruct (wire_greeting cfg Hc) as [Hg Hge].
  destruct (stream_wire _ _ _ evs last (co_size _ Hc) Hg Hge Hw Hlast Hsz) as (rest & -> & Hrl).
  exists rest. split; [|done]. apply reads_stream; [done | by apply complete_sized | done].
Qed.

Lemma calls_sized (cfg : sender_config) (ls : list label) (s s' : ipc) (t : nat) :
  run_labels cfg ls s = Some s' ->
  Forall (fun ev => length ev = record_size cfg) (calls_of (SM := linux_machine cfg) t ls).
Proof.
  revert s. induction ls as [|l ls IH]; intros s Hrun; [constructor|]. cbn [run_labels] in Hrun.
  destruct (step cfg l s) as [s1|] eqn:Hs; [|done]. rewrite calls_of_cons. apply Forall_app.
  split; [|by eapply IH]. unfold call_of. destruct l; simpl; try constructor.
  case_match; [|constructor]. simpl in Hs. repeat constructor.
  destruct (length ev =? record_size cfg)%nat eqn:Hl; [by apply Nat.eqb_eq | done].
Qed.

(** Every event on a connection is a whole record or part of one. *)
Lemma stream_sized (cfg : sender_config) (ls : list label) (s : ipc) (i : nat) :
  run_labels cfg ls new_sender = Some s ->
  Forall (fun e => length (fst e) = record_size cfg) (omap chunk_event (streams s i)).
Proof.
  intros Hrun. destruct (linux_log cfg ls s Hrun) as (log & -> & Hth).
  exact (log_forall _ _ i log Hth (fun t => calls_sized cfg ls new_sender s t Hrun)).
Qed.

(** What is read off a connection that carries whole records only. *)
Lemma clean_read (cfg : sender_config) (cs : list chunk) :
  config_ok cfg -> clean cfg cs ->
  Forall (fun e => length (fst e) = record_size cfg) (omap chunk_event cs) ->
  reads cfg (wire cs) = Some (auth_token cfg, complete (omap chunk_event cs), []).
Proof.
  intros Hc (evs & -> & Hw) Hsz. destruct (wire_greeting cfg Hc) as [Hg Hge].
  rewrite wire_app, Hg, (wire_whole evs Hw). rewrite omap_app, Hge, app_nil_l in *.
  rewrite <- (app_nil_r (concat _)).
  apply reads_stream; [done | by apply complete_sized | apply (co_size _ Hc)].
Qed.

(** What is read off an authenticated connection. *)
Lemma agent_reads (cfg : sender_config) (ls : list label) (s : ipc) (i : nat) :
  config_ok cfg -> Forall (fun l => is_stop l = false) ls ->
  run_labels cfg ls new_sender = Some s -> authenticated s i = true ->
  exists tagged rest,
    reads cfg (wire (streams s i)) = Some (auth_token cfg, map snd tagged, rest) /\
    (length rest < record_size cfg)%nat /\
    forall t, of_thread t tagged `sublist_of` calls_of (SM := linux_machine cfg) t ls.
Proof.
  intros Hc Hls Hrun Ha. pose proof (stream_framed cfg ls s i Hls Hrun) as Hf. rewrite Ha in Hf.
  destruct (linux_log cfg ls s Hrun) as (log & Hev & Hth).
  destruct (framed_read cfg (streams s i) Hc Hf (stream_sized cfg ls s i Hrun)) as (rest & Hr & Hrl).
  exists (omap (tag i) log), rest. split; [by rewrite tag_complete, <- Hev|]. split; [done|].
  intros t. etrans; [apply tag_thread | apply Hth].
Qed.

(** ** The repository's own test of the connection *)

(** The verdict of src/linux/test_ipc.cpp is sound: in every run of the sender with the
    test's token and the test's one event, on an authenticated connection the mock
    agent accepts the token, and when it reads a whole record the test succeeds. *)
Lemma ipc_test_sound (ls : list label) (s : ipc) (i : nat) :
  let cfg := LinuxTelemetrySender AUTH_TOKEN in
  Forall (fun l => is_stop l = false) ls -> run_labels cfg ls new_sender = Some s ->
  (forall t, Forall (fun ev => ev = test_event) (calls_of (SM := linux_machine cfg) t ls)) ->
  authenticated s i = true ->
  let r := MockAgentServerLoop (wire (streams s i)) in
  ar_status r = Some 1 /\
  (ar_event r = None \/ ar_event r = Some test_event /\ ar_success r = true).
Proof.
  intros cfg Hls Hrun Hcalls Ha r.
  pose proof (stream_framed cfg ls s i Hls Hrun) as Hf. rewrite Ha in Hf.
  destruct Hf as (evs & last & Hs & Hw & Hlast). destruct (linux_log cfg ls s Hrun) as (log & Hev & Hth).
  assert (Forall (fun e => fst e = test_event) (omap chunk_event (streams s i))) as Hall
    by (rewrite Hev; exact (log_forall (fun ev => ev = test_event) _ i log Hth Hcalls)).
  destruct test_event_expected as [Hlen Hexp].
  destruct (wire_greeting cfg (telemetry_config_ok AUTH_TOKEN ltac:(discriminate) ltac:(reflexivity)))
    as [Hg Hge]. unfold r. rewrite Hs in *.
  destruct (stream_wire _ _ (greeting cfg) evs last size_pos Hg Hge Hw Hlast) as (rest & -> & Hrest).
  { eapply Forall_impl; [exact Hall|]. by intros e ->. }
  unfold greeting_bytes. cbn [secured cfg LinuxTelemetrySender auth_token].
  rewrite <- app_assoc, mock_agent_reads.
  destruct (complete (omap chunk_event (greeting cfg ++ evs ++ last))) as [|ev evs'] eqn:Hc.
  - cbn [concat app]. rewrite take_ge by lia.
    destruct (Nat.eqb_spec (length rest) UserLayout.sizeof_TelemetryEvent); [lia|].
    split; [done | by left].
  - assert (ev = test_event) as ->.
    { assert (ev ∈ complete (omap chunk_event (greeting cfg ++ evs ++ last))) as Hin by (rewrite Hc; by left).
      unfold complete in Hin. apply list_elem_of_omap in Hin as ([ev' n] & Hin & Heq).
      case_match; [|done]. injection Heq as <-. rewrite Forall_forall in Hall. exact (Hall _ Hin). }
    change (concat (test_event :: evs')) with (test_event ++ concat evs').
    rewrite <- app_assoc, take_app_length' by done.
    rewrite Hlen, Nat.eqb_refl. split; [done|]. by right.
Qed.

(** ** Instances *)

Lemma senders_keep_order_witness :
  (exists s log, run_labels demo_sender one_event_labels new_sender = Some s /\
     omap chunk_event (streams s 0) = on_conn 0 log /\
     by_thread 0 log `sublist_of` [demo_event]) /\
  (exists s p log, WindowsIpc.run_labels [1; 2] WindowsIpcTheorems.demo_run
       WindowsIpc.new_sender = Some (s, p) /\
     WindowsSends.pipe_events p 0 = on_conn 0 log /\
     by_thread 1 log `sublist_of` [WindowsIpcTheorems.demo_record]).
Proof.
  destruct senders_keep_order as [HL HW]. split.
  - assert (exists s, run_labels demo_sender one_event_labels new_sender = Some s) as [s Hs]
      by (eexists; vm_compute; reflexivity).
    destruct (HL _ _ _ Hs) as (log & Hev & Hth). exists s, log.
    split; [exact Hs|]. split; [apply Hev|]. exact (Hth 0%nat).
  - assert (exists sp, WindowsIpc.run_labels [1; 2] WindowsIpcTheorems.demo_run
      WindowsIpc.new_sender = Some sp) as [[s p] Hs] by (eexists; vm_compute; reflexivity).
    destruct (HW _ _ _ Hs) as (log & Hev & Hth). exists s, p, log.
    split; [exact Hs|]. split; [apply Hev|]. exact (Hth 1%nat).
Defined.
