(* ===== verification/Sensor.v ===== *)
(** The whole Linux sensor: overlapping eBPF programs, the agent's map calls, the
    polling thread, and the threads of the two senders, interleaved.  One state, one
    step per move; what is read off the connections is stated of its runs. *)

From S2P Require Import Ffi Enforcement OverlapRecords.
From S2P Require Export Delivery.

Local Open Scope Z_scope.

#[local] Arguments step : simpl never.
#[local] Arguments Interleaving.step : simpl never.

(** ** One value per channel *)

Definition set_at {A : Type} (w : channel) (v : A) (f : channel -> A) : channel -> A :=
  fun w' => if decide (w' = w) then v else f w'.

Lemma set_at_eq {A : Type} (w : channel) (v : A) (f : channel -> A) : set_at w v f w = v.
Proof. unfold set_at. by rewrite decide_True. Qed.

Lemma set_at_ne {A : Type} (w w' : channel) (v : A) (f : channel -> A) :
  w' <> w -> set_at w v f w' = f w'.
Proof. intros. unfold set_at. by rewrite decide_False. Qed.

(** ** An undisturbed connection *)

(** The sender is connected on connection [i], and nobody is in SendEvent but waiting
    threads; the polling thread is outside. *)
Record calm (s : ipc) (i : nat) : Prop := Calm {
  cm_connected : connected_ s = true;
  cm_lock : lock s = None;
  cm_idle : senders s 0 = SIdle;
  cm_fd : fds s !! socket_fd_ s = Some i;
  cm_open : socket_fd_ s <> -1;
}.

(** One SendEvent of thread 0 whose write succeeds. *)
Definition send_steps (size : nat) : list label :=
  [LSender 0 0; LSender 0 0; LSender 0 (Z.of_nat size)].

Lemma send_whole (cfg : sender_config) (ev : list Z) (s : ipc) (i : nat) :
  calm s i -> length ev = record_size cfg -> (0 < length ev)%nat ->
  exists s', run_labels cfg (LSend 0 ev :: send_steps (length ev)) s = Some s' /\ calm s' i /\
    streams s' i = streams s i ++ [Event ev (length ev)].
Proof.
  intros [Hc Hl Hi Hf Ho] Hev Hpos. unfold send_steps. cbn [run_labels].
  assert (forall t n (s0 : ipc), step cfg (LSender t n) s0 = step_sender t (senders s0 t) n s0) as Hst by done.
  assert (step cfg (LSend 0 ev) s = Some (set_sender 0 (SWaiting ev) s)) as ->
    by (unfold step; by rewrite Hev, Nat.eqb_refl, Hi, Hc).
  rewrite Hst. cbn [senders set_sender]. rewrite upd_eq. cbn [step_sender lock set_sender]. rewrite Hl.
  rewrite Hst. cbn [senders set_sender set_lock]. rewrite upd_eq. cbn [step_sender socket_fd_ set_sender set_lock].
  destruct (Z.eqb_spec (socket_fd_ s) (-1)) as [?|_]; [done|].
  rewrite Hst. cbn [senders set_sender]. rewrite upd_eq. cbn [step_sender].
  destruct (Z.ltb_spec (Z.of_nat (length ev)) (-1)); [lia|]. rewrite Z.ltb_irrefl. cbn [orb fds set_sender set_lock].
  rewrite bool_decide_false by congruence. cbn [andb].
  destruct (Z.leb_spec (Z.of_nat (length ev)) 0); [lia|]. rewrite Z.eqb_refl, Nat2Z.id.
  eexists. split; [reflexivity|]. unfold write_fd. cbn [fds set_sender set_lock]. rewrite Hf.
  split; [split|]; simpl; rewrite ?upd_eq; done.
Qed.

Lemma run_labels_app (cfg : sender_config) (ls ls' : list label) (s : ipc) :
  run_labels cfg (ls ++ ls') s = run_labels cfg ls s ≫= run_labels cfg ls'.
Proof. revert s. induction ls as [|l ls IH]; intros s; [done|]. simpl. by destruct (step cfg l s). Qed.

(** The committed records before the first busy place. *)
Fixpoint ready (l : list (option (list Z))) : list (list Z) :=
  match l with
  | Some ev :: l => ev :: ready l
  | _ => []
  end.

Lemma ready_cons (l : list (option (list Z))) (ev : list Z) (rs : list (list Z)) :
  ready l = ev :: rs -> exists l', l = Some ev :: l' /\ ready l' = rs.
Proof. destruct l as [|[ev'|] l]; try done. intros [= -> <-]. by exists l. Qed.

Lemma ready_take (l : list (option (list Z))) : map Some (ready l) `prefix_of` l.
Proof. induction l as [|[ev|] l IH]; simpl; [done | by apply prefix_cons | apply prefix_nil]. Qed.

Lemma ready_all (l : list (option (list Z))) :
  (forall j, l !! j <> Some None) -> length (ready l) = length l.
Proof.
  induction l as [|[ev|] l IH]; intros Hl; simpl; [done| |by destruct (Hl O)].
  f_equal. apply IH. intros j. exact (Hl (S j)).
Qed.

Section sensor.
Context {BM : BpfMaps} {RB : BpfRingbuf}.
Context (find_map : string -> bool) (ld : loader) (e : engine) (token : list Z).

(** The kernel with its programs; for each ring buffer, how many records the polling
    thread has taken and the sender they go to; and the ring buffer whose callback the
    thread is in. *)
Record sensor : Type := Sensor {
  kernel : machine;
  polled : channel -> nat;
  in_callback : option channel;
  sender : channel -> ipc;
}.

Definition start (b : bst) : sensor :=
  Sensor (boot b) (fun w => length (places w b)) None (fun _ => new_sender).

Definition config (w : channel) : sender_config :=
  match w with Telemetry => LinuxTelemetrySender token | Terminal => LinuxTtyTelemetrySender end.

(** What the callback of a ring buffer calls SendEvent with. *)
Definition callback (w : channel) (data : list Z) : option (list Z) :=
  match w with Telemetry => on_ring_record e (Some data) | Terminal => on_tty_record (Some data) end.

Inductive move : Type :=
| MKernel (k : Interleaving.event)    (* a program starts or makes a helper call, or the agent a map call *)
| MPoll (w : channel)                 (* the polling thread takes the next record of a ring buffer *)
| MReturn                             (* the callback of that record returns *)
| MSend (w : channel) (l : label).    (* a step of a sender *)

(** The places of a ring buffer, in the order of their reservation. *)
Definition ring (w : channel) (x : sensor) : list (option (list Z)) := places w (shared (kernel x)).

(** The consumer gives back the space of the place [h]. *)
Definition consume (w : channel) (h : nat) (m : machine) : machine :=
  Machine (slot_set (ring_buffer w) (rb_consume (slot_get (ring_buffer w) (shared m)) h) (shared m))
    (threads m).

Definition set_ipc (w : channel) (s : ipc) (x : sensor) : sensor :=
  Sensor (kernel x) (polled x) (in_callback x) (set_at w s (sender x)).

(** The callback of the next record of [w] is called. *)
Definition enter (w : channel) (x : sensor) : sensor :=
  Sensor (kernel x) (set_at w (S (polled x w)) (polled x)) (Some w) (sender x).

(** The polling thread is thread 0 of both senders: it calls SendEvent from the
    callbacks only.  It takes the next record of either ring buffer in the order of
    reservation, not while that is still busy, and takes no other before the callback has
    returned, which gives the space of the record back. *)
Definition move_step (m : move) (x : sensor) : option sensor :=
  match m with
  | MKernel k =>
      match Interleaving.step find_map ld k (kernel x) with
      | Some ker => Some (Sensor ker (polled x) (in_callback x) (sender x))
      | None => None
      end
  | MPoll w =>
      match in_callback x, ring w x !! polled x w with
      | None, Some (Some data) =>
          match callback w data with
          | Some ev =>
              match step (config w) (LSend 0 ev) (sender x w) with
              | Some s => Some (set_ipc w s (enter w x))
              | None => None
              end
          | None => Some (enter w x)
          end
      | _, _ => None
      end
  | MReturn =>
      match in_callback x with
      | Some w =>
          match senders (sender x w) 0 with
          | SIdle => Some (Sensor (consume w (pred (polled x w)) (kernel x)) (polled x) None (sender x))
          | _ => None
          end
      | None => None
      end
  | MSend _ (LSend 0 _) => None
  | MSend w l =>
      match step (config w) l (sender x w) with Some s => Some (set_ipc w s x) | None => None end
  end.

Fixpoint run_moves (ms : list move) (x : sensor) : option sensor :=
  match ms with
  | [] => Some x
  | m :: rest => match move_step m x with Some y => run_moves rest y | None => None end
  end.

Lemma run_moves_app (ms ms' : list move) (x : sensor) :
  run_moves (ms ++ ms') x = run_moves ms x ≫= run_moves ms'.
Proof using. revert x. induction ms as [|m ms IH]; intros x; [done|]. simpl. by destruct (move_step m x). Qed.

(** An invariant of the moves is an invariant of the runs. *)
Lemma moves_inv (J : sensor -> Prop) (M : move -> Prop) (ms : list move) (x y : sensor) :
  (forall m x y, M m -> J x -> move_step m x = Some y -> J y) ->
  Forall M ms -> J x -> run_moves ms x = Some y -> J y.
Proof using.
  intros HJ HM. revert x. induction HM as [|m ms Hm Hms IH]; intros x Hx; simpl; [by intros [= <-]|].
  destruct (move_step m x) as [x1|] eqn:Hs; [|done]. apply IH. by apply (HJ m x).
Qed.

(** ** The parts of a run *)

(** What a move does to the kernel and the polling thread. *)
Lemma move_polled (m : move) (x y : sensor) :
  move_step m x = Some y ->
  match m with
  | MKernel k => polled y = polled x /\ Interleaving.step find_map ld k (kernel x) = Some (kernel y)
  | MPoll w => polled y = set_at w (S (polled x w)) (polled x) /\ kernel y = kernel x /\
      exists data, ring w x !! polled x w = Some (Some data)
  | MReturn => polled y = polled x /\ exists w h, kernel y = consume w h (kernel x)
  | MSend _ _ => polled y = polled x /\ kernel y = kernel x
  end.
Proof using.
  destruct m as [k|w| |w l]; cbn [move_step].
  - destruct (Interleaving.step find_map ld k (kernel x)); [|done]. by intros [= <-].
  - destruct (in_callback x); [done|]. destruct (ring w x !! polled x w) as [[data|]|]; try done.
    intros Hs. assert (polled y = polled (enter w x) /\ kernel y = kernel x) as [-> ->]; [|by eauto].
    destruct (callback w data); [destruct (step _ _ _); [|done]|]; by injection Hs as <-.
  - destruct (in_callback x) as [w|]; [|done]. destruct (senders (sender x w) 0); try done.
    intros [= <-]. eauto.
  - destruct l as [| | |r|[|t] ev|t n]; try done; (destruct (step _ _ _); [|done]; by intros [= <-]).
Qed.

Section channel.
Context (w : channel).

(** The label of a move for the sender of the channel. *)
Definition label_of (m : move) (x : sensor) : option label :=
  match m with
  | MKernel _ | MReturn => None
  | MPoll w' =>
      if decide (w' = w) then
        match ring w x !! polled x w with
        | Some (Some data) => LSend 0 <$> callback w data
        | _ => None
        end
      else None
  | MSend w' l => if decide (w' = w) then Some l else None
  end.

(** What a thread other than the polling thread sends. *)
Definition sends (t : nat) (ms : list move) : list (list Z) :=
  omap (fun m => match m with
                 | MSend w' l =>
                     if decide (w' = w) then call_of (SM := linux_machine (config w)) t l else None
                 | _ => None
                 end) ms.

Definition stops (m : move) : bool := match m with MSend _ l => is_stop l | _ => false end.

(** Records the engine accepts. *)
Lemma callback_sized (ev : list Z) :
  g_sender e <> None -> length ev = record_size (config w) -> callback w ev = Some ev.
Proof using.
  intros Hg Hev. unfold callback, on_ring_record, on_tty_record, HandleRingBufferEvent,
    HandleTtyRingBufferEvent, deliver.
  destruct w; simpl in Hev; rewrite Hev, Nat.eqb_refl; cbn [andb]; [by destruct (g_sender e) | done].
Qed.

(** A move is a step of the sender, with its label, or leaves the sender alone. *)
Lemma move_label (m : move) (x y : sensor) :
  move_step m x = Some y ->
  match label_of m x with
  | Some l => step (config w) l (sender x w) = Some (sender y w)
  | None => sender y w = sender x w
  end.
Proof using.
  destruct m as [k|w'| |w' l]; cbn [move_step label_of].
  - destruct (Interleaving.step find_map ld k (kernel x)); [|done]. by intros [= <-].
  - destruct (in_callback x); [done|].
    destruct (decide (w' = w)) as [->|Hne].
    + destruct (ring w x !! polled x w) as [[data|]|]; try done.
      destruct (callback w data) as [ev|]; [|by intros [= <-]].
      destruct (step _ _ _) eqn:Hs; [|done]. intros [= <-]. simpl. by rewrite set_at_eq.
    + destruct (ring w' x !! polled x w') as [[data|]|]; try done.
      destruct (callback w' data) as [ev|]; [|by intros [= <-]].
      destruct (step _ _ _); [|done]. intros [= <-]. simpl. by rewrite set_at_ne.
  - destruct (in_callback x) as [w'|]; [|done]. destruct (senders (sender x w') 0); try done.
    by intros [= <-].
  - intros Hs. assert (exists s, step (config w') l (sender x w') = Some s /\ y = set_ipc w' s x)
      as (s & Hl & ->).
    { destruct l as [| | |r|[|t] ev|t n]; try done; (destruct (step _ _ _) as [s|]; [|done];
        exists s; by injection Hs as <-). }
    simpl. destruct (decide (w' = w)) as [->|Hne]; [by rewrite set_at_eq | by rewrite set_at_ne].
Qed.

(** A run of the sensor is a run of its sender. *)
Fixpoint labels (ms : list move) (x : sensor) : list label :=
  match ms with
  | [] => []
  | m :: rest =>
      match move_step m x with
      | Some y => option_list (label_of m x) ++ labels rest y
      | None => []
      end
  end.

Lemma labels_run (ms : list move) (x y : sensor) :
  run_moves ms x = Some y -> run_labels (config w) (labels ms x) (sender x w) = Some (sender y w).
Proof using.
  revert x. induction ms as [|m ms IH]; intros x; simpl; [by intros [= <-]|].
  destruct (move_step m x) as [x1|] eqn:Hm; [|done]. intros Hrun. rewrite run_labels_app.
  apply move_label in Hm. destruct (label_of m x); simpl; [rewrite Hm | rewrite <- Hm]; by apply IH.
Qed.

(** What the polling thread does is a SendEvent of thread 0. *)
Lemma poll_label (w' : channel) (x : sensor) (l : label) :
  label_of (MPoll w') x = Some l -> exists ev, l = LSend 0 ev.
Proof using.
  simpl. destruct (decide (w' = w)); [|done]. destruct (ring w x !! polled x w) as [[data|]|]; try done.
  destruct (callback w data) as [ev|]; [|done]. intros [= <-]. by exists ev.
Qed.

Lemma labels_no_stop (ms : list move) (x : sensor) :
  Forall (fun m => stops m = false) ms -> Forall (fun l => is_stop l = false) (labels ms x).
Proof using.
  intros Hms. revert x. induction Hms as [|m ms Hm Hms IH]; intros x; simpl; [constructor|].
  destruct (move_step m x) as [y|]; [|constructor]. apply Forall_app. split; [|apply IH].
  destruct (label_of m x) as [l|] eqn:Hl; repeat constructor.
  destruct m as [k|w'| |w' l']; [done| |done|].
  - by apply poll_label in Hl as [ev ->].
  - simpl in Hl. destruct (decide (w' = w)); [|done]. by injection Hl as <-.
Qed.

(** Other threads call what the moves say. *)
Lemma labels_calls (t : nat) (ms : list move) (x y : sensor) :
  t <> 0%nat -> run_moves ms x = Some y ->
  calls_of (SM := linux_machine (config w)) t (labels ms x) = sends t ms.
Proof using.
  intros Ht. revert x. induction ms as [|m ms IH]; intros x Hrun; [done|]. cbn [run_moves labels] in *.
  destruct (move_step m x) as [x1|]; [|done]. unfold calls_of in *. rewrite omap_app, IH by done.
  unfold sends. cbn [omap list_omap].
  destruct m as [k|w'| |w' l]; [done| |done|].
  - destruct (label_of (MPoll w') x) as [l|] eqn:Hl; [|done]. apply poll_label in Hl as [ev ->].
    simpl. unfold call_of. simpl. by destruct t.
  - simpl. destruct (decide (w' = w)); simpl; [by destruct (call_of t l) | done].
Qed.

(** ** The records of a run *)

Context `{!BpfMapsLaws, !BpfRingbufLaws}.

(** The record of a program of the moves. *)
Definition explained (ms : list move) (ev : list Z) : Prop :=
  exists c h, MKernel (Begin c h) ∈ ms /\ record_of w c h ev.

Lemma explained_size (ms : list move) (ev : list Z) :
  explained ms ev -> length ev = record_size (config w).
Proof using. unfold explained, record_of. destruct w; by intros (c & h & _ & Hl & _). Qed.

Definition move_ok (m : move) : Prop := match m with MKernel k => begins_ok k | _ => True end.

(** The kernel since the start: its places have owners, all of which are programs of
    the moves; the polling thread started with the places of the start behind it. *)
Record tracked (b : bst) (ms : list move) (x : sensor) : Prop := Tracked {
  tr_recorded : recorded w b (kernel x);
  tr_begun : Forall (fun t => MKernel (Begin (th_ctx t) (th_call t)) ∈ ms) (threads (kernel x));
  tr_polled : (length (places w b) <= polled x w <= length (ring w x))%nat;
}.

Lemma tracked_start (b : bst) (ms : list move) : tracked b ms (start b).
Proof using. by split; [apply boot_recorded | constructor |]. Qed.

(** Consuming leaves every history as it is. *)
Lemma consume_same (w' : channel) (h : nat) (m : machine) :
  places w (shared (consume w' h m)) = places w (shared m) /\
  submitted w (shared (consume w' h m)) = submitted w (shared m).
Proof using All.
  unfold places, submitted, consume. cbn [shared]. destruct (decide (w = w')) as [->|Hne].
  - rewrite get_set_ring. by rewrite rb_consume_places, rb_consume_records.
  - by rewrite get_set_other.
Qed.

(** A move that changes neither the programs nor the histories. *)
Lemma tracked_same (b : bst) (ms : list move) (x y : sensor) :
  tracked b ms x -> threads (kernel y) = threads (kernel x) -> ring w y = ring w x ->
  submitted w (shared (kernel y)) = submitted w (shared (kernel x)) ->
  (polled x w <= polled y w <= length (ring w x))%nat ->
  tracked b ms y /\ settles w (shared (kernel x)) (shared (kernel y)).
Proof using.
  intros [Hr Hb Hp] Ht Hring Hs Hpy. split; [|by apply settles_same]. split.
  - pose proof (recorded_frame w b (shared (kernel y)) (kernel x) Hring Hs Hr) as Hr'.
    rewrite <- Ht in Hr'. by destruct (kernel y).
  - by rewrite Ht.
  - rewrite Hring. lia.
Qed.

Lemma move_tracked (b : bst) (ms : list move) (m : move) (x y : sensor) :
  m ∈ ms -> move_ok m -> move_step m x = Some y -> tracked b ms x ->
  tracked b ms y /\ settles w (shared (kernel x)) (shared (kernel y)).
Proof using All.
  intros Hin Hok Hm Hx. apply move_polled in Hm. pose proof (tr_polled _ _ _ Hx) as Hp.
  destruct m as [k|w'| |w' l].
  - destruct Hm as [Hpy Hs]. destruct Hx as [Hr Hb _].
    destruct (step_recorded find_map ld w b k (kernel x) (kernel y) Hok Hr Hs) as [Hr' Hset].
    split; [|done]. split; [done| |rewrite Hpy; destruct Hset; unfold ring in *; lia].
    refine (step_threads find_map ld (fun _ => True) _ k (kernel x) (kernel y) _ _ I Hb Hs); [|by intros].
    intros c h ->. exact Hin.
  - destruct Hm as (Hpy & Hk & data & Hd%lookup_lt_Some).
    apply (tracked_same b ms x); unfold ring; rewrite ?Hk; [done..|]. fold (ring w x). rewrite Hpy.
    destruct (decide (w = w')) as [->|Hne]; [rewrite set_at_eq; lia | rewrite set_at_ne by done; lia].
  - destruct Hm as (Hpy & w' & h & Hk). destruct (consume_same w' h (kernel x)) as [Hc1 Hc2].
    apply (tracked_same b ms x); unfold ring; rewrite ?Hk; [done..|]. fold (ring w x). rewrite Hpy; lia.
  - destruct Hm as [Hpy Hk]. apply (tracked_same b ms x); unfold ring; rewrite ?Hk; [done..|].
    fold (ring w x). rewrite Hpy; lia.
Qed.

Lemma run_tracked (b : bst) (all ms : list move) (x y : sensor) :
  ms ⊆ all -> Forall move_ok ms -> run_moves ms x = Some y -> tracked b all x ->
  tracked b all y /\ settles w (shared (kernel x)) (shared (kernel y)).
Proof using All.
  intros Hsub Hok Hrun Hx. rewrite Forall_forall in Hok.
  refine (moves_inv (fun z => tracked b all z /\ settles w (shared (kernel x)) (shared (kernel z)))
    (fun m => m ∈ all /\ move_ok m) ms x y _ _ _ Hrun).
  - intros m z z' [Hin Hm] [Hz Hset] Hs. destruct (move_tracked b all m z z' Hin Hm Hs Hz) as [Hz' Hset'].
    split; [done|]. by etrans.
  - apply Forall_forall. intros m Hm. split; [by apply Hsub | by apply Hok].
  - by split.
Qed.

(** Every record the polling thread may take is explained. *)
Lemma tracked_explained (b : bst) (ms : list move) (x : sensor) (j : nat) (ev : list Z) :
  tracked b ms x -> (polled x w <= j)%nat \/ (length (places w b) <= j)%nat ->
  ring w x !! j = Some (Some ev) -> explained ms ev.
Proof using.
  intros [(owners & new & Hp & _ & Hown & _) Hb Hpl] Hj Hev. unfold ring in Hev.
  rewrite Hp, lookup_app_r in Hev by lia.
  destruct (Forall2_lookup_r _ _ _ _ _ Hown Hev) as (i & _ & t & Ht & Hr).
  exists (th_ctx t), (th_call t). split; [|done]. by apply (Forall_lookup_1 _ _ _ _ Hb Ht).
Qed.

(** When every program has returned, no place is busy. *)
Definition at_rest (m : machine) : Prop := Forall (fun t => returned t <> None) (threads m).

Lemma tracked_at_rest (b : bst) (ms : list move) (x : sensor) (j : nat) :
  tracked b ms x -> at_rest (kernel x) -> (length (places w b) <= j)%nat -> ring w x !! j <> Some None.
Proof using.
  intros [(owners & new & Hp & Hnd & Hown & _ & Hall) _ _] Hrest Hj Hn. unfold ring in Hn.
  rewrite Hp, lookup_app_r in Hn by done.
  destruct (Forall2_lookup_r _ _ _ _ _ Hown Hn) as (i & Ho & t & Ht & _).
  apply (Forall_lookup_1 _ _ _ _ Hrest Ht). by eapply busy_owner, Hall.
Qed.

(** What the polling thread takes from [x] to [y] is what it sends. *)
Definition taken (x y : sensor) : list (list Z) :=
  omap id (drop (polled x w) (take (polled y w) (ring w y))).

(** The polling thread sends each record it takes, once and in order. *)
Lemma run_taken (b : bst) (all ms : list move) (x y : sensor) :
  g_sender e <> None -> ms ⊆ all -> Forall move_ok ms -> run_moves ms x = Some y -> tracked b all x ->
  (polled x w <= polled y w)%nat /\
  calls_of (SM := linux_machine (config w)) 0 (labels ms x) = taken x y.
Proof using All.
  intros Hg Hsub Hok. revert x. induction Hok as [|m ms Hm Hms IH]; intros x; cbn [run_moves labels].
  { intros [= <-] _. split; [lia|]. unfold taken. by rewrite drop_ge by (rewrite length_take; lia). }
  destruct (move_step m x) as [x1|] eqn:Hs; [|done]. intros Hrun Hx.
  assert (m ∈ all /\ ms ⊆ all) as [Hin Hsub']
    by (split; [apply Hsub; by left | intros z Hz; apply Hsub; by right]).
  destruct (move_tracked b all m x x1 Hin Hm Hs Hx) as [Hx1 _].
  destruct (IH Hsub' x1 Hrun Hx1) as [Hp Hc].
  destruct (run_tracked b all ms x1 y Hsub' Hms Hrun Hx1) as [_ Hset].
  unfold calls_of in *. rewrite omap_app, Hc. unfold taken in *.
  pose proof (move_polled m x x1 Hs) as Hpm.
  destruct m as [k|w'| |w' l]; try (destruct Hpm as [Hpx _]; rewrite Hpx in *; by split).
  - destruct Hpm as (Hpx & Hk & data & Hd). cbn [label_of].
    destruct (decide (w' = w)) as [->|Hne]; [|rewrite Hpx, set_at_ne in * by done; by split].
    rewrite Hpx, set_at_eq in *. split; [lia|].
    pose proof (tracked_explained b all x (polled x w) data Hx (or_introl (le_n _)) Hd) as He.
    rewrite Hd, callback_sized by (done || by eapply explained_size). simpl.
    rewrite (drop_S (take _ _) (Some data) (polled x w)); [done|].
    rewrite lookup_take_lt by lia. apply (set_kept _ _ _ Hset). by rewrite Hk.
  - destruct Hpm as [Hpx _]. rewrite Hpx in *. split; [done|]. cbn [label_of].
    destruct (decide (w' = w)); [|done]. by destruct l as [| | |r|[|t] ev|t n].
Qed.

(** The records taken are explained. *)
Lemma taken_explained (b : bst) (ms : list move) (x y : sensor) :
  tracked b ms x -> tracked b ms y -> Forall (explained ms) (taken x y).
Proof using.
  intros Hx Hy. apply Forall_forall. intros ev ([ev'|] & Hin & Hid)%list_elem_of_omap; [|done].
  injection Hid as ->. apply list_elem_of_lookup in Hin as [j Hj]. rewrite lookup_drop in Hj.
  apply lookup_take_Some in Hj as [Hj _]. pose proof (tr_polled _ _ _ Hx).
  apply (tracked_explained b ms y (polled x w + j) ev Hy); [lia | done].
Qed.

(** ** What is left to take *)

Definition backlog (x : sensor) : list (list Z) := ready (drop (polled x w) (ring w x)).

(** The backlog is made of explained records. *)
Lemma backlog_explained (ms : list move) (b : bst) (x : sensor) :
  tracked b ms x -> Forall (explained ms) (backlog x).
Proof using.
  intros Hx. apply Forall_forall. intros ev [j Hj]%list_elem_of_lookup.
  apply (tracked_explained b ms x (polled x w + j) ev Hx); [lia|].
  rewrite <- lookup_drop. eapply prefix_lookup_Some; [|apply ready_take].
  change (ready (drop (polled x w) (ring w x))) with (backlog x).
  by rewrite list_lookup_fmap, Hj.
Qed.

(** Nothing is left when no program is under way. *)
Lemma drained_at_rest (ms : list move) (b : bst) (x y : sensor) :
  tracked b ms x -> at_rest (kernel x) -> ring w y = ring w x ->
  polled y w = (polled x w + length (backlog x))%nat -> polled y w = length (ring w y).
Proof using.
  intros Hx Hr Hk ->. rewrite Hk. unfold backlog. pose proof (tr_polled _ _ _ Hx).
  rewrite ready_all; [rewrite length_drop; lia|].
  intros j. rewrite lookup_drop. apply (tracked_at_rest b ms x); [done..|lia].
Qed.

(** ** Draining a ring buffer *)

(** The sender is undisturbed and the polling thread outside its callbacks. *)
Definition ready_to_poll (x : sensor) (i : nat) : Prop := calm (sender x w) i /\ in_callback x = None.

(** The polling thread takes [n] records and each is sent. *)
Fixpoint drain (n : nat) : list move :=
  match n with
  | O => []
  | S n => MPoll w :: map (MSend w) (send_steps (record_size (config w))) ++ MReturn :: drain n
  end.

Lemma send_moves (n : nat) (s' : ipc) (x : sensor) :
  run_labels (config w) (send_steps n) (sender x w) = Some s' ->
  exists y, run_moves (map (MSend w) (send_steps n)) x = Some y /\
    kernel y = kernel x /\ polled y = polled x /\ in_callback y = in_callback x /\ sender y w = s'.
Proof using.
  intros Hs. unfold send_steps in *. cbn [run_labels map run_moves move_step] in *.
  destruct (step _ _ (sender x w)) as [s1|]; [|done]. cbn [sender set_ipc]. rewrite set_at_eq.
  destruct (step _ _ s1) as [s2|]; [|done]. cbn [sender set_ipc]. rewrite set_at_eq.
  destruct (step _ _ s2) as [s3|]; [|done]. injection Hs as ->.
  eexists. split; [reflexivity|]. cbn. by rewrite set_at_eq.
Qed.

(** One record is taken and sent. *)
Lemma drain_one (ev : list Z) (x : sensor) (i : nat) :
  g_sender e <> None -> ready_to_poll x i -> ring w x !! polled x w = Some (Some ev) ->
  length ev = record_size (config w) -> (0 < length ev)%nat ->
  exists y, run_moves (drain 1) x = Some y /\ ready_to_poll y i /\
    ring w y = ring w x /\ polled y w = S (polled x w) /\
    streams (sender y w) i = streams (sender x w) i ++ [Event ev (length ev)].
Proof using All.
  intros Hg [Hc Hcb] Hd Hev Hpos.
  destruct (send_whole (config w) ev (sender x w) i Hc Hev Hpos) as (s' & Hrun & Hc' & Hst).
  cbn [run_labels] in Hrun. destruct (step (config w) (LSend 0 ev) (sender x w)) as [s1|] eqn:Hs1; [|done].
  set (x1 := set_ipc w s1 (enter w x)).
  assert (sender x1 w = s1) as Hx1 by apply set_at_eq.
  rewrite <- Hx1 in Hrun. destruct (send_moves (length ev) s' x1 Hrun) as (x2 & Hx2 & Hk & Hp & Hcb2 & Hs2).
  exists (Sensor (consume w (pred (polled x2 w)) (kernel x2)) (polled x2) None (sender x2)).
  split.
  - cbn [drain run_moves move_step]. rewrite Hcb, Hd, callback_sized by done. rewrite Hs1. fold x1.
    rewrite <- Hev, run_moves_app, Hx2. change (Some x2 ≫= run_moves [MReturn]) with (run_moves [MReturn] x2).
    cbn [run_moves move_step]. rewrite Hcb2. cbn [in_callback set_ipc enter x1]. by rewrite Hs2, (cm_idle _ _ Hc').
  - unfold ready_to_poll, ring. cbn [sender in_callback kernel polled]. rewrite Hs2, Hk, Hp.
    split; [done|]. split; [exact (proj1 (consume_same w _ (kernel x)))|]. by split; [apply set_at_eq|].
Qed.

Lemma drain_all (x : sensor) (i : nat) :
  g_sender e <> None -> (0 < record_size (config w))%nat -> ready_to_poll x i ->
  Forall (fun ev => length ev = record_size (config w)) (backlog x) ->
  exists y, run_moves (drain (length (backlog x))) x = Some y /\
    ring w y = ring w x /\ polled y w = (polled x w + length (backlog x))%nat /\ backlog y = [] /\
    streams (sender y w) i =
      streams (sender x w) i ++ map (fun ev => Event ev (length ev)) (backlog x).
Proof using All.
  intros Hg Hpos. remember (backlog x) as rs eqn:Hrs. revert x Hrs.
  induction rs as [|ev rs IH]; intros x Hrs Hc Hsz.
  - exists x. rewrite app_nil_r, Nat.add_0_r. by repeat (split; [done|]).
  - apply Forall_cons in Hsz as [Hev Hsz].
    destruct (ready_cons _ _ _ (eq_sym Hrs)) as (l & Hl & Hrs').
    assert (ring w x !! polled x w = Some (Some ev)) as Hd
      by (rewrite <- (Nat.add_0_r (polled x w)), <- lookup_drop, Hl; done).
    destruct (drain_one ev x i Hg Hc Hd Hev) as (x1 & H1 & Hc1 & Hr1 & Hp1 & Hs1); [by rewrite Hev|].
    destruct (IH x1) as (y & Hy & Hr & Hp & Hb & Hs); [|done|done|].
    { unfold backlog. rewrite Hr1, Hp1. rewrite (drop_S _ _ _ Hd) in Hl. by injection Hl as ->. }
    exists y. split.
    { change (drain (length (ev :: rs))) with
        (MPoll w :: map (MSend w) (send_steps (record_size (config w))) ++ [MReturn] ++ drain (length rs)).
      rewrite app_assoc, app_comm_cons, run_moves_app. cbn [drain] in H1. by rewrite H1. }
    rewrite Hr, Hp, Hp1, Hs, Hs1, <- app_assoc. split; [done|]. split; [simpl; lia | done].
Qed.

End channel.

End sensor.

(** ** What is read off the connections *)

Section delivered.
Context {BM : BpfMaps} {RB : BpfRingbuf} `{!BpfMapsLaws, !BpfRingbufLaws}.
Context (find_map : string -> bool) (ld : loader) (e : engine) (token : list Z).
Context (Hg : g_sender e <> None) (Hne : token <> []) (Htk : Z.of_nat (length token) < 2 ^ 32).

Abbreviation cfg := (config token).
Abbreviation run := (run_moves find_map ld e token).

Lemma config_good (w : channel) : config_ok (cfg w).
Proof using Hne Htk. destruct w; [by apply telemetry_config_ok | apply tty_config_ok]. Qed.

(** C2: from the eBPF programs to the agent.  Programs run on any CPUs, interrupted
    between any two of their helper calls by each other and by the agent's map calls;
    the polling thread takes the records of both ring buffers in the order of their
    reservation and sends them through the engine; other threads send what they like;
    the connections are lost and remade: all in any interleaving (without a Stop).
    Then off every authenticated connection of either sender one reads its greeting
    (for telemetry, the token) and whole records, with less than one record left over;
    the records of each thread are, in order and without repetition, among those it
    sent; those of the polling thread are among the records it took from the ring
    buffer, in that order; and each of these is the record of a program that ran. *)
Theorem telemetry_delivered (ms : list move) (b : bst) (x : sensor) (w : channel) (i : nat) :
  Forall move_ok ms -> Forall (fun m => stops m = false) ms ->
  run ms (start b) = Some x -> authenticated (sender x w) i = true ->
  exists tagged rest,
    reads (cfg w) (wire (streams (sender x w) i)) = Some (auth_token (cfg w), map snd tagged, rest) /\
    (length rest < record_size (cfg w))%nat /\
    (forall t, t <> 0%nat -> of_thread t tagged `sublist_of` sends token w t ms) /\
    of_thread 0 tagged `sublist_of` taken w (start b) x /\
    Forall (explained w ms) (of_thread 0 tagged).
Proof using All.
  intros Hok Hst Hrun Ha.
  pose proof (labels_run find_map ld e token w ms _ _ Hrun) as Hls.
  destruct (agent_reads (cfg w) _ _ i (config_good w)
    (labels_no_stop find_map ld e token w ms (start b) Hst) Hls Ha) as (tagged & rest & Hr & Hrl & Hth).
  pose proof (tracked_start w b ms) as Hb.
  destruct (run_taken find_map ld e token w b ms ms _ _ Hg ltac:(done) Hok Hrun Hb) as [_ Hc].
  destruct (run_tracked find_map ld e token w b ms ms _ _ ltac:(done) Hok Hrun Hb) as [Hx _].
  exists tagged, rest. split; [done|]. split; [done|].
  pose proof (Hth 0%nat) as Hz. rewrite Hc in Hz. split; [|split; [done|]].
  - intros t Ht. rewrite <- (labels_calls find_map ld e token w t ms (start b) x Ht Hrun). apply Hth.
  - pose proof (taken_explained w b ms _ _ Hb Hx) as He. rewrite Forall_forall in He |- *.
    intros ev Hin. apply He. by eapply sublist_subseteq.
Qed.

(** A calm connection of a run without Stop carries whole records only. *)
Lemma calm_clean (ms : list move) (b : bst) (x : sensor) (w : channel) (i : nat) :
  Forall (fun m => stops m = false) ms -> run ms (start b) = Some x -> calm (sender x w) i ->
  clean (cfg w) (streams (sender x w) i).
Proof using.
  intros Hst Hrun Hc. pose proof (labels_run find_map ld e token w ms _ _ Hrun) as Hls.
  pose proof (inv_run (cfg w) _ _ _ (labels_no_stop find_map ld e token w ms (start b) Hst)
    (inv_new (cfg w)) Hls) as Hi.
  destruct (i_socket (cfg w) _ Hi (cm_open _ _ Hc)) as (j & Hf & _ & Hcl).
  - intros t. destruct (failing (senders (sender x w) t)) eqn:Hfl; [|done].
    pose proof (i_lock (cfg w) _ Hi t (failing_critical _ Hfl)) as Hl. by rewrite (cm_lock _ _ Hc) in Hl.
  - rewrite (cm_fd _ _ Hc) in Hf. by injection Hf as <-.
Qed.

Lemma omap_whole (rs : list (list Z)) :
  complete (omap chunk_event (map (fun ev => Event ev (length ev)) rs)) = rs.
Proof using.
  induction rs as [|ev rs IH]; [done|]. unfold complete in *. simpl. rewrite Nat.leb_refl. by f_equal.
Qed.

Lemma sized_whole (n : nat) (rs : list (list Z)) :
  Forall (fun ev => length ev = n) rs ->
  Forall (fun e => length (fst e) = n)
    (omap chunk_event (map (fun ev => Event ev (length ev)) rs)).
Proof using. induction 1; simpl; [constructor|]. by constructor. Qed.

(** C3: nothing is lost while the connection holds.  At any point of any run without
    Stop, let a sender be connected, its mutex free and the polling thread outside its
    callbacks.  Then the polling thread can take every record before the first busy
    place of that ring buffer - if no program is under way, every record - each
    SendEvent writing its record whole; and off the connection, where one had read the
    greeting and some records, one has then read exactly those and the records taken,
    in order, with no byte left over. *)
Theorem backlog_delivered (ms : list move) (b : bst) (x : sensor) (w : channel) (i : nat) :
  Forall move_ok ms -> Forall (fun m => stops m = false) ms ->
  run ms (start b) = Some x -> ready_to_poll w x i ->
  exists y evs,
    run (drain token w (length (backlog w x))) x = Some y /\
    ring w y = ring w x /\ backlog w y = [] /\
    (at_rest (kernel x) -> polled y w = length (ring w y)) /\
    reads (cfg w) (wire (streams (sender x w) i)) = Some (auth_token (cfg w), evs, []) /\
    reads (cfg w) (wire (streams (sender y w) i)) = Some (auth_token (cfg w), evs ++ backlog w x, []).
Proof using All.
  intros Hok Hst Hrun Hc. pose proof (config_good w) as Hcfg.
  pose proof (calm_clean ms b x w i Hst Hrun (proj1 Hc)) as Hcl.
  destruct (run_tracked find_map ld e token w b ms ms _ _ ltac:(done) Hok Hrun (tracked_start w b ms)) as [Hx _].
  assert (Forall (fun ev => length ev = record_size (cfg w)) (backlog w x)) as Hsz
    by (eapply Forall_impl; [by apply (backlog_explained w ms b)|]; intros ev; apply explained_size).
  destruct (drain_all find_map ld e token w x i Hg (co_size _ Hcfg) Hc Hsz) as (y & Hy & Hk & Hp & Hb & Hs).
  pose proof (stream_sized (cfg w) _ _ i (labels_run find_map ld e token w ms _ _ Hrun)) as Hsx.
  exists y, (complete (omap chunk_event (streams (sender x w) i))).
  split; [done|]. split; [done|]. split; [done|]. split; [intros Hrest; by eapply drained_at_rest|].
  split; [by apply clean_read|]. rewrite Hs, (clean_read (cfg w)); try done.
  - by rewrite omap_app, complete_app, omap_whole.
  - destruct Hcl as (evs & -> & Hw). exists (evs ++ map (fun ev => Event ev (length ev)) (backlog w x)).
    split; [by rewrite app_assoc|]. apply Forall_app. split; [done|]. apply Forall_map.
    apply Forall_true. intros ev. simpl. apply Nat.eqb_refl.
  - rewrite omap_app, Forall_app. split; [done | by apply sized_whole].
Qed.

End delivered.

(** ** Instances *)

(** Both connections are made; two processes listen on sockets at the same time, and the
    one that reserves first commits last; a process writes to a terminal. *)
Definition tty_connect : list label :=
  map LConn [RNone; RNone; RSocket (Some 5); RConnect true; RNone; RNone].

Definition demo_programs : list move :=
  map MKernel [Begin (demo_ctx 0 42 1) SysEnterListen; Step 0; Begin (demo_ctx 1 7 2) SysEnterListen;
               Step 1; Step 1; Step 0; Step 1; Step 1; AgentCall (OpSetConfig 0 1); Step 0; Step 0;
               Begin (demo_ctx 1 42 1) (TtyWrite demo_file 5000 6); Step 2; Step 2].

Definition demo_pending : list move :=
  map (MSend Telemetry) (LStart :: connect) ++ map (MSend Terminal) (LStart :: tty_connect) ++
  demo_programs.

(** All three records are taken, while another thread sends one of its own. *)
Definition demo_token : list Z := auth_token demo_sender.

Definition demo_moves : list move :=
  demo_pending ++ [MSend Telemetry (LSend 1 demo_event); MPoll Telemetry] ++
  map (MSend Telemetry)
    (map (fun n => LSender 1 n) [0; 0; Z.of_nat UserLayout.sizeof_TelemetryEvent] ++
     send_steps UserLayout.sizeof_TelemetryEvent) ++
  MReturn :: drain demo_token Terminal 1 ++ drain demo_token Telemetry 1.

Lemma demo_moves_ok : Forall move_ok demo_moves.
Proof. events_ok. Qed.

Lemma demo_pending_ok : Forall move_ok demo_pending.
Proof. events_ok. Qed.

Lemma telemetry_delivered_witness :
  exists x,
    run_moves all_maps attached_loader running_engine demo_token demo_moves (start loaded) = Some x /\
    length (taken Telemetry (start loaded) x) = 2%nat /\
    length (taken Terminal (start loaded) x) = 1%nat /\
    forall w, exists tagged rest,
      reads (config demo_token w) (wire (streams (sender x w) 0)) =
        Some (auth_token (config demo_token w), map snd tagged, rest) /\
      of_thread 0 tagged `sublist_of` taken w (start loaded) x.
Proof.
  assert (exists x, run_moves all_maps attached_loader running_engine demo_token
    demo_moves (start loaded) = Some x /\
    (authenticated (sender x Telemetry) 0 = true /\ authenticated (sender x Terminal) 0 = true) /\
    length (taken Telemetry (start loaded) x) = 2%nat /\ length (taken Terminal (start loaded) x) = 1%nat)
    as (x & Hx & [Ha Ha'] & Hl & Hl')
    by (eexists; split; [vm_compute; reflexivity | repeat split; vm_compute; reflexivity]).
  assert (g_sender running_engine <> None) as Hg by (vm_compute; discriminate).
  assert (Forall (fun m => stops m = false) demo_moves) as Hst by (repeat constructor).
  exists x. split; [exact Hx|]. split; [exact Hl|]. split; [exact Hl'|]. intros w.
  assert (authenticated (sender x w) 0 = true) as Haw by (destruct w; assumption).
  destruct (telemetry_delivered all_maps attached_loader running_engine demo_token Hg
    ltac:(discriminate) ltac:(reflexivity) demo_moves loaded x w 0 demo_moves_ok Hst Hx Haw)
    as (tagged & rest & Hread & _ & _ & Hsub & _).
  exists tagged, rest. split; [exact Hread | exact Hsub].
Defined.

(** All three records are committed, and none is taken. *)
Lemma backlog_delivered_witness :
  exists x y,
    run_moves all_maps attached_loader running_engine demo_token demo_pending (start loaded) = Some x /\
    length (backlog Telemetry x) = 2%nat /\
    run_moves all_maps attached_loader running_engine demo_token (drain demo_token Telemetry 2) x = Some y /\
    polled y Telemetry = length (ring Telemetry y) /\
    exists evs, agent_read UserLayout.sizeof_TelemetryEvent (wire (streams (sender y Telemetry) 0)) =
      Some (demo_token, evs ++ backlog Telemetry x, []).
Proof.
  assert (exists x, run_moves all_maps attached_loader running_engine demo_token
    demo_pending (start loaded) = Some x /\ ready_to_poll Telemetry x 0 /\
    length (backlog Telemetry x) = 2%nat /\
    forallb (fun t => match returned t with Some _ => true | None => false end) (threads (kernel x)) = true)
    as (x & Hx & Hc & Hl & Hr)
    by (eexists; split; [vm_compute; reflexivity |
        split; [split; [split; [..|discriminate]; reflexivity | reflexivity] | split; vm_compute; reflexivity]]).
  assert (g_sender running_engine <> None) as Hg by (vm_compute; discriminate).
  assert (Forall (fun m => stops m = false) demo_pending) as Hst by (repeat constructor).
  destruct (backlog_delivered all_maps attached_loader running_engine demo_token Hg
    ltac:(discriminate) ltac:(reflexivity) demo_pending loaded x Telemetry 0 demo_pending_ok Hst Hx Hc)
    as (y & evs & Hy & _ & _ & Hrest & _ & Hread).
  rewrite Hl in Hy. exists x, y. split; [exact Hx|]. split; [exact Hl|]. split; [exact Hy|].
  split; [|exists evs; exact Hread].
  apply Hrest. apply Forall_forall. intros t Ht%list_elem_of_In.
  apply (proj1 (forallb_forall _ _) Hr) in Ht. by destruct (returned t).
Defined.
