(* ===== verification/WindowsDelivery.v ===== *)
(** From ETW to the agent: what the agent reads off an accepted pipe, for every
    sequence of events and every interleaving of the sender's threads. *)

From stdpp Require Import gmap.
From S2P Require Import Streams.
From S2P Require Export FfiWindows.
From S2P Require EtwTheorems WindowsSends WindowsIpcTheorems.

Local Open Scope Z_scope.

(** ** The bytes of a pipe *)

(** On Windows the greeting is whatever the writes of the handshake put on the pipe. *)
Definition hello_bytes (cs : list chunk) : list Z :=
  concat (omap (fun c => match c with Hello bs => Some bs | Event _ _ => None end) cs).

Lemma hello_bytes_app (cs cs' : list chunk) : hello_bytes (cs ++ cs') = hello_bytes cs ++ hello_bytes cs'.
Proof. unfold hello_bytes. by rewrite omap_app, concat_app. Qed.

Lemma hello_bytes_hellos (cs : list chunk) :
  WindowsIpcTheorems.hellos cs -> hello_bytes cs = wire cs /\ omap chunk_event cs = [].
Proof.
  induction 1 as [|[bs|ev n] cs Hc Hcs [IH1 IH2]]; [done| |done]. split; [|exact IH2].
  change (bs ++ hello_bytes cs = bs ++ wire cs). by rewrite IH1.
Qed.

Lemma hello_bytes_whole (cs : list chunk) : Forall (fun c => whole c = true) cs -> hello_bytes cs = [].
Proof. induction 1 as [|[bs|ev n] cs Hc Hcs IH]; [done | done | exact IH]. Qed.

Lemma orderly_read (token : list Z) (cs : list chunk) :
  Z.of_nat (length token) < 2 ^ 32 -> WindowsIpcTheorems.orderly cs ->
  hello_bytes cs = le_enc 4 (Z.of_nat (length token)) ++ token ->
  Forall (fun e => length (fst e) = UserLayout.sizeof_TelemetryEvent) (omap chunk_event cs) ->
  exists rest,
    agent_read UserLayout.sizeof_TelemetryEvent (wire cs) =
      Some (token, complete (omap chunk_event cs), rest) /\
    (length rest < UserLayout.sizeof_TelemetryEvent)%nat.
Proof.
  intros Ht Ho.
  assert (exists hs evs last, cs = hs ++ evs ++ last /\ WindowsIpcTheorems.hellos hs /\
    Forall (fun c => whole c = true) evs /\ (last = [] \/ exists ev n, last = [Event ev n]))
    as (hs & evs & last & -> & Hh & Hw & Hlast).
  { destruct Ho as [(hs & evs & -> & Hh & Hw)|(cs' & ev & n & (hs & evs & -> & Hh & Hw) & ->)].
    - exists hs, evs, []. rewrite app_nil_r. by repeat (split; [done|]); left.
    - exists hs, evs, [Event ev n]. rewrite app_assoc. split; [done|]. split; [done|].
      split; [done|]. right. by exists ev, n. }
  destruct (hello_bytes_hellos hs Hh) as [Hb Hge].
  rewrite !hello_bytes_app, Hb, (hello_bytes_whole evs Hw).
  assert (hello_bytes last = []) as -> by (by destruct Hlast as [->|(ev & n & ->)]).
  rewrite !app_nil_r. intros Hg. by apply stream_read.
Qed.

(** What the agent reads off an accepted pipe, when the writes of the handshake, whose
    results the sender ignores, put the whole greeting on it. *)
Lemma pipe_reads (token : list Z) (ls : list WindowsIpc.label) (sp : WindowsIpc.sys) (i : nat) :
  Z.of_nat (length token) < 2 ^ 32 ->
  Forall (fun l => WindowsIpcTheorems.is_stop l = false) ls ->
  WindowsIpc.run_labels token ls WindowsIpc.new_sender = Some sp ->
  WindowsIpc.accepted (snd sp) i = true ->
  hello_bytes (WindowsIpc.streams (snd sp) i) = le_enc 4 (Z.of_nat (length token)) ++ token ->
  exists tagged rest,
    agent_read UserLayout.sizeof_TelemetryEvent (wire (WindowsIpc.streams (snd sp) i)) =
      Some (token, map snd tagged, rest) /\
    (length rest < UserLayout.sizeof_TelemetryEvent)%nat /\
    forall t, of_thread t tagged `sublist_of`
      calls_of (SM := WindowsSends.windows_machine token) t ls.
Proof.
  intros Ht Hls Hrun Ha Hg.
  pose proof (WindowsIpcTheorems.winv_run token ls _ _ Hls WindowsIpcTheorems.winv_new Hrun) as Hi.
  pose proof (WindowsIpcTheorems.p_accepted _ (WindowsIpcTheorems.i_pipes _ Hi) i Ha) as Ho.
  destruct (WindowsSends.windows_log token ls sp Hrun) as (log & Hev & Hth).
  pose proof (log_forall _ _ i log Hth
    (fun t => WindowsSends.pipe_calls_sized token ls _ sp t Hrun)) as Hsz.
  rewrite <- Hev in Hsz. unfold WindowsSends.pipe_events in Hev, Hsz.
  destruct (orderly_read token _ Ht Ho Hg Hsz) as (rest & Hr & Hrl).
  exists (omap (tag i) log), rest. split; [by rewrite tag_complete, <- Hev|]. split; [done|].
  intros t. etrans; [apply tag_thread | apply Hth].
Qed.

(** ** From ETW to the agent *)

(** What the trace thread calls SendEvent with for the events [l]. *)
Fixpoint etw_sends (os : windows) (e : engine) (seq : Z) (l : list EVENT_RECORD) : list (list Z) :=
  match l with
  | [] => []
  | event :: l => let '(seq, evs) := on_etw_event os event seq e in evs ++ etw_sends os e seq l
  end.

(** A record that reports the event. *)
Definition reports_event (ev : list Z) (event : EVENT_RECORD) : Prop :=
  exists t seq, EtwTheorems.subscribed event = Some t /\
    UserLayout.read_header ev = EtwTheorems.header_fields event t seq.

Lemma on_etw_event_reports (os : windows) (event : EVENT_RECORD) (seq : Z) (e : engine) :
  Forall (fun ev => reports_event ev event) (snd (on_etw_event os event seq e)).
Proof.
  unfold on_etw_event. cbn [snd]. destruct (g_sender e) as [snd_|]; [|constructor].
  unfold EventRecordCallback. destruct (g_etw e) as [c|]; [|constructor].
  destruct (callback_ c); [|constructor].
  destruct (decide (info_size os event = 0)) as [H0|H0].
  { unfold ProcessEvent. cbn [negb]. apply Z.eqb_eq in H0 as ->. constructor. }
  destruct (event_information os event) as [names|] eqn:Hn.
  - destruct (EtwTheorems.process_event_record os event names (Stream seq []) H0 Hn) as [_ Hev].
    destruct (EtwTheorems.subscribed event) as [t|] eqn:Ht; [|rewrite Hev; constructor].
    destruct Hev as (out & -> & _ & Hh & _). constructor; [|constructor]. by exists t, (wrap 32 (seq + 1)).
  - unfold ProcessEvent. cbn [negb]. apply Z.eqb_neq in H0. rewrite H0, Hn. constructor.
Qed.

Lemma etw_sends_report (os : windows) (e : engine) (seq : Z) (l : list EVENT_RECORD) :
  Forall (fun ev => exists event, event ∈ l /\ reports_event ev event) (etw_sends os e seq l).
Proof.
  revert seq. induction l as [|event l IH]; intros seq; [constructor|]. cbn [etw_sends].
  pose proof (on_etw_event_reports os event seq e) as He.
  destruct (on_etw_event os event seq e) as [seq' evs]. apply Forall_app. split.
  - eapply Forall_impl; [exact He|]. intros ev Hev. exists event. split; [by left | done].
  - eapply Forall_impl; [apply IH|]. intros ev (event' & Hin & Hr). exists event'.
    split; [by right | done].
Qed.

(** C14: from ETW to the agent.  The trace thread (thread 0) passes the records made
    of any events [l] to SendEvent, while other threads send what they like and the
    pipe is lost and reopened in any interleaving without a Stop.  Then on every
    accepted pipe whose handshake was written whole, the agent reads the token and
    whole records; the records of each thread are, in order and without
    repetition, among those it sent; and each record of thread 0 reports one of the
    events: its type, process and time. *)
Theorem windows_telemetry_delivered (os : windows) (l : list EVENT_RECORD) (e : engine) (seq : Z)
    (token : list Z) (ls : list WindowsIpc.label) (sp : WindowsIpc.sys) (i : nat) :
  Z.of_nat (length token) < 2 ^ 32 ->
  Forall (fun l => WindowsIpcTheorems.is_stop l = false) ls ->
  WindowsIpc.run_labels token ls WindowsIpc.new_sender = Some sp ->
  calls_of (SM := WindowsSends.windows_machine token) 0 ls `prefix_of` etw_sends os e seq l ->
  WindowsIpc.accepted (snd sp) i = true ->
  hello_bytes (WindowsIpc.streams (snd sp) i) = le_enc 4 (Z.of_nat (length token)) ++ token ->
  exists tagged rest,
    agent_read UserLayout.sizeof_TelemetryEvent (wire (WindowsIpc.streams (snd sp) i)) =
      Some (token, map snd tagged, rest) /\
    (length rest < UserLayout.sizeof_TelemetryEvent)%nat /\
    (forall t, of_thread t tagged `sublist_of`
       calls_of (SM := WindowsSends.windows_machine token) t ls) /\
    Forall (fun ev => exists event, event ∈ l /\ reports_event ev event) (of_thread 0 tagged).
Proof.
  intros Ht Hls Hrun Hcalls Ha Hg.
  destruct (pipe_reads token ls sp i Ht Hls Hrun Ha Hg) as (tagged & rest & Hr & Hrl & Hth).
  exists tagged, rest. repeat (split; [done|]).
  pose proof (etw_sends_report os e seq l) as Hall. rewrite Forall_forall in Hall |- *.
  intros ev Hin. apply Hall. destruct Hcalls as [k ->]. apply elem_of_app. left.
  eapply (sublist_subseteq _ _ (Hth 0%nat)). exact Hin.
Qed.

(** ** An instance *)

(** A running engine, one process creation, and its record on the pipe. *)
Definition demo_running : engine := run_engine demo_win32 demo_started new_engine.

Definition demo_etw_sends : list (list Z) :=
  etw_sends EtwTheorems.demo_windows demo_running 0 [EtwTheorems.demo_event].

Definition demo_pipe_run : list WindowsIpc.label :=
  WindowsIpc.LStart :: WindowsIpcTheorems.demo_connect 8 ++ map (WindowsIpc.LSend 0) demo_etw_sends ++
  map (WindowsIpc.LSender 0) [None; None; Some (Z.of_nat UserLayout.sizeof_TelemetryEvent)].

Lemma windows_telemetry_delivered_witness :
  length demo_etw_sends = 1%nat /\
  exists sp tagged rest,
    WindowsIpc.run_labels [1; 2] demo_pipe_run WindowsIpc.new_sender = Some sp /\
    agent_read UserLayout.sizeof_TelemetryEvent (wire (WindowsIpc.streams (snd sp) 0)) =
      Some ([1; 2], map snd tagged, rest) /\
    Forall (fun ev => exists event, event ∈ [EtwTheorems.demo_event] /\ reports_event ev event)
      (of_thread 0 tagged).
Proof.
  split; [vm_compute; reflexivity|].
  assert (exists sp, WindowsIpc.run_labels [1; 2] demo_pipe_run WindowsIpc.new_sender = Some sp /\
    WindowsIpc.accepted (snd sp) 0 = true /\
    hello_bytes (WindowsIpc.streams (snd sp) 0) = le_enc 4 (Z.of_nat (length [1; 2])) ++ [1; 2])
    as (sp & Hs & Ha & Hg) by (eexists; split; [vm_compute; reflexivity | split; vm_compute; reflexivity]).
  assert (calls_of (SM := WindowsSends.windows_machine [1; 2]) 0 demo_pipe_run `prefix_of` demo_etw_sends) as Hc
    by (exists []; vm_compute; reflexivity).
  assert (Forall (fun l => WindowsIpcTheorems.is_stop l = false) demo_pipe_run) as Hls
    by (repeat constructor).
  destruct (windows_telemetry_delivered EtwTheorems.demo_windows [EtwTheorems.demo_event] demo_running 0
    [1; 2] demo_pipe_run sp 0 ltac:(reflexivity) Hls Hs Hc Ha Hg) as (tagged & rest & Hr & _ & _ & Hall).
  exists sp, tagged, rest. split; [exact Hs|]. split; [exact Hr | exact Hall].
Defined.
